(** * The Infinite Noise Multiplier health check (software/healthcheck.c)

    A shallow embedding of the online entropy estimator of the infnoise
    driver, and the properties of it that its specification relies on.

    The C file keeps its state in file-scope variables; here they are the
    fields of one record, threaded through every function.  Unsigned C
    integers are [Z] with the wrap-around written at each increment, the
    [double]s are IEEE 754 binary64 values ([spec_float] at precision 53,
    [emax] 1024, round to nearest even), and the four calloc'ed tables are
    lists indexed from 0. *)

From Stdlib Require Import ZArith QArith Lia Bool.
From Stdlib Require Import Floats.SpecFloat.
From stdpp Require Import base list.

Local Close Scope Q_scope.

Local Open Scope Z_scope.

(** ** Machine integers *)

Definition u32 (z : Z) : Z := z mod 2 ^ 32.
Definition u64 (z : Z) : Z := z mod 2 ^ 64.

(** ** Binary64 arithmetic *)

Module B64.

Definition prec : Z := 53.
Definition emax : Z := 1024.

Definition double := spec_float.

Definition mul : double -> double -> double := SFmul prec emax.
Definition div : double -> double -> double := SFdiv prec emax.
Definition leb : double -> double -> bool := SFleb.
Definition ltb : double -> double -> bool := SFltb.

(** [x >= y] in C is [y <= x]; both are false on a NaN. *)
Definition geb (x y : double) : bool := SFleb y x.

(** The conversion [(double)n] of an unsigned integer. *)
Definition of_uint (n : Z) : double := binary_normalize prec emax n 0 false.

Definition one : double := S754_finite false 4503599627370496 (-52).
Definition half : double := S754_finite false 4503599627370496 (-53).
Definition two : double := S754_finite false 4503599627370496 (-51).

Definition add : double -> double -> double := SFadd prec emax.
Definition sub : double -> double -> double := SFsub prec emax.

(** The exact value of a finite double (0 for the others). *)
Definition to_Q (x : double) : Q :=
  match x with
  | S754_finite s m e =>
      Qmult (inject_Z (if s then Z.neg m else Z.pos m)) (Qpower (inject_Z 2) e)
  | _ => inject_Z 0
  end.

(** The doubling [x *= 2.0] of the loop. *)
Definition twice (x : double) : double := mul x two.

(** Neither a NaN nor an infinity. *)
Definition is_finite (x : double) : bool :=
  match x with S754_zero _ | S754_finite _ _ _ => true | _ => false end.

(** A double in the interval (0.5, 1]. *)
Definition in_half_one (x : double) : Prop :=
  ltb half x = true /\ leb x one = true.

(** A positive normal double of value at most 1, with exponent at least
    [lo]: the mantissa has 53 bits, and at exponent -52 it is 2^52. *)
Definition unit_le (lo : Z) (x : double) : Prop :=
  exists m e, x = S754_finite false m e /\ 2 ^ 52 <= Z.pos m < 2 ^ 53
              /\ lo <= e <= -52 /\ (e = -52 -> Z.pos m = 2 ^ 52).

(** The normal doubles of (0.5, 1]: exponent -53 and a mantissa above
    2^52, or 1.0 itself. *)
Definition above_half (x : double) : Prop :=
  exists m e, x = S754_finite false m e /\ 2 ^ 52 <= Z.pos m < 2 ^ 53
              /\ ((e = -53 /\ 2 ^ 52 < Z.pos m) \/ (e = -52 /\ Z.pos m = 2 ^ 52)).

End B64.

Abbreviation double := B64.double.

(** Stand-ins for the two libm functions, good to about ten digits on the
    arguments used here.  The engine takes [log] and [pow] as parameters;
    these are used to run it. *)
Module Libm.

(** sum of y^(2i+1)/(2i+1), [n] terms from the one of denominator [k]. *)
Fixpoint atanh_series (n : nat) (y y2 : double) (k : Z) : double :=
  match n with
  | O => S754_zero false
  | S n' => B64.add (B64.div y (B64.of_uint k)) (atanh_series n' (B64.mul y y2) y2 (k + 2))
  end.

Definition log (x : double) : double :=
  let y := B64.div (B64.sub x B64.one) (B64.add x B64.one) in
  B64.mul B64.two (atanh_series 14 y (B64.mul y y) 1).

Fixpoint exp_series (n : nat) (x term : double) (k : Z) : double :=
  match n with
  | O => S754_zero false
  | S n' => B64.add term (exp_series n' x (B64.div (B64.mul term x) (B64.of_uint k)) (k + 1))
  end.

Definition exp (x : double) : double := exp_series 30 x B64.one 1.

Definition pow (b y : double) : double := exp (B64.mul y (log b)).

End Libm.

(** ** Constants of the C file *)

Definition INM_MIN_DATA : Z := 80000.
Definition INM_MIN_SAMPLE_SIZE : Z := 100.
(** The literal 1.02, i.e. the binary64 value 0x1.051eb851eb852p+0. *)
Definition INM_ACCURACY : double := S754_finite false 4593671619917906 (-52).
Definition INM_MAX_SEQUENCE : Z := 20.
Definition INM_MAX_COUNT : Z := Z.shiftl 1 14.
Definition INM_MAX_ENTROPY : Z := 1600.

(** ** Outcomes of a call

    [inmHealthCheckAddBit] either returns, or ends the process through
    [exit(1)].  The two other outcomes are the ones C leaves to the
    programmer: a table access through a pointer with no block behind it
    or past its end, and a [while] loop that never ends. *)

Inductive outcome (A : Type) : Type :=
| Normal (a : A)
| Exited (code : Z)
| Undefined
| Diverges.

Arguments Normal {A} a.
Arguments Exited {A} code.
Arguments Undefined {A}.
Arguments Diverges {A}.

#[global] Instance outcome_ret : MRet outcome := fun A a => Normal a.

#[global] Instance outcome_bind : MBind outcome := fun A B k m =>
  match m with
  | Normal a => k a
  | Exited c => Exited c
  | Undefined => Undefined
  | Diverges => Diverges
  end.

(** ** The state

    A table pointer is NULL, or points to a live block of cells, or dangles:
    it still holds the address of a block that was passed to [free]. *)

Inductive table : Type :=
| Null
| Block (cells : list Z)
| Freed.

Record state : Type := mkState {
  inmN : Z;
  inmPrevBits : Z;
  inmNumBitsSampled : Z;
  inmOnesEven : table;
  inmZerosEven : table;
  inmOnesOdd : table;
  inmZerosOdd : table;
  inmK : double;
  inmExpectedEntropyPerBit : double;
  inmNumBitsOfEntropy : Z;
  inmCurrentProbability : double;
  inmTotalBits : Z;
  inmPrevBit : bool;
  inmEntropyLevel : Z;
  inmNumSequentialZeros : Z;
  inmNumSequentialOnes : Z;
  inmTotalOnes : Z;
  inmTotalZeros : Z;
  inmEvenMisfires : Z;
  inmOddMisfires : Z;
  inmPrevEven : bool;
  inmPrevOdd : bool;
  inmDebug : bool
}.

(** The state of a freshly loaded program: every static is zero. *)
Definition initial_state : state :=
  mkState 0 0 0 Null Null Null Null (S754_zero false) (S754_zero false)
          0 (S754_zero false) 0 false 0 0 0 0 0 0 0 false false false.

(** Assignments to one variable. *)

Definition set_N v s := mkState v (inmPrevBits s) (inmNumBitsSampled s) (inmOnesEven s) (inmZerosEven s) (inmOnesOdd s) (inmZerosOdd s) (inmK s) (inmExpectedEntropyPerBit s) (inmNumBitsOfEntropy s) (inmCurrentProbability s) (inmTotalBits s) (inmPrevBit s) (inmEntropyLevel s) (inmNumSequentialZeros s) (inmNumSequentialOnes s) (inmTotalOnes s) (inmTotalZeros s) (inmEvenMisfires s) (inmOddMisfires s) (inmPrevEven s) (inmPrevOdd s) (inmDebug s).
Definition set_PrevBits v s := mkState (inmN s) v (inmNumBitsSampled s) (inmOnesEven s) (inmZerosEven s) (inmOnesOdd s) (inmZerosOdd s) (inmK s) (inmExpectedEntropyPerBit s) (inmNumBitsOfEntropy s) (inmCurrentProbability s) (inmTotalBits s) (inmPrevBit s) (inmEntropyLevel s) (inmNumSequentialZeros s) (inmNumSequentialOnes s) (inmTotalOnes s) (inmTotalZeros s) (inmEvenMisfires s) (inmOddMisfires s) (inmPrevEven s) (inmPrevOdd s) (inmDebug s).
Definition set_NumBitsSampled v s := mkState (inmN s) (inmPrevBits s) v (inmOnesEven s) (inmZerosEven s) (inmOnesOdd s) (inmZerosOdd s) (inmK s) (inmExpectedEntropyPerBit s) (inmNumBitsOfEntropy s) (inmCurrentProbability s) (inmTotalBits s) (inmPrevBit s) (inmEntropyLevel s) (inmNumSequentialZeros s) (inmNumSequentialOnes s) (inmTotalOnes s) (inmTotalZeros s) (inmEvenMisfires s) (inmOddMisfires s) (inmPrevEven s) (inmPrevOdd s) (inmDebug s).
Definition set_OnesEven v s := mkState (inmN s) (inmPrevBits s) (inmNumBitsSampled s) v (inmZerosEven s) (inmOnesOdd s) (inmZerosOdd s) (inmK s) (inmExpectedEntropyPerBit s) (inmNumBitsOfEntropy s) (inmCurrentProbability s) (inmTotalBits s) (inmPrevBit s) (inmEntropyLevel s) (inmNumSequentialZeros s) (inmNumSequentialOnes s) (inmTotalOnes s) (inmTotalZeros s) (inmEvenMisfires s) (inmOddMisfires s) (inmPrevEven s) (inmPrevOdd s) (inmDebug s).
Definition set_ZerosEven v s := mkState (inmN s) (inmPrevBits s) (inmNumBitsSampled s) (inmOnesEven s) v (inmOnesOdd s) (inmZerosOdd s) (inmK s) (inmExpectedEntropyPerBit s) (inmNumBitsOfEntropy s) (inmCurrentProbability s) (inmTotalBits s) (inmPrevBit s) (inmEntropyLevel s) (inmNumSequentialZeros s) (inmNumSequentialOnes s) (inmTotalOnes s) (inmTotalZeros s) (inmEvenMisfires s) (inmOddMisfires s) (inmPrevEven s) (inmPrevOdd s) (inmDebug s).
Definition set_OnesOdd v s := mkState (inmN s) (inmPrevBits s) (inmNumBitsSampled s) (inmOnesEven s) (inmZerosEven s) v (inmZerosOdd s) (inmK s) (inmExpectedEntropyPerBit s) (inmNumBitsOfEntropy s) (inmCurrentProbability s) (inmTotalBits s) (inmPrevBit s) (inmEntropyLevel s) (inmNumSequentialZeros s) (inmNumSequentialOnes s) (inmTotalOnes s) (inmTotalZeros s) (inmEvenMisfires s) (inmOddMisfires s) (inmPrevEven s) (inmPrevOdd s) (inmDebug s).
Definition set_ZerosOdd v s := mkState (inmN s) (inmPrevBits s) (inmNumBitsSampled s) (inmOnesEven s) (inmZerosEven s) (inmOnesOdd s) v (inmK s) (inmExpectedEntropyPerBit s) (inmNumBitsOfEntropy s) (inmCurrentProbability s) (inmTotalBits s) (inmPrevBit s) (inmEntropyLevel s) (inmNumSequentialZeros s) (inmNumSequentialOnes s) (inmTotalOnes s) (inmTotalZeros s) (inmEvenMisfires s) (inmOddMisfires s) (inmPrevEven s) (inmPrevOdd s) (inmDebug s).
Definition set_K v s := mkState (inmN s) (inmPrevBits s) (inmNumBitsSampled s) (inmOnesEven s) (inmZerosEven s) (inmOnesOdd s) (inmZerosOdd s) v (inmExpectedEntropyPerBit s) (inmNumBitsOfEntropy s) (inmCurrentProbability s) (inmTotalBits s) (inmPrevBit s) (inmEntropyLevel s) (inmNumSequentialZeros s) (inmNumSequentialOnes s) (inmTotalOnes s) (inmTotalZeros s) (inmEvenMisfires s) (inmOddMisfires s) (inmPrevEven s) (inmPrevOdd s) (inmDebug s).
Definition set_ExpectedEntropyPerBit v s := mkState (inmN s) (inmPrevBits s) (inmNumBitsSampled s) (inmOnesEven s) (inmZerosEven s) (inmOnesOdd s) (inmZerosOdd s) (inmK s) v (inmNumBitsOfEntropy s) (inmCurrentProbability s) (inmTotalBits s) (inmPrevBit s) (inmEntropyLevel s) (inmNumSequentialZeros s) (inmNumSequentialOnes s) (inmTotalOnes s) (inmTotalZeros s) (inmEvenMisfires s) (inmOddMisfires s) (inmPrevEven s) (inmPrevOdd s) (inmDebug s).
Definition set_NumBitsOfEntropy v s := mkState (inmN s) (inmPrevBits s) (inmNumBitsSampled s) (inmOnesEven s) (inmZerosEven s) (inmOnesOdd s) (inmZerosOdd s) (inmK s) (inmExpectedEntropyPerBit s) v (inmCurrentProbability s) (inmTotalBits s) (inmPrevBit s) (inmEntropyLevel s) (inmNumSequentialZeros s) (inmNumSequentialOnes s) (inmTotalOnes s) (inmTotalZeros s) (inmEvenMisfires s) (inmOddMisfires s) (inmPrevEven s) (inmPrevOdd s) (inmDebug s).
Definition set_CurrentProbability v s := mkState (inmN s) (inmPrevBits s) (inmNumBitsSampled s) (inmOnesEven s) (inmZerosEven s) (inmOnesOdd s) (inmZerosOdd s) (inmK s) (inmExpectedEntropyPerBit s) (inmNumBitsOfEntropy s) v (inmTotalBits s) (inmPrevBit s) (inmEntropyLevel s) (inmNumSequentialZeros s) (inmNumSequentialOnes s) (inmTotalOnes s) (inmTotalZeros s) (inmEvenMisfires s) (inmOddMisfires s) (inmPrevEven s) (inmPrevOdd s) (inmDebug s).
Definition set_TotalBits v s := mkState (inmN s) (inmPrevBits s) (inmNumBitsSampled s) (inmOnesEven s) (inmZerosEven s) (inmOnesOdd s) (inmZerosOdd s) (inmK s) (inmExpectedEntropyPerBit s) (inmNumBitsOfEntropy s) (inmCurrentProbability s) v (inmPrevBit s) (inmEntropyLevel s) (inmNumSequentialZeros s) (inmNumSequentialOnes s) (inmTotalOnes s) (inmTotalZeros s) (inmEvenMisfires s) (inmOddMisfires s) (inmPrevEven s) (inmPrevOdd s) (inmDebug s).
Definition set_PrevBit v s := mkState (inmN s) (inmPrevBits s) (inmNumBitsSampled s) (inmOnesEven s) (inmZerosEven s) (inmOnesOdd s) (inmZerosOdd s) (inmK s) (inmExpectedEntropyPerBit s) (inmNumBitsOfEntropy s) (inmCurrentProbability s) (inmTotalBits s) v (inmEntropyLevel s) (inmNumSequentialZeros s) (inmNumSequentialOnes s) (inmTotalOnes s) (inmTotalZeros s) (inmEvenMisfires s) (inmOddMisfires s) (inmPrevEven s) (inmPrevOdd s) (inmDebug s).
Definition set_EntropyLevel v s := mkState (inmN s) (inmPrevBits s) (inmNumBitsSampled s) (inmOnesEven s) (inmZerosEven s) (inmOnesOdd s) (inmZerosOdd s) (inmK s) (inmExpectedEntropyPerBit s) (inmNumBitsOfEntropy s) (inmCurrentProbability s) (inmTotalBits s) (inmPrevBit s) v (inmNumSequentialZeros s) (inmNumSequentialOnes s) (inmTotalOnes s) (inmTotalZeros s) (inmEvenMisfires s) (inmOddMisfires s) (inmPrevEven s) (inmPrevOdd s) (inmDebug s).
Definition set_NumSequentialZeros v s := mkState (inmN s) (inmPrevBits s) (inmNumBitsSampled s) (inmOnesEven s) (inmZerosEven s) (inmOnesOdd s) (inmZerosOdd s) (inmK s) (inmExpectedEntropyPerBit s) (inmNumBitsOfEntropy s) (inmCurrentProbability s) (inmTotalBits s) (inmPrevBit s) (inmEntropyLevel s) v (inmNumSequentialOnes s) (inmTotalOnes s) (inmTotalZeros s) (inmEvenMisfires s) (inmOddMisfires s) (inmPrevEven s) (inmPrevOdd s) (inmDebug s).
Definition set_NumSequentialOnes v s := mkState (inmN s) (inmPrevBits s) (inmNumBitsSampled s) (inmOnesEven s) (inmZerosEven s) (inmOnesOdd s) (inmZerosOdd s) (inmK s) (inmExpectedEntropyPerBit s) (inmNumBitsOfEntropy s) (inmCurrentProbability s) (inmTotalBits s) (inmPrevBit s) (inmEntropyLevel s) (inmNumSequentialZeros s) v (inmTotalOnes s) (inmTotalZeros s) (inmEvenMisfires s) (inmOddMisfires s) (inmPrevEven s) (inmPrevOdd s) (inmDebug s).
Definition set_TotalOnes v s := mkState (inmN s) (inmPrevBits s) (inmNumBitsSampled s) (inmOnesEven s) (inmZerosEven s) (inmOnesOdd s) (inmZerosOdd s) (inmK s) (inmExpectedEntropyPerBit s) (inmNumBitsOfEntropy s) (inmCurrentProbability s) (inmTotalBits s) (inmPrevBit s) (inmEntropyLevel s) (inmNumSequentialZeros s) (inmNumSequentialOnes s) v (inmTotalZeros s) (inmEvenMisfires s) (inmOddMisfires s) (inmPrevEven s) (inmPrevOdd s) (inmDebug s).
Definition set_TotalZeros v s := mkState (inmN s) (inmPrevBits s) (inmNumBitsSampled s) (inmOnesEven s) (inmZerosEven s) (inmOnesOdd s) (inmZerosOdd s) (inmK s) (inmExpectedEntropyPerBit s) (inmNumBitsOfEntropy s) (inmCurrentProbability s) (inmTotalBits s) (inmPrevBit s) (inmEntropyLevel s) (inmNumSequentialZeros s) (inmNumSequentialOnes s) (inmTotalOnes s) v (inmEvenMisfires s) (inmOddMisfires s) (inmPrevEven s) (inmPrevOdd s) (inmDebug s).
Definition set_EvenMisfires v s := mkState (inmN s) (inmPrevBits s) (inmNumBitsSampled s) (inmOnesEven s) (inmZerosEven s) (inmOnesOdd s) (inmZerosOdd s) (inmK s) (inmExpectedEntropyPerBit s) (inmNumBitsOfEntropy s) (inmCurrentProbability s) (inmTotalBits s) (inmPrevBit s) (inmEntropyLevel s) (inmNumSequentialZeros s) (inmNumSequentialOnes s) (inmTotalOnes s) (inmTotalZeros s) v (inmOddMisfires s) (inmPrevEven s) (inmPrevOdd s) (inmDebug s).
Definition set_OddMisfires v s := mkState (inmN s) (inmPrevBits s) (inmNumBitsSampled s) (inmOnesEven s) (inmZerosEven s) (inmOnesOdd s) (inmZerosOdd s) (inmK s) (inmExpectedEntropyPerBit s) (inmNumBitsOfEntropy s) (inmCurrentProbability s) (inmTotalBits s) (inmPrevBit s) (inmEntropyLevel s) (inmNumSequentialZeros s) (inmNumSequentialOnes s) (inmTotalOnes s) (inmTotalZeros s) (inmEvenMisfires s) v (inmPrevEven s) (inmPrevOdd s) (inmDebug s).
Definition set_PrevEven v s := mkState (inmN s) (inmPrevBits s) (inmNumBitsSampled s) (inmOnesEven s) (inmZerosEven s) (inmOnesOdd s) (inmZerosOdd s) (inmK s) (inmExpectedEntropyPerBit s) (inmNumBitsOfEntropy s) (inmCurrentProbability s) (inmTotalBits s) (inmPrevBit s) (inmEntropyLevel s) (inmNumSequentialZeros s) (inmNumSequentialOnes s) (inmTotalOnes s) (inmTotalZeros s) (inmEvenMisfires s) (inmOddMisfires s) v (inmPrevOdd s) (inmDebug s).
Definition set_PrevOdd v s := mkState (inmN s) (inmPrevBits s) (inmNumBitsSampled s) (inmOnesEven s) (inmZerosEven s) (inmOnesOdd s) (inmZerosOdd s) (inmK s) (inmExpectedEntropyPerBit s) (inmNumBitsOfEntropy s) (inmCurrentProbability s) (inmTotalBits s) (inmPrevBit s) (inmEntropyLevel s) (inmNumSequentialZeros s) (inmNumSequentialOnes s) (inmTotalOnes s) (inmTotalZeros s) (inmEvenMisfires s) (inmOddMisfires s) (inmPrevEven s) v (inmDebug s).
Definition set_Debug v s := mkState (inmN s) (inmPrevBits s) (inmNumBitsSampled s) (inmOnesEven s) (inmZerosEven s) (inmOnesOdd s) (inmZerosOdd s) (inmK s) (inmExpectedEntropyPerBit s) (inmNumBitsOfEntropy s) (inmCurrentProbability s) (inmTotalBits s) (inmPrevBit s) (inmEntropyLevel s) (inmNumSequentialZeros s) (inmNumSequentialOnes s) (inmTotalOnes s) (inmTotalZeros s) (inmEvenMisfires s) (inmOddMisfires s) (inmPrevEven s) (inmPrevOdd s) v.

(** ** Table accesses

    Reading or writing through a pointer that is NULL or dangling, or past
    the end of the block, is undefined. *)

Definition tbl_get (t : table) (i : Z) : outcome Z :=
  match t with
  | Block cells =>
      match cells !! Z.to_nat i with
      | Some c => Normal c
      | None => Undefined
      end
  | Null | Freed => Undefined
  end.

Definition tbl_set (t : table) (i : Z) (v : Z) : outcome table :=
  match t with
  | Block cells =>
      if decide (Z.to_nat i < length cells)%nat
      then Normal (Block (<[Z.to_nat i := v]> cells))
      else Undefined
  | Null | Freed => Undefined
  end.

(** [calloc(n, sizeof(uint32_t))]: a block of [n] zero cells, or NULL when
    the request is not granted. *)
Definition calloc (granted : bool) (n : Z) : table :=
  if granted then Block (replicate (Z.to_nat n) 0) else Null.

(** Whether a pointer has a live block behind it. *)
Definition live (t : table) : bool :=
  match t with Block _ => true | Null | Freed => false end.

(** [if (p != NULL) free(p)]: nothing is done for a null pointer; a live
    block is freed and the pointer, which is not reset, is left dangling;
    freeing through a dangling pointer is undefined. *)
Definition free_unless_null (t : table) : outcome table :=
  match t with
  | Null => Normal Null
  | Block _ => Normal Freed
  | Freed => Undefined
  end.

Definition tbl_incr (t : table) (i : Z) : outcome table :=
  c ← tbl_get t i; tbl_set t i (u32 (c + 1)).

Definition tbl_halve (t : table) (i : Z) : outcome table :=
  c ← tbl_get t i; tbl_set t i (Z.shiftr c 1).

(** ** The functions of healthcheck.c *)

(** One call of [inmHealthCheckAddBit]: the two raw lane bits and the lane
    this call is for. *)
Record call : Type := mkCall { evenBit : bool; oddBit : bool; even : bool }.

(** The bit a call ingests: the one of its current lane. *)
Definition call_bit (c : call) : bool := if even c then evenBit c else oddBit c.

(** Upper bound on the number of doublings that bring a positive double
    above 0.5: the smallest one, 2^-1074, takes 1074 of them. *)
Definition emit_fuel : nat := 1100.

Section Engine.

(** The two libm functions the file calls. *)
Variable log : double -> double.
Variable pow : double -> double -> double.

Definition inmHealthCheckStop (st : state) : outcome state :=
  oe ← free_unless_null (inmOnesEven st);
  let st := set_OnesEven oe st in
  ze ← free_unless_null (inmZerosEven st);
  let st := set_ZerosEven ze st in
  oo ← free_unless_null (inmOnesOdd st);
  let st := set_OnesOdd oo st in
  zo ← free_unless_null (inmZerosOdd st);
  Normal (set_ZerosOdd zo st).

Definition resetStats (st : state) : state :=
  let st := set_NumBitsSampled 0 st in
  let st := set_CurrentProbability B64.one st in
  let st := set_NumBitsOfEntropy 0 st in
  let st := set_EntropyLevel 0 st in
  let st := set_TotalOnes 0 st in
  let st := set_TotalZeros 0 st in
  let st := set_EvenMisfires 0 st in
  set_OddMisfires 0 st.

Definition tables_allocated (st : state) : bool :=
  match inmOnesEven st, inmZerosEven st, inmOnesOdd st, inmZerosOdd st with
  | Block _, Block _, Block _, Block _ => true
  | _, _, _, _ => false
  end.

(** [granted k] tells whether the [k]-th [calloc] of the call succeeds. *)
Definition inmHealthCheckStart (N : Z) (K : double) (debug : bool)
    (granted : nat -> bool) (st : state) : outcome (bool * state) :=
  if (N <? 1) || (30 <? N) then Normal (false, st)
  else
    let st := set_Debug debug st in
    let st := set_NumBitsOfEntropy 0 st in
    let st := set_CurrentProbability B64.one st in
    let st := set_K K st in
    let st := set_N N st in
    let st := set_PrevBits 0 st in
    let st := set_OnesEven (calloc (granted 0%nat) (u32 (Z.shiftl 1 N))) st in
    let st := set_ZerosEven (calloc (granted 1%nat) (u32 (Z.shiftl 1 N))) st in
    let st := set_OnesOdd (calloc (granted 2%nat) (u32 (Z.shiftl 1 N))) st in
    let st := set_ZerosOdd (calloc (granted 3%nat) (u32 (Z.shiftl 1 N))) st in
    let st := set_ExpectedEntropyPerBit (B64.div (log K) (log B64.two)) st in
    let st := set_TotalBits 0 st in
    let st := set_PrevBit false st in
    let st := set_NumSequentialZeros 0 st in
    let st := set_NumSequentialOnes 0 st in
    let st := resetStats st in
    if tables_allocated st then Normal (true, st)
    else st ← inmHealthCheckStop st; Normal (false, st).

(** [scaleStats]: the loop body at index [i], then the loop itself, run
    for the [1 << inmN] values of [i]. *)
Definition scaleStats_at (i : Z) (st : state) : outcome state :=
  ze ← tbl_halve (inmZerosEven st) i;
  let st := set_ZerosEven ze st in
  oe ← tbl_halve (inmOnesEven st) i;
  let st := set_OnesEven oe st in
  zo ← tbl_halve (inmZerosOdd st) i;
  let st := set_ZerosOdd zo st in
  oo ← tbl_halve (inmOnesOdd st) i;
  Normal (set_OnesOdd oo st).

Fixpoint scaleStats_loop (n : nat) (i : Z) (st : state) : outcome state :=
  match n with
  | O => Normal st
  | S n' => st' ← scaleStats_at i st; scaleStats_loop n' (u32 (i + 1)) st'
  end.

Definition scaleStats (st : state) : outcome state :=
  scaleStats_loop (Z.to_nat (Z.shiftl 1 (inmN st))) 0 st.

Definition scaleEntropy (st : state) : state :=
  if inmNumBitsSampled st =? INM_MIN_DATA then
    let st := set_NumBitsOfEntropy (Z.shiftr (inmNumBitsOfEntropy st) 1) st in
    let st := set_NumBitsSampled (Z.shiftr (inmNumBitsSampled st) 1) st in
    let st := set_EvenMisfires (Z.shiftr (inmEvenMisfires st) 1) st in
    set_OddMisfires (Z.shiftr (inmOddMisfires st) 1) st
  else st.

Definition scaleZeroOneCounts (st : state) : state :=
  let maxVal :=
    if inmTotalOnes st <=? inmTotalZeros st then inmTotalZeros st else inmTotalOnes st in
  if maxVal =? INM_MIN_DATA then
    let st := set_TotalZeros (Z.shiftr (inmTotalZeros st) 1) st in
    set_TotalOnes (Z.shiftr (inmTotalOnes st) 1) st
  else st.

Definition inmHealthCheckEstimateEntropyPerBit (st : state) : double :=
  B64.div (B64.of_uint (inmNumBitsOfEntropy st)) (B64.of_uint (inmNumBitsSampled st)).

Definition inmHealthCheckEstimateK (st : state) : double :=
  let entropyPerBit :=
    B64.div (B64.of_uint (inmNumBitsOfEntropy st)) (B64.of_uint (inmNumBitsSampled st)) in
  pow B64.two entropyPerBit.

Definition inmHealthCheckOkToUseData (st : state) : bool :=
  let entropy := inmHealthCheckEstimateEntropyPerBit st in
  (INM_MIN_DATA <=? inmTotalBits st)
  && B64.geb (B64.mul entropy INM_ACCURACY) (inmExpectedEntropyPerBit st)
  && B64.leb (B64.div entropy INM_ACCURACY) (inmExpectedEntropyPerBit st).

Definition inmGetEntropyLevel (st : state) : Z := inmEntropyLevel st.

Definition inmClearEntropyLevel (st : state) : state := set_EntropyLevel 0 st.

(** *** [inmHealthCheckAddBit], step by step *)

(** Lane bookkeeping and the total bit count. *)
Definition note_lanes (c : call) (st : state) : state :=
  let st :=
    if even c then
      if negb (eqb (evenBit c) (inmPrevEven st))
      then set_EvenMisfires (u32 (inmEvenMisfires st + 1)) st else st
    else
      if negb (eqb (oddBit c) (inmPrevOdd st))
      then set_OddMisfires (u32 (inmOddMisfires st + 1)) st else st in
  let st := set_PrevEven (evenBit c) st in
  let st := set_PrevOdd (oddBit c) st in
  set_TotalBits (u64 (inmTotalBits st + 1)) st.

(** The previous bit is shifted into the window; the current bit becomes
    the previous one.  (The periodic report to stderr that sits before
    this in the C file reads the state and writes none of it.) *)
Definition shift_window (bit : bool) (st : state) : state :=
  let w := Z.land (u32 (Z.shiftl (inmPrevBits st) 1)) (Z.shiftl 1 (inmN st) - 1) in
  let w := if inmPrevBit st then Z.lor w 1 else w in
  set_PrevBit bit (set_PrevBits w st).

(** The guard on runs of equal bits. *)
Definition check_sequence (bit : bool) (st : state) : outcome state :=
  if 100 <? inmNumBitsSampled st then
    if bit then
      let st := set_TotalOnes (u32 (inmTotalOnes st + 1)) st in
      let st := set_NumSequentialOnes (u32 (inmNumSequentialOnes st + 1)) st in
      let st := set_NumSequentialZeros 0 st in
      if INM_MAX_SEQUENCE <? inmNumSequentialOnes st then Exited 1 else Normal st
    else
      let st := set_TotalZeros (u32 (inmTotalZeros st + 1)) st in
      let st := set_NumSequentialZeros (u32 (inmNumSequentialZeros st + 1)) st in
      let st := set_NumSequentialOnes 0 st in
      if INM_MAX_SEQUENCE <? inmNumSequentialZeros st then Exited 1 else Normal st
  else Normal st.

(** The counts of the current lane at the window: (zeros, ones). *)
Definition lane_counts (ev : bool) (st : state) : outcome (Z * Z) :=
  if ev then
    zeros ← tbl_get (inmZerosEven st) (inmPrevBits st);
    ones ← tbl_get (inmOnesEven st) (inmPrevBits st);
    Normal (zeros, ones)
  else
    zeros ← tbl_get (inmZerosOdd st) (inmPrevBits st);
    ones ← tbl_get (inmOnesOdd st) (inmPrevBits st);
    Normal (zeros, ones).

Definition update_probability (bit : bool) (zeros ones : Z) (st : state) : state :=
  let total := u32 (zeros + ones) in
  if bit then
    if negb (ones =? 0) then
      set_CurrentProbability
        (B64.mul (inmCurrentProbability st) (B64.div (B64.of_uint ones) (B64.of_uint total))) st
    else st
  else
    if negb (zeros =? 0) then
      set_CurrentProbability
        (B64.mul (inmCurrentProbability st) (B64.div (B64.of_uint zeros) (B64.of_uint total))) st
    else st.

(** The body of the [while] loop: one entropy unit is charged to the
    probability, then credited to the entropy level when the data is
    usable. *)
Definition charge_unit (st : state) : state :=
  let st := set_CurrentProbability (B64.mul (inmCurrentProbability st) B64.two) st in
  set_NumBitsOfEntropy (u32 (inmNumBitsOfEntropy st + 1)) st.

Definition credit_unit (st : state) : state :=
  let st := charge_unit st in
  if inmHealthCheckOkToUseData st && (inmEntropyLevel st <? INM_MAX_ENTROPY)
  then set_EntropyLevel (u32 (inmEntropyLevel st + 1)) st
  else st.

Fixpoint emit_entropy (fuel : nat) (st : state) : outcome state :=
  if B64.leb (inmCurrentProbability st) B64.half then
    match fuel with
    | O => Diverges
    | S fuel' => emit_entropy fuel' (credit_unit st)
    end
  else Normal st.

(** The cell of the observed bit is counted; the four tables are halved
    when it reaches [INM_MAX_COUNT]. *)
Definition count_bit (bit ev : bool) (st : state) : outcome state :=
  let i := inmPrevBits st in
  if bit then
    if ev then
      t ← tbl_incr (inmOnesEven st) i;
      let st := set_OnesEven t st in
      c ← tbl_get (inmOnesEven st) i;
      if c =? INM_MAX_COUNT then scaleStats st else Normal st
    else
      t ← tbl_incr (inmOnesOdd st) i;
      let st := set_OnesOdd t st in
      c ← tbl_get (inmOnesOdd st) i;
      if c =? INM_MAX_COUNT then scaleStats st else Normal st
  else
    if ev then
      t ← tbl_incr (inmZerosEven st) i;
      let st := set_ZerosEven t st in
      c ← tbl_get (inmZerosEven st) i;
      if c =? INM_MAX_COUNT then scaleStats st else Normal st
    else
      t ← tbl_incr (inmZerosOdd st) i;
      let st := set_ZerosOdd t st in
      c ← tbl_get (inmZerosOdd st) i;
      if c =? INM_MAX_COUNT then scaleStats st else Normal st.

Definition inmHealthCheckAddBit (c : call) (st : state) : outcome (bool * state) :=
  let bit := call_bit c in
  let st := note_lanes c st in
  let st := shift_window bit st in
  st ← check_sequence bit st;
  '(zeros, ones) ← lane_counts (even c) st;
  let st := update_probability bit zeros ones st in
  st ← emit_entropy emit_fuel st;
  let st := set_NumBitsSampled (u32 (inmNumBitsSampled st + 1)) st in
  st ← count_bit bit (even c) st;
  let st := scaleEntropy st in
  let st := scaleZeroOneCounts st in
  Normal (true, st).

(** The run counter of the bit [bit], and whether runs are being counted. *)
Definition seq_count (bit : bool) (st : state) : Z :=
  if bit then inmNumSequentialOnes st else inmNumSequentialZeros st.

Definition tracking (st : state) : bool := 100 <? inmNumBitsSampled st.

(** The tolerance test of [inmHealthCheckOkToUseData] on an estimate and
    the expected value, as the C expression computes it, and the same bounds
    with the factor moved to the other side. *)
Definition tolerance_test (estimate expected : double) : bool :=
  B64.geb (B64.mul estimate INM_ACCURACY) expected
  && B64.leb (B64.div estimate INM_ACCURACY) expected.

Definition tolerance_moved (estimate expected : double) : bool :=
  B64.leb (B64.div expected INM_ACCURACY) estimate
  && B64.leb estimate (B64.mul expected INM_ACCURACY).

(** The same bounds on the exact values, for a tolerance factor [tol]. *)
Definition tolerance_exact (tol : Q) (estimate expected : double) : Prop :=
  Qle (Qdiv (B64.to_Q expected) tol) (B64.to_Q estimate)
  /\ Qle (B64.to_Q estimate) (Qmult (B64.to_Q expected) tol).

(** The test that guards [inmEntropyLevel++] in the loop. *)
Definition level_test (st : state) : bool :=
  inmHealthCheckOkToUseData st && (inmEntropyLevel st <? INM_MAX_ENTROPY).

(** The state in which a call enters its [while] loop. *)
Definition loop_entry (c : call) (st : state) : outcome state :=
  st ← check_sequence (call_bit c) (shift_window (call_bit c) (note_lanes c st));
  '(zeros, ones) ← lane_counts (even c) st;
  Normal (update_probability (call_bit c) zeros ones st).

(** The states in which the loop evaluates its test on the entropy level,
    one per entropy unit, in order. *)
Fixpoint credit_moments (fuel : nat) (st : state) : list state :=
  if B64.leb (inmCurrentProbability st) B64.half then
    match fuel with
    | O => []
    | S fuel' => charge_unit st :: credit_moments fuel' (credit_unit st)
    end
  else [].

(** A sequence of calls, each on the state the previous one left. *)
Fixpoint run (calls : list call) (st : state) : outcome state :=
  match calls with
  | [] => Normal st
  | c :: calls' => r ← inmHealthCheckAddBit c st; run calls' r.2
  end.

(** The first [n] calls of a stream of calls: one step takes the number of
    calls made and the outcome so far to the next. *)
Definition stream_step (f : N -> call) (kr : N * outcome state) : N * outcome state :=
  (N.succ kr.1, s ← kr.2; r ← inmHealthCheckAddBit (f kr.1) s; Normal r.2).

Definition run_stream (f : N -> call) (n : N) (st : state) : outcome state :=
  snd (N.iter n (stream_step f) (0%N, Normal st)).

End Engine.

(** The stream 0, 1, 0, 1, ... on the even lane. *)
Definition alternating (k : N) : call := mkCall (N.odd k) false true.

(** What the run counters are between two calls of that stream, [n] calls
    made: both zero, or runs are counted and the counter of the next bit is
    zero and the other at most one. *)
Definition alternating_counters (n : N) (st : state) : Prop :=
  (inmNumSequentialOnes st = 0 /\ inmNumSequentialZeros st = 0)
  \/ (tracking st = true
      /\ seq_count (N.odd n) st = 0 /\ seq_count (negb (N.odd n)) st <= 1).

(** ** Well-formed engine states

    What holds of the state between two calls once the engine has been
    started: the tables are allocated with [2^inmN] cells, each below the
    count ceiling, the window fits in [inmN] bits, the counters are within
    their scaling bounds, and the running probability is a normal double of
    (0.5, 1]. *)

Definition table_ok (N : Z) (t : table) : Prop :=
  exists cells, t = Block cells
    /\ length cells = Z.to_nat (2 ^ N)
    /\ Forall (fun c => 0 <= c < INM_MAX_COUNT) cells.

Record shape_ok (st : state) : Prop := {
  shape_N : 1 <= inmN st <= 30;
  shape_window : 0 <= inmPrevBits st < 2 ^ inmN st;
  shape_ones_even : table_ok (inmN st) (inmOnesEven st);
  shape_zeros_even : table_ok (inmN st) (inmZerosEven st);
  shape_ones_odd : table_ok (inmN st) (inmOnesOdd st);
  shape_zeros_odd : table_ok (inmN st) (inmZerosOdd st)
}.

Record counters_ok (hs ht : Z) (st : state) : Prop := {
  cnt_sampled : 0 <= inmNumBitsSampled st <= hs;
  cnt_total_ones : 0 <= inmTotalOnes st <= ht;
  cnt_total_zeros : 0 <= inmTotalZeros st <= ht;
  cnt_seq_zeros : 0 <= inmNumSequentialZeros st <= INM_MAX_SEQUENCE;
  cnt_seq_ones : 0 <= inmNumSequentialOnes st <= INM_MAX_SEQUENCE;
  cnt_level : 0 <= inmEntropyLevel st <= INM_MAX_ENTROPY;
  cnt_entropy : 0 <= inmNumBitsOfEntropy st < 2 ^ 32;
  cnt_total_bits : 0 <= inmTotalBits st < 2 ^ 64;
  cnt_even_misfires : 0 <= inmEvenMisfires st < 2 ^ 32;
  cnt_odd_misfires : 0 <= inmOddMisfires st < 2 ^ 32
}.

Record Inv (st : state) : Prop := {
  inv_shape : shape_ok st;
  inv_counters : counters_ok (INM_MIN_DATA - 1) (INM_MIN_DATA - 1) st;
  inv_probability : B64.above_half (inmCurrentProbability st)
}.

(** The table that counts the bit [bit] on lane [ev]. *)
Definition selected (bit ev : bool) (st : state) : table :=
  if bit then (if ev then inmOnesEven st else inmOnesOdd st)
  else (if ev then inmZerosEven st else inmZerosOdd st).

Definition set_selected (bit ev : bool) (t : table) (st : state) : state :=
  if bit then (if ev then set_OnesEven t st else set_OnesOdd t st)
  else (if ev then set_ZerosEven t st else set_ZerosOdd t st).

Definition halve (c : Z) : Z := Z.shiftr c 1.

(** The cells below [k] halved, the others as they are. *)
Definition halved_below (k : nat) (l : list Z) : list Z :=
  (halve <$> take k l) ++ drop k l.

(** The four tables replaced at once. *)
Definition with_tables (oe ze oo zo : table) (st : state) : state :=
  set_OnesOdd oo (set_ZerosOdd zo (set_OnesEven oe (set_ZerosEven ze st))).

(** The three variables the [while] loop writes, replaced at once. *)
Definition with_credit (p : double) (units level : Z) (st : state) : state :=
  set_EntropyLevel level (set_NumBitsOfEntropy units (set_CurrentProbability p st)).

Definition halve_table (t : table) : table :=
  match t with
  | Block cells => Block (halve <$> cells)
  | t => t
  end.

(** Every cell of the four tables halved. *)
Definition halve_tables (st : state) : state :=
  with_tables (halve_table (inmOnesEven st)) (halve_table (inmZerosEven st))
              (halve_table (inmOnesOdd st)) (halve_table (inmZerosOdd st)) st.

(** The intermediate results of a call that returns: the state after the
    guard on runs, the counts read, the state after the [while] loop and
    the state after the cell is counted. *)
Record steps (c : call) (st s2 : state) (zeros ones : Z) (s4 s6 : state) : Prop := {
  steps_check :
    check_sequence (call_bit c) (shift_window (call_bit c) (note_lanes c st)) = Normal s2;
  steps_counts : lane_counts (even c) s2 = Normal (zeros, ones);
  steps_emit :
    emit_entropy emit_fuel (update_probability (call_bit c) zeros ones s2) = Normal s4;
  steps_count :
    count_bit (call_bit c) (even c)
      (set_NumBitsSampled (u32 (inmNumBitsSampled s4 + 1)) s4) = Normal s6
}.

(** The facts that hold along a call from a well-formed state. *)
Record steps_ok (st s2 s4 s6 : state) (zeros ones : Z) : Prop := {
  sok_shape2 : shape_ok s2;
  sok_counters2 : counters_ok (INM_MIN_DATA - 1) INM_MIN_DATA s2;
  sok_probability2 : inmCurrentProbability s2 = inmCurrentProbability st;
  sok_zeros : 0 <= zeros < INM_MAX_COUNT;
  sok_ones : 0 <= ones < INM_MAX_COUNT;
  sok_shape4 : shape_ok s4;
  sok_counters4 : counters_ok (INM_MIN_DATA - 1) INM_MIN_DATA s4;
  sok_probability4 : B64.above_half (inmCurrentProbability s4);
  sok_shape6 : shape_ok s6;
  sok_frame6 :
    s6 = with_tables (inmOnesEven s6) (inmZerosEven s6) (inmOnesOdd s6) (inmZerosOdd s6)
           (set_NumBitsSampled (u32 (inmNumBitsSampled s4 + 1)) s4)
}.

(** ** Which variables a step writes

    The variables by name, the value of one in a state, and the relation
    between two states that agree on every variable outside a given list. *)

Inductive field : Type :=
| F_N | F_PrevBits | F_NumBitsSampled | F_OnesEven | F_ZerosEven | F_OnesOdd | F_ZerosOdd
| F_K | F_ExpectedEntropyPerBit | F_NumBitsOfEntropy | F_CurrentProbability | F_TotalBits
| F_PrevBit | F_EntropyLevel | F_NumSequentialZeros | F_NumSequentialOnes | F_TotalOnes
| F_TotalZeros | F_EvenMisfires | F_OddMisfires | F_PrevEven | F_PrevOdd | F_Debug.

Inductive fval : Type :=
| VZ (z : Z)
| VB (b : bool)
| VD (d : double)
| VT (t : table).

Definition get (f : field) (s : state) : fval :=
  match f with
  | F_N => VZ (inmN s)
  | F_PrevBits => VZ (inmPrevBits s)
  | F_NumBitsSampled => VZ (inmNumBitsSampled s)
  | F_OnesEven => VT (inmOnesEven s)
  | F_ZerosEven => VT (inmZerosEven s)
  | F_OnesOdd => VT (inmOnesOdd s)
  | F_ZerosOdd => VT (inmZerosOdd s)
  | F_K => VD (inmK s)
  | F_ExpectedEntropyPerBit => VD (inmExpectedEntropyPerBit s)
  | F_NumBitsOfEntropy => VZ (inmNumBitsOfEntropy s)
  | F_CurrentProbability => VD (inmCurrentProbability s)
  | F_TotalBits => VZ (inmTotalBits s)
  | F_PrevBit => VB (inmPrevBit s)
  | F_EntropyLevel => VZ (inmEntropyLevel s)
  | F_NumSequentialZeros => VZ (inmNumSequentialZeros s)
  | F_NumSequentialOnes => VZ (inmNumSequentialOnes s)
  | F_TotalOnes => VZ (inmTotalOnes s)
  | F_TotalZeros => VZ (inmTotalZeros s)
  | F_EvenMisfires => VZ (inmEvenMisfires s)
  | F_OddMisfires => VZ (inmOddMisfires s)
  | F_PrevEven => VB (inmPrevEven s)
  | F_PrevOdd => VB (inmPrevOdd s)
  | F_Debug => VB (inmDebug s)
  end.

Definition keeps (written : list field) (s s' : state) : Prop :=
  forall f, ~ In f written -> get f s' = get f s.

(** The variables written between the guard on runs and the end of a call,
    and those written by a whole call. *)
Definition written_after_guard : list field :=
  [F_CurrentProbability; F_NumBitsOfEntropy; F_EntropyLevel; F_NumBitsSampled;
   F_OnesEven; F_ZerosEven; F_OnesOdd; F_ZerosOdd;
   F_EvenMisfires; F_OddMisfires; F_TotalOnes; F_TotalZeros].

Definition written_by_guard : list field :=
  [F_TotalOnes; F_TotalZeros; F_NumSequentialOnes; F_NumSequentialZeros].

Definition written_before_guard : list field :=
  [F_EvenMisfires; F_OddMisfires; F_PrevEven; F_PrevOdd; F_TotalBits; F_PrevBits; F_PrevBit].

(** ** States and calls used in the examples *)

Definition returns (o : outcome state) : bool :=
  match o with Normal _ => true | _ => false end.

Definition state_of (o : outcome state) : state :=
  match o with Normal s => s | _ => initial_state end.

(** The state a call of [inmHealthCheckStart] leaves. *)
Definition state_after (o : outcome (bool * state)) : state :=
  match o with Normal r => r.2 | _ => initial_state end.

(** The engine started with width [N] and gain 2.0 from a fresh process. *)
Definition started (N : Z) : state :=
  state_after (inmHealthCheckStart Libm.log N B64.two false (fun _ => true) initial_state).

(** [n] calls on the even lane whose bits alternate, the first one [b]. *)
Fixpoint alternate (n : nat) (b : bool) : list call :=
  match n with
  | O => []
  | S n' => mkCall b false true :: alternate n' (negb b)
  end.

(** [n] times: a call for the even lane, which reads 1, then a call for the
    odd lane, which reads 0.  The even lane reads 1 throughout. *)
Fixpoint interleaved (n : nat) : list call :=
  match n with
  | O => []
  | S n' => mkCall true false true :: mkCall true false false :: interleaved n'
  end.

(** A state past the sample floor, with gain 0x1.c31f45e71be7fp+0, whose
    estimate 65453/78507, divided by 1.02, rounds to the expected value
    0x1.a27ee3f01248cp-1. *)
Definition tolerance_edge : state :=
  mkState 1 1 78507 (Block [9000; 7000]) (Block [7000; 9000]) (Block [0; 0]) (Block [0; 0])
          (S754_finite false 7936224974192255 (-52))
          (S754_finite false 7362253607216268 (-53))
          65453 B64.one 118507 false 0 1 0 39000 39000 39000 0 false false false.

(** The state after a start with width 1 and gain 2.0, the ten calls
    1, 0, (1), 0, 1, 0, (0), 1, 0, (1), those in brackets for the odd lane
    and the others for the even lane, and 79989 calls 0, 1, 0, ... for the
    even lane: one entropy unit, and one call left before the sampled-bit
    count reaches [INM_MIN_DATA]. *)
Definition before_scale_down : state :=
  mkState 1 1 79999 (Block [15422; 0]) (Block [0; 15423]) (Block [0; 0]) (Block [0; 0])
          B64.two B64.one 1 B64.one 79999 false 0 1 0 39949 39949 79994 2
          false false false.

(** Six calls for the even lane, 1, 0, 1, 0, 1, 0, the state they leave
    after a start with width 1, and that state after one more call, which
    reads 1. *)
Definition six_calls : list call := alternate 6 true.

Definition after_six : state := state_of (run six_calls (started 1)).

Definition seventh_call : call := mkCall true false true.

Definition after_seven : state := state_of (run [seventh_call] after_six).

(** 102 alternating calls: the guard on runs is active. *)
Definition past_warm_up : state := state_of (run (alternate 102 true) (started 1)).

(** ** Requests to a started engine

    What a client asks of the engine between [inmHealthCheckStart] and
    [inmHealthCheckStop]: to ingest a bit, or to clear the entropy level. *)

Inductive request : Type :=
| AddBit (c : call)
| ClearEntropyLevel.

Definition serve (r : request) (st : state) : outcome state :=
  match r with
  | AddBit c => r ← inmHealthCheckAddBit c st; Normal r.2
  | ClearEntropyLevel => Normal (inmClearEntropyLevel st)
  end.

Fixpoint serve_all (rs : list request) (st : state) : outcome state :=
  match rs with
  | [] => Normal st
  | r :: rs' => s ← serve r st; serve_all rs' s
  end.

(** The block of zero cells a granted [calloc(1u << N, ...)] returns. *)
Definition fresh_table (N : Z) : table := Block (replicate (Z.to_nat (2 ^ N)) 0).

(** The calls among a list of requests, in order. *)
Fixpoint calls_of (rs : list request) : list call :=
  match rs with
  | [] => []
  | AddBit c :: rs' => c :: calls_of rs'
  | ClearEntropyLevel :: rs' => calls_of rs'
  end.

(** The result of an outcome through a function. *)
Definition outcome_map {A B : Type} (f : A -> B) (o : outcome A) : outcome B :=
  x ← o; Normal (f x).

(** The probability the loop of a call starts from, given the counts read. *)
Definition entering (bit : bool) (zeros ones : Z) (p : double) : double :=
  let n := if bit then ones else zeros in
  if n =? 0 then p else B64.mul p (B64.div (B64.of_uint n) (B64.of_uint (zeros + ones))).

Definition is_nan (x : double) : bool :=
  match x with S754_nan => true | _ => false end.

(** ** [inmEntropyOnTarget]

    The conversion of a double to [uint32_t]: the value is truncated toward
    zero, and the behaviour is undefined when the result does not fit, or
    for an infinity or a NaN. *)
Definition to_uint32 (x : double) : outcome Z :=
  match x with
  | S754_zero _ => Normal 0
  | S754_finite s m e =>
      let t := if 0 <=? e then Z.pos m * 2 ^ e else Z.pos m / 2 ^ (- e) in
      if s then (if t =? 0 then Normal 0 else Undefined)
      else if t <? 2 ^ 32 then Normal t else Undefined
  | S754_infinity _ => Undefined
  | S754_nan => Undefined
  end.

Definition inmEntropyOnTarget (entropy numBits : Z) (st : state) : outcome bool :=
  expectedEntropy ← to_uint32 (B64.mul (B64.of_uint numBits) (inmExpectedEntropyPerBit st));
  Normal (B64.ltb (B64.of_uint expectedEntropy) (B64.mul (B64.of_uint entropy) INM_ACCURACY)).

(** ** States used in the examples of the further properties *)

(** The six calls followed by a clearing of the level. *)
Definition six_and_clear : list request := (AddBit <$> six_calls) ++ [ClearEntropyLevel].

Definition after_clear : state := state_of (serve_all six_and_clear (started 1)).

(** The engine started with width 1 and a NaN for the gain, and the state
    six calls later. *)
Definition started_on_nan : state :=
  state_after (inmHealthCheckStart Libm.log 1 S754_nan false (fun _ => true) initial_state).

Definition six_after_nan : state := state_of (run six_calls started_on_nan).

(** ** The diagnostics of the test program

    [checkLSBStatsForNBits] prints the quotient of two counters; here it
    returns them: the guesses that would have been right with the last [N]
    bits of the window as the context, and all the guesses. *)

(** The loop over [j], from [j] on for [n] rounds, with the three sums. *)
Fixpoint lsb_inner (n : nat) (N i j : Z) (st : state) (acc : Z * Z * Z) : outcome (Z * Z * Z) :=
  match n with
  | O => Normal acc
  | S n' =>
      let pos := u32 (i + u32 (j * Z.shiftl 1 N)) in
      z ← tbl_get (inmZerosEven st) pos;
      o ← tbl_get (inmOnesEven st) pos;
      lsb_inner n' N i (u32 (j + 1)) st
        (u32 (acc.1.1 + u32 (z + o)), u32 (acc.1.2 + z), u32 (acc.2 + o))
  end.

(** The loop over [i], from [i] on for [n] rounds, with the two totals. *)
Fixpoint lsb_outer (n : nat) (N i : Z) (st : state) (acc : Z * Z) : outcome (Z * Z) :=
  match n with
  | O => Normal acc
  | S n' =>
      r ← lsb_inner (Z.to_nat (Z.shiftl 1 (inmN st - N))) N i 0 st (0, 0, 0);
      let totalRight :=
        if r.2 <=? r.1.2 then u32 (acc.1 + r.1.2) else u32 (acc.1 + r.2) in
      lsb_outer n' N (u32 (i + 1)) st (totalRight, u32 (acc.2 + r.1.1))
  end.

(** The shifts [1 << N] and [1 << (inmN - N)] are on [int]: a count outside
    0..30 is undefined. *)
Definition checkLSBStatsForNBits (N : Z) (st : state) : outcome (Z * Z) :=
  if (0 <=? N) && (N <=? 30) && (0 <=? inmN st - N) && (inmN st - N <=? 30)
  then lsb_outer (Z.to_nat (Z.shiftl 1 N)) N 0 st (0, 0)
  else Undefined.

(** [checkLSBStats]: the loop over [N], from [N] on for [n] rounds. *)
Fixpoint checkLSBStats_loop (n : nat) (N : Z) (st : state) : outcome (list (Z * Z)) :=
  match n with
  | O => Normal []
  | S n' =>
      r ← checkLSBStatsForNBits (N mod 256) st;
      rs ← checkLSBStats_loop n' (u32 (N + 1)) st;
      Normal (r :: rs)
  end.

Definition checkLSBStats (st : state) : outcome (list (Z * Z)) :=
  checkLSBStats_loop (Z.to_nat (inmN st)) 1 st.

(** The sum of [f j], [f (j+1)], ..., [n] terms. *)
Fixpoint sum_from (n : nat) (j : Z) (f : Z -> Z) : Z :=
  match n with
  | O => 0
  | S n' => f j + sum_from n' (j + 1) f
  end.

(** The cell [k] of a table (0 where there is none). *)
Definition cell (t : table) (k : Z) : Z :=
  match t with
  | Block cells => default 0 (cells !! Z.to_nat k)
  | Null | Freed => 0
  end.

(** The counts of zeros and of ones in the contexts whose last [N] bits are
    [i], and the guesses right with [N] bits of context. *)
Definition class_zeros (st : state) (N i : Z) : Z :=
  sum_from (Z.to_nat (2 ^ (inmN st - N))) 0 (fun j => cell (inmZerosEven st) (i + j * 2 ^ N)).

Definition class_ones (st : state) (N i : Z) : Z :=
  sum_from (Z.to_nat (2 ^ (inmN st - N))) 0 (fun j => cell (inmOnesEven st) (i + j * 2 ^ N)).

Definition guessed_right (st : state) (N : Z) : Z :=
  sum_from (Z.to_nat (2 ^ N)) 0 (fun i => Z.max (class_zeros st N i) (class_ones st N i)).

(** All the counts of the even lane. *)
Definition even_counts (st : state) : Z :=
  sum_from (Z.to_nat (2 ^ inmN st)) 0
           (fun k => cell (inmZerosEven st) k + cell (inmOnesEven st) k).

(** ** The context of a call

    The number whose bit [t] is the [t]-th most recent of the bits in
    [recent] (most recent first), for [t] below [n]; bits before the first
    one count as 0. *)
Fixpoint window_of (n : nat) (recent : list bool) : Z :=
  match n, recent with
  | S n', b :: r => Z.b2z b + 2 * window_of n' r
  | _, _ => 0
  end.

(** The bits ingested by a list of calls, most recent first. *)
Definition ingested (calls : list call) : list bool := rev (call_bit <$> calls).

(** The six alternating calls on an engine of width 3. *)
Definition six_on_three : state := state_of (run six_calls (started 3)).

(** How many of the calls in [recent] (most recent first) were for the lane
    [ev], ingested [bit] and had the [n] bits ingested before them spell the
    index [i]. *)
Fixpoint tally (n : nat) (ev bit : bool) (i : Z) (recent : list call) : Z :=
  match recent with
  | [] => 0
  | c :: earlier =>
      (if Bool.eqb (even c) ev && Bool.eqb (call_bit c) bit
          && (window_of n (call_bit <$> earlier) =? i)
       then 1 else 0)
      + tally n ev bit i earlier
  end.

(** ** Runs of equal bits

    The length of the run of [bit] at the head of a list of bits. *)
Fixpoint trailing_run (bit : bool) (recent : list bool) : nat :=
  match recent with
  | b :: r => if Bool.eqb b bit then S (trailing_run bit r) else O
  | [] => O
  end.

(** The bits, most recent first, ingested by the calls that found more than
    100 bits sampled: all the calls made since the start but the first
    101. *)
Definition guarded (calls : list call) : list bool :=
  take (length calls - 101) (ingested calls).

(** ** A shortcut for long streams

    Most calls of a long stream do little: with a width of 1, once runs are
    counted, in a context where the other bit was never seen, away from the
    ceilings of the counters, the probability is multiplied by 1.0 and no
    table is halved.  [lean_step] gives the state such a call leaves, with no
    arithmetic on doubles, and no state for any other call;
    [addBit_quick] is [inmHealthCheckAddBit] computed that way. *)

Definition certain_context (bit : bool) (zeros ones : Z) : bool :=
  (if bit then zeros else ones) =? 0.

(** A cell of a table of two cells, and that table with the cell counted. *)
Definition cell2 (t : table) (i : bool) : option Z :=
  match t with
  | Block [x0; x1] => Some (if i then x1 else x0)
  | _ => None
  end.

Definition bump2 (t : table) (i : bool) : table :=
  match t with
  | Block [x0; x1] => if i then Block [x0; x1 + 1] else Block [x0 + 1; x1]
  | t => t
  end.

Definition lean_step (c : call) (st : state) : option state :=
  match st with
  | mkState n w s oe ze oo zo K X u p T pb L sz so to tz em om pe po d =>
      let bit := call_bit c in
      let ev := even c in
      let own := if bit then (if ev then oe else oo) else (if ev then ze else zo) in
      let other := if bit then (if ev then ze else zo) else (if ev then oe else oo) in
      if (n =? 1) && (100 <? s) && (s <? 79999) && (T <? 18446744073709551615)
         && ((if bit then so else sz) <? 20) && ((if bit then to else tz) <? 79999)
         && (em <? 4294967295) && (om <? 4294967295)
      then
        match cell2 own pb, cell2 other pb with
        | Some k, Some 0 =>
            if k <? 16383 then
              Some (mkState 1 (if pb then 1 else 0) (s + 1)
                      (if bit && ev then bump2 oe pb else oe)
                      (if negb bit && ev then bump2 ze pb else ze)
                      (if bit && negb ev then bump2 oo pb else oo)
                      (if negb bit && negb ev then bump2 zo pb else zo)
                      K X u p (T + 1) bit L
                      (if bit then 0 else sz + 1) (if bit then so + 1 else 0)
                      (if bit then to + 1 else to) (if bit then tz else tz + 1)
                      (if ev && negb (eqb (evenBit c) pe) then em + 1 else em)
                      (if negb ev && negb (eqb (oddBit c) po) then om + 1 else om)
                      (evenBit c) (oddBit c) d)
            else None
        | _, _ => None
        end
      else None
  end.

Definition addBit_quick (c : call) (st : state) : outcome (bool * state) :=
  match lean_step c st with
  | Some s => Normal (true, s)
  | None => inmHealthCheckAddBit c st
  end.

Fixpoint run_quick (calls : list call) (st : state) : outcome state :=
  match calls with
  | [] => Normal st
  | c :: calls' => r ← addBit_quick c st; run_quick calls' r.2
  end.

(** ** More states and calls used in the examples *)

(** [n] times: a call for the even lane, which reads 1 while the odd lane
    reads 0, then a call for the odd lane, which reads 1 while the even lane
    reads 0.  Every call ingests 1. *)
Fixpoint ones_on_both_lanes (n : nat) : list call :=
  match n with
  | O => []
  | S n' => mkCall true false true :: mkCall false true false :: ones_on_both_lanes n'
  end.

(** Calls for the even lane that read 1 and 0. *)
Definition one_call : call := mkCall true false true.
Definition zero_call : call := mkCall false false true.

(** Four calls 1, 1, 0, 1 on a width of 1: the context 1 has then been
    followed once by 1 and once by 0.  A fifth call, which reads 1, finds
    the two counts equal; a sixth, which reads 0, finds its bit counted once
    in three. *)
Definition four_calls : list call := [one_call; one_call; zero_call; one_call].

Definition after_four : state := state_of (run four_calls (started 1)).

Definition five_calls : list call := four_calls ++ [one_call].

Definition after_five : state := state_of (run five_calls (started 1)).

(** Eight calls 1, 0, 1, 0, 1, 0, 1, 1: the context 1 has then been followed
    three times by 0 and once by 1, so a ninth call that reads 1 finds its
    bit counted once in four. *)
Definition eight_calls : list call := alternate 7 true ++ [one_call].

Definition after_eight : state := state_of (run eight_calls (started 1)).

(** ** A long stream of low entropy

    The stream 1, 0, 1, 0, ... with one bit in about 200 ingested for the
    odd lane, in turn a 0 in its place in the stream and a 1 put in after a
    1.  A call for the even lane always finds a context that was never
    followed by the other bit; a call for the odd lane finds 0 and 1 about
    equally often and credits about one entropy unit: one unit in about 200
    bits. *)

Definition odd_zero : call := mkCall true false false.
Definition odd_one : call := mkCall true true false.

Definition low_block : list call :=
  alternate 199 true ++ [odd_one] ++ alternate 200 false ++ [odd_zero].

Fixpoint low_blocks (n : nat) : list call :=
  match n with
  | O => []
  | S n' => low_block ++ low_blocks n'
  end.

Definition low_stream (n : nat) : list call :=
  alternate 199 true ++ [odd_zero] ++ low_blocks n.

(** The gain 0x1.00e386464ee99p+0, about 2^0.005: one entropy unit is
    expected in 200 bits. *)
Definition low_gain : double := S754_finite false 4519234992664217 (-52).

Definition started_low : state :=
  state_after (inmHealthCheckStart Libm.log 1 low_gain false (fun _ => true) initial_state).

(** The calls that lead to [before_scale_down], those for the odd lane in
    the third, seventh and tenth place. *)
Definition scale_down_prefix : list call :=
  [mkCall true false true; mkCall false false true; mkCall false true false;
   mkCall false false true; mkCall true false true; mkCall false false true;
   mkCall false false false; mkCall true false true; mkCall false false true;
   mkCall false true false].

Definition scale_down_calls : list call := scale_down_prefix ++ alternate 79989 false.

(** The state 32758 calls into the alternating part of [scale_down_calls]:
    the cell of the zeros that followed a 1 on the even lane is one short of
    [INM_MAX_COUNT]. *)
Definition before_halving : state :=
  mkState 1 0 32768 (Block [16382; 0]) (Block [0; 16383]) (Block [2; 0]) (Block [1; 0])
          B64.two B64.one
          1 B64.one 32768 true 0 0 1 16334 16333 32763 2 true false false.

(** The state after [low_stream 200], 80400 calls: with the gain [low_gain]
    the two calls for the odd lane made since the 80000th call have each
    raised the entropy level. *)
Definition low_level_two : state :=
  mkState 1 1 40400 (Block [15524; 0]) (Block [0; 15446]) (Block [0; 77]) (Block [0; 78])
          low_gain (S754_finite false 5764607523034309 (-60))
          202 (S754_finite false 5035191741364917 (-53)) 80400 false 2 1 0
          40249 40050 40098 100 true false false.

(** The calls of [low_stream 200], a clearing of the entropy level, and 400
    more calls of the stream, the 200th of them for the odd lane; and the
    state they leave. *)
Definition low_requests : list request :=
  (AddBit <$> low_stream 200) ++ [ClearEntropyLevel]
  ++ (AddBit <$> (alternate 199 true ++ [odd_one] ++ alternate 200 false)).

Definition low_resumed : state :=
  mkState 1 0 40800 (Block [15724; 0]) (Block [0; 15645]) (Block [0; 78]) (Block [0; 78])
          low_gain (S754_finite false 5764607523034309 (-60))
          203 (S754_finite false 5002706633356111 (-53)) 80800 true 1 0 1
          40450 40249 40496 101 true false false.

(** The state 80100 calls further into the alternating stream than
    [before_scale_down]: each of the two totals is one short of
    [INM_MIN_DATA]. *)
Definition before_totals_halving : state :=
  mkState 1 1 40099 (Block [14512; 0]) (Block [0; 14513]) (Block [0; 0]) (Block [0; 0])
          B64.two B64.one
          0 B64.one 160099 false 0 1 0 79999 79999 40098 0 false false false.

(** * Lemmas *)

(** ** Binary64 values *)

Lemma digits2_pos_bounds (m : positive) :
  2 ^ (Z.pos (digits2_pos m) - 1) <= Z.pos m < 2 ^ Z.pos (digits2_pos m).
Proof.
  induction m as [m IH | m IH |]; cbn [digits2_pos].
  - rewrite Pos2Z.inj_succ, Z.pow_succ_r by lia.
    replace (Z.succ (Z.pos (digits2_pos m)) - 1) with (Z.succ (Z.pos (digits2_pos m) - 1)) by lia.
    rewrite Z.pow_succ_r by lia. lia.
  - rewrite Pos2Z.inj_succ, Z.pow_succ_r by lia.
    replace (Z.succ (Z.pos (digits2_pos m)) - 1) with (Z.succ (Z.pos (digits2_pos m) - 1)) by lia.
    rewrite Z.pow_succ_r by lia. lia.
  - cbn. lia.
Qed.

Lemma digits2_pos_unique (m : positive) (d : Z) :
  2 ^ (d - 1) <= Z.pos m < 2 ^ d -> Z.pos (digits2_pos m) = d.
Proof.
  intros [Hlo Hhi]. pose proof (digits2_pos_bounds m) as [Blo Bhi].
  assert (0 < d).
  { destruct (Z.le_gt_cases d 0) as [Hd|]; [|lia].
    assert (2 ^ d <= 2 ^ 0) by (destruct (Z.eq_dec d 0); [subst; lia|rewrite Z.pow_neg_r by lia; cbn; lia]).
    cbn in *; lia. }
  destruct (Z.lt_trichotomy (Z.pos (digits2_pos m)) d) as [Hlt | [Heq | Hgt]]; [| exact Heq |].
  - assert (2 ^ Z.pos (digits2_pos m) <= 2 ^ (d - 1)) by (apply Z.pow_le_mono_r; lia). lia.
  - assert (2 ^ d <= 2 ^ (Z.pos (digits2_pos m) - 1)) by (apply Z.pow_le_mono_r; lia). lia.
Qed.

Lemma iter_pos_nat {A} (f : A -> A) (p : positive) (x : A) :
  SpecFloat.iter_pos f p x = Nat.iter (Pos.to_nat p) f x.
Proof.
  revert x. induction p as [p IH | p IH |]; intros x; cbn [SpecFloat.iter_pos].
  - rewrite !IH, Pos2Nat.inj_xI. 
    replace (S (2 * Pos.to_nat p))%nat with (Pos.to_nat p + (Pos.to_nat p + 1))%nat by lia.
    rewrite !Nat.iter_add. reflexivity.
  - rewrite !IH, Pos2Nat.inj_xO.
    replace (2 * Pos.to_nat p)%nat with (Pos.to_nat p + Pos.to_nat p)%nat by lia.
    rewrite Nat.iter_add. reflexivity.
  - reflexivity.
Qed.

Lemma shr_1_m (mrs : shr_record) :
  0 <= shr_m mrs -> shr_m (shr_1 mrs) = shr_m mrs / 2.
Proof.
  destruct mrs as [m r s]; cbn [shr_m]. intros Hm.
  destruct m as [|p|p]; [reflexivity | | lia].
  destruct p as [p|p|]; cbn [shr_1 shr_m].
  - rewrite Pos2Z.inj_xI. apply Z.div_unique with (r := 1); lia.
  - rewrite Pos2Z.inj_xO. apply Z.div_unique with (r := 0); lia.
  - reflexivity.
Qed.

Lemma shr_1_exact (m : Z) :
  0 <= m -> m mod 2 = 0 ->
  shr_1 (Build_shr_record m false false) = Build_shr_record (m / 2) false false.
Proof.
  intros Hm Hev. destruct m as [|p|p]; [reflexivity | | lia].
  destruct p as [p|p|]; cbn [shr_1 orb].
  - rewrite Pos2Z.inj_xI in Hev. rewrite Z.add_comm, Z.mul_comm, Z.mod_add in Hev by lia. discriminate.
  - f_equal. rewrite Pos2Z.inj_xO. apply Z.div_unique with (r := 0); lia.
  - discriminate.
Qed.

Lemma shr_iter_m (n : nat) (mrs : shr_record) :
  0 <= shr_m mrs ->
  shr_m (Nat.iter n shr_1 mrs) = shr_m mrs / 2 ^ Z.of_nat n.
Proof.
  intros Hm. induction n as [|n IH].
  - cbn. now rewrite Z.div_1_r.
  - rewrite Nat.iter_succ, shr_1_m.
    + rewrite IH, Nat2Z.inj_succ, Z.pow_succ_r by lia.
      rewrite Z.div_div by lia. f_equal. lia.
    + rewrite IH. apply Z.div_pos; lia.
Qed.

Lemma shr_iter_exact (n : nat) (m : Z) :
  0 <= m -> m mod 2 ^ Z.of_nat n = 0 ->
  Nat.iter n shr_1 (Build_shr_record m false false)
  = Build_shr_record (m / 2 ^ Z.of_nat n) false false.
Proof.
  intros Hm. induction n as [|n IH]; intros Hdiv.
  - cbn. now rewrite Z.div_1_r.
  - rewrite Nat2Z.inj_succ, Z.pow_succ_r in * by lia.
    assert (Hpos : 0 < 2 ^ Z.of_nat n) by lia.
    set (k := m / (2 * 2 ^ Z.of_nat n)).
    assert (Hk : m = 2 * 2 ^ Z.of_nat n * k) by (apply Z.div_exact; lia).
    assert (Hq : m / 2 ^ Z.of_nat n = k * 2).
    { rewrite Hk at 1. replace (2 * 2 ^ Z.of_nat n * k) with (k * 2 * 2 ^ Z.of_nat n) by ring.
      apply Z.div_mul; lia. }
    rewrite Nat.iter_succ, IH.
    + rewrite Hq, shr_1_exact.
      * now rewrite Z.div_mul by lia.
      * lia.
      * apply Z.mod_mul; lia.
    + rewrite Hk. replace (2 * 2 ^ Z.of_nat n * k) with (k * 2 * 2 ^ Z.of_nat n) by ring.
      apply Z.mod_mul; lia.
Qed.

Lemma shr_m_of_loc (m : Z) (l : location) : shr_m (shr_record_of_loc m l) = m.
Proof. destruct l as [|[]]; reflexivity. Qed.

Lemma round_nearest_even_cases (m : Z) (l : location) :
  round_nearest_even m l = m \/ round_nearest_even m l = m + 1.
Proof.
  destruct l as [|[]]; cbn; auto. destruct (Z.even m); auto.
Qed.

Lemma shr_spec (mrs : shr_record) (e n : Z) :
  0 <= shr_m mrs -> 0 <= n ->
  shr_m (shr mrs e n).1 = shr_m mrs / 2 ^ n /\ (shr mrs e n).2 = e + n.
Proof.
  intros Hm Hn. destruct n as [|p|p]; cbn [shr fst snd]; [| | lia].
  - now rewrite Z.div_1_r, Z.add_0_r.
  - rewrite iter_pos_nat, shr_iter_m, positive_nat_Z by assumption. auto.
Qed.

Lemma shr_exact (m e n : Z) :
  0 <= m -> 0 <= n -> m mod 2 ^ n = 0 ->
  (shr (Build_shr_record m false false) e n).1 = Build_shr_record (m / 2 ^ n) false false.
Proof.
  intros Hm Hn Hdiv. destruct n as [|p|p]; cbn [shr fst]; [| | lia].
  - now rewrite Z.div_1_r.
  - rewrite iter_pos_nat. rewrite <- (positive_nat_Z p) in *. now apply shr_iter_exact.
Qed.

Lemma shr_fexp_normal (M : positive) (E : Z) (l : location) :
  53 <= Z.pos (digits2_pos M) -> -1074 <= Z.pos (digits2_pos M) + E - 53 ->
  shr_fexp 53 1024 (Z.pos M) E l
  = shr (shr_record_of_loc (Z.pos M) l) E (Z.pos (digits2_pos M) - 53).
Proof.
  intros Hd Hlo. unfold shr_fexp, fexp, emin. cbn [Zdigits2]. f_equal. lia.
Qed.

Lemma round_aux_normal (M : positive) (E : Z) (l : location) :
  let n := Z.pos (digits2_pos M) - 53 in
  0 <= n -> -1074 <= E + n -> E + n < 971 ->
  exists m' e',
    binary_round_aux 53 1024 false (Z.pos M) E l = S754_finite false m' e'
    /\ 2 ^ 52 <= Z.pos m' < 2 ^ 53
    /\ E + n <= e' <= E + n + 1
    /\ (e' = E + n + 1 -> Z.pos m' = 2 ^ 52)
    /\ (l = loc_Exact -> Z.pos M mod 2 ^ n = 0 -> Z.pos m' = Z.pos M / 2 ^ n /\ e' = E + n).
Proof.
  intros n Hn Hlo Hhi. unfold binary_round_aux.
  rewrite shr_fexp_normal by lia. fold n.
  pose proof (shr_spec (shr_record_of_loc (Z.pos M) l) E n) as Hshr.
  rewrite shr_m_of_loc in Hshr. destruct Hshr as [Hm1 He1]; [lia | lia |].
  destruct (shr (shr_record_of_loc (Z.pos M) l) E n) as [mrs1 e1] eqn:Eshr.
  cbn [fst snd] in Hm1, He1.
  pose proof (digits2_pos_bounds M) as [Blo Bhi].
  assert (Hrange : 2 ^ 52 <= shr_m mrs1 < 2 ^ 53).
  { rewrite Hm1. replace (Z.pos (digits2_pos M)) with (n + 53) in Bhi by lia.
    replace (Z.pos (digits2_pos M) - 1) with (n + 52) in Blo by lia.
    rewrite Z.pow_add_r in Blo, Bhi by lia. split.
    - apply Z.div_le_lower_bound; lia.
    - apply Z.div_lt_upper_bound; lia. }
  assert (Hexact : l = loc_Exact -> Z.pos M mod 2 ^ n = 0 ->
                   round_nearest_even (shr_m mrs1) (loc_of_shr_record mrs1) = Z.pos M / 2 ^ n).
  { intros -> Hdiv. pose proof (shr_exact (Z.pos M) E n) as Hx.
    cbn [shr_record_of_loc] in Eshr. rewrite Eshr in Hx. cbn [fst] in Hx.
    rewrite Hx by lia. reflexivity. }
  destruct (round_nearest_even_cases (shr_m mrs1) (loc_of_shr_record mrs1)) as [Hr | Hr].
  - (* rounded down *)
    rewrite Hr. destruct (shr_m mrs1) as [|m1|m1] eqn:Em1; [lia | | lia].
    rewrite shr_fexp_normal.
    + rewrite (digits2_pos_unique m1 53) by (cbn; lia). change (53 - 53) with 0; cbn [shr shr_record_of_loc shr_m]; change (1024 - 53) with 971.
      replace (e1 <=? 971) with true by (symmetry; apply Z.leb_le; lia).
      exists m1, e1. split_and!; try reflexivity; try lia.
    + rewrite (digits2_pos_unique m1 53) by (cbn; lia). lia.
    + rewrite (digits2_pos_unique m1 53) by (cbn; lia). lia.
  - (* rounded up *)
    rewrite Hr. assert (Hup : 2 ^ 52 < shr_m mrs1 + 1 <= 2 ^ 53) by lia.
    destruct (shr_m mrs1 + 1) as [|m2|m2] eqn:Em2; [lia | | lia].
    destruct (Z.eq_dec (Z.pos m2) (2 ^ 53)) as [Hcarry | Hnocarry].
    + (* the mantissa overflows into the next binade *)
      rewrite shr_fexp_normal.
      * rewrite (digits2_pos_unique m2 54) by (cbn; lia).
        injection Hcarry as ->. change (54 - 53) with 1; cbn [shr shr_record_of_loc SpecFloat.iter_pos shr_1 shr_m orb]; change (1024 - 53) with 971.
        replace (e1 + 1 <=? 971) with true by (symmetry; apply Z.leb_le; lia).
        eexists _, (e1 + 1). split; [reflexivity|]. split_and!; try (cbn; lia).
        all: intros Hl Hdiv; specialize (Hexact Hl Hdiv); cbn in *; lia.
      * rewrite (digits2_pos_unique m2 54) by (cbn; lia). lia.
      * rewrite (digits2_pos_unique m2 54) by (cbn; lia). lia.
    + rewrite shr_fexp_normal.
      * rewrite (digits2_pos_unique m2 53) by (cbn; lia). change (53 - 53) with 0; cbn [shr shr_record_of_loc shr_m]; change (1024 - 53) with 971.
        replace (e1 <=? 971) with true by (symmetry; apply Z.leb_le; lia).
        exists m2, e1. split_and!; try reflexivity; try lia.
        all: intros Hl Hdiv; specialize (Hexact Hl Hdiv); lia.
      * rewrite (digits2_pos_unique m2 53) by (cbn; lia). lia.
      * rewrite (digits2_pos_unique m2 53) by (cbn; lia). lia.
Qed.

Lemma pos_iter_xO (p k : positive) : Z.pos (Pos.iter xO p k) = Z.pos p * 2 ^ Z.pos k.
Proof.
  induction k as [|k IH] using Pos.peano_ind.
  - cbn. lia.
  - rewrite Pos.iter_succ, Pos2Z.inj_xO, IH, Pos2Z.inj_succ, Z.pow_succ_r by lia. ring.
Qed.

(** The conversion of a positive integer below 2^53 is exact: the integer
    shifted to a 53-bit mantissa. *)
Lemma of_uint_normal (z : Z) :
  1 <= z < 2 ^ 53 ->
  exists m, B64.of_uint z = S754_finite false m (Z.log2 z - 52)
            /\ Z.pos m = z * 2 ^ (52 - Z.log2 z).
Proof.
  intros Hz. destruct z as [|p|p]; [lia | | lia].
  pose proof (digits2_pos_bounds p) as [Blo Bhi].
  assert (Hd : Z.pos (digits2_pos p) = Z.log2 (Z.pos p) + 1).
  { rewrite (Z.log2_unique (Z.pos p) (Z.pos (digits2_pos p) - 1)); [lia | lia |].
    replace (Z.succ (Z.pos (digits2_pos p) - 1)) with (Z.pos (digits2_pos p)) by lia. lia. }
  assert (Hd53 : Z.pos (digits2_pos p) <= 53).
  { destruct (Z.le_gt_cases (Z.pos (digits2_pos p)) 53) as [|Hgt]; [assumption|].
    assert (2 ^ 53 <= 2 ^ (Z.pos (digits2_pos p) - 1)) by (apply Z.pow_le_mono_r; lia). lia. }
  set (L := Z.log2 (Z.pos p)) in *.
  unfold B64.of_uint, binary_normalize, binary_round, B64.prec, B64.emax.
  unfold fexp, emin. rewrite Hd.
  replace (Z.max (L + 1 + 0 - 53) (3 - 1024 - 53)) with (L - 52) by lia.
  unfold shl_align.
  destruct (L - 52 - 0) as [|k|k] eqn:Ek; [| lia |].
  - (* already 53 bits *)
    assert (HL : L = 52) by lia.
    destruct (round_aux_normal p 0 loc_Exact) as (m' & e' & Heq & Hm & He & _ & Hex);
      rewrite ?Hd; try lia.
    rewrite Heq. rewrite Hd, HL in Hex. change (52 + 1 - 53) with 0 in Hex.
    destruct Hex as [Hm' He']; [reflexivity | apply Z.mod_1_r |].
    rewrite Z.div_1_r in Hm'. injection Hm' as ->. subst e'.
    exists p. rewrite HL. split; [reflexivity | cbn; lia].
  - (* shifted left by 52 - L *)
    assert (Hk : Z.pos k = 52 - L) by lia.
    assert (Hmz : Z.pos (Pos.iter xO p k) = Z.pos p * 2 ^ (52 - L)) by (rewrite pos_iter_xO, Hk; reflexivity).
    assert (Hdz : Z.pos (digits2_pos (Pos.iter xO p k)) = 53).
    { apply digits2_pos_unique. rewrite Hmz.
      replace (Z.pos (digits2_pos p) - 1) with L in Blo by lia.
      rewrite Hd in Bhi. change (53 - 1) with 52.
      assert (H52 : 2 ^ 52 = 2 ^ L * 2 ^ (52 - L)) by (rewrite <- Z.pow_add_r by lia; f_equal; lia).
      assert (H53 : 2 ^ 53 = 2 ^ (L + 1) * 2 ^ (52 - L)) by (rewrite <- Z.pow_add_r by lia; f_equal; lia).
      assert (0 < 2 ^ (52 - L)) by (apply Z.pow_pos_nonneg; lia).
      rewrite H52, H53. split.
      - apply Z.mul_le_mono_nonneg_r; lia.
      - apply Z.mul_lt_mono_pos_r; lia. }
    destruct (round_aux_normal (Pos.iter xO p k) (L - 52) loc_Exact) as (m' & e' & Heq & Hm & He & _ & Hex);
      rewrite ?Hdz; try lia.
    rewrite Heq. rewrite Hdz in Hex. change (53 - 53) with 0 in Hex.
    destruct Hex as [Hm' He']; [reflexivity | apply Z.mod_1_r |].
    rewrite Z.div_1_r in Hm'. subst e'.
    exists m'. split; [f_equal; lia | lia].
Qed.

Lemma div_eucl_div_mod (a b : Z) : Z.div_eucl a b = (a / b, a mod b).
Proof. unfold Z.div, Z.modulo. now destruct (Z.div_eucl a b). Qed.

Lemma new_location_0 (n : Z) : new_location n 0 = loc_Exact.
Proof. unfold new_location, new_location_even, new_location_odd. now destruct (Z.even n). Qed.

Lemma digits2_pos_53 (m : positive) :
  2 ^ 52 <= Z.pos m < 2 ^ 53 -> Z.pos (digits2_pos m) = 53.
Proof. intros H. now apply digits2_pos_unique. Qed.

(** Division of two normal doubles: the quotient of the mantissas, carried
    to 53 more bits, is rounded. *)
Lemma div_normal (ma mb : positive) (ea eb : Z) :
  2 ^ 52 <= Z.pos ma < 2 ^ 53 -> 2 ^ 52 <= Z.pos mb < 2 ^ 53 ->
  -1000 <= ea - eb ->
  B64.div (S754_finite false ma ea) (S754_finite false mb eb)
  = binary_round_aux 53 1024 false (Z.pos ma * 2 ^ 53 / Z.pos mb) (ea - eb - 53)
      (new_location (Z.pos mb) ((Z.pos ma * 2 ^ 53) mod Z.pos mb)).
Proof.
  intros Ha Hb He. unfold B64.div, SFdiv, SFdiv_core_binary, B64.prec, B64.emax.
  cbn [Zdigits2 xorb]. rewrite (digits2_pos_53 ma), (digits2_pos_53 mb) by assumption.
  unfold fexp, emin.
  replace (Z.min (Z.max (53 + ea - (53 + eb) - 53) (3 - 1024 - 53)) (ea - eb)) with (ea - eb - 53) by lia.
  replace (ea - eb - (ea - eb - 53)) with 53 by lia.
  rewrite Z.shiftl_mul_pow2 by lia. rewrite div_eucl_div_mod. reflexivity.
Qed.

Lemma div_le_one (ma mb : positive) (ea eb : Z) :
  2 ^ 52 <= Z.pos ma < 2 ^ 53 -> 2 ^ 52 <= Z.pos mb < 2 ^ 53 ->
  -900 <= ea - eb ->
  ea < eb \/ (ea = eb /\ Z.pos ma <= Z.pos mb) ->
  B64.unit_le (ea - eb - 53) (B64.div (S754_finite false ma ea) (S754_finite false mb eb)).
Proof.
  intros Ha Hb He Hle. rewrite div_normal by (assumption || lia).
  set (q := Z.pos ma * 2 ^ 53 / Z.pos mb).
  assert (Hq : 2 ^ 52 <= q < 2 ^ 54).
  { unfold q. split.
    - apply Z.div_le_lower_bound; [lia|]. nia.
    - apply Z.div_lt_upper_bound; [lia|]. nia. }
  destruct q as [|pq|pq] eqn:Eq; [lia | | lia].
  destruct (Z.lt_ge_cases (Z.pos pq) (2 ^ 53)) as [Hsmall | Hbig].
  - (* the quotient has 53 bits *)
    assert (Hd : Z.pos (digits2_pos pq) = 53) by (apply digits2_pos_53; lia).
    destruct (round_aux_normal pq (ea - eb - 53)
                (new_location (Z.pos mb) ((Z.pos ma * 2 ^ 53) mod Z.pos mb)))
      as (m' & e' & Heq & Hm & Hex & Hcarry & _);
      rewrite ?Hd; try lia.
    rewrite Heq. exists m', e'. split_and!; try reflexivity; lia.
  - (* it has 54 bits *)
    assert (Hd : Z.pos (digits2_pos pq) = 54) by (apply digits2_pos_unique; cbn; lia).
    destruct (round_aux_normal pq (ea - eb - 53)
                (new_location (Z.pos mb) ((Z.pos ma * 2 ^ 53) mod Z.pos mb)))
      as (m' & e' & Heq & Hm & Hex & Hcarry & Hexact);
      rewrite ?Hd; try lia.
    rewrite Heq. rewrite Hd in Hexact. change (54 - 53) with 1 in *.
    exists m', e'. split_and!; try reflexivity; try lia.
    + destruct Hle as [Hlt | [Heq' Hmle]]; [lia|].
      (* equal exponents: the quotient is exactly 2^53 *)
      assert (Hsame : Z.pos ma = Z.pos mb).
      { assert (2 ^ 53 * Z.pos mb <= Z.pos ma * 2 ^ 53).
        { apply Z.le_trans with (Z.pos mb * (Z.pos ma * 2 ^ 53 / Z.pos mb)).
          - fold q. rewrite Eq. nia.
          - apply Z.mul_div_le. lia. }
        nia. }
      assert (Hr : (Z.pos ma * 2 ^ 53) mod Z.pos mb = 0) by (rewrite Hsame, Z.mul_comm; apply Z.mod_mul; lia).
      assert (Hq53 : Z.pos pq = 2 ^ 53).
      { rewrite <- Eq. unfold q. rewrite Hsame, Z.mul_comm. apply Z.div_mul. lia. }
      rewrite Hr, new_location_0 in Hexact.
      destruct Hexact as [Hm' He']; [reflexivity | rewrite Hq53; reflexivity |]. lia.
    + intros He52. destruct Hle as [Hlt | [Heq' Hmle]]; [apply Hcarry; lia|].
      assert (Hsame : Z.pos ma = Z.pos mb).
      { assert (2 ^ 53 * Z.pos mb <= Z.pos ma * 2 ^ 53).
        { apply Z.le_trans with (Z.pos mb * (Z.pos ma * 2 ^ 53 / Z.pos mb)).
          - fold q. rewrite Eq. nia.
          - apply Z.mul_div_le. lia. }
        nia. }
      assert (Hr : (Z.pos ma * 2 ^ 53) mod Z.pos mb = 0) by (rewrite Hsame, Z.mul_comm; apply Z.mod_mul; lia).
      assert (Hq53 : Z.pos pq = 2 ^ 53).
      { rewrite <- Eq. unfold q. rewrite Hsame, Z.mul_comm. apply Z.div_mul. lia. }
      rewrite Hr, new_location_0 in Hexact.
      destruct Hexact as [Hm' He']; [reflexivity | rewrite Hq53; reflexivity |].
      rewrite Hm', Hq53. reflexivity.
Qed.

Lemma mul_finite (mx my : positive) (ex ey : Z) :
  B64.mul (S754_finite false mx ex) (S754_finite false my ey)
  = binary_round_aux 53 1024 false (Z.pos (mx * my)) (ex + ey) loc_Exact.
Proof. reflexivity. Qed.

(** Doubling a normal double is exact. *)
Lemma mul_two (m : positive) (e : Z) :
  2 ^ 52 <= Z.pos m < 2 ^ 53 -> -1000 <= e <= 900 ->
  B64.mul (S754_finite false m e) B64.two = S754_finite false m (e + 1).
Proof.
  intros Hm He. unfold B64.two. rewrite mul_finite.
  assert (Hprod : Z.pos (m * 4503599627370496) = Z.pos m * 2 ^ 52) by (rewrite Pos2Z.inj_mul; reflexivity).
  assert (Hd : Z.pos (digits2_pos (m * 4503599627370496)) = 105).
  { apply digits2_pos_unique. rewrite Hprod. change (105 - 1) with (52 + 52).
    change 105 with (53 + 52). rewrite !Z.pow_add_r by lia. nia. }
  destruct (round_aux_normal (m * 4503599627370496) (e + -51) loc_Exact)
    as (m' & e' & Heq & _ & _ & _ & Hexact); rewrite ?Hd; try lia.
  rewrite Heq. rewrite Hd, Hprod in Hexact. change (105 - 53) with 52 in Hexact.
  destruct Hexact as [Hm' He']; [reflexivity | apply Z.mod_mul; lia |].
  rewrite Z.div_mul in Hm' by lia. f_equal; lia.
Qed.

(** The product of two normal doubles of (0, 1] is a normal double of
    (0, 1]. *)
Lemma mul_unit (lo1 lo2 : Z) (x y : double) :
  -500 <= lo1 -> -500 <= lo2 ->
  B64.unit_le lo1 x -> B64.unit_le lo2 y -> B64.unit_le (lo1 + lo2 + 52) (B64.mul x y).
Proof.
  intros Hlo1 Hlo2 (mx & ex & -> & Hmx & Hex & Honex) (my & ey & -> & Hmy & Hey & Honey).
  rewrite mul_finite.
  assert (Hprod : Z.pos (mx * my) = Z.pos mx * Z.pos my) by apply Pos2Z.inj_mul.
  assert (HM : 2 ^ 104 <= Z.pos (mx * my) < 2 ^ 106).
  { rewrite Hprod. change (2 ^ 104) with (2 ^ 52 * 2 ^ 52). change (2 ^ 106) with (2 ^ 53 * 2 ^ 53). nia. }
  destruct (Z.eq_dec ex (-52)) as [Hx1 | Hxlt].
  - (* x = 1 *)
    specialize (Honex Hx1). subst ex.
    assert (Hd : Z.pos (digits2_pos (mx * my)) = 105).
    { apply digits2_pos_unique. rewrite Hprod, Honex. change (105 - 1) with (52 + 52).
      change 105 with (52 + 53). rewrite !Z.pow_add_r by lia. nia. }
    destruct (round_aux_normal (mx * my) (-52 + ey) loc_Exact)
      as (m' & e' & Heq & Hm' & _ & _ & Hexact); rewrite ?Hd; try lia.
    rewrite Heq. rewrite Hd, Hprod, Honex in Hexact. change (105 - 53) with 52 in Hexact.
    destruct Hexact as [Hm'' He']; [reflexivity | rewrite Z.mul_comm; apply Z.mod_mul; lia |].
    rewrite Z.mul_comm, Z.div_mul in Hm'' by lia.
    exists m', e'. split_and!; try reflexivity; try lia.
  - destruct (Z.eq_dec ey (-52)) as [Hy1 | Hylt].
    + (* y = 1 *)
      specialize (Honey Hy1). subst ey.
      assert (Hd : Z.pos (digits2_pos (mx * my)) = 105).
      { apply digits2_pos_unique. rewrite Hprod, Honey. change (105 - 1) with (52 + 52).
        change 105 with (53 + 52). rewrite !Z.pow_add_r by lia. nia. }
      destruct (round_aux_normal (mx * my) (ex + -52) loc_Exact)
        as (m' & e' & Heq & Hm' & _ & _ & Hexact); rewrite ?Hd; try lia.
      rewrite Heq. rewrite Hd, Hprod, Honey in Hexact. change (105 - 53) with 52 in Hexact.
      destruct Hexact as [Hm'' He']; [reflexivity | apply Z.mod_mul; lia |].
      rewrite Z.div_mul in Hm'' by lia.
      exists m', e'. split_and!; try reflexivity; try lia.
    + (* both below 1 *)
      destruct (Z.lt_ge_cases (Z.pos (mx * my)) (2 ^ 105)) as [Hsmall | Hbig].
      * assert (Hd : Z.pos (digits2_pos (mx * my)) = 105) by (apply digits2_pos_unique; cbn; lia).
        destruct (round_aux_normal (mx * my) (ex + ey) loc_Exact)
          as (m' & e' & Heq & Hm' & He' & Hcarry & _); rewrite ?Hd; try lia.
        rewrite Heq. exists m', e'. split_and!; try reflexivity; lia.
      * assert (Hd : Z.pos (digits2_pos (mx * my)) = 106) by (apply digits2_pos_unique; cbn; lia).
        destruct (round_aux_normal (mx * my) (ex + ey) loc_Exact)
          as (m' & e' & Heq & Hm' & He' & Hcarry & _); rewrite ?Hd; try lia.
        rewrite Heq. exists m', e'. split_and!; try reflexivity; lia.
Qed.

(** Comparisons of a normal double with 0.5 and 1. *)
Lemma leb_half (m : positive) (e : Z) :
  B64.leb (S754_finite false m e) B64.half
  = (e <? -53) || ((e =? -53) && (Z.pos m <=? 2 ^ 52)).
Proof.
  unfold B64.leb, B64.half, SFleb, SFcompare.
  destruct (Z.compare_spec e (-53)) as [-> | Hlt | Hgt].
  - cbn [Z.ltb Z.compare Z.eqb orb andb]. rewrite Pos.compare_cont_spec. cbn [Pos.switch_Eq].
    change (Z.pos m <=? 2 ^ 52) with (Z.pos m <=? Z.pos 4503599627370496).
    unfold Z.leb. cbn [Z.compare]. destruct (m ?= 4503599627370496)%positive; reflexivity.
  - replace (e <? -53) with true by (symmetry; apply Z.ltb_lt; lia). reflexivity.
  - replace (e <? -53) with false by (symmetry; apply Z.ltb_ge; lia).
    replace (e =? -53) with false by (symmetry; apply Z.eqb_neq; lia). reflexivity.
Qed.

Lemma ltb_half (m : positive) (e : Z) :
  B64.ltb B64.half (S754_finite false m e) = negb (B64.leb (S754_finite false m e) B64.half).
Proof.
  unfold B64.ltb, B64.leb, B64.half, SFltb, SFleb, SFcompare.
  rewrite (Z.compare_antisym e (-53)).
  destruct (e ?= -53); cbn [CompOpp negb]; try reflexivity.
  rewrite !Pos.compare_cont_spec. cbn [Pos.switch_Eq].
  rewrite (Pos.compare_antisym m). destruct (m ?= 4503599627370496)%positive; reflexivity.
Qed.

Lemma leb_one (m : positive) (e : Z) :
  B64.leb (S754_finite false m e) B64.one
  = (e <? -52) || ((e =? -52) && (Z.pos m <=? 2 ^ 52)).
Proof.
  unfold B64.leb, B64.one, SFleb, SFcompare.
  destruct (Z.compare_spec e (-52)) as [-> | Hlt | Hgt].
  - cbn [Z.ltb Z.compare Z.eqb orb andb]. rewrite Pos.compare_cont_spec. cbn [Pos.switch_Eq].
    change (Z.pos m <=? 2 ^ 52) with (Z.pos m <=? Z.pos 4503599627370496).
    unfold Z.leb. cbn [Z.compare]. destruct (m ?= 4503599627370496)%positive; reflexivity.
  - replace (e <? -52) with true by (symmetry; apply Z.ltb_lt; lia). reflexivity.
  - replace (e <? -52) with false by (symmetry; apply Z.ltb_ge; lia).
    replace (e =? -52) with false by (symmetry; apply Z.eqb_neq; lia). reflexivity.
Qed.

(** The quotient of two normal doubles is a positive finite double. *)
Lemma div_finite (ma mb : positive) (ea eb : Z) :
  2 ^ 52 <= Z.pos ma < 2 ^ 53 -> 2 ^ 52 <= Z.pos mb < 2 ^ 53 ->
  -900 <= ea - eb <= 900 ->
  exists m e, B64.div (S754_finite false ma ea) (S754_finite false mb eb)
              = S754_finite false m e.
Proof.
  intros Ha Hb He. rewrite div_normal by (assumption || lia).
  set (q := Z.pos ma * 2 ^ 53 / Z.pos mb).
  assert (Hq : 2 ^ 52 <= q < 2 ^ 54).
  { unfold q. split.
    - apply Z.div_le_lower_bound; [lia|]. nia.
    - apply Z.div_lt_upper_bound; [lia|]. nia. }
  destruct q as [|pq|pq] eqn:Eq; [lia | | lia].
  assert (Hd : Z.pos (digits2_pos pq) = 53 \/ Z.pos (digits2_pos pq) = 54).
  { destruct (Z.lt_ge_cases (Z.pos pq) (2 ^ 53)); [left | right];
      apply digits2_pos_unique; cbn; lia. }
  destruct (round_aux_normal pq (ea - eb - 53)
              (new_location (Z.pos mb) ((Z.pos ma * 2 ^ 53) mod Z.pos mb)))
    as (m' & e' & Heq & _); try lia.
  eauto.
Qed.

(** ** Machine integers *)

Lemma u32_small (z : Z) : 0 <= z < 2 ^ 32 -> u32 z = z.
Proof. intros H. unfold u32. now apply Z.mod_small. Qed.

Lemma u32_range (z : Z) : 0 <= u32 z < 2 ^ 32.
Proof. unfold u32. apply Z.mod_pos_bound. lia. Qed.

Lemma u64_small (z : Z) : 0 <= z < 2 ^ 64 -> u64 z = z.
Proof. intros H. unfold u64. now apply Z.mod_small. Qed.

Lemma u64_range (z : Z) : 0 <= u64 z < 2 ^ 64.
Proof. unfold u64. apply Z.mod_pos_bound. lia. Qed.

Lemma shiftr_1_half (z : Z) : Z.shiftr z 1 = z / 2.
Proof. rewrite Z.shiftr_div_pow2 by lia. reflexivity. Qed.

Lemma pow2_N_bounds (N : Z) : 1 <= N <= 30 -> 2 <= 2 ^ N <= 2 ^ 30.
Proof.
  intros H. split.
  - change 2 with (2 ^ 1) at 1. apply Z.pow_le_mono_r; lia.
  - apply Z.pow_le_mono_r; lia.
Qed.

(** ** The window *)

Lemma lor_1_bound (x N : Z) : 1 <= N -> 0 <= x < 2 ^ N -> 0 <= Z.lor x 1 < 2 ^ N.
Proof.
  intros HN Hx. split; [apply Z.lor_nonneg; lia|].
  destruct (Z.eq_dec x 0) as [-> | Hnz].
  - cbn. change 1 with (2 ^ 0). apply Z.pow_lt_mono_r; lia.
  - apply Z.log2_lt_pow2; [assert (0 <= Z.lor x 1) by (apply Z.lor_nonneg; lia);
                           assert (Z.lor x 1 <> 0) by (rewrite Z.lor_eq_0_iff; lia); lia|].
    rewrite Z.log2_lor by lia. change (Z.log2 1) with 0.
    assert (Z.log2 x < N) by (apply Z.log2_lt_pow2; lia).
    pose proof (Z.log2_nonneg x). lia.
Qed.

Lemma shift_window_bound (bit : bool) (st : state) :
  1 <= inmN st <= 30 -> 0 <= inmPrevBits (shift_window bit st) < 2 ^ inmN st.
Proof.
  intros HN. unfold shift_window. cbn [inmPrevBits set_PrevBit set_PrevBits].
  rewrite Z.shiftl_1_l.
  replace (2 ^ inmN st - 1) with (Z.ones (inmN st)) by (rewrite Z.ones_equiv; lia).
  rewrite Z.land_ones by lia.
  pose proof (Z.mod_pos_bound (u32 (Z.shiftl (inmPrevBits st) 1)) (2 ^ inmN st)) as Hmod.
  assert (0 < 2 ^ inmN st) by (apply Z.pow_pos_nonneg; lia).
  destruct (inmPrevBit st); [apply lor_1_bound|]; lia.
Qed.

(** ** The tables *)

Lemma table_ok_get (N : Z) (t : table) (i : Z) :
  table_ok N t -> 1 <= N -> 0 <= i < 2 ^ N ->
  exists cells c, t = Block cells /\ cells !! Z.to_nat i = Some c
                  /\ tbl_get t i = Normal c /\ 0 <= c < INM_MAX_COUNT.
Proof.
  intros (cells & -> & Hlen & Hall) HN Hi.
  destruct (lookup_lt_is_Some_2 cells (Z.to_nat i)) as [c Hc]; [lia|].
  rewrite Forall_lookup in Hall. pose proof (Hall _ _ Hc) as Hrange.
  exists cells, c. split_and!; try reflexivity; try assumption; try apply Hrange.
  cbn. now rewrite Hc.
Qed.

Lemma table_ok_insert (N : Z) (cells : list Z) (i : nat) (v : Z) :
  table_ok N (Block cells) -> 0 <= v < INM_MAX_COUNT ->
  table_ok N (Block (<[i := v]> cells)).
Proof.
  intros (cells' & [= <-] & Hlen & Hall) Hv.
  exists (<[i := v]> cells). split_and!; [reflexivity | now rewrite length_insert |].
  now apply Forall_insert.
Qed.

Lemma table_ok_halve (N : Z) (cells : list Z) :
  length cells = Z.to_nat (2 ^ N) ->
  Forall (fun c => 0 <= c <= INM_MAX_COUNT) cells ->
  table_ok N (Block ((fun c => Z.shiftr c 1) <$> cells)).
Proof.
  intros Hlen Hall. exists ((fun c => Z.shiftr c 1) <$> cells).
  split_and!; [reflexivity | now rewrite length_fmap |].
  apply Forall_fmap. eapply Forall_impl; [exact Hall|].
  intros c Hc. cbn beta in Hc. unfold compose. rewrite shiftr_1_half. change INM_MAX_COUNT with 16384 in *.
  split; [apply Z.div_pos; lia | apply Z.div_lt_upper_bound; lia].
Qed.

(** *** [scaleStats] halves every cell of the four tables *)

Lemma halved_below_0 (l : list Z) : halved_below 0 l = l.
Proof. reflexivity. Qed.

Lemma halved_below_all (l : list Z) : halved_below (length l) l = halve <$> l.
Proof. unfold halved_below. now rewrite firstn_all, drop_all, app_nil_r. Qed.

Lemma halved_below_length (k : nat) (l : list Z) : length (halved_below k l) = length l.
Proof.
  unfold halved_below. rewrite length_app, length_fmap, length_take, length_drop. lia.
Qed.

Lemma halved_below_lookup (k : nat) (l : list Z) (c : Z) :
  l !! k = Some c -> halved_below k l !! k = Some c.
Proof.
  intros Hc. unfold halved_below. pose proof (lookup_lt_Some _ _ _ Hc) as Hlt.
  rewrite lookup_app_r; rewrite length_fmap, length_take; [|lia].
  replace (k - k `min` length l)%nat with 0%nat by lia.
  now rewrite lookup_drop, Nat.add_0_r.
Qed.

Lemma halved_below_step (k : nat) (l : list Z) (c : Z) :
  l !! k = Some c -> <[k := halve c]> (halved_below k l) = halved_below (S k) l.
Proof.
  intros Hc. unfold halved_below. pose proof (lookup_lt_Some _ _ _ Hc) as Hlt.
  rewrite insert_app_r_alt; rewrite length_fmap, length_take; [|lia].
  replace (k - k `min` length l)%nat with 0%nat by lia.
  rewrite (drop_S _ _ _ Hc). cbn [list_insert].
  rewrite (take_S_r _ _ _ Hc), fmap_app. cbn [fmap list_fmap].
  now rewrite <- app_assoc.
Qed.

Lemma tbl_halve_below (k : nat) (l : list Z) :
  (k < length l)%nat ->
  tbl_halve (Block (halved_below k l)) (Z.of_nat k) = Normal (Block (halved_below (S k) l)).
Proof.
  intros Hlt. destruct (lookup_lt_is_Some_2 l k Hlt) as [c Hc].
  unfold tbl_halve, tbl_get. rewrite Nat2Z.id, (halved_below_lookup _ _ _ Hc).
  cbn [mbind outcome_bind tbl_set]. rewrite Nat2Z.id.
  rewrite decide_True by (rewrite halved_below_length; lia).
  fold (halve c). now rewrite (halved_below_step _ _ _ Hc).
Qed.

Lemma with_tables_idem (a b c d a' b' c' d' : table) (st : state) :
  with_tables a b c d (with_tables a' b' c' d' st) = with_tables a b c d st.
Proof. reflexivity. Qed.

Lemma scaleStats_loop_spec (n k : nat) (oe ze oo zo : list Z) (st : state) :
  length oe = (k + n)%nat -> length ze = (k + n)%nat ->
  length oo = (k + n)%nat -> length zo = (k + n)%nat ->
  Z.of_nat (k + n) <= 2 ^ 30 ->
  inmOnesEven st = Block (halved_below k oe) ->
  inmZerosEven st = Block (halved_below k ze) ->
  inmOnesOdd st = Block (halved_below k oo) ->
  inmZerosOdd st = Block (halved_below k zo) ->
  scaleStats_loop n (Z.of_nat k) st
  = Normal (with_tables (Block (halve <$> oe)) (Block (halve <$> ze))
                        (Block (halve <$> oo)) (Block (halve <$> zo)) st).
Proof.
  revert k st. induction n as [|n IH]; intros k st Hoe Hze Hoo Hzo Hbound Eoe Eze Eoo Ezo.
  - rewrite Nat.add_0_r in *. cbn [scaleStats_loop].
    rewrite <- Hoe in Eoe. rewrite <- Hze in Eze. rewrite <- Hoo in Eoo. rewrite <- Hzo in Ezo.
    rewrite halved_below_all in *. destruct st. cbn in *. now subst.
  - cbn [scaleStats_loop]. unfold scaleStats_at.
    rewrite Eze, tbl_halve_below by lia. cbn [mbind outcome_bind inmOnesEven set_ZerosEven].
    rewrite Eoe, tbl_halve_below by lia.
    cbn [mbind outcome_bind inmZerosOdd set_ZerosEven set_OnesEven].
    rewrite Ezo, tbl_halve_below by lia.
    cbn [mbind outcome_bind inmOnesOdd set_ZerosEven set_OnesEven set_ZerosOdd].
    rewrite Eoo, tbl_halve_below by lia. cbn [mbind outcome_bind].
    rewrite u32_small by lia.
    replace (Z.of_nat k + 1) with (Z.of_nat (S k)) by lia.
    rewrite (IH (S k)) by (reflexivity || lia). reflexivity.
Qed.

Lemma scaleStats_spec (oe ze oo zo : list Z) (st : state) :
  1 <= inmN st <= 30 ->
  inmOnesEven st = Block oe -> inmZerosEven st = Block ze ->
  inmOnesOdd st = Block oo -> inmZerosOdd st = Block zo ->
  length oe = Z.to_nat (2 ^ inmN st) -> length ze = Z.to_nat (2 ^ inmN st) ->
  length oo = Z.to_nat (2 ^ inmN st) -> length zo = Z.to_nat (2 ^ inmN st) ->
  scaleStats st
  = Normal (with_tables (Block (halve <$> oe)) (Block (halve <$> ze))
                        (Block (halve <$> oo)) (Block (halve <$> zo)) st).
Proof.
  intros HN Eoe Eze Eoo Ezo Loe Lze Loo Lzo. unfold scaleStats.
  rewrite Z.shiftl_1_l. pose proof (pow2_N_bounds _ HN).
  apply (scaleStats_loop_spec _ 0); rewrite ?halved_below_0; try assumption; lia.
Qed.

(** ** Counting the bit *)

Lemma tbl_incr_ok (cells : list Z) (i c : Z) :
  cells !! Z.to_nat i = Some c -> 0 <= c < INM_MAX_COUNT ->
  tbl_incr (Block cells) i = Normal (Block (<[Z.to_nat i := c + 1]> cells)).
Proof.
  intros Hc Hr. unfold tbl_incr, tbl_get. rewrite Hc. cbn [mbind outcome_bind tbl_set].
  rewrite decide_True by (eapply lookup_lt_Some; eassumption).
  change INM_MAX_COUNT with 16384 in Hr. rewrite u32_small by lia. reflexivity.
Qed.

Lemma tbl_get_insert (cells : list Z) (i c v : Z) :
  cells !! Z.to_nat i = Some c ->
  tbl_get (Block (<[Z.to_nat i := v]> cells)) i = Normal v.
Proof.
  intros Hc. unfold tbl_get.
  rewrite list_lookup_insert_eq by (eapply lookup_lt_Some; eassumption). reflexivity.
Qed.

Lemma count_bit_spec (bit ev : bool) (st : state) :
  shape_ok st ->
  exists cells c,
    selected bit ev st = Block cells
    /\ cells !! Z.to_nat (inmPrevBits st) = Some c
    /\ 0 <= c < INM_MAX_COUNT
    /\ count_bit bit ev st
       = Normal (let st1 := set_selected bit ev
                              (Block (<[Z.to_nat (inmPrevBits st) := c + 1]> cells)) st in
                 if c + 1 =? INM_MAX_COUNT then halve_tables st1 else st1).
Proof.
  intros [HN Hw Hoe Hze Hoo Hzo].
  destruct (table_ok_get _ _ _ Hoe ltac:(lia) Hw) as (oe & coe & Eoe & Loe & Goe & Roe).
  destruct (table_ok_get _ _ _ Hze ltac:(lia) Hw) as (ze & cze & Eze & Lze & Gze & Rze).
  destruct (table_ok_get _ _ _ Hoo ltac:(lia) Hw) as (oo & coo & Eoo & Loo & Goo & Roo).
  destruct (table_ok_get _ _ _ Hzo ltac:(lia) Hw) as (zo & czo & Ezo & Lzo & Gzo & Rzo).
  destruct Hoe as (? & Eoe' & Noe & _), Hze as (? & Eze' & Nze & _),
           Hoo as (? & Eoo' & Noo & _), Hzo as (? & Ezo' & Nzo & _).
  rewrite Eoe in Eoe'. rewrite Eze in Eze'. rewrite Eoo in Eoo'. rewrite Ezo in Ezo'.
  injection Eoe' as <-. injection Eze' as <-. injection Eoo' as <-. injection Ezo' as <-.
  destruct bit, ev; cbn [selected set_selected]; unfold count_bit.
  - exists oe, coe. split_and!; try assumption; try lia.
    rewrite Eoe, (tbl_incr_ok _ _ _ Loe Roe). cbn [mbind outcome_bind inmOnesEven set_OnesEven inmPrevBits].
    rewrite (tbl_get_insert _ _ _ _ Loe). cbn [mbind outcome_bind].
    destruct (coe + 1 =? INM_MAX_COUNT); [|reflexivity].
    erewrite scaleStats_spec; [| exact HN | reflexivity | exact Eze | exact Eoo | exact Ezo
                               | cbn [inmN set_OnesEven]; rewrite ?length_insert; assumption .. ].
    unfold halve_tables. cbn [inmOnesEven inmZerosEven inmOnesOdd inmZerosOdd set_OnesEven].
    rewrite Eze, Eoo, Ezo. reflexivity.
  - exists oo, coo. split_and!; try assumption; try lia.
    rewrite Eoo, (tbl_incr_ok _ _ _ Loo Roo). cbn [mbind outcome_bind inmOnesOdd set_OnesOdd inmPrevBits].
    rewrite (tbl_get_insert _ _ _ _ Loo). cbn [mbind outcome_bind].
    destruct (coo + 1 =? INM_MAX_COUNT); [|reflexivity].
    erewrite scaleStats_spec; [| exact HN | exact Eoe | exact Eze | reflexivity | exact Ezo
                               | cbn [inmN set_OnesOdd]; rewrite ?length_insert; assumption .. ].
    unfold halve_tables. cbn [inmOnesEven inmZerosEven inmOnesOdd inmZerosOdd set_OnesOdd].
    rewrite Eoe, Eze, Ezo. reflexivity.
  - exists ze, cze. split_and!; try assumption; try lia.
    rewrite Eze, (tbl_incr_ok _ _ _ Lze Rze). cbn [mbind outcome_bind inmZerosEven set_ZerosEven inmPrevBits].
    rewrite (tbl_get_insert _ _ _ _ Lze). cbn [mbind outcome_bind].
    destruct (cze + 1 =? INM_MAX_COUNT); [|reflexivity].
    erewrite scaleStats_spec; [| exact HN | exact Eoe | reflexivity | exact Eoo | exact Ezo
                               | cbn [inmN set_ZerosEven]; rewrite ?length_insert; assumption .. ].
    unfold halve_tables. cbn [inmOnesEven inmZerosEven inmOnesOdd inmZerosOdd set_ZerosEven].
    rewrite Eoe, Eoo, Ezo. reflexivity.
  - exists zo, czo. split_and!; try assumption; try lia.
    rewrite Ezo, (tbl_incr_ok _ _ _ Lzo Rzo). cbn [mbind outcome_bind inmZerosOdd set_ZerosOdd inmPrevBits].
    rewrite (tbl_get_insert _ _ _ _ Lzo). cbn [mbind outcome_bind].
    destruct (czo + 1 =? INM_MAX_COUNT); [|reflexivity].
    erewrite scaleStats_spec; [| exact HN | exact Eoe | exact Eze | exact Eoo | reflexivity
                               | cbn [inmN set_ZerosOdd]; rewrite ?length_insert; assumption .. ].
    unfold halve_tables. cbn [inmOnesEven inmZerosEven inmOnesOdd inmZerosOdd set_ZerosOdd].
    rewrite Eoe, Eze, Eoo. reflexivity.
Qed.

Lemma Forall_insert_le (cells : list Z) (i : nat) (v : Z) :
  Forall (fun c => 0 <= c < INM_MAX_COUNT) cells -> 0 <= v <= INM_MAX_COUNT ->
  Forall (fun c => 0 <= c <= INM_MAX_COUNT) (<[i := v]> cells).
Proof.
  intros Hall Hv. apply Forall_insert; [|exact Hv].
  eapply Forall_impl; [exact Hall|]. cbn beta. intros; lia.
Qed.

Lemma Forall_lt_le (cells : list Z) :
  Forall (fun c => 0 <= c < INM_MAX_COUNT) cells ->
  Forall (fun c => 0 <= c <= INM_MAX_COUNT) cells.
Proof. intros Hall. eapply Forall_impl; [exact Hall|]. cbn beta. intros; lia. Qed.

Lemma halve_table_ok (N : Z) (cells : list Z) :
  length cells = Z.to_nat (2 ^ N) ->
  Forall (fun c => 0 <= c <= INM_MAX_COUNT) cells ->
  table_ok N (halve_table (Block cells)).
Proof. intros Hlen Hall. exact (table_ok_halve N cells Hlen Hall). Qed.

Lemma halve_table_ok' (N : Z) (t : table) :
  table_ok N t -> table_ok N (halve_table t).
Proof.
  intros (cells & -> & Hlen & Hall). apply halve_table_ok; [assumption|].
  now apply Forall_lt_le.
Qed.

(** Counting keeps the tables in shape. *)
Lemma count_bit_shape (bit ev : bool) (st : state) :
  shape_ok st ->
  exists st', count_bit bit ev st = Normal st' /\ shape_ok st'
              /\ st' = with_tables (inmOnesEven st') (inmZerosEven st')
                                   (inmOnesOdd st') (inmZerosOdd st') st.
Proof.
  intros Hshape. destruct (count_bit_spec bit ev st Hshape) as (cells & c & Esel & Hc & Rc & ->).
  eexists. split; [reflexivity|]. cbn zeta.
  destruct Hshape as [HN Hw Hoe Hze Hoo Hzo].
  assert (Hsel : table_ok (inmN st) (Block cells)) by (rewrite <- Esel; destruct bit, ev; assumption).
  destruct Hsel as (cells' & [= <-] & Hlen & Hall).
  destruct (Z.eqb_spec (c + 1) INM_MAX_COUNT) as [Hmax | Hnot].
  - split.
    + destruct bit, ev; cbn [set_selected selected] in *; unfold halve_tables, with_tables;
        constructor; cbn; try assumption; try (apply halve_table_ok'; assumption);
        (apply halve_table_ok; [rewrite length_insert; assumption | apply Forall_insert_le; [assumption | lia]]).
    + destruct bit, ev, st; reflexivity.
  - split.
    + assert (Hins : table_ok (inmN st) (Block (<[Z.to_nat (inmPrevBits st) := c + 1]> cells))).
      { apply table_ok_insert; [exists cells; auto | lia]. }
      destruct bit, ev; cbn [set_selected selected] in *; constructor; cbn; assumption.
    + destruct bit, ev, st; reflexivity.
Qed.

(** ** The pure steps keep the tables and the window in shape *)

Lemma note_lanes_shape (c : call) (st : state) : shape_ok st -> shape_ok (note_lanes c st).
Proof.
  intros [HN Hw Hoe Hze Hoo Hzo]. unfold note_lanes.
  repeat case_match; constructor; cbn; assumption.
Qed.

Lemma shift_window_N (bit : bool) (st : state) : inmN (shift_window bit st) = inmN st.
Proof. reflexivity. Qed.

Lemma shift_window_shape (bit : bool) (st : state) :
  shape_ok st -> shape_ok (shift_window bit st).
Proof.
  intros [HN Hw Hoe Hze Hoo Hzo]. constructor; try assumption.
  rewrite shift_window_N. now apply shift_window_bound.
Qed.

Lemma check_sequence_shape (bit : bool) (st st' : state) :
  check_sequence bit st = Normal st' -> shape_ok st -> shape_ok st'.
Proof.
  unfold check_sequence. intros Hcheck [HN Hw Hoe Hze Hoo Hzo].
  repeat case_match; simplify_eq; constructor; cbn; assumption.
Qed.

Lemma scale_shape (st : state) :
  shape_ok st -> shape_ok (scaleZeroOneCounts (scaleEntropy st)).
Proof.
  intros [HN Hw Hoe Hze Hoo Hzo]. unfold scaleZeroOneCounts, scaleEntropy.
  repeat case_match; constructor; cbn; assumption.
Qed.

(** ** The running probability *)

Lemma unit_le_weaken (lo lo' : Z) (x : double) :
  lo' <= lo -> B64.unit_le lo x -> B64.unit_le lo' x.
Proof.
  intros Hlo (m & e & -> & Hm & He & Hone). exists m, e. split_and!; try reflexivity; lia.
Qed.

Lemma above_half_unit (x : double) : B64.above_half x -> B64.unit_le (-53) x.
Proof.
  intros (m & e & -> & Hm & He). exists m, e. split_and!; try reflexivity; lia.
Qed.

(** A ratio of counts [a/b] with [1 <= a <= b] is a normal double of (0, 1]. *)
Lemma div_counts (a b : Z) :
  1 <= a <= b -> b < 2 ^ 32 ->
  B64.unit_le (-84) (B64.div (B64.of_uint a) (B64.of_uint b)).
Proof.
  intros Hab Hb.
  destruct (of_uint_normal a) as (ma & Ea & Hma); [lia|].
  destruct (of_uint_normal b) as (mb & Eb & Hmb); [lia|].
  rewrite Ea, Eb.
  pose proof (Z.log2_le_mono a b ltac:(lia)) as Hmono.
  pose proof (Z.log2_nonneg a) as Hla.
  assert (Hlb : Z.log2 b < 32) by (apply Z.log2_lt_pow2; lia).
  pose proof (Z.log2_spec a ltac:(lia)) as [Alo Ahi].
  pose proof (Z.log2_spec b ltac:(lia)) as [Blo Bhi].
  set (La := Z.log2 a) in *. set (Lb := Z.log2 b) in *.
  assert (Hpa : 0 < 2 ^ (52 - La)) by (apply Z.pow_pos_nonneg; lia).
  assert (Hpb : 0 < 2 ^ (52 - Lb)) by (apply Z.pow_pos_nonneg; lia).
  assert (Ha52 : 2 ^ 52 = 2 ^ La * 2 ^ (52 - La)) by (rewrite <- Z.pow_add_r by lia; f_equal; lia).
  assert (Ha53 : 2 ^ 53 = 2 ^ Z.succ La * 2 ^ (52 - La)) by (rewrite <- Z.pow_add_r by lia; f_equal; lia).
  assert (Hb52 : 2 ^ 52 = 2 ^ Lb * 2 ^ (52 - Lb)) by (rewrite <- Z.pow_add_r by lia; f_equal; lia).
  assert (Hb53 : 2 ^ 53 = 2 ^ Z.succ Lb * 2 ^ (52 - Lb)) by (rewrite <- Z.pow_add_r by lia; f_equal; lia).
  assert (Na : 2 ^ 52 <= Z.pos ma < 2 ^ 53).
  { rewrite Hma, Ha52, Ha53. split; [apply Z.mul_le_mono_nonneg_r | apply Z.mul_lt_mono_pos_r]; lia. }
  assert (Nb : 2 ^ 52 <= Z.pos mb < 2 ^ 53).
  { rewrite Hmb, Hb52, Hb53. split; [apply Z.mul_le_mono_nonneg_r | apply Z.mul_lt_mono_pos_r]; lia. }
  apply (unit_le_weaken (La - 52 - (Lb - 52) - 53)); [lia|].
  apply div_le_one; try assumption; try lia.
  destruct (Z.eq_dec La Lb) as [Heq | Hne]; [right | left; lia].
  split; [lia|]. rewrite Hma, Hmb, Heq. apply Z.mul_le_mono_nonneg_r; lia.
Qed.

Lemma update_probability_unit (bit : bool) (zeros ones : Z) (st : state) :
  B64.above_half (inmCurrentProbability st) ->
  0 <= zeros < INM_MAX_COUNT -> 0 <= ones < INM_MAX_COUNT ->
  B64.unit_le (-85) (inmCurrentProbability (update_probability bit zeros ones st)).
Proof.
  intros Hp Hz Ho. change INM_MAX_COUNT with 16384 in *.
  apply above_half_unit in Hp. unfold update_probability.
  rewrite (u32_small (zeros + ones)) by lia.
  destruct bit.
  - destruct (Z.eqb_spec ones 0) as [-> | Hnz]; cbn [negb].
    + now apply (unit_le_weaken (-53)).
    + cbn [inmCurrentProbability set_CurrentProbability].
      change (-85) with (-53 + -84 + 52). apply mul_unit; try lia; [assumption|].
      apply div_counts; lia.
  - destruct (Z.eqb_spec zeros 0) as [-> | Hnz]; cbn [negb].
    + now apply (unit_le_weaken (-53)).
    + cbn [inmCurrentProbability set_CurrentProbability].
      change (-85) with (-53 + -84 + 52). apply mul_unit; try lia; [assumption|].
      apply div_counts; lia.
Qed.

Lemma credit_unit_probability (st : state) :
  inmCurrentProbability (credit_unit st) = B64.mul (inmCurrentProbability st) B64.two.
Proof. unfold credit_unit, charge_unit. case_match; reflexivity. Qed.

(** From a normal double of (0, 1] the loop ends, above 0.5, after at most
    as many rounds as the exponent is below -52. *)
Lemma emit_entropy_terminates (fuel : nat) (st : state) (m : positive) (e : Z) :
  inmCurrentProbability st = S754_finite false m e ->
  2 ^ 52 <= Z.pos m < 2 ^ 53 -> -500 <= e <= -52 -> (e = -52 -> Z.pos m = 2 ^ 52) ->
  -52 - e <= Z.of_nat fuel ->
  exists st', emit_entropy fuel st = Normal st'
              /\ B64.above_half (inmCurrentProbability st').
Proof.
  revert st e. induction fuel as [|fuel IH]; intros st e Hp Hm He Hone Hfuel.
  - assert (e = -52) by lia. subst e. cbn [emit_entropy]. rewrite Hp, leb_half.
    cbn [Z.ltb Z.eqb Z.compare orb andb]. exists st. split; [reflexivity|].
    rewrite Hp. exists m, (-52). split_and!; try reflexivity; lia.
  - cbn [emit_entropy]. rewrite Hp, leb_half.
    destruct ((e <? -53) || (e =? -53) && (Z.pos m <=? 2 ^ 52)) eqn:Hleb.
    + assert (Hcase : e < -53 \/ (e = -53 /\ Z.pos m <= 2 ^ 52)).
      { apply orb_true_iff in Hleb as [H | H]; [left; lia|].
        apply andb_true_iff in H as [H1 H2]. right. lia. }
      apply (IH (credit_unit st) (e + 1)); try lia.
      rewrite credit_unit_probability, Hp. apply mul_two; lia.
    + assert (Hcase : e = -52 \/ (e = -53 /\ 2 ^ 52 < Z.pos m)).
      { apply orb_false_iff in Hleb as [H1 H2]. apply andb_false_iff in H2. 
        destruct (Z.eq_dec e (-52)); [left; assumption | right].
        destruct H2 as [H2 | H2]; lia. }
      exists st. split; [reflexivity|]. rewrite Hp. exists m, e.
      split_and!; try reflexivity; lia.
Qed.

Lemma emit_entropy_total (st : state) :
  B64.unit_le (-85) (inmCurrentProbability st) ->
  exists st', emit_entropy emit_fuel st = Normal st'
              /\ B64.above_half (inmCurrentProbability st').
Proof.
  intros (m & e & Hp & Hm & He & Hone).
  apply (emit_entropy_terminates emit_fuel st m e); try assumption; try lia.
  unfold emit_fuel. lia.
Qed.

(** What the loop leaves alone. *)
Lemma with_credit_id (st : state) :
  st = with_credit (inmCurrentProbability st) (inmNumBitsOfEntropy st) (inmEntropyLevel st) st.
Proof. now destruct st. Qed.

Lemma credit_unit_frame (st : state) :
  credit_unit st
  = with_credit (inmCurrentProbability (credit_unit st)) (inmNumBitsOfEntropy (credit_unit st))
                (inmEntropyLevel (credit_unit st)) st.
Proof. unfold credit_unit, charge_unit. case_match; now destruct st. Qed.

Lemma emit_entropy_frame (fuel : nat) (st st' : state) :
  emit_entropy fuel st = Normal st' ->
  st' = with_credit (inmCurrentProbability st') (inmNumBitsOfEntropy st')
                    (inmEntropyLevel st') st.
Proof.
  revert st. induction fuel as [|fuel IH]; intros st; cbn [emit_entropy];
    destruct (B64.leb (inmCurrentProbability st) B64.half); intros Hemit; simplify_eq;
    try apply with_credit_id.
  apply IH in Hemit. rewrite Hemit, (credit_unit_frame st). reflexivity.
Qed.

(** ** The counters *)

Ltac consts :=
  change INM_MIN_DATA with 80000 in *; change INM_MAX_SEQUENCE with 20 in *;
  change INM_MAX_ENTROPY with 1600 in *.

Lemma note_lanes_counters (hs ht : Z) (c : call) (st : state) :
  counters_ok hs ht st -> counters_ok hs ht (note_lanes c st).
Proof.
  intros []. unfold note_lanes.
  repeat case_match; constructor; cbn; try assumption; try apply u32_range; apply u64_range.
Qed.

Lemma shift_window_counters (hs ht : Z) (bit : bool) (st : state) :
  counters_ok hs ht st -> counters_ok hs ht (shift_window bit st).
Proof. intros []. constructor; assumption. Qed.

Lemma check_sequence_counters (hs : Z) (bit : bool) (st st' : state) :
  check_sequence bit st = Normal st' ->
  counters_ok hs (INM_MIN_DATA - 1) st -> counters_ok hs INM_MIN_DATA st'.
Proof.
  unfold check_sequence. intros Hcheck []. consts.
  repeat case_match; simplify_eq; constructor; cbn in *; consts; try lia;
    rewrite ?u32_small in * by lia; lia.
Qed.

Lemma update_probability_counters (hs ht : Z) (bit : bool) (zeros ones : Z) (st : state) :
  counters_ok hs ht st -> counters_ok hs ht (update_probability bit zeros ones st).
Proof. intros []. unfold update_probability. repeat case_match; constructor; assumption. Qed.

Lemma credit_unit_counters (hs ht : Z) (st : state) :
  counters_ok hs ht st -> counters_ok hs ht (credit_unit st).
Proof.
  intros []. unfold credit_unit, charge_unit. consts.
  case_match eqn:Htest; constructor; cbn in *; try assumption; try apply u32_range.
  apply andb_true_iff in Htest as [_ Hlt]. apply Z.ltb_lt in Hlt. consts.
  rewrite u32_small by lia. lia.
Qed.

Lemma emit_entropy_counters (hs ht : Z) (fuel : nat) (st st' : state) :
  emit_entropy fuel st = Normal st' -> counters_ok hs ht st -> counters_ok hs ht st'.
Proof.
  revert st. induction fuel as [|fuel IH]; intros st; cbn [emit_entropy];
    destruct (B64.leb (inmCurrentProbability st) B64.half); intros Hemit Hcnt; simplify_eq;
    try assumption.
  apply (IH _ Hemit). now apply credit_unit_counters.
Qed.

Lemma sample_counters (ht : Z) (st : state) :
  counters_ok (INM_MIN_DATA - 1) ht st ->
  counters_ok INM_MIN_DATA ht (set_NumBitsSampled (u32 (inmNumBitsSampled st + 1)) st).
Proof.
  intros []. consts. constructor; cbn; try assumption. rewrite u32_small by lia. lia.
Qed.

Lemma with_tables_counters (hs ht : Z) (oe ze oo zo : table) (st : state) :
  counters_ok hs ht st -> counters_ok hs ht (with_tables oe ze oo zo st).
Proof. intros []. constructor; assumption. Qed.

Lemma half_range (z hi : Z) : 0 <= z < hi -> 0 <= Z.shiftr z 1 < hi.
Proof.
  intros H. rewrite shiftr_1_half. split; [apply Z.div_pos; lia|].
  apply Z.div_lt_upper_bound; lia.
Qed.

Lemma half_le (z hi : Z) : 0 <= z <= 2 * hi + 1 -> 0 <= Z.shiftr z 1 <= hi.
Proof.
  intros H. rewrite shiftr_1_half. split; [apply Z.div_pos; lia|].
  apply Z.lt_succ_r, Z.div_lt_upper_bound; lia.
Qed.

Ltac bool_hyps :=
  repeat match goal with
         | H : (_ =? _) = true |- _ => apply Z.eqb_eq in H
         | H : (_ =? _) = false |- _ => apply Z.eqb_neq in H
         | H : (_ <=? _) = true |- _ => apply Z.leb_le in H
         | H : (_ <=? _) = false |- _ => apply Z.leb_gt in H
         | H : (_ <? _) = true |- _ => apply Z.ltb_lt in H
         | H : (_ <? _) = false |- _ => apply Z.ltb_ge in H
         end.

Lemma scale_counters (st : state) :
  counters_ok INM_MIN_DATA INM_MIN_DATA st ->
  counters_ok (INM_MIN_DATA - 1) (INM_MIN_DATA - 1) (scaleZeroOneCounts (scaleEntropy st)).
Proof.
  intros []. unfold scaleZeroOneCounts, scaleEntropy. consts.
  repeat case_match; constructor; cbn in *; consts; bool_hyps; try assumption;
    try (apply half_range; lia); try (apply half_le; lia); lia.
Qed.

(** ** One call, step by step *)

Lemma steps_result (c : call) (st s2 : state) (zeros ones : Z) (s4 s6 : state) :
  steps c st s2 zeros ones s4 s6 ->
  inmHealthCheckAddBit c st = Normal (true, scaleZeroOneCounts (scaleEntropy s6)).
Proof.
  intros [H1 H2 H3 H4]. unfold inmHealthCheckAddBit.
  rewrite H1. cbn [mbind outcome_bind]. rewrite H2. cbn [mbind outcome_bind].
  rewrite H3. cbn [mbind outcome_bind]. rewrite H4. reflexivity.
Qed.

Lemma addBit_inv (c : call) (st : state) (b : bool) (st' : state) :
  inmHealthCheckAddBit c st = Normal (b, st') ->
  exists s2 zeros ones s4 s6,
    steps c st s2 zeros ones s4 s6
    /\ b = true /\ st' = scaleZeroOneCounts (scaleEntropy s6).
Proof.
  unfold inmHealthCheckAddBit. intros H.
  destruct (check_sequence _ _) as [s2| | |] eqn:H1; try discriminate.
  cbn [mbind outcome_bind] in H.
  destruct (lane_counts _ _) as [[zeros ones]| | |] eqn:H2; try discriminate.
  cbn [mbind outcome_bind] in H.
  destruct (emit_entropy _ _) as [s4| | |] eqn:H3; try discriminate.
  cbn [mbind outcome_bind] in H.
  destruct (count_bit _ _ _) as [s6| | |] eqn:H4; try discriminate.
  cbn [mbind outcome_bind] in H. injection H as <- <-.
  exists s2, zeros, ones, s4, s6. split; [constructor; assumption | auto].
Qed.

Lemma lane_counts_ok (ev : bool) (st : state) :
  shape_ok st ->
  exists zeros ones, lane_counts ev st = Normal (zeros, ones)
    /\ 0 <= zeros < INM_MAX_COUNT /\ 0 <= ones < INM_MAX_COUNT
    /\ tbl_get (selected false ev st) (inmPrevBits st) = Normal zeros
    /\ tbl_get (selected true ev st) (inmPrevBits st) = Normal ones.
Proof.
  intros [HN Hw Hoe Hze Hoo Hzo]. unfold lane_counts, selected. destruct ev.
  - destruct (table_ok_get _ _ _ Hze ltac:(lia) Hw) as (? & zeros & _ & _ & -> & Rz).
    destruct (table_ok_get _ _ _ Hoe ltac:(lia) Hw) as (? & ones & _ & _ & -> & Ro).
    exists zeros, ones. auto.
  - destruct (table_ok_get _ _ _ Hzo ltac:(lia) Hw) as (? & zeros & _ & _ & -> & Rz).
    destruct (table_ok_get _ _ _ Hoo ltac:(lia) Hw) as (? & ones & _ & _ & -> & Ro).
    exists zeros, ones. auto.
Qed.

Lemma check_sequence_cases (bit : bool) (st : state) :
  check_sequence bit st = Exited 1 \/ exists st', check_sequence bit st = Normal st'.
Proof. unfold check_sequence. repeat case_match; eauto. Qed.

Lemma check_sequence_probability (bit : bool) (st st' : state) :
  check_sequence bit st = Normal st' -> inmCurrentProbability st' = inmCurrentProbability st.
Proof. unfold check_sequence. intros H. repeat case_match; simplify_eq; reflexivity. Qed.

Lemma note_lanes_probability (c : call) (st : state) :
  inmCurrentProbability (note_lanes c st) = inmCurrentProbability st.
Proof. unfold note_lanes. repeat case_match; reflexivity. Qed.

Lemma update_probability_shape (bit : bool) (zeros ones : Z) (st : state) :
  shape_ok st -> shape_ok (update_probability bit zeros ones st).
Proof. intros []. unfold update_probability. repeat case_match; constructor; assumption. Qed.

Lemma with_credit_shape (p : double) (units level : Z) (st : state) :
  shape_ok st -> shape_ok (with_credit p units level st).
Proof. intros []. constructor; assumption. Qed.

Lemma emit_entropy_shape (fuel : nat) (st st' : state) :
  emit_entropy fuel st = Normal st' -> shape_ok st -> shape_ok st'.
Proof. intros H Hs. rewrite (emit_entropy_frame _ _ _ H). now apply with_credit_shape. Qed.

Lemma scale_probability (st : state) :
  inmCurrentProbability (scaleZeroOneCounts (scaleEntropy st)) = inmCurrentProbability st.
Proof. unfold scaleZeroOneCounts, scaleEntropy. repeat case_match; reflexivity. Qed.

Lemma steps_facts (c : call) (st s2 : state) (zeros ones : Z) (s4 s6 : state) :
  Inv st -> steps c st s2 zeros ones s4 s6 -> steps_ok st s2 s4 s6 zeros ones.
Proof.
  intros [Hshape Hcnt Hprob] [H1 H2 H3 H4].
  assert (Hs2 : shape_ok s2).
  { eapply check_sequence_shape; [exact H1|]. now apply shift_window_shape, note_lanes_shape. }
  assert (Hc2 : counters_ok (INM_MIN_DATA - 1) INM_MIN_DATA s2).
  { eapply check_sequence_counters; [exact H1|].
    now apply shift_window_counters, note_lanes_counters. }
  assert (Hp2 : inmCurrentProbability s2 = inmCurrentProbability st).
  { rewrite (check_sequence_probability _ _ _ H1). cbn [shift_window inmCurrentProbability set_PrevBit set_PrevBits].
    apply note_lanes_probability. }
  destruct (lane_counts_ok (even c) s2 Hs2) as (z & o & Hl & Hz & Ho & _).
  rewrite H2 in Hl. injection Hl as <- <-.
  assert (Hunit : B64.unit_le (-85)
            (inmCurrentProbability (update_probability (call_bit c) zeros ones s2))).
  { apply update_probability_unit; try assumption. now rewrite Hp2. }
  destruct (emit_entropy_total _ Hunit) as (s4' & Hemit & Hp4).
  rewrite H3 in Hemit. injection Hemit as <-.
  assert (Hs4 : shape_ok s4).
  { eapply emit_entropy_shape; [exact H3|]. now apply update_probability_shape. }
  assert (Hc4 : counters_ok (INM_MIN_DATA - 1) INM_MIN_DATA s4).
  { eapply emit_entropy_counters; [exact H3|]. now apply update_probability_counters. }
  assert (Hs5 : shape_ok (set_NumBitsSampled (u32 (inmNumBitsSampled s4 + 1)) s4)).
  { destruct Hs4. constructor; assumption. }
  destruct (count_bit_shape (call_bit c) (even c) _ Hs5) as (s6' & Hcount & Hs6 & Hf6).
  rewrite H4 in Hcount. injection Hcount as <-.
  constructor; assumption.
Qed.

(** A call from a well-formed state either ends the process at the guard on
    runs or goes through all its steps. *)
Lemma steps_exist (c : call) (st : state) :
  Inv st ->
  check_sequence (call_bit c) (shift_window (call_bit c) (note_lanes c st)) = Exited 1
  \/ exists s2 zeros ones s4 s6, steps c st s2 zeros ones s4 s6.
Proof.
  intros [Hshape Hcnt Hprob].
  destruct (check_sequence_cases (call_bit c) (shift_window (call_bit c) (note_lanes c st)))
    as [Hexit | [s2 H1]]; [left; assumption | right].
  assert (Hs2 : shape_ok s2).
  { eapply check_sequence_shape; [exact H1|]. now apply shift_window_shape, note_lanes_shape. }
  assert (Hp2 : inmCurrentProbability s2 = inmCurrentProbability st).
  { rewrite (check_sequence_probability _ _ _ H1). cbn [shift_window inmCurrentProbability set_PrevBit set_PrevBits].
    apply note_lanes_probability. }
  destruct (lane_counts_ok (even c) s2 Hs2) as (zeros & ones & H2 & Hz & Ho & _).
  assert (Hunit : B64.unit_le (-85)
            (inmCurrentProbability (update_probability (call_bit c) zeros ones s2))).
  { apply update_probability_unit; try assumption. now rewrite Hp2. }
  destruct (emit_entropy_total _ Hunit) as (s4 & H3 & Hp4).
  assert (Hs4 : shape_ok s4).
  { eapply emit_entropy_shape; [exact H3|]. now apply update_probability_shape. }
  assert (Hs5 : shape_ok (set_NumBitsSampled (u32 (inmNumBitsSampled s4 + 1)) s4)).
  { destruct Hs4. constructor; assumption. }
  destruct (count_bit_shape (call_bit c) (even c) _ Hs5) as (s6 & H4 & _).
  exists s2, zeros, ones, s4, s6. constructor; assumption.
Qed.

Lemma steps_Inv (c : call) (st s2 : state) (zeros ones : Z) (s4 s6 : state) :
  Inv st -> steps c st s2 zeros ones s4 s6 -> Inv (scaleZeroOneCounts (scaleEntropy s6)).
Proof.
  intros Hinv Hsteps. destruct (steps_facts _ _ _ _ _ _ _ Hinv Hsteps)
    as [sok_shape2 sok_counters2 sok_probability2 sok_zeros sok_ones sok_shape4
        sok_counters4 sok_probability4 sok_shape6 sok_frame6].
  constructor.
  - now apply scale_shape.
  - apply scale_counters. rewrite sok_frame6. apply with_tables_counters.
    apply sample_counters. assumption.
  - rewrite scale_probability, sok_frame6. exact sok_probability4.
Qed.

Lemma addBit_exit (c : call) (st : state) :
  check_sequence (call_bit c) (shift_window (call_bit c) (note_lanes c st)) = Exited 1 ->
  inmHealthCheckAddBit c st = Exited 1.
Proof. intros H. unfold inmHealthCheckAddBit. now rewrite H. Qed.

(** Every call from a well-formed state returns true and leaves a well-formed
    state, or ends the process with status 1. *)
Lemma addBit_progress (c : call) (st : state) :
  Inv st ->
  inmHealthCheckAddBit c st = Exited 1
  \/ exists st', inmHealthCheckAddBit c st = Normal (true, st') /\ Inv st'.
Proof.
  intros Hinv. destruct (steps_exist c st Hinv) as [Hexit | (s2 & z & o & s4 & s6 & Hsteps)].
  - left. now apply addBit_exit.
  - right. eexists. split; [exact (steps_result _ _ _ _ _ _ _ Hsteps)|].
    eapply steps_Inv; eassumption.
Qed.

Lemma addBit_Inv (c : call) (st : state) (b : bool) (st' : state) :
  Inv st -> inmHealthCheckAddBit c st = Normal (b, st') -> Inv st'.
Proof.
  intros Hinv H. destruct (addBit_progress c st Hinv) as [Hexit | (st'' & Hret & Hinv')];
    congruence.
Qed.

Lemma run_Inv (calls : list call) (st st' : state) :
  Inv st -> run calls st = Normal st' -> Inv st'.
Proof.
  revert st. induction calls as [|c calls IH]; intros st Hinv; cbn [run].
  - now intros [= <-].
  - destruct (inmHealthCheckAddBit c st) as [[b s]| | |] eqn:Hcall; try discriminate.
    cbn [mbind outcome_bind snd]. apply IH. eapply addBit_Inv; eassumption.
Qed.

Lemma run_app (calls calls' : list call) (st : state) :
  run (calls ++ calls') st = (s ← run calls st; run calls' s).
Proof.
  revert st. induction calls as [|c calls IH]; intros st; [reflexivity|].
  cbn [run app]. destruct (inmHealthCheckAddBit c st) as [[b s]| | |]; cbn [mbind outcome_bind]; auto.
Qed.

(** ** Starting the engine *)

Lemma one_above_half : B64.above_half B64.one.
Proof.
  exists 4503599627370496%positive, (-52). split_and!; try reflexivity; cbn; lia.
Qed.

Lemma calloc_ok (granted : bool) (N : Z) :
  1 <= N <= 30 -> calloc granted (u32 (Z.shiftl 1 N)) <> Null ->
  table_ok N (calloc granted (u32 (Z.shiftl 1 N))).
Proof.
  intros HN Hsome. destruct granted; [|contradiction]. unfold calloc.
  rewrite Z.shiftl_1_l. pose proof (pow2_N_bounds N HN). rewrite u32_small by lia.
  eexists. split_and!; [reflexivity | apply length_replicate |].
  apply Forall_replicate. change INM_MAX_COUNT with 16384. lia.
Qed.

Section Start.

Variable log : double -> double.

Lemma start_rejects (N : Z) (K : double) (debug : bool) (granted : nat -> bool) (st : state) :
  N < 1 \/ 30 < N -> inmHealthCheckStart log N K debug granted st = Normal (false, st).
Proof.
  intros HN. unfold inmHealthCheckStart.
  replace ((N <? 1) || (30 <? N)) with true; [reflexivity|].
  symmetry. apply orb_true_iff. destruct HN; [left; apply Z.ltb_lt | right; apply Z.ltb_lt]; lia.
Qed.

Lemma start_Inv (N : Z) (K : double) (debug : bool) (granted : nat -> bool) (st st0 : state) :
  inmHealthCheckStart log N K debug granted st = Normal (true, st0) ->
  Inv st0 /\ 1 <= N <= 30 /\ inmN st0 = N
  /\ inmTotalBits st0 = 0 /\ inmNumBitsSampled st0 = 0
  /\ inmCurrentProbability st0 = B64.one /\ inmEntropyLevel st0 = 0
  /\ inmExpectedEntropyPerBit st0 = B64.div (log K) (log B64.two).
Proof.
  unfold inmHealthCheckStart.
  destruct ((N <? 1) || (30 <? N)) eqn:HN; [discriminate|].
  apply orb_false_iff in HN as [H1 H30]. apply Z.ltb_ge in H1, H30.
  cbv zeta. match goal with |- (if tables_allocated ?s then _ else _) = _ -> _ => set (s0 := s) end.
  destruct (tables_allocated s0) eqn:Halloc;
    [|destruct (inmHealthCheckStop s0); discriminate]. intros [= <-].
  unfold tables_allocated in Halloc.
  assert (Hoe : inmOnesEven s0 <> Null)
    by (destruct (inmOnesEven s0); (discriminate || discriminate Halloc)).
  assert (Hze : inmZerosEven s0 <> Null)
    by (destruct (inmOnesEven s0), (inmZerosEven s0); (discriminate || discriminate Halloc)).
  assert (Hoo : inmOnesOdd s0 <> Null)
    by (destruct (inmOnesEven s0), (inmZerosEven s0), (inmOnesOdd s0); (discriminate || discriminate Halloc)).
  assert (Hzo : inmZerosOdd s0 <> Null)
    by (destruct (inmOnesEven s0), (inmZerosEven s0), (inmOnesOdd s0), (inmZerosOdd s0);
        (discriminate || discriminate Halloc)).
  clear Halloc. subst s0. cbn in Hoe, Hze, Hoo, Hzo.
  split_and!; try reflexivity; try lia.
  constructor.
  - assert (0 < 2 ^ N) by (apply Z.pow_pos_nonneg; lia).
    constructor; cbn; try lia; apply calloc_ok; (lia || assumption).
  - constructor; cbn; change INM_MIN_DATA with 80000; change INM_MAX_SEQUENCE with 20;
      change INM_MAX_ENTROPY with 1600; lia.
  - apply one_above_half.
Qed.

End Start.

(** ** What a call leaves in each variable *)

Lemma keeps_refl (l : list field) (s : state) : keeps l s s.
Proof. intros f _. reflexivity. Qed.

Lemma keeps_trans (l1 l2 : list field) (s1 s2 s3 : state) :
  keeps l1 s1 s2 -> keeps l2 s2 s3 -> keeps (l1 ++ l2) s1 s3.
Proof.
  intros H12 H23 f Hf. rewrite H23, H12; [reflexivity | |]; intros Hin; apply Hf, in_or_app; auto.
Qed.

Lemma keeps_weaken (l l' : list field) (s s' : state) :
  (forall f, In f l -> In f l') -> keeps l s s' -> keeps l' s s'.
Proof. intros Hsub H f Hf. apply H. intros Hin. apply Hf, Hsub, Hin. Qed.

(** Closes [keeps l s s'] when [s'] is [s] under assignments to variables
    of [l]. *)
Ltac keeps_by_cases :=
  let f := fresh "f" in
  let Hf := fresh "Hf" in
  intros f Hf; destruct f; try reflexivity; exfalso; apply Hf; cbn; tauto.

Lemma note_lanes_keeps (c : call) (st : state) :
  keeps [F_EvenMisfires; F_OddMisfires; F_PrevEven; F_PrevOdd; F_TotalBits] st (note_lanes c st).
Proof. unfold note_lanes. repeat case_match; keeps_by_cases. Qed.

Lemma shift_window_keeps (bit : bool) (st : state) :
  keeps [F_PrevBits; F_PrevBit] st (shift_window bit st).
Proof. unfold shift_window. keeps_by_cases. Qed.

Lemma check_sequence_keeps (bit : bool) (st st' : state) :
  check_sequence bit st = Normal st' -> keeps written_by_guard st st'.
Proof.
  unfold check_sequence. intros H.
  repeat case_match; try discriminate; injection H as <-; keeps_by_cases.
Qed.

Lemma update_probability_keeps (bit : bool) (zeros ones : Z) (st : state) :
  keeps [F_CurrentProbability] st (update_probability bit zeros ones st).
Proof. unfold update_probability. repeat case_match; keeps_by_cases. Qed.

Lemma emit_entropy_keeps (fuel : nat) (st st' : state) :
  emit_entropy fuel st = Normal st' ->
  keeps [F_CurrentProbability; F_NumBitsOfEntropy; F_EntropyLevel] st st'.
Proof. intros H. rewrite (emit_entropy_frame _ _ _ H). keeps_by_cases. Qed.

Lemma scaleEntropy_keeps (st : state) :
  keeps [F_NumBitsOfEntropy; F_NumBitsSampled; F_EvenMisfires; F_OddMisfires] st (scaleEntropy st).
Proof. unfold scaleEntropy. case_match; keeps_by_cases. Qed.

Lemma scaleZeroOneCounts_keeps (st : state) :
  keeps [F_TotalZeros; F_TotalOnes] st (scaleZeroOneCounts st).
Proof. unfold scaleZeroOneCounts. repeat case_match; keeps_by_cases. Qed.

(** A returning call writes nothing but what its steps write. *)
Lemma steps_keeps (c : call) (st s2 : state) (zeros ones : Z) (s4 s6 : state) :
  Inv st -> steps c st s2 zeros ones s4 s6 ->
  keeps written_before_guard st (shift_window (call_bit c) (note_lanes c st))
  /\ keeps written_by_guard (shift_window (call_bit c) (note_lanes c st)) s2
  /\ keeps [F_CurrentProbability; F_NumBitsOfEntropy; F_EntropyLevel] s2 s4
  /\ keeps [F_NumBitsSampled; F_OnesEven; F_ZerosEven; F_OnesOdd; F_ZerosOdd] s4 s6
  /\ keeps [F_NumBitsOfEntropy; F_NumBitsSampled; F_EvenMisfires; F_OddMisfires;
            F_TotalZeros; F_TotalOnes] s6 (scaleZeroOneCounts (scaleEntropy s6))
  /\ keeps written_after_guard s2 (scaleZeroOneCounts (scaleEntropy s6)).
Proof.
  intros Hinv Hsteps. destruct (steps_facts _ _ _ _ _ _ _ Hinv Hsteps)
    as [sok_shape2 sok_counters2 sok_probability2 sok_zeros sok_ones sok_shape4
        sok_counters4 sok_probability4 sok_shape6 sok_frame6].
  destruct Hsteps as [H1 H2 H3 H4].
  assert (K1 : keeps written_before_guard st (shift_window (call_bit c) (note_lanes c st))).
  { eapply keeps_weaken; [|eapply keeps_trans; [apply note_lanes_keeps | apply shift_window_keeps]].
    cbn. tauto. }
  assert (K2 := check_sequence_keeps _ _ _ H1).
  assert (K4 : keeps [F_CurrentProbability; F_NumBitsOfEntropy; F_EntropyLevel] s2 s4).
  { eapply keeps_weaken;
      [|eapply keeps_trans; [apply update_probability_keeps | exact (emit_entropy_keeps _ _ _ H3)]].
    cbn. tauto. }
  assert (K6 : keeps [F_NumBitsSampled; F_OnesEven; F_ZerosEven; F_OnesOdd; F_ZerosOdd] s4 s6).
  { rewrite sok_frame6. keeps_by_cases. }
  assert (K8 : keeps [F_NumBitsOfEntropy; F_NumBitsSampled; F_EvenMisfires; F_OddMisfires;
                      F_TotalZeros; F_TotalOnes] s6 (scaleZeroOneCounts (scaleEntropy s6))).
  { eapply keeps_weaken;
      [|eapply keeps_trans; [apply scaleEntropy_keeps | apply scaleZeroOneCounts_keeps]].
    cbn. tauto. }
  split_and!; try assumption.
  eapply keeps_weaken; [|eapply keeps_trans; [exact K4 | eapply keeps_trans; [exact K6 | exact K8]]].
  unfold written_after_guard. cbn. tauto.
Qed.

Lemma VZ_inj (a b : Z) : VZ a = VZ b -> a = b.
Proof. now intros [= ->]. Qed.

Lemma VB_inj (a b : bool) : VB a = VB b -> a = b.
Proof. now intros [= ->]. Qed.

Lemma VD_inj (a b : double) : VD a = VD b -> a = b.
Proof. now intros [= ->]. Qed.

Lemma VT_inj (a b : table) : VT a = VT b -> a = b.
Proof. now intros [= ->]. Qed.

(** Projections of assignments, computed in the goal. *)
Ltac fields_goal :=
  cbn [inmN inmPrevBits inmNumBitsSampled inmOnesEven inmZerosEven inmOnesOdd inmZerosOdd
       inmK inmExpectedEntropyPerBit inmNumBitsOfEntropy inmCurrentProbability inmTotalBits
       inmPrevBit inmEntropyLevel inmNumSequentialZeros inmNumSequentialOnes inmTotalOnes
       inmTotalZeros inmEvenMisfires inmOddMisfires inmPrevEven inmPrevOdd inmDebug
       set_N set_PrevBits set_NumBitsSampled set_OnesEven set_ZerosEven set_OnesOdd
       set_ZerosOdd set_K set_ExpectedEntropyPerBit set_NumBitsOfEntropy
       set_CurrentProbability set_TotalBits set_PrevBit set_EntropyLevel
       set_NumSequentialZeros set_NumSequentialOnes set_TotalOnes set_TotalZeros
       set_EvenMisfires set_OddMisfires set_PrevEven set_PrevOdd set_Debug
       with_tables with_credit].

(** Reads one variable off a [keeps] fact. *)
Ltac kept K f :=
  let H := fresh "E" in
  assert (H := K f ltac:(unfold written_after_guard, written_by_guard, written_before_guard;
                         cbn; intuition discriminate));
  unfold get in H;
  first [apply VZ_inj in H | apply VB_inj in H | apply VD_inj in H | apply VT_inj in H].

(** ** Quotients of counts *)

Lemma of_uint_finite (z : Z) : 0 <= z < 2 ^ 32 -> B64.is_finite (B64.of_uint z) = true.
Proof.
  intros Hz. destruct (Z.eq_dec z 0) as [-> | Hnz]; [reflexivity|].
  destruct (of_uint_normal z) as (m & -> & _); [lia | reflexivity].
Qed.

Lemma of_uint_mantissa (z : Z) (m : positive) :
  1 <= z < 2 ^ 32 -> Z.pos m = z * 2 ^ (52 - Z.log2 z) -> 2 ^ 52 <= Z.pos m < 2 ^ 53.
Proof.
  intros Hz Hm. pose proof (Z.log2_spec z ltac:(lia)) as [Lo Hi].
  pose proof (Z.log2_nonneg z).
  assert (Z.log2 z < 32) by (apply Z.log2_lt_pow2; lia).
  set (L := Z.log2 z) in *.
  assert (0 < 2 ^ (52 - L)) by (apply Z.pow_pos_nonneg; lia).
  assert (H52 : 2 ^ 52 = 2 ^ L * 2 ^ (52 - L)) by (rewrite <- Z.pow_add_r by lia; f_equal; lia).
  assert (H53 : 2 ^ 53 = 2 ^ Z.succ L * 2 ^ (52 - L)) by (rewrite <- Z.pow_add_r by lia; f_equal; lia).
  rewrite Hm, H52, H53. split; [apply Z.mul_le_mono_nonneg_r | apply Z.mul_lt_mono_pos_r]; lia.
Qed.

Lemma div_counts_finite (a b : Z) :
  0 <= a < 2 ^ 32 -> 1 <= b < 2 ^ 32 ->
  B64.is_finite (B64.div (B64.of_uint a) (B64.of_uint b)) = true.
Proof.
  intros Ha Hb. destruct (of_uint_normal b) as (mb & Eb & Hmb); [lia|].
  rewrite Eb. destruct (Z.eq_dec a 0) as [-> | Hnz]; [reflexivity|].
  destruct (of_uint_normal a) as (ma & Ea & Hma); [lia|]. rewrite Ea.
  pose proof (Z.log2_nonneg a). pose proof (Z.log2_nonneg b).
  assert (Z.log2 a < 32) by (apply Z.log2_lt_pow2; lia).
  assert (Z.log2 b < 32) by (apply Z.log2_lt_pow2; lia).
  destruct (div_finite ma mb (Z.log2 a - 52) (Z.log2 b - 52)) as (m & e & ->);
    [eapply of_uint_mantissa; [|eassumption]; lia
    | eapply of_uint_mantissa; [|eassumption]; lia | lia | reflexivity].
Qed.

(** ** The index of a call *)

Lemma lor_1_even (x : Z) : 0 <= x -> x mod 2 = 0 -> Z.lor x 1 = x + 1.
Proof.
  intros Hx Hev. rewrite <- Z.lxor_lor.
  - symmetry. apply Z.add_nocarry_lxor. change 1 with (Z.ones 1). rewrite Z.land_ones by lia. exact Hev.
  - change 1 with (Z.ones 1). rewrite Z.land_ones by lia. exact Hev.
Qed.

Lemma shift_window_index (bit : bool) (st : state) :
  1 <= inmN st <= 30 -> 0 <= inmPrevBits st < 2 ^ inmN st ->
  inmPrevBits (shift_window bit st)
  = (2 * inmPrevBits st) mod 2 ^ inmN st + (if inmPrevBit st then 1 else 0).
Proof.
  intros HN Hw. unfold shift_window. cbn [inmPrevBits set_PrevBit set_PrevBits].
  pose proof (pow2_N_bounds _ HN) as Hpow. change (2 ^ 30) with 1073741824 in Hpow.
  rewrite Z.shiftl_mul_pow2 by lia. change (2 ^ 1) with 2.
  rewrite u32_small by lia. rewrite Z.shiftl_1_l.
  replace (2 ^ inmN st - 1) with (Z.ones (inmN st)) by (rewrite Z.ones_equiv; lia).
  rewrite Z.land_ones by lia. rewrite (Z.mul_comm (inmPrevBits st) 2).
  destruct (inmPrevBit st); [|lia].
  apply lor_1_even.
  - apply Z.mod_pos_bound. lia.
  - replace (2 ^ inmN st) with (2 * 2 ^ (inmN st - 1))
      by (rewrite <- Z.pow_succ_r by lia; f_equal; lia).
    rewrite Z.mul_mod_distr_l by lia. rewrite Z.mul_comm. apply Z.mod_mul. lia.
Qed.

Lemma addBit_keeps (c : call) (st : state) (b : bool) (st' : state) :
  Inv st -> inmHealthCheckAddBit c st = Normal (b, st') ->
  keeps (written_before_guard ++ written_by_guard ++ written_after_guard) st st'.
Proof.
  intros Hinv Hcall. destruct (addBit_inv _ _ _ _ Hcall) as (s2 & z & o & s4 & s6 & Hsteps & _ & ->).
  destruct (steps_keeps _ _ _ _ _ _ _ Hinv Hsteps) as (K1 & K2 & _ & _ & _ & K3).
  eapply keeps_trans; [exact K1 | eapply keeps_trans; [exact K2 | exact K3]].
Qed.

Lemma run_keeps (calls : list call) (st st' : state) :
  Inv st -> run calls st = Normal st' ->
  keeps (written_before_guard ++ written_by_guard ++ written_after_guard) st st'.
Proof.
  revert st. induction calls as [|c calls IH]; intros st Hinv; cbn [run].
  - intros [= <-]. apply keeps_refl.
  - destruct (inmHealthCheckAddBit c st) as [[b s]| | |] eqn:Hcall; try discriminate.
    cbn [mbind outcome_bind snd]. intros Hrun.
    pose proof (addBit_keeps _ _ _ _ Hinv Hcall) as K1.
    pose proof (IH _ (addBit_Inv _ _ _ _ Hinv Hcall) Hrun) as K2.
    intros f Hf. rewrite K2, K1 by assumption. reflexivity.
Qed.

(** ** Halving *)

Lemma halve_floor (x : Z) : halve x = x / 2 /\ 2 * halve x <= x <= 2 * halve x + 1.
Proof.
  unfold halve. rewrite shiftr_1_half. split; [reflexivity|].
  pose proof (Z.div_mod x 2 ltac:(lia)). pose proof (Z.mod_pos_bound x 2 ltac:(lia)). lia.
Qed.

(** ** The doublings of the loop *)

Lemma above_half_in_half_one (x : double) : B64.above_half x -> B64.in_half_one x.
Proof.
  intros (m & e & -> & Hm & [[-> Hgt] | [-> Heq]]); unfold B64.in_half_one;
    rewrite ltb_half, leb_half, leb_one; cbn [Z.ltb Z.eqb Z.compare orb andb negb].
  - replace (Z.pos m <=? 2 ^ 52) with false by (symmetry; apply Z.leb_gt; lia). auto.
  - replace (Z.pos m <=? 2 ^ 52) with true by (symmetry; apply Z.leb_le; lia). auto.
Qed.

Lemma above_half_not_leb (x : double) : B64.above_half x -> B64.leb x B64.half = false.
Proof.
  intros (m & e & -> & Hm & [[-> Hgt] | [-> Heq]]); rewrite leb_half;
    cbn [Z.ltb Z.eqb Z.compare orb andb negb]; [|reflexivity].
  apply Z.leb_gt. lia.
Qed.

Lemma credit_unit_units (st : state) :
  inmNumBitsOfEntropy (credit_unit st) = u32 (inmNumBitsOfEntropy st + 1).
Proof. unfold credit_unit, charge_unit. case_match; reflexivity. Qed.

Lemma u32_add_u32 (a b : Z) : u32 (u32 a + b) = u32 (a + b).
Proof. unfold u32. now rewrite Zplus_mod_idemp_l. Qed.

(** The loop doubles the probability once per unit it credits, as long as
    the probability is at most 0.5. *)
Lemma emit_entropy_doublings (fuel : nat) (st st' : state) :
  emit_entropy fuel st = Normal st' ->
  exists k : nat,
    inmCurrentProbability st' = Nat.iter k B64.twice (inmCurrentProbability st)
    /\ inmNumBitsOfEntropy st' = (if k is O then inmNumBitsOfEntropy st
                                  else u32 (inmNumBitsOfEntropy st + Z.of_nat k))
    /\ (forall j, (j < k)%nat ->
          B64.leb (Nat.iter j B64.twice (inmCurrentProbability st)) B64.half = true)
    /\ B64.leb (inmCurrentProbability st') B64.half = false.
Proof.
  revert st. induction fuel as [|fuel IH]; intros st; cbn [emit_entropy];
    destruct (B64.leb (inmCurrentProbability st) B64.half) eqn:Hleb; intros Hemit;
    try discriminate.
  - injection Hemit as <-. exists 0%nat. split_and!; try reflexivity; [lia | assumption].
  - destruct (IH _ Hemit) as (k & Hp & Hu & Hall & Hend).
    rewrite credit_unit_probability in Hp, Hall. rewrite credit_unit_units in Hu.
    exists (S k). split_and!.
    + rewrite Nat.iter_succ_r. exact Hp.
    + rewrite Hu. destruct k as [|k]; [f_equal; lia|].
      rewrite u32_add_u32. f_equal. lia.
    + intros [|j] Hj; [exact Hleb|]. rewrite Nat.iter_succ_r. apply Hall. lia.
    + exact Hend.
  - injection Hemit as <-. exists 0%nat. split_and!; try reflexivity; [lia | assumption].
Qed.

Lemma scale_units (st : state) :
  inmNumBitsOfEntropy (scaleZeroOneCounts (scaleEntropy st))
  = (if inmNumBitsSampled st =? INM_MIN_DATA
     then Z.shiftr (inmNumBitsOfEntropy st) 1 else inmNumBitsOfEntropy st).
Proof. unfold scaleZeroOneCounts, scaleEntropy. repeat case_match; reflexivity. Qed.

(** ** The entropy level *)

Lemma credit_unit_level (st : state) :
  0 <= inmEntropyLevel st <= INM_MAX_ENTROPY ->
  inmEntropyLevel (credit_unit st)
  = inmEntropyLevel st + (if level_test (charge_unit st) then 1 else 0).
Proof.
  intros Hl. change INM_MAX_ENTROPY with 1600 in Hl. unfold credit_unit, level_test.
  destruct (inmHealthCheckOkToUseData (charge_unit st)
            && (inmEntropyLevel (charge_unit st) <? INM_MAX_ENTROPY)) eqn:Htest.
  - apply andb_true_iff in Htest as [_ Hlt]. apply Z.ltb_lt in Hlt.
    change INM_MAX_ENTROPY with 1600 in Hlt.
    cbn [inmEntropyLevel set_EntropyLevel]. unfold charge_unit in *.
    cbn [inmEntropyLevel set_NumBitsOfEntropy set_CurrentProbability] in *.
    rewrite u32_small by lia. reflexivity.
  - unfold charge_unit. cbn [inmEntropyLevel set_NumBitsOfEntropy set_CurrentProbability]. lia.
Qed.

Lemma credit_unit_level_range (st : state) :
  0 <= inmEntropyLevel st <= INM_MAX_ENTROPY ->
  0 <= inmEntropyLevel (credit_unit st) <= INM_MAX_ENTROPY.
Proof.
  intros Hl. rewrite credit_unit_level by assumption. unfold level_test.
  destruct (inmHealthCheckOkToUseData (charge_unit st)); cbn [andb]; [|lia].
  destruct (Z.ltb_spec (inmEntropyLevel (charge_unit st)) INM_MAX_ENTROPY) as [Hlt|]; [|lia].
  unfold charge_unit in Hlt.
  cbn [inmEntropyLevel set_NumBitsOfEntropy set_CurrentProbability] in Hlt. lia.
Qed.

(** The loop raises the level by one at each round whose test holds. *)
Lemma emit_entropy_level (fuel : nat) (st st' : state) :
  emit_entropy fuel st = Normal st' ->
  0 <= inmEntropyLevel st <= INM_MAX_ENTROPY ->
  inmEntropyLevel st'
  = inmEntropyLevel st
    + Z.of_nat (length (List.filter level_test (credit_moments fuel st))).
Proof.
  revert st. induction fuel as [|fuel IH]; intros st; cbn [emit_entropy credit_moments];
    destruct (B64.leb (inmCurrentProbability st) B64.half); intros Hemit Hl;
    try discriminate; try (injection Hemit as <-; cbn; lia).
  rewrite (IH _ Hemit) by now apply credit_unit_level_range.
  rewrite credit_unit_level by assumption. cbn [List.filter].
  destruct (level_test (charge_unit st)); cbn [length]; lia.
Qed.

Lemma filter_all_true {A} (f : A -> bool) (l : list A) :
  Forall (fun x => f x = true) (List.filter f l).
Proof. apply Forall_forall. intros x Hx. apply list_elem_of_In, filter_In in Hx. tauto. Qed.

(** ** The scale-downs at the end of a call *)

Lemma scale_entropy_fields (s : state) :
  let s' := scaleZeroOneCounts (scaleEntropy s) in
  (inmNumBitsSampled s = INM_MIN_DATA ->
     inmNumBitsOfEntropy s' = inmNumBitsOfEntropy s / 2
     /\ inmNumBitsSampled s' = inmNumBitsSampled s / 2
     /\ inmEvenMisfires s' = inmEvenMisfires s / 2
     /\ inmOddMisfires s' = inmOddMisfires s / 2)
  /\ (inmNumBitsSampled s <> INM_MIN_DATA ->
        inmNumBitsOfEntropy s' = inmNumBitsOfEntropy s
        /\ inmNumBitsSampled s' = inmNumBitsSampled s
        /\ inmEvenMisfires s' = inmEvenMisfires s
        /\ inmOddMisfires s' = inmOddMisfires s).
Proof.
  cbv zeta. unfold scaleZeroOneCounts, scaleEntropy.
  destruct (Z.eqb_spec (inmNumBitsSampled s) INM_MIN_DATA) as [Heq | Hne];
    (split; [intros Hyes | intros Hno]); try contradiction;
    repeat case_match; fields_goal; rewrite ?shiftr_1_half; auto.
Qed.

Lemma scale_totals_fields (s : state) :
  let s' := scaleZeroOneCounts (scaleEntropy s) in
  (Z.max (inmTotalOnes s) (inmTotalZeros s) = INM_MIN_DATA ->
     inmTotalOnes s' = inmTotalOnes s / 2 /\ inmTotalZeros s' = inmTotalZeros s / 2)
  /\ (Z.max (inmTotalOnes s) (inmTotalZeros s) <> INM_MIN_DATA ->
        inmTotalOnes s' = inmTotalOnes s /\ inmTotalZeros s' = inmTotalZeros s).
Proof.
  cbv zeta. pose proof (scaleEntropy_keeps s) as Ke.
  kept Ke F_TotalOnes. kept Ke F_TotalZeros.
  unfold scaleZeroOneCounts. rewrite E, E0.
  destruct (Z.leb_spec (inmTotalOnes s) (inmTotalZeros s)) as [Hle | Hgt].
  - rewrite Z.max_r by lia.
    destruct (Z.eqb_spec (inmTotalZeros s) INM_MIN_DATA) as [Heq | Hne];
      (split; [intros Hyes | intros Hno]); try contradiction;
      fields_goal; rewrite ?shiftr_1_half, ?E, ?E0; auto.
  - rewrite Z.max_l by lia.
    destruct (Z.eqb_spec (inmTotalOnes s) INM_MIN_DATA) as [Heq | Hne];
      (split; [intros Hyes | intros Hno]); try contradiction;
      fields_goal; rewrite ?shiftr_1_half, ?E, ?E0; auto.
Qed.

(** ** The total bit count *)

Lemma note_lanes_totalBits (c : call) (st : state) :
  inmTotalBits (note_lanes c st) = u64 (inmTotalBits st + 1).
Proof. unfold note_lanes. repeat case_match; reflexivity. Qed.

Lemma addBit_totalBits (c : call) (st : state) (b : bool) (st' : state) :
  Inv st -> inmHealthCheckAddBit c st = Normal (b, st') ->
  inmTotalBits st' = u64 (inmTotalBits st + 1).
Proof.
  intros Hinv Hcall.
  destruct (addBit_inv _ _ _ _ Hcall) as (s2 & zeros & ones & s4 & s6 & Hsteps & _ & ->).
  destruct (steps_keeps _ _ _ _ _ _ _ Hinv Hsteps) as (_ & K2 & _ & _ & _ & K3).
  kept K3 F_TotalBits. kept K2 F_TotalBits.
  pose proof (shift_window_keeps (call_bit c) (note_lanes c st)) as Kw. kept Kw F_TotalBits.
  rewrite E, E0, E1. apply note_lanes_totalBits.
Qed.

Lemma u64_add_u64 (a b : Z) : u64 (u64 a + b) = u64 (a + b).
Proof. unfold u64. now rewrite Zplus_mod_idemp_l. Qed.

Lemma run_totalBits (calls : list call) (st st' : state) :
  Inv st -> run calls st = Normal st' ->
  inmTotalBits st' = u64 (inmTotalBits st + Z.of_nat (length calls)).
Proof.
  revert st. induction calls as [|c calls IH]; intros st Hinv; cbn [run length].
  - intros [= <-]. rewrite Z.add_0_r, u64_small; [reflexivity | apply Hinv].
  - destruct (inmHealthCheckAddBit c st) as [[b s]| | |] eqn:Hcall; try discriminate.
    cbn [mbind outcome_bind snd]. intros Hrun.
    rewrite (IH _ (addBit_Inv _ _ _ _ Hinv Hcall) Hrun), (addBit_totalBits _ _ _ _ Hinv Hcall).
    rewrite u64_add_u64. f_equal. lia.
Qed.

(** ** The guard on runs *)

Lemma check_sequence_spec (bit : bool) (st : state) :
  0 <= seq_count bit st <= INM_MAX_SEQUENCE ->
  (tracking st = true /\ seq_count bit st = INM_MAX_SEQUENCE /\ check_sequence bit st = Exited 1)
  \/ (exists st', check_sequence bit st = Normal st'
        /\ (tracking st = true ->
              seq_count bit st < INM_MAX_SEQUENCE
              /\ seq_count bit st' = seq_count bit st + 1 /\ seq_count (negb bit) st' = 0)
        /\ (tracking st = false ->
              seq_count bit st' = seq_count bit st
              /\ seq_count (negb bit) st' = seq_count (negb bit) st)).
Proof.
  unfold check_sequence, tracking, seq_count. change INM_MAX_SEQUENCE with 20. intros Hc.
  destruct (100 <? inmNumBitsSampled st); [|right; eexists; split; [reflexivity|]; split; [discriminate | auto]].
  destruct bit; fields_goal; cbn [negb].
  - rewrite !(u32_small (inmNumSequentialOnes st + 1)) by lia.
    destruct (Z.ltb_spec 20 (inmNumSequentialOnes st + 1)); [left; split_and!; auto; lia|].
    right. eexists. split; [reflexivity|]. fields_goal.
    split; [intros _; split_and!; auto; lia | discriminate].
  - rewrite !(u32_small (inmNumSequentialZeros st + 1)) by lia.
    destruct (Z.ltb_spec 20 (inmNumSequentialZeros st + 1)); [left; split_and!; auto; lia|].
    right. eexists. split; [reflexivity|]. fields_goal.
    split; [intros _; split_and!; auto; lia | discriminate].
Qed.

Lemma seq_count_range (bit : bool) (st : state) :
  Inv st -> 0 <= seq_count bit st <= INM_MAX_SEQUENCE.
Proof. intros [_ [] _]. unfold seq_count. destruct bit; assumption. Qed.

(** The guard sees the counters and the sampled-bit count the call started
    with. *)
Lemma guard_entry (c : call) (st : state) (bit : bool) :
  seq_count bit (shift_window (call_bit c) (note_lanes c st)) = seq_count bit st
  /\ tracking (shift_window (call_bit c) (note_lanes c st)) = tracking st.
Proof.
  pose proof (note_lanes_keeps c st) as Kn.
  pose proof (shift_window_keeps (call_bit c) (note_lanes c st)) as Kw.
  kept Kn F_NumSequentialOnes. kept Kn F_NumSequentialZeros. kept Kn F_NumBitsSampled.
  kept Kw F_NumSequentialOnes. kept Kw F_NumSequentialZeros. kept Kw F_NumBitsSampled.
  unfold seq_count, tracking. destruct bit; split; congruence.
Qed.

(** What a call does to the run counters. *)
Lemma addBit_guard (c : call) (st : state) :
  Inv st ->
  (tracking st = true /\ seq_count (call_bit c) st = INM_MAX_SEQUENCE
   /\ inmHealthCheckAddBit c st = Exited 1)
  \/ (exists st', inmHealthCheckAddBit c st = Normal (true, st') /\ Inv st'
        /\ (tracking st = true ->
              seq_count (call_bit c) st < INM_MAX_SEQUENCE
              /\ seq_count (call_bit c) st' = seq_count (call_bit c) st + 1
              /\ seq_count (negb (call_bit c)) st' = 0
              /\ tracking st' = true)
        /\ (tracking st = false ->
              seq_count (call_bit c) st' = seq_count (call_bit c) st
              /\ seq_count (negb (call_bit c)) st' = seq_count (negb (call_bit c)) st)).
Proof.
  intros Hinv.
  destruct (guard_entry c st (call_bit c)) as [Ec Et].
  destruct (guard_entry c st (negb (call_bit c))) as [Ec' _].
  set (s1 := shift_window (call_bit c) (note_lanes c st)) in *.
  pose proof (seq_count_range (call_bit c) st Hinv) as Hrange. rewrite <- Ec in Hrange.
  destruct (check_sequence_spec (call_bit c) s1 Hrange)
    as [(Htr & Hfull & Hexit) | (s2 & Hcheck & Hyes & Hno)].
  - left. rewrite <- Et, <- Ec. split_and!; try assumption. now apply addBit_exit.
  - right. destruct (steps_exist c st Hinv) as [Hexit | (s2' & z & o & s4 & s6 & Hsteps)];
      [fold s1 in Hexit; congruence|].
    pose proof (steps_check _ _ _ _ _ _ _ Hsteps) as Hcheck'. fold s1 in Hcheck'.
    rewrite Hcheck in Hcheck'. injection Hcheck' as <-.
    exists (scaleZeroOneCounts (scaleEntropy s6)).
    split; [exact (steps_result _ _ _ _ _ _ _ Hsteps)|].
    split; [eapply steps_Inv; eassumption|].
    destruct (steps_keeps _ _ _ _ _ _ _ Hinv Hsteps) as (K1 & K2 & K4 & K6 & K8 & K3).
    kept K3 F_NumSequentialOnes. kept K3 F_NumSequentialZeros.
    assert (Eseq : forall bit, seq_count bit (scaleZeroOneCounts (scaleEntropy s6))
                               = seq_count bit s2).
    { intros bit. unfold seq_count. destruct bit; assumption. }
    rewrite !Eseq, <- Et, <- Ec, <- Ec'. split.
    + intros Htr. destruct (Hyes Htr) as (Hlt & Hinc & Hzero). split_and!; try assumption.
      (* the sampled-bit count stays above 100 *)
      destruct (steps_facts _ _ _ _ _ _ _ Hinv Hsteps)
    as [sok_shape2 sok_counters2 sok_probability2 sok_zeros sok_ones sok_shape4
        sok_counters4 sok_probability4 sok_shape6 sok_frame6].
      destruct (scale_entropy_fields s6) as [Sy Sn].
      assert (Hsam : inmNumBitsSampled s6 = inmNumBitsSampled st + 1).
      { rewrite sok_frame6. fields_goal.
        kept K4 F_NumBitsSampled. kept K2 F_NumBitsSampled. kept K1 F_NumBitsSampled.
        destruct Hinv as [_ [Hs _ _ _ _ _ _ _ _ _] _]. change INM_MIN_DATA with 80000 in Hs.
        rewrite u32_small by lia. congruence. }
      rewrite Et in Htr. unfold tracking in *. apply Z.ltb_lt in Htr. apply Z.ltb_lt.
      destruct (Z.eq_dec (inmNumBitsSampled s6) INM_MIN_DATA) as [Hfull | Hnot].
      * destruct (Sy Hfull) as (_ & -> & _). rewrite Hfull. reflexivity.
      * destruct (Sn Hnot) as (_ & -> & _). lia.
    + intros Htr. exact (Hno Htr).
Qed.

(** ** Streams of calls *)

Lemma scaleStats_totalBits (s : state) :
  shape_ok s -> exists s', scaleStats s = Normal s' /\ inmTotalBits s' = inmTotalBits s.
Proof.
  intros [HN _ (oe & Eoe & Loe & _) (ze & Eze & Lze & _) (oo & Eoo & Loo & _) (zo & Ezo & Lzo & _)].
  eexists. split; [eapply scaleStats_spec; eassumption | reflexivity].
Qed.

(** The alternating stream never trips the guard on runs. *)
Lemma alternating_step (n : N) (st : state) :
  Inv st -> alternating_counters n st ->
  exists st', inmHealthCheckAddBit (alternating n) st = Normal (true, st')
              /\ Inv st' /\ alternating_counters (N.succ n) st'.
Proof.
  intros Hinv Hcnt.
  assert (Hbit : call_bit (alternating n) = N.odd n) by reflexivity.
  destruct (addBit_guard (alternating n) st Hinv)
    as [(Htr & Hfull & _) | (st' & Hcall & Hinv' & Hyes & Hno)].
  - exfalso. rewrite Hbit in Hfull. change INM_MAX_SEQUENCE with 20 in Hfull.
    destruct Hcnt as [[H1 H0] | (_ & Hz & _)]; [|lia].
    unfold seq_count in Hfull. destruct (N.odd n); lia.
  - exists st'. split_and!; try assumption.
    rewrite Hbit in Hyes, Hno. unfold alternating_counters.
    rewrite N.odd_succ, <- N.negb_odd.
    destruct (tracking st) eqn:Htr.
    + destruct (Hyes eq_refl) as (_ & Hinc & Hzero & Htr'). right.
      split_and!; try assumption. rewrite negb_involutive, Hinc.
      destruct Hcnt as [[H1 H0] | (_ & Hz & _)]; [|lia].
      unfold seq_count. destruct (N.odd n); lia.
    + destruct (Hno eq_refl) as (Hsame & Hsame').
      destruct Hcnt as [[H1 H0] | (Htr' & _)]; [|congruence].
      left. unfold seq_count in *. destruct (N.odd n); cbn [negb] in *; lia.
Qed.

Lemma bind_Normal {A B : Type} (k : A -> outcome B) (a : A) : (x ← Normal a; k x) = k a.
Proof. reflexivity. Qed.

Lemma bind_Exited {A B : Type} (k : A -> outcome B) (code : Z) :
  (x ← Exited code; k x) = Exited code.
Proof. reflexivity. Qed.

Lemma bind_Undefined {A B : Type} (k : A -> outcome B) : (x ← Undefined; k x) = Undefined.
Proof. reflexivity. Qed.

Lemma bind_Diverges {A B : Type} (k : A -> outcome B) : (x ← Diverges; k x) = Diverges.
Proof. reflexivity. Qed.

Lemma stream_step_returns (f : N -> call) (k : N) (s : state) (b : bool) (s' : state) :
  inmHealthCheckAddBit (f k) s = Normal (b, s') ->
  stream_step f (k, Normal s) = (N.succ k, Normal s').
Proof.
  intros H. unfold stream_step. cbn [fst snd]. rewrite bind_Normal, H, bind_Normal. reflexivity.
Qed.

Lemma alternating_run (st0 : state) (n : N) :
  Inv st0 -> inmNumSequentialOnes st0 = 0 -> inmNumSequentialZeros st0 = 0 ->
  exists st, N.iter n (stream_step alternating) (0%N, Normal st0) = (n, Normal st)
             /\ Inv st /\ alternating_counters n st
             /\ inmTotalBits st = u64 (inmTotalBits st0 + Z.of_N n).
Proof.
  intros Hinv0 H1 H0. induction n as [|n IH] using N.peano_ind.
  - exists st0. split; [reflexivity|]. split; [assumption|]. split; [left; auto|].
    rewrite Z.add_0_r, u64_small; [reflexivity | apply Hinv0].
  - destruct IH as (st & Hiter & Hinv & Hcnt & Htot).
    destruct (alternating_step n st Hinv Hcnt) as (st' & Hcall & Hinv' & Hcnt').
    exists st'. split.
    { rewrite N.iter_succ, Hiter. exact (stream_step_returns _ _ _ _ _ Hcall). }
    split; [assumption|]. split; [assumption|].
    rewrite (addBit_totalBits _ _ _ _ Hinv Hcall), Htot, u64_add_u64. f_equal. lia.
Qed.

Lemma run_single (c : call) (s : state) :
  run [c] s = (r ← inmHealthCheckAddBit c s; Normal r.2).
Proof. reflexivity. Qed.

(** A stream cut after [n] calls is the list of its first [n] calls. *)
Lemma run_stream_run (f : N -> call) (n : nat) (st : state) :
  run_stream f (N.of_nat n) st = run (map (fun k => f (N.of_nat k)) (seq 0 n)) st.
Proof.
  unfold run_stream.
  assert (H : N.iter (N.of_nat n) (stream_step f) (0%N, Normal st)
              = (N.of_nat n, run (map (fun k => f (N.of_nat k)) (seq 0 n)) st)).
  { induction n as [|n IH]; [reflexivity|].
    rewrite Nat2N.inj_succ, N.iter_succ, IH. unfold stream_step. cbn [fst snd]. f_equal.
    rewrite seq_S, map_app, run_app. cbn [map Nat.add].
    destruct (run (map (fun k => f (N.of_nat k)) (seq 0 n)) st) as [s|code| |].
    - rewrite !bind_Normal, run_single. reflexivity.
    - rewrite !bind_Exited. reflexivity.
    - rewrite !bind_Undefined. reflexivity.
    - rewrite !bind_Diverges. reflexivity. }
  now rewrite H.
Qed.

Lemma started_1 :
  inmHealthCheckStart Libm.log 1 B64.two false (fun _ => true) initial_state
  = Normal (true, started 1).
Proof. vm_compute. reflexivity. Qed.

Lemma started_1_counters :
  inmNumSequentialOnes (started 1) = 0 /\ inmNumSequentialZeros (started 1) = 0.
Proof. vm_compute. auto. Qed.

(** ** Runs of equal bits *)

(** While runs are counted, calls that ingest the same bit return as long as
    the run counter stays within [INM_MAX_SEQUENCE], and add one to it each. *)
Lemma run_identical (bit : bool) (cs : list call) (st : state) :
  Inv st -> tracking st = true ->
  Forall (fun c => call_bit c = bit) cs ->
  seq_count bit st + Z.of_nat (length cs) <= INM_MAX_SEQUENCE ->
  exists s, run cs st = Normal s /\ Inv s /\ tracking s = true
            /\ seq_count bit s = seq_count bit st + Z.of_nat (length cs).
Proof.
  revert st. induction cs as [|c cs IH]; intros st Hinv Htr Hall Hlen.
  - exists st. cbn [run length]. split_and!; auto. lia.
  - apply Forall_cons in Hall as [Hc Hall]. cbn [length] in Hlen.
    destruct (addBit_guard c st Hinv) as [(_ & Hfull & _) | (st' & Hcall & Hinv' & Hyes & _)].
    + rewrite Hc in Hfull. lia.
    + destruct (Hyes Htr) as (_ & Hinc & _ & Htr'). rewrite Hc in Hinc.
      destruct (IH st' Hinv' Htr' Hall ltac:(lia)) as (s & Hrun & Hinvs & Htrs & Hcnt).
      exists s. cbn [run length]. rewrite Hcall, bind_Normal. cbn [snd].
      split_and!; auto. lia.
Qed.

(** ** Start and stop *)

Ltac kept_as K f H :=
  assert (H := K f ltac:(unfold written_after_guard, written_by_guard, written_before_guard;
                         cbn; intuition discriminate));
  unfold get in H;
  first [apply VZ_inj in H | apply VB_inj in H | apply VD_inj in H | apply VT_inj in H].

(** A state taken apart into its variables. *)
Ltac fields_of s :=
  destruct s as [fN fW fS fOE fZE fOO fZO fK fX fU fP fT fB fL fSZ fSO fTO fTZ fEM fOM fPE fPO fD].

Lemma shiftl_1_u32 (N : Z) : 1 <= N <= 30 -> u32 (Z.shiftl 1 N) = 2 ^ N.
Proof.
  intros HN. rewrite Z.shiftl_1_l. apply u32_small.
  pose proof (pow2_N_bounds N HN). change (2 ^ 30) with 1073741824 in *. lia.
Qed.

Ltac start_cases N granted :=
  unfold inmHealthCheckStart;
  replace ((N <? 1) || (30 <? N)) with false
    by (symmetry; apply orb_false_iff; split; apply Z.ltb_ge; lia);
  rewrite shiftl_1_u32 by assumption;
  unfold calloc, resetStats, tables_allocated, fresh_table; cbv zeta;
  destruct (granted 0%nat), (granted 1%nat), (granted 2%nat), (granted 3%nat);
  fields_goal; unfold inmHealthCheckStop; fields_goal;
  cbn [free_unless_null mbind outcome_bind]; fields_goal.

(** The state a successful start leaves. *)
Lemma start_state
    (log : double -> double) (N : Z) (K : double) (debug : bool) (granted : nat -> bool)
    (prev st0 : state) :
  inmHealthCheckStart log N K debug granted prev = Normal (true, st0) ->
  st0 = mkState N 0 0 (fresh_table N) (fresh_table N) (fresh_table N) (fresh_table N)
          K (B64.div (log K) (log B64.two)) 0 B64.one 0 false 0 0 0 0 0 0 0
          (inmPrevEven prev) (inmPrevOdd prev) debug.
Proof.
  intros Hstart. destruct (start_Inv _ _ _ _ _ _ _ Hstart) as (_ & HN & _).
  revert Hstart. start_cases N granted; intros [= <-]; reflexivity.
Qed.

(** A start always returns, with the conjunction of the four grants. *)
Lemma start_returns
    (log : double -> double) (N : Z) (K : double) (debug : bool) (granted : nat -> bool)
    (prev : state) :
  1 <= N <= 30 ->
  exists st,
    inmHealthCheckStart log N K debug granted prev
    = Normal (granted 0%nat && granted 1%nat && granted 2%nat && granted 3%nat, st).
Proof.
  intros HN. start_cases N granted; eexists; reflexivity.
Qed.

(** After a start that failed for lack of memory the blocks that were
    granted have been freed: their pointers dangle, the others are null. *)
Lemma start_failure
    (log : double -> double) (N : Z) (K : double) (debug : bool) (granted : nat -> bool)
    (prev st : state) :
  1 <= N <= 30 ->
  inmHealthCheckStart log N K debug granted prev = Normal (false, st) ->
  inmOnesEven st = (if granted 0%nat then Freed else Null)
  /\ inmZerosEven st = (if granted 1%nat then Freed else Null)
  /\ inmOnesOdd st = (if granted 2%nat then Freed else Null)
  /\ inmZerosOdd st = (if granted 3%nat then Freed else Null).
Proof.
  intros HN. start_cases N granted; intros [= <-]; auto.
Qed.

(** A successful start does not depend on the state before, up to the two
    stored lane bits. *)
Lemma start_forgets
    (log : double -> double) (N : Z) (K : double) (debug : bool) (granted : nat -> bool)
    (prev prev' st0 : state) :
  inmHealthCheckStart log N K debug granted prev = Normal (true, st0) ->
  inmPrevEven prev' = inmPrevEven prev -> inmPrevOdd prev' = inmPrevOdd prev ->
  inmHealthCheckStart log N K debug granted prev' = Normal (true, st0).
Proof.
  intros Hstart He Ho.
  destruct (start_Inv _ _ _ _ _ _ _ Hstart) as (_ & HN & _).
  rewrite (start_state _ _ _ _ _ _ _ Hstart), <- He, <- Ho.
  revert Hstart. start_cases N granted; intros [= <-]; reflexivity.
Qed.

Lemma tbl_get_not_live (t : table) (i : Z) : live t = false -> tbl_get t i = Undefined.
Proof. now destruct t. Qed.

(** Without a live block behind the tables of zeros, a call never returns:
    it ends the process when the guard on runs trips, and otherwise reads
    through a pointer with no block behind it. *)
Lemma addBit_without_tables (c : call) (st : state) :
  live (inmZerosEven st) = false -> live (inmZerosOdd st) = false ->
  (tracking st = true /\ inmHealthCheckAddBit c st = Exited 1)
  \/ inmHealthCheckAddBit c st = Undefined.
Proof.
  intros Hze Hzo. unfold inmHealthCheckAddBit. cbv zeta.
  set (sw := shift_window (call_bit c) (note_lanes c st)).
  destruct (check_sequence_cases (call_bit c) sw) as [Hexit | (s2 & Hcheck)].
  - left. rewrite Hexit. split; [|reflexivity].
    destruct (guard_entry c st true) as [_ Htr]. fold sw in Htr. rewrite <- Htr.
    unfold check_sequence in Hexit. unfold tracking.
    destruct (100 <? inmNumBitsSampled sw); [reflexivity | discriminate].
  - rewrite Hcheck, bind_Normal. right.
    pose proof (check_sequence_keeps _ _ _ Hcheck) as K2.
    pose proof (shift_window_keeps (call_bit c) (note_lanes c st)) as Ks. fold sw in Ks.
    pose proof (note_lanes_keeps c st) as Kn.
    kept_as K2 F_ZerosEven A2. kept_as Ks F_ZerosEven A1. kept_as Kn F_ZerosEven A0.
    kept_as K2 F_ZerosOdd B2. kept_as Ks F_ZerosOdd B1. kept_as Kn F_ZerosOdd B0.
    unfold lane_counts.
    destruct (even c); [rewrite A2, A1, A0, (tbl_get_not_live _ _ Hze)
                       | rewrite B2, B1, B0, (tbl_get_not_live _ _ Hzo)]; reflexivity.
Qed.

Lemma free_unless_null_not_live (t t' : table) :
  free_unless_null t = Normal t' -> live t' = false.
Proof. destruct t; intros [= <-]; reflexivity. Qed.

(** What [inmHealthCheckStop] does when it is defined: the four pointers are
    left without a live block, and nothing else is written. *)
Lemma stop_spec (st st' : state) :
  inmHealthCheckStop st = Normal st' ->
  exists oe ze oo zo,
    free_unless_null (inmOnesEven st) = Normal oe
    /\ free_unless_null (inmZerosEven st) = Normal ze
    /\ free_unless_null (inmOnesOdd st) = Normal oo
    /\ free_unless_null (inmZerosOdd st) = Normal zo
    /\ st' = with_tables oe ze oo zo st.
Proof.
  unfold inmHealthCheckStop. fields_of st. fields_goal.
  destruct (free_unless_null fOE) as [oe| | |]; try discriminate. rewrite bind_Normal.
  destruct (free_unless_null fZE) as [ze| | |]; try discriminate. rewrite bind_Normal.
  destruct (free_unless_null fOO) as [oo| | |]; try discriminate. rewrite bind_Normal.
  destruct (free_unless_null fZO) as [zo| | |]; try discriminate. rewrite bind_Normal.
  intros [= <-]. exists oe, ze, oo, zo. split_and!; reflexivity.
Qed.

Lemma free_unless_null_cases (t : table) :
  free_unless_null t = Undefined \/ exists t', free_unless_null t = Normal t'.
Proof. destruct t; eauto. Qed.

Lemma stop_cases (st : state) :
  inmHealthCheckStop st = Undefined \/ exists st', inmHealthCheckStop st = Normal st'.
Proof.
  unfold inmHealthCheckStop.
  destruct (free_unless_null_cases (inmOnesEven st)) as [-> | (oe & ->)]; [now left|].
  rewrite bind_Normal. cbv zeta.
  destruct (free_unless_null_cases (inmZerosEven (set_OnesEven oe st))) as [-> | (ze & ->)];
    [now left|].
  rewrite bind_Normal.
  destruct (free_unless_null_cases (inmOnesOdd (set_ZerosEven ze (set_OnesEven oe st))))
    as [-> | (oo & ->)]; [now left|].
  rewrite bind_Normal.
  destruct (free_unless_null_cases
              (inmZerosOdd (set_OnesOdd oo (set_ZerosEven ze (set_OnesEven oe st)))))
    as [-> | (zo & ->)]; [now left|].
  rewrite bind_Normal. right. eauto.
Qed.

Lemma stop_not_exited (st : state) (code : Z) : inmHealthCheckStop st <> Exited code.
Proof. destruct (stop_cases st) as [-> | (s & ->)]; discriminate. Qed.

Lemma stop_not_diverges (st : state) : inmHealthCheckStop st <> Diverges.
Proof. destruct (stop_cases st) as [-> | (s & ->)]; discriminate. Qed.

(** ** Calls and clearings *)

Lemma clear_Inv (st : state) : Inv st -> Inv (inmClearEntropyLevel st).
Proof.
  intros [[] [] Hp]. unfold inmClearEntropyLevel.
  split; [split | split |]; fields_goal; try assumption.
  change INM_MAX_ENTROPY with 1600. lia.
Qed.

Lemma serve_all_cons (r : request) (rs : list request) (st : state) :
  serve_all (r :: rs) st = (s ← serve r st; serve_all rs s).
Proof. reflexivity. Qed.

Lemma serve_clear (st : state) : serve ClearEntropyLevel st = Normal (inmClearEntropyLevel st).
Proof. reflexivity. Qed.

Lemma serve_call (c : call) (st : state) :
  serve (AddBit c) st = (r ← inmHealthCheckAddBit c st; Normal r.2).
Proof. reflexivity. Qed.

Lemma run_cons (c : call) (calls : list call) (st : state) :
  run (c :: calls) st = (r ← inmHealthCheckAddBit c st; run calls r.2).
Proof. reflexivity. Qed.

Lemma serve_all_Inv (rs : list request) (st st' : state) :
  Inv st -> serve_all rs st = Normal st' -> Inv st'.
Proof.
  revert st. induction rs as [|r rs IH]; intros st Hinv Hall.
  - now injection Hall as <-.
  - rewrite serve_all_cons in Hall. destruct r as [c|].
    + rewrite serve_call in Hall.
      destruct (addBit_progress c st Hinv) as [Hcall | (s & Hcall & Hinv')];
        rewrite Hcall in Hall.
      * rewrite !bind_Exited in Hall. discriminate.
      * rewrite !bind_Normal in Hall. exact (IH _ Hinv' Hall).
    + rewrite serve_clear, bind_Normal in Hall. exact (IH _ (clear_Inv _ Hinv) Hall).
Qed.

(** What one call does to the level. *)
Lemma addBit_level (c : call) (st : state) (b : bool) (st' : state) :
  Inv st -> inmHealthCheckAddBit c st = Normal (b, st') ->
  inmEntropyLevel st <= inmEntropyLevel st' <= INM_MAX_ENTROPY.
Proof.
  intros Hinv Hcall.
  pose proof (addBit_Inv _ _ _ _ Hinv Hcall) as Hinv'.
  destruct (addBit_inv _ _ _ _ Hcall) as (s2 & zeros & ones & s4 & s6 & Hsteps & _ & ->).
  destruct (steps_keeps _ _ _ _ _ _ _ Hinv Hsteps) as (K1 & K2 & K4 & K6 & K8 & _).
  destruct Hsteps as [H1 H2 H3 H4].
  pose proof (update_probability_keeps (call_bit c) zeros ones s2) as Ku.
  kept_as Ku F_EntropyLevel L3. kept_as K2 F_EntropyLevel L2. kept_as K1 F_EntropyLevel L1.
  kept_as K6 F_EntropyLevel L6. kept_as K8 F_EntropyLevel L8.
  assert (Hl3 : 0 <= inmEntropyLevel (update_probability (call_bit c) zeros ones s2)
                <= INM_MAX_ENTROPY).
  { rewrite L3, L2, L1. apply Hinv. }
  pose proof (emit_entropy_level _ _ _ H3 Hl3) as Hlevel.
  split; [|apply Hinv'].
  rewrite L8, L6, Hlevel, L3, L2, L1. lia.
Qed.

(** Calls with no clearing in between never lower the level. *)
Lemma run_level (calls : list call) (st st' : state) :
  Inv st -> run calls st = Normal st' ->
  inmEntropyLevel st <= inmEntropyLevel st' <= INM_MAX_ENTROPY.
Proof.
  revert st. induction calls as [|c calls IH]; intros st Hinv Hrun.
  - injection Hrun as <-. destruct Hinv as [_ [] _]. lia.
  - rewrite run_cons in Hrun.
    destruct (addBit_progress c st Hinv) as [Hcall | (s & Hcall & Hinv')];
      rewrite Hcall in Hrun.
    + rewrite bind_Exited in Hrun. discriminate.
    + rewrite bind_Normal in Hrun.
      pose proof (addBit_level _ _ _ _ Hinv Hcall).
      pose proof (IH _ Hinv' Hrun). cbn [snd] in *. lia.
Qed.

(** ** The entropy level is never read but by its own cap test *)

Lemma set_level_twice (v w : Z) (s : state) :
  set_EntropyLevel v (set_EntropyLevel w s) = set_EntropyLevel v s.
Proof. reflexivity. Qed.

Lemma set_level_same (s : state) : set_EntropyLevel (inmEntropyLevel s) s = s.
Proof. now destruct s. Qed.

Lemma outcome_map_bind {A B C : Type} (f : A -> B) (k : B -> outcome C) (o : outcome A) :
  (x ← outcome_map f o; k x) = (x ← o; k (f x)).
Proof. now destruct o. Qed.

Lemma outcome_map_Normal {A B : Type} (f : A -> B) (a : A) :
  outcome_map f (Normal a) = Normal (f a).
Proof. reflexivity. Qed.

Lemma note_lanes_level (c : call) (v : Z) (s : state) :
  note_lanes c (set_EntropyLevel v s) = set_EntropyLevel v (note_lanes c s).
Proof.
  fields_of s. unfold note_lanes. fields_goal.
  destruct (even c); [destruct (negb (eqb (evenBit c) fPE))
                     | destruct (negb (eqb (oddBit c) fPO))]; reflexivity.
Qed.

Lemma shift_window_level (bit : bool) (v : Z) (s : state) :
  shift_window bit (set_EntropyLevel v s) = set_EntropyLevel v (shift_window bit s).
Proof. fields_of s. unfold shift_window. fields_goal. now destruct fB. Qed.

Lemma check_sequence_level (bit : bool) (v : Z) (s : state) :
  check_sequence bit (set_EntropyLevel v s)
  = outcome_map (set_EntropyLevel v) (check_sequence bit s).
Proof.
  fields_of s. unfold check_sequence. fields_goal.
  destruct (100 <? fS); [|reflexivity].
  destruct bit.
  - destruct (INM_MAX_SEQUENCE <? u32 (fSO + 1)); reflexivity.
  - destruct (INM_MAX_SEQUENCE <? u32 (fSZ + 1)); reflexivity.
Qed.

Lemma lane_counts_level (ev : bool) (v : Z) (s : state) :
  lane_counts ev (set_EntropyLevel v s) = lane_counts ev s.
Proof. now destruct s, ev. Qed.

Lemma update_probability_level (bit : bool) (zeros ones v : Z) (s : state) :
  update_probability bit zeros ones (set_EntropyLevel v s)
  = set_EntropyLevel v (update_probability bit zeros ones s).
Proof.
  destruct s. unfold update_probability. fields_goal.
  destruct bit; [destruct (negb (ones =? 0)) | destruct (negb (zeros =? 0))]; reflexivity.
Qed.

Lemma charge_unit_level (v : Z) (s : state) :
  charge_unit (set_EntropyLevel v s) = set_EntropyLevel v (charge_unit s).
Proof. now destruct s. Qed.

(** The verdict does not read the level. *)
Lemma ok_level (v : Z) (s : state) :
  inmHealthCheckOkToUseData (set_EntropyLevel v s) = inmHealthCheckOkToUseData s.
Proof. now destruct s. Qed.

Lemma credit_unit_level_free (v : Z) (s : state) :
  exists v', credit_unit (set_EntropyLevel v s) = set_EntropyLevel v' (credit_unit s).
Proof.
  unfold credit_unit. cbv zeta. rewrite charge_unit_level, ok_level.
  set (t := charge_unit s).
  destruct (inmHealthCheckOkToUseData t && (inmEntropyLevel (set_EntropyLevel v t) <? INM_MAX_ENTROPY));
    destruct (inmHealthCheckOkToUseData t && (inmEntropyLevel t <? INM_MAX_ENTROPY));
    eexists; rewrite ?set_level_twice; reflexivity.
Qed.

Lemma emit_entropy_level_free (fuel : nat) (v : Z) (s : state) :
  exists v', emit_entropy fuel (set_EntropyLevel v s)
             = outcome_map (set_EntropyLevel v') (emit_entropy fuel s).
Proof.
  revert v s. induction fuel as [|fuel IH]; intros v s; cbn [emit_entropy];
    change (inmCurrentProbability (set_EntropyLevel v s)) with (inmCurrentProbability s);
    destruct (B64.leb (inmCurrentProbability s) B64.half); try (now exists v).
  destruct (credit_unit_level_free v s) as [v1 ->]. apply IH.
Qed.

Lemma scaleStats_at_level (i v : Z) (s : state) :
  scaleStats_at i (set_EntropyLevel v s) = outcome_map (set_EntropyLevel v) (scaleStats_at i s).
Proof.
  fields_of s. unfold scaleStats_at. fields_goal.
  destruct (tbl_halve fZE i); try reflexivity. rewrite !bind_Normal. fields_goal.
  destruct (tbl_halve fOE i); try reflexivity. rewrite !bind_Normal. fields_goal.
  destruct (tbl_halve fZO i); try reflexivity. rewrite !bind_Normal. fields_goal.
  destruct (tbl_halve fOO i); reflexivity.
Qed.

Lemma scaleStats_loop_level (n : nat) (i v : Z) (s : state) :
  scaleStats_loop n i (set_EntropyLevel v s)
  = outcome_map (set_EntropyLevel v) (scaleStats_loop n i s).
Proof.
  revert i s. induction n as [|n IH]; intros i s; [reflexivity|].
  cbn [scaleStats_loop]. rewrite scaleStats_at_level, outcome_map_bind.
  destruct (scaleStats_at i s) as [s'| | |]; try reflexivity.
  rewrite !bind_Normal. apply IH.
Qed.

Lemma scaleStats_level (v : Z) (s : state) :
  scaleStats (set_EntropyLevel v s) = outcome_map (set_EntropyLevel v) (scaleStats s).
Proof. unfold scaleStats. apply scaleStats_loop_level. Qed.

Lemma count_bit_level (bit ev : bool) (v : Z) (s : state) :
  count_bit bit ev (set_EntropyLevel v s)
  = outcome_map (set_EntropyLevel v) (count_bit bit ev s).
Proof.
  unfold count_bit. cbv zeta.
  change (inmPrevBits (set_EntropyLevel v s)) with (inmPrevBits s).
  destruct bit, ev.
  - change (inmOnesEven (set_EntropyLevel v s)) with (inmOnesEven s).
    destruct (tbl_incr (inmOnesEven s) (inmPrevBits s)) as [t| | |]; try reflexivity.
    rewrite !bind_Normal.
    change (set_OnesEven t (set_EntropyLevel v s)) with (set_EntropyLevel v (set_OnesEven t s)).
    change (inmOnesEven (set_EntropyLevel v (set_OnesEven t s))) with (inmOnesEven (set_OnesEven t s)).
    destruct (tbl_get (inmOnesEven (set_OnesEven t s)) (inmPrevBits s)) as [c| | |]; try reflexivity.
    rewrite !bind_Normal. destruct (c =? INM_MAX_COUNT); [apply scaleStats_level | reflexivity].
  - change (inmOnesOdd (set_EntropyLevel v s)) with (inmOnesOdd s).
    destruct (tbl_incr (inmOnesOdd s) (inmPrevBits s)) as [t| | |]; try reflexivity.
    rewrite !bind_Normal.
    change (set_OnesOdd t (set_EntropyLevel v s)) with (set_EntropyLevel v (set_OnesOdd t s)).
    change (inmOnesOdd (set_EntropyLevel v (set_OnesOdd t s))) with (inmOnesOdd (set_OnesOdd t s)).
    destruct (tbl_get (inmOnesOdd (set_OnesOdd t s)) (inmPrevBits s)) as [c| | |]; try reflexivity.
    rewrite !bind_Normal. destruct (c =? INM_MAX_COUNT); [apply scaleStats_level | reflexivity].
  - change (inmZerosEven (set_EntropyLevel v s)) with (inmZerosEven s).
    destruct (tbl_incr (inmZerosEven s) (inmPrevBits s)) as [t| | |]; try reflexivity.
    rewrite !bind_Normal.
    change (set_ZerosEven t (set_EntropyLevel v s)) with (set_EntropyLevel v (set_ZerosEven t s)).
    change (inmZerosEven (set_EntropyLevel v (set_ZerosEven t s))) with (inmZerosEven (set_ZerosEven t s)).
    destruct (tbl_get (inmZerosEven (set_ZerosEven t s)) (inmPrevBits s)) as [c| | |]; try reflexivity.
    rewrite !bind_Normal. destruct (c =? INM_MAX_COUNT); [apply scaleStats_level | reflexivity].
  - change (inmZerosOdd (set_EntropyLevel v s)) with (inmZerosOdd s).
    destruct (tbl_incr (inmZerosOdd s) (inmPrevBits s)) as [t| | |]; try reflexivity.
    rewrite !bind_Normal.
    change (set_ZerosOdd t (set_EntropyLevel v s)) with (set_EntropyLevel v (set_ZerosOdd t s)).
    change (inmZerosOdd (set_EntropyLevel v (set_ZerosOdd t s))) with (inmZerosOdd (set_ZerosOdd t s)).
    destruct (tbl_get (inmZerosOdd (set_ZerosOdd t s)) (inmPrevBits s)) as [c| | |]; try reflexivity.
    rewrite !bind_Normal. destruct (c =? INM_MAX_COUNT); [apply scaleStats_level | reflexivity].
Qed.

Lemma sampled_level (n v : Z) (s : state) :
  set_NumBitsSampled n (set_EntropyLevel v s) = set_EntropyLevel v (set_NumBitsSampled n s).
Proof. reflexivity. Qed.

Lemma scale_level (v : Z) (s : state) :
  scaleZeroOneCounts (scaleEntropy (set_EntropyLevel v s))
  = set_EntropyLevel v (scaleZeroOneCounts (scaleEntropy s)).
Proof.
  fields_of s. unfold scaleZeroOneCounts, scaleEntropy. fields_goal.
  destruct (fS =? INM_MIN_DATA); fields_goal;
    destruct ((if fTO <=? fTZ then fTZ else fTO)
              =? INM_MIN_DATA); reflexivity.
Qed.

(** A call on a state with another level does the same, up to the level. *)
Lemma addBit_level_free (c : call) (v : Z) (s : state) :
  exists v', inmHealthCheckAddBit c (set_EntropyLevel v s)
             = outcome_map (fun r => (r.1, set_EntropyLevel v' r.2)) (inmHealthCheckAddBit c s).
Proof.
  unfold inmHealthCheckAddBit. cbv zeta.
  rewrite note_lanes_level, shift_window_level, check_sequence_level, outcome_map_bind.
  destruct (check_sequence (call_bit c) (shift_window (call_bit c) (note_lanes c s)))
    as [s2|code| |]; try (now exists v).
  rewrite !bind_Normal, lane_counts_level.
  destruct (lane_counts (even c) s2) as [[zeros ones]|code| |]; try (now exists v).
  rewrite !bind_Normal. cbv beta iota. rewrite update_probability_level.
  destruct (emit_entropy_level_free emit_fuel v (update_probability (call_bit c) zeros ones s2))
    as [v' ->].
  exists v'. rewrite outcome_map_bind.
  destruct (emit_entropy emit_fuel (update_probability (call_bit c) zeros ones s2))
    as [s4|code| |]; try reflexivity.
  rewrite !bind_Normal.
  change (inmNumBitsSampled (set_EntropyLevel v' s4)) with (inmNumBitsSampled s4).
  rewrite sampled_level, count_bit_level, outcome_map_bind.
  destruct (count_bit (call_bit c) (even c) (set_NumBitsSampled (u32 (inmNumBitsSampled s4 + 1)) s4))
    as [s6|code| |]; try reflexivity.
  rewrite !bind_Normal, outcome_map_Normal, scale_level. reflexivity.
Qed.

Lemma serve_all_level_free (reqs : list request) (v : Z) (s : state) :
  exists v', serve_all reqs (set_EntropyLevel v s)
             = outcome_map (set_EntropyLevel v') (run (calls_of reqs) s).
Proof.
  revert v s. induction reqs as [|r rs IH]; intros v s.
  - now exists v.
  - rewrite serve_all_cons. destruct r as [c|]; cbn [calls_of].
    + rewrite serve_call, run_cons.
      destruct (addBit_level_free c v s) as [v1 ->].
      destruct (inmHealthCheckAddBit c s) as [[b s1]|code| |]; try (now exists v).
      rewrite outcome_map_Normal, !bind_Normal. apply IH.
    + rewrite serve_clear, bind_Normal. unfold inmClearEntropyLevel.
      rewrite set_level_twice. apply IH.
Qed.

(** ** The sampled-bit count and the misfire counts *)

(** The state in which the scale-downs are applied: what the call has
    counted, and the variables the rest of the call leaves alone. *)
Lemma addBit_before_scaling (c : call) (st : state) (b : bool) (st' : state) :
  Inv st -> inmHealthCheckAddBit c st = Normal (b, st') ->
  exists s6,
    st' = scaleZeroOneCounts (scaleEntropy s6)
    /\ inmNumBitsSampled s6 = inmNumBitsSampled st + 1
    /\ inmEvenMisfires s6 = inmEvenMisfires (note_lanes c st)
    /\ inmOddMisfires s6 = inmOddMisfires (note_lanes c st)
    /\ inmPrevEven s6 = evenBit c /\ inmPrevOdd s6 = oddBit c.
Proof.
  intros Hinv Hcall.
  destruct (addBit_inv _ _ _ _ Hcall) as (s2 & zeros & ones & s4 & s6 & Hsteps & _ & ->).
  exists s6.
  destruct (steps_facts _ _ _ _ _ _ _ Hinv Hsteps)
    as [sok_shape2 sok_counters2 sok_probability2 sok_zeros sok_ones sok_shape4
        sok_counters4 sok_probability4 sok_shape6 sok_frame6].
  destruct (steps_keeps _ _ _ _ _ _ _ Hinv Hsteps) as (K1 & K2 & K4 & K6 & K8 & _).
  pose proof (shift_window_keeps (call_bit c) (note_lanes c st)) as Ks.
  assert (Hsam : inmNumBitsSampled s6 = inmNumBitsSampled st + 1).
  { rewrite sok_frame6. fields_goal.
    kept_as K4 F_NumBitsSampled S4. kept_as K2 F_NumBitsSampled S2.
    kept_as K1 F_NumBitsSampled S1.
    destruct Hinv as [_ [Hs _ _ _ _ _ _ _ _ _] _]. change INM_MIN_DATA with 80000 in Hs.
    rewrite u32_small by lia. congruence. }
  kept_as K6 F_EvenMisfires E6. kept_as K4 F_EvenMisfires E4. kept_as K2 F_EvenMisfires E2.
  kept_as Ks F_EvenMisfires E1.
  kept_as K6 F_OddMisfires O6. kept_as K4 F_OddMisfires O4. kept_as K2 F_OddMisfires O2.
  kept_as Ks F_OddMisfires O1.
  kept_as K6 F_PrevEven PE6. kept_as K4 F_PrevEven PE4. kept_as K2 F_PrevEven PE2.
  kept_as Ks F_PrevEven PE1.
  kept_as K6 F_PrevOdd PO6. kept_as K4 F_PrevOdd PO4. kept_as K2 F_PrevOdd PO2.
  kept_as Ks F_PrevOdd PO1.
  split_and!; try reflexivity; try assumption; try congruence.
  - rewrite PE6, PE4, PE2, PE1. reflexivity.
  - rewrite PO6, PO4, PO2, PO1. reflexivity.
Qed.

Lemma addBit_sampled (c : call) (st : state) (b : bool) (st' : state) :
  Inv st -> inmHealthCheckAddBit c st = Normal (b, st') ->
  inmNumBitsSampled st'
  = (if inmNumBitsSampled st + 1 =? INM_MIN_DATA then 40000 else inmNumBitsSampled st + 1).
Proof.
  intros Hinv Hcall.
  destruct (addBit_before_scaling _ _ _ _ Hinv Hcall) as (s6 & -> & Hsam & _).
  destruct (scale_entropy_fields s6) as [Hyes Hno]. cbv zeta in Hyes, Hno. rewrite <- Hsam.
  destruct (Z.eqb_spec (inmNumBitsSampled s6) INM_MIN_DATA) as [Hfull | Hnot].
  - destruct (Hyes Hfull) as (_ & -> & _). now rewrite Hfull.
  - now destruct (Hno Hnot) as (_ & -> & _).
Qed.

(** The sampled-bit count as a function of the number of calls. *)
Lemma run_sampled (calls : list call) (st st' : state) :
  Inv st -> inmNumBitsSampled st = 0 -> run calls st = Normal st' ->
  let n := Z.of_nat (length calls) in
  inmNumBitsSampled st'
  = (if n <? INM_MIN_DATA then n else 40000 + (n - INM_MIN_DATA) mod 40000).
Proof.
  intros Hinv H0 Hrun. cbv zeta. revert st' Hrun.
  induction calls as [|c calls IH] using rev_ind; intros st' Hrun.
  - injection Hrun as <-. exact H0.
  - rewrite run_app in Hrun.
    destruct (run calls st) as [s| | |] eqn:Hpre;
      rewrite ?bind_Normal, ?bind_Exited, ?bind_Undefined, ?bind_Diverges in Hrun;
      try discriminate.
    specialize (IH s eq_refl). pose proof (run_Inv _ _ _ Hinv Hpre) as Hs.
    rewrite run_single in Hrun.
    destruct (addBit_progress c s Hs) as [Hcall | (s' & Hcall & _)]; rewrite Hcall in Hrun.
    + rewrite bind_Exited in Hrun. discriminate.
    + rewrite bind_Normal in Hrun. injection Hrun as <-. cbn [snd].
      rewrite (addBit_sampled _ _ _ _ Hs Hcall), IH.
      rewrite length_app, Nat2Z.inj_add. cbn [length]. change INM_MIN_DATA with 80000.
      set (n := Z.of_nat (length calls)).
      assert (0 <= n) by lia.
      destruct (Z.ltb_spec n 80000), (Z.ltb_spec (n + Z.of_nat 1) 80000);
        destruct (Z.eqb_spec (n + 1) 80000); try lia.
      * replace (n + Z.of_nat 1 - 80000) with 0 by lia. reflexivity.
      * destruct (Z.eqb_spec (40000 + (n - 80000) mod 40000 + 1) 80000) as [Hfull | Hnot].
        -- replace (n + Z.of_nat 1 - 80000) with (n - 80000 + 1) by lia.
           pose proof (Z.mod_pos_bound (n - 80000) 40000 ltac:(lia)).
           assert (Hm : (n - 80000) mod 40000 = 39999) by lia.
           rewrite <- Zplus_mod_idemp_l, Hm. reflexivity.
        -- replace (n + Z.of_nat 1 - 80000) with (n - 80000 + 1) by lia.
           pose proof (Z.mod_pos_bound (n - 80000) 40000 ltac:(lia)).
           rewrite <- Zplus_mod_idemp_l, (Z.mod_small ((n - 80000) mod 40000 + 1)) by lia. lia.
Qed.

Lemma run_tracking (calls : list call) (st st' : state) :
  Inv st -> inmNumBitsSampled st = 0 -> run calls st = Normal st' ->
  let n := Z.of_nat (length calls) in
  (INM_MIN_DATA <= n -> 40000 <= inmNumBitsSampled st' < INM_MIN_DATA)
  /\ tracking st' = (100 <? n).
Proof.
  intros Hinv H0 Hrun.
  pose proof (run_sampled _ _ _ Hinv H0 Hrun) as Hs. cbv zeta in Hs |- *.
  set (n := Z.of_nat (length calls)) in *. change INM_MIN_DATA with 80000 in *.
  assert (0 <= n) by lia.
  pose proof (Z.mod_pos_bound (n - 80000) 40000 ltac:(lia)).
  split.
  - intros Hn. rewrite Hs. destruct (Z.ltb_spec n 80000); lia.
  - unfold tracking. rewrite Hs.
    destruct (Z.ltb_spec n 80000);
      destruct (Z.ltb_spec 100 n); try reflexivity; try lia;
      apply Z.ltb_lt || apply Z.ltb_ge; lia.
Qed.

Lemma note_lanes_misfires (c : call) (st : state) :
  inmEvenMisfires (note_lanes c st)
  = (if even c && negb (eqb (evenBit c) (inmPrevEven st))
     then u32 (inmEvenMisfires st + 1) else inmEvenMisfires st)
  /\ inmOddMisfires (note_lanes c st)
     = (if negb (even c) && negb (eqb (oddBit c) (inmPrevOdd st))
        then u32 (inmOddMisfires st + 1) else inmOddMisfires st).
Proof.
  fields_of st. unfold note_lanes. fields_goal.
  destruct (even c); cbn [andb negb];
    [destruct (negb (eqb (evenBit c) fPE)) | destruct (negb (eqb (oddBit c) fPO))];
    split; reflexivity.
Qed.

(** What a call does to the misfire counts, while they are at most the
    sampled-bit count. *)
Lemma addBit_misfires (c : call) (st : state) (b : bool) (st' : state) :
  Inv st -> inmEvenMisfires st + inmOddMisfires st <= inmNumBitsSampled st ->
  inmHealthCheckAddBit c st = Normal (b, st') ->
  let h x := if inmNumBitsSampled st + 1 =? INM_MIN_DATA then x / 2 else x in
  inmPrevEven st' = evenBit c /\ inmPrevOdd st' = oddBit c
  /\ inmEvenMisfires st'
     = h (inmEvenMisfires st
          + (if even c && negb (eqb (evenBit c) (inmPrevEven st)) then 1 else 0))
  /\ inmOddMisfires st'
     = h (inmOddMisfires st
          + (if negb (even c) && negb (eqb (oddBit c) (inmPrevOdd st)) then 1 else 0))
  /\ inmEvenMisfires st' + inmOddMisfires st' <= inmNumBitsSampled st'.
Proof.
  intros Hinv Hle Hcall. cbv zeta.
  pose proof (addBit_sampled _ _ _ _ Hinv Hcall) as Hs'.
  destruct (addBit_before_scaling _ _ _ _ Hinv Hcall) as (s6 & -> & Hsam & He & Ho & Hpe & Hpo).
  pose proof (scaleEntropy_keeps s6) as Ke.
  pose proof (scaleZeroOneCounts_keeps (scaleEntropy s6)) as Kz.
  kept_as Kz F_PrevEven PE8. kept_as Ke F_PrevEven PE7.
  kept_as Kz F_PrevOdd PO8. kept_as Ke F_PrevOdd PO7.
  destruct (note_lanes_misfires c st) as [Hne Hno]. rewrite Hne in He. rewrite Hno in Ho.
  destruct Hinv as [_ [Hr _ _ _ _ _ _ _ Hem Hom] _]. change INM_MIN_DATA with 80000 in *.
  assert (He' : inmEvenMisfires s6
                = inmEvenMisfires st
                  + (if even c && negb (eqb (evenBit c) (inmPrevEven st)) then 1 else 0)).
  { rewrite He. destruct (even c && negb (eqb (evenBit c) (inmPrevEven st)));
      [apply u32_small|]; lia. }
  assert (Ho' : inmOddMisfires s6
                = inmOddMisfires st
                  + (if negb (even c) && negb (eqb (oddBit c) (inmPrevOdd st)) then 1 else 0)).
  { rewrite Ho. destruct (negb (even c) && negb (eqb (oddBit c) (inmPrevOdd st)));
      [apply u32_small|]; lia. }
  assert (Hsum : inmEvenMisfires s6 + inmOddMisfires s6 <= inmNumBitsSampled s6).
  { rewrite He', Ho', Hsam. destruct (even c); cbn [andb negb];
      repeat match goal with |- context [if ?b then _ else _] => destruct b end; lia. }
  destruct (scale_entropy_fields s6) as [Hyes Hnot]. cbv zeta in Hyes, Hnot.
  rewrite <- He', <- Ho', <- Hsam. change INM_MIN_DATA with 80000 in *.
  split; [congruence|]. split; [congruence|].
  destruct (Z.eqb_spec (inmNumBitsSampled s6) 80000) as [Hfull | Hnfull].
  - destruct (Hyes Hfull) as (_ & Hs8 & He8 & Ho8). rewrite He8, Ho8, Hs8.
    split_and!; try reflexivity. clear -Hsum Hfull. rewrite Hfull in Hsum |- *.
    change (80000 / 2) with 40000.
    pose proof (Z.div_mod (inmEvenMisfires s6) 2 ltac:(lia)).
    pose proof (Z.mod_pos_bound (inmEvenMisfires s6) 2 ltac:(lia)).
    pose proof (Z.div_mod (inmOddMisfires s6) 2 ltac:(lia)).
    pose proof (Z.mod_pos_bound (inmOddMisfires s6) 2 ltac:(lia)). lia.
  - destruct (Hnot Hnfull) as (_ & Hs8 & He8 & Ho8). rewrite He8, Ho8, Hs8. auto.
Qed.

Lemma run_misfires (calls : list call) (st st' : state) :
  Inv st -> inmEvenMisfires st + inmOddMisfires st <= inmNumBitsSampled st ->
  run calls st = Normal st' ->
  inmEvenMisfires st' + inmOddMisfires st' <= inmNumBitsSampled st'.
Proof.
  revert st. induction calls as [|c calls IH]; intros st Hinv Hle Hrun.
  - now injection Hrun as <-.
  - rewrite run_cons in Hrun.
    destruct (addBit_progress c st Hinv) as [Hcall | (s & Hcall & Hinv')];
      rewrite Hcall in Hrun.
    + rewrite bind_Exited in Hrun. discriminate.
    + rewrite bind_Normal in Hrun. apply (IH s Hinv'); [|exact Hrun].
      now destruct (addBit_misfires _ _ _ _ Hinv Hle Hcall) as (_ & _ & _ & _ & H).
Qed.

(** ** How much entropy a call credits *)

(** Multiplication by a power of two is exact. *)
Lemma mul_pow2 (m : positive) (e k : Z) :
  2 ^ 52 <= Z.pos m < 2 ^ 53 -> -1000 <= e + k <= 900 ->
  B64.mul (S754_finite false m e) (S754_finite false 4503599627370496 (k - 52))
  = S754_finite false m (e + k).
Proof.
  intros Hm He. rewrite mul_finite.
  assert (Hprod : Z.pos (m * 4503599627370496) = Z.pos m * 2 ^ 52) by (rewrite Pos2Z.inj_mul; reflexivity).
  assert (Hd : Z.pos (digits2_pos (m * 4503599627370496)) = 105).
  { apply digits2_pos_unique. rewrite Hprod. change (105 - 1) with (52 + 52).
    change 105 with (53 + 52). rewrite !Z.pow_add_r by lia. nia. }
  destruct (round_aux_normal (m * 4503599627370496) (e + (k - 52)) loc_Exact)
    as (m' & e' & Heq & _ & _ & _ & Hexact); rewrite ?Hd; try lia.
  rewrite Heq. rewrite Hd, Hprod in Hexact. change (105 - 53) with 52 in Hexact.
  destruct Hexact as [Hm' He']; [reflexivity | apply Z.mod_mul; lia |].
  rewrite Z.div_mul in Hm' by lia. f_equal; lia.
Qed.

Lemma mul_one (m : positive) (e : Z) :
  2 ^ 52 <= Z.pos m < 2 ^ 53 -> -1000 <= e <= 900 ->
  B64.mul (S754_finite false m e) B64.one = S754_finite false m e.
Proof.
  intros Hm He. unfold B64.one. change (-52) with (0 - 52).
  rewrite mul_pow2 by (assumption || lia). f_equal. lia.
Qed.

Lemma mul_half (m : positive) (e : Z) :
  2 ^ 52 <= Z.pos m < 2 ^ 53 -> -900 <= e <= 900 ->
  B64.mul (S754_finite false m e) B64.half = S754_finite false m (e - 1).
Proof.
  intros Hm He. unfold B64.half. change (-53) with (-1 - 52).
  rewrite mul_pow2 by (assumption || lia). f_equal.
Qed.

Lemma iter_twice (j : nat) (m : positive) (e : Z) :
  2 ^ 52 <= Z.pos m < 2 ^ 53 -> -1000 <= e -> e + Z.of_nat j <= 900 ->
  Nat.iter j B64.twice (S754_finite false m e) = S754_finite false m (e + Z.of_nat j).
Proof.
  intros Hm Hlo. induction j as [|j IH]; intros Hhi.
  - change (Z.of_nat 0) with 0. rewrite Z.add_0_r. reflexivity.
  - assert (Hj : e + Z.of_nat j <= 900) by lia.
    rewrite Nat.iter_succ, (IH Hj). unfold B64.twice.
    rewrite mul_two by (assumption || lia). f_equal. lia.
Qed.

Lemma div_self (a : Z) :
  1 <= a < 2 ^ 32 -> B64.div (B64.of_uint a) (B64.of_uint a) = B64.one.
Proof.
  intros Ha. destruct (of_uint_normal a) as (m & Em & Hm); [lia|].
  pose proof (of_uint_mantissa a m Ha Hm) as Hr.
  rewrite Em, div_normal by (assumption || lia).
  rewrite (Z.mul_comm (Z.pos m)), Z.mod_mul, Z.div_mul, new_location_0 by lia.
  replace (Z.log2 a - 52 - (Z.log2 a - 52) - 53) with (-53) by lia.
  vm_compute. reflexivity.
Qed.

Lemma div_double (a : Z) :
  1 <= a < 2 ^ 31 -> B64.div (B64.of_uint a) (B64.of_uint (a + a)) = B64.half.
Proof.
  intros Ha. destruct (of_uint_normal a) as (m & Em & Hm); [lia|].
  destruct (of_uint_normal (a + a)) as (m2 & Em2 & Hm2); [lia|].
  pose proof (of_uint_mantissa a m ltac:(lia) Hm) as Hr.
  assert (Hlog : Z.log2 (a + a) = Z.log2 a + 1).
  { replace (a + a) with (2 * a) by lia. apply Z.log2_double. lia. }
  pose proof (Z.log2_nonneg a). 
  assert (Z.log2 a < 31) by (apply Z.log2_lt_pow2; lia).
  assert (Heq : m2 = m).
  { apply Pos2Z.inj. rewrite Hm2, Hm, Hlog.
    replace (52 - Z.log2 a) with (Z.succ (52 - (Z.log2 a + 1))) by lia.
    rewrite Z.pow_succ_r by lia. lia. }
  rewrite Em, Em2, Heq, Hlog, div_normal by (assumption || lia).
  rewrite (Z.mul_comm (Z.pos m)), Z.mod_mul, Z.div_mul, new_location_0 by lia.
  replace (Z.log2 a - 52 - (Z.log2 a + 1 - 52) - 53) with (-54) by lia.
  vm_compute. reflexivity.
Qed.

(** The ratio of two counts, the larger below 2^15, is a normal double of
    at least 2^-15. *)
Lemma div_small_counts (a b : Z) :
  1 <= a <= b -> b < 2 ^ 15 ->
  B64.unit_le (-67) (B64.div (B64.of_uint a) (B64.of_uint b)).
Proof.
  intros Hab Hb.
  destruct (of_uint_normal a) as (ma & Ea & Hma); [lia|].
  destruct (of_uint_normal b) as (mb & Eb & Hmb); [lia|].
  rewrite Ea, Eb.
  pose proof (Z.log2_le_mono a b ltac:(lia)) as Hmono.
  pose proof (Z.log2_nonneg a) as Hla.
  assert (Hlb : Z.log2 b < 15) by (apply Z.log2_lt_pow2; lia).
  pose proof (of_uint_mantissa a ma ltac:(lia) Hma) as Na.
  pose proof (of_uint_mantissa b mb ltac:(lia) Hmb) as Nb.
  apply (unit_le_weaken (Z.log2 a - 52 - (Z.log2 b - 52) - 53)); [lia|].
  apply div_le_one; try assumption; try lia.
  destruct (Z.eq_dec (Z.log2 a) (Z.log2 b)) as [Heq | Hne]; [right | left; lia].
  split; [lia|]. rewrite Hma, Hmb, Heq. apply Z.mul_le_mono_nonneg_r; [|lia].
  apply Z.pow_nonneg. lia.
Qed.

Lemma entering_unit (bit : bool) (zeros ones : Z) (p : double) :
  B64.above_half p -> 0 <= zeros < INM_MAX_COUNT -> 0 <= ones < INM_MAX_COUNT ->
  B64.unit_le (-68) (entering bit zeros ones p).
Proof.
  intros Hp Hz Ho. change INM_MAX_COUNT with 16384 in *. apply above_half_unit in Hp.
  unfold entering. cbv zeta.
  destruct (Z.eqb_spec (if bit then ones else zeros) 0) as [|Hnz].
  - now apply (unit_le_weaken (-53)).
  - change (-68) with (-53 + -67 + 52). apply mul_unit; try lia; [assumption|].
    apply div_small_counts; destruct bit; lia.
Qed.

(** What a call does to the probability and to the entropy-unit count, from
    the counts it reads. *)
Lemma addBit_credit (c : call) (st : state) (b : bool) (st' : state) :
  Inv st -> inmHealthCheckAddBit c st = Normal (b, st') ->
  exists (zeros ones : Z) (k : nat),
    let i := inmPrevBits (shift_window (call_bit c) st) in
    let p1 := entering (call_bit c) zeros ones (inmCurrentProbability st) in
    tbl_get (selected false (even c) st) i = Normal zeros
    /\ tbl_get (selected true (even c) st) i = Normal ones
    /\ 0 <= zeros < INM_MAX_COUNT /\ 0 <= ones < INM_MAX_COUNT
    /\ inmCurrentProbability st' = Nat.iter k B64.twice p1
    /\ (forall j, (j < k)%nat -> B64.leb (Nat.iter j B64.twice p1) B64.half = true)
    /\ B64.leb (inmCurrentProbability st') B64.half = false
    /\ (k <= 16)%nat
    /\ inmNumBitsOfEntropy st'
       = (let units := u32 (inmNumBitsOfEntropy st + Z.of_nat k) in
          if inmNumBitsSampled st + 1 =? INM_MIN_DATA then units / 2 else units).
Proof.
  intros Hinv Hcall.
  destruct (addBit_inv _ _ _ _ Hcall) as (s2 & zeros & ones & s4 & s6 & Hsteps & _ & ->).
  destruct (steps_facts _ _ _ _ _ _ _ Hinv Hsteps)
    as [sok_shape2 sok_counters2 sok_probability2 sok_zeros sok_ones sok_shape4
        sok_counters4 sok_probability4 sok_shape6 sok_frame6].
  destruct (steps_keeps _ _ _ _ _ _ _ Hinv Hsteps) as (K1 & K2 & K4 & K6 & K8 & _).
  pose proof (note_lanes_keeps c st) as Kn.
  destruct Hsteps as [H1 H2 H3 H4].
  destruct (emit_entropy_doublings _ _ _ H3) as (k & Hp & Hu & Hall & Hend).
  exists zeros, ones, k. cbv zeta.
  destruct (lane_counts_ok (even c) s2 sok_shape2) as (z' & o' & Hl & _ & _ & Gz & Go).
  rewrite H2 in Hl. injection Hl as <- <-.
  kept_as K1 F_OnesEven OE1. kept_as K1 F_ZerosEven ZE1.
  kept_as K1 F_OnesOdd OO1. kept_as K1 F_ZerosOdd ZO1.
  kept_as K2 F_OnesEven OE2. kept_as K2 F_ZerosEven ZE2.
  kept_as K2 F_OnesOdd OO2. kept_as K2 F_ZerosOdd ZO2.
  kept_as K2 F_PrevBits W2. kept_as Kn F_PrevBits Wn. kept_as Kn F_PrevBit Bn. kept_as Kn F_N Nn.
  assert (Ew : inmPrevBits s2 = inmPrevBits (shift_window (call_bit c) st)).
  { rewrite W2. unfold shift_window. cbn [inmPrevBits set_PrevBit set_PrevBits].
    now rewrite Wn, Bn, Nn. }
  assert (Esel : forall bit, selected bit (even c) s2 = selected bit (even c) st).
  { intros bit. unfold selected. destruct bit, (even c); congruence. }
  rewrite <- Ew, <- !Esel.
  assert (Hp1 : inmCurrentProbability (update_probability (call_bit c) zeros ones s2)
                = entering (call_bit c) zeros ones (inmCurrentProbability st)).
  { unfold update_probability, entering. change INM_MAX_COUNT with 16384 in *.
    rewrite (u32_small (zeros + ones)) by lia.
    destruct (call_bit c).
    - destruct (ones =? 0); cbn [negb]; fields_goal; now rewrite sok_probability2.
    - destruct (zeros =? 0); cbn [negb]; fields_goal; now rewrite sok_probability2. }
  rewrite Hp1 in Hp, Hall.
  assert (Hu0 : inmNumBitsOfEntropy (update_probability (call_bit c) zeros ones s2)
                = inmNumBitsOfEntropy st).
  { pose proof (update_probability_keeps (call_bit c) zeros ones s2) as Ku.
    kept_as Ku F_NumBitsOfEntropy U3. kept_as K2 F_NumBitsOfEntropy U2.
    kept_as K1 F_NumBitsOfEntropy U1. congruence. }
  rewrite Hu0 in Hu.
  kept_as K8 F_CurrentProbability P8. kept_as K6 F_CurrentProbability P6.
  kept_as K6 F_NumBitsOfEntropy U6.
  assert (Hsam : inmNumBitsSampled s6 = inmNumBitsSampled st + 1).
  { rewrite sok_frame6. fields_goal.
    kept_as K4 F_NumBitsSampled S4. kept_as K2 F_NumBitsSampled S2.
    kept_as K1 F_NumBitsSampled S1.
    destruct Hinv as [_ [Hs _ _ _ _ _ _ _ _ _] _]. change INM_MIN_DATA with 80000 in Hs.
    rewrite u32_small by lia. congruence. }
  assert (Hk : (k <= 16)%nat).
  { destruct (entering_unit (call_bit c) zeros ones (inmCurrentProbability st))
      as (m & e & Ep & Hm & He & _); try assumption; [apply Hinv|].
    destruct (Nat.le_gt_cases k 16) as [|Hgt]; [assumption|exfalso].
    specialize (Hall 16%nat Hgt). rewrite Ep, iter_twice, leb_half in Hall by (assumption || lia).
    apply orb_true_iff in Hall as [Hlt | Heq]; [apply Z.ltb_lt in Hlt; lia|].
    apply andb_true_iff in Heq as [Heq _]. apply Z.eqb_eq in Heq. lia. }
  split; [exact Gz|]. split; [exact Go|]. split; [exact sok_zeros|]. split; [exact sok_ones|].
  split; [congruence|]. split; [exact Hall|]. split; [now rewrite P8, P6|].
  split; [exact Hk|].
  rewrite scale_units, Hsam, shiftr_1_half, U6, Hu.
  destruct k as [|k']; [|reflexivity].
  change (Z.of_nat 0) with 0. rewrite Z.add_0_r, u32_small; [reflexivity|apply Hinv].
Qed.

Lemma addBit_units (c : call) (st : state) (b : bool) (st' : state) :
  Inv st -> inmNumBitsOfEntropy st <= 16 * inmNumBitsSampled st ->
  inmHealthCheckAddBit c st = Normal (b, st') ->
  inmNumBitsOfEntropy st' <= 16 * inmNumBitsSampled st'
  /\ exists k, 0 <= k <= 16
       /\ inmNumBitsOfEntropy st'
          = (if inmNumBitsSampled st + 1 =? INM_MIN_DATA
             then (inmNumBitsOfEntropy st + k) / 2 else inmNumBitsOfEntropy st + k).
Proof.
  intros Hinv Hle Hcall.
  destruct (addBit_credit _ _ _ _ Hinv Hcall) as (zeros & ones & k & Hk).
  cbv zeta in Hk. destruct Hk as (_ & _ & _ & _ & _ & _ & _ & Hk & Hu).
  pose proof (addBit_sampled _ _ _ _ Hinv Hcall) as Hs.
  destruct Hinv as [_ [Hr _ _ _ _ _ Hu0 _ _ _] _]. change INM_MIN_DATA with 80000 in *.
  rewrite u32_small in Hu by lia.
  split.
  - rewrite Hu, Hs. destruct (inmNumBitsSampled st + 1 =? 80000) eqn:Hfull; [|lia].
    apply Z.eqb_eq in Hfull.
    pose proof (Z.div_mod (inmNumBitsOfEntropy st + Z.of_nat k) 2 ltac:(lia)).
    pose proof (Z.mod_pos_bound (inmNumBitsOfEntropy st + Z.of_nat k) 2 ltac:(lia)). lia.
  - exists (Z.of_nat k). split; [lia | exact Hu].
Qed.

Lemma run_units (calls : list call) (st st' : state) :
  Inv st -> inmNumBitsOfEntropy st <= 16 * inmNumBitsSampled st ->
  run calls st = Normal st' ->
  inmNumBitsOfEntropy st' <= 16 * inmNumBitsSampled st'.
Proof.
  revert st. induction calls as [|c calls IH]; intros st Hinv Hle Hrun.
  - now injection Hrun as <-.
  - rewrite run_cons in Hrun.
    destruct (addBit_progress c st Hinv) as [Hcall | (s & Hcall & Hinv')];
      rewrite Hcall in Hrun.
    + rewrite bind_Exited in Hrun. discriminate.
    + rewrite bind_Normal in Hrun. apply (IH s Hinv'); [|exact Hrun].
      now destruct (addBit_units _ _ _ _ Hinv Hle Hcall) as (H & _).
Qed.

(** ** The estimate before the first call, and a gain with no logarithm *)

Lemma leb_nan_r (x y : double) : is_nan y = true -> B64.leb x y = false.
Proof. destruct y; try discriminate. now destruct x. Qed.

Lemma leb_nan_l (x y : double) : is_nan x = true -> B64.leb x y = false.
Proof. destruct x; try discriminate. reflexivity. Qed.

Lemma mul_nan_l (x y : double) : is_nan x = true -> is_nan (B64.mul x y) = true.
Proof. destruct x; try discriminate. reflexivity. Qed.

(** The verdict is false when the estimate or the expected value is a NaN:
    every comparison with a NaN is false. *)
Lemma ok_nan (s : state) :
  is_nan (inmHealthCheckEstimateEntropyPerBit s) = true
  \/ is_nan (inmExpectedEntropyPerBit s) = true ->
  inmHealthCheckOkToUseData s = false.
Proof.
  intros [Hn | Hn]; unfold inmHealthCheckOkToUseData; cbv zeta;
    change (B64.geb ?x ?y) with (B64.leb y x).
  - rewrite (leb_nan_r _ _ (mul_nan_l _ INM_ACCURACY Hn)).
    now rewrite andb_false_r.
  - rewrite (leb_nan_l _ (B64.mul (inmHealthCheckEstimateEntropyPerBit s) INM_ACCURACY) Hn).
    now rewrite andb_false_r.
Qed.

Lemma charge_unit_expected (s : state) :
  inmExpectedEntropyPerBit (charge_unit s) = inmExpectedEntropyPerBit s.
Proof. reflexivity. Qed.

Lemma emit_entropy_nan (fuel : nat) (st st' : state) :
  is_nan (inmExpectedEntropyPerBit st) = true ->
  emit_entropy fuel st = Normal st' -> inmEntropyLevel st' = inmEntropyLevel st.
Proof.
  intros Hn. revert st Hn. induction fuel as [|fuel IH]; intros st Hn; cbn [emit_entropy];
    destruct (B64.leb (inmCurrentProbability st) B64.half); intros Hemit;
    try discriminate; try (now injection Hemit as <-).
  assert (Hc : credit_unit st = charge_unit st).
  { unfold credit_unit. cbv zeta. rewrite ok_nan; [reflexivity|].
    right. now rewrite charge_unit_expected. }
  rewrite Hc in Hemit.
  assert (Hn' : is_nan (inmExpectedEntropyPerBit (charge_unit st)) = true)
    by now rewrite charge_unit_expected.
  rewrite (IH _ Hn' Hemit). reflexivity.
Qed.

Lemma addBit_nan (c : call) (st : state) (b : bool) (st' : state) :
  Inv st -> is_nan (inmExpectedEntropyPerBit st) = true ->
  inmHealthCheckAddBit c st = Normal (b, st') ->
  inmEntropyLevel st' = inmEntropyLevel st
  /\ inmExpectedEntropyPerBit st' = inmExpectedEntropyPerBit st.
Proof.
  intros Hinv Hn Hcall.
  pose proof (addBit_keeps _ _ _ _ Hinv Hcall) as Kall. kept_as Kall F_ExpectedEntropyPerBit X.
  split; [|exact X].
  destruct (addBit_inv _ _ _ _ Hcall) as (s2 & zeros & ones & s4 & s6 & Hsteps & _ & ->).
  destruct (steps_keeps _ _ _ _ _ _ _ Hinv Hsteps) as (K1 & K2 & K4 & K6 & K8 & _).
  destruct Hsteps as [H1 H2 H3 H4].
  pose proof (update_probability_keeps (call_bit c) zeros ones s2) as Ku.
  kept_as Ku F_EntropyLevel L3. kept_as K2 F_EntropyLevel L2. kept_as K1 F_EntropyLevel L1.
  kept_as K6 F_EntropyLevel L6. kept_as K8 F_EntropyLevel L8.
  kept_as Ku F_ExpectedEntropyPerBit X3. kept_as K2 F_ExpectedEntropyPerBit X2.
  kept_as K1 F_ExpectedEntropyPerBit X1.
  assert (Hn3 : is_nan (inmExpectedEntropyPerBit (update_probability (call_bit c) zeros ones s2))
                = true) by now rewrite X3, X2, X1.
  rewrite L8, L6, (emit_entropy_nan _ _ _ Hn3 H3), L3, L2, L1. reflexivity.
Qed.

Lemma run_nan (calls : list call) (st st' : state) :
  Inv st -> is_nan (inmExpectedEntropyPerBit st) = true ->
  run calls st = Normal st' ->
  inmEntropyLevel st' = inmEntropyLevel st
  /\ inmExpectedEntropyPerBit st' = inmExpectedEntropyPerBit st.
Proof.
  revert st. induction calls as [|c calls IH]; intros st Hinv Hn Hrun.
  - now injection Hrun as <-.
  - rewrite run_cons in Hrun.
    destruct (addBit_progress c st Hinv) as [Hcall | (s & Hcall & Hinv')];
      rewrite Hcall in Hrun.
    + rewrite bind_Exited in Hrun. discriminate.
    + rewrite bind_Normal in Hrun. cbn [snd] in Hrun.
      destruct (addBit_nan _ _ _ _ Hinv Hn Hcall) as [Hl Hx].
      assert (Hn' : is_nan (inmExpectedEntropyPerBit s) = true) by now rewrite Hx.
      destruct (IH s Hinv' Hn' Hrun) as [Hl' Hx']. split; congruence.
Qed.

(** ** [inmEntropyOnTarget] *)

Lemma to_uint32_range (x : double) (k : Z) : to_uint32 x = Normal k -> 0 <= k < 2 ^ 32.
Proof.
  destruct x as [s|s| |s m e]; cbn [to_uint32]; try discriminate.
  - intros [= <-]. lia.
  - cbv zeta. set (t := if 0 <=? e then _ else _).
    assert (Ht : 0 <= t).
    { unfold t. destruct (0 <=? e) eqn:He.
      - apply Z.leb_le in He. pose proof (Z.pow_nonneg 2 e ltac:(lia)). nia.
      - apply Z.div_pos; [lia|]. apply Z.pow_pos_nonneg; lia. }
    destruct s.
    + destruct (t =? 0); [|discriminate]. intros [= <-]. lia.
    + destruct (Z.ltb_spec t (2 ^ 32)); [|discriminate]. intros [= <-]. lia.
Qed.

(** The conversion of a count to a double is +0 or a positive double. *)
Lemma of_uint_cases (z : Z) :
  0 <= z < 2 ^ 32 ->
  (z = 0 /\ B64.of_uint z = S754_zero false)
  \/ (1 <= z /\ exists m, B64.of_uint z = S754_finite false m (Z.log2 z - 52)
                          /\ 2 ^ 52 <= Z.pos m < 2 ^ 53
                          /\ Z.pos m = z * 2 ^ (52 - Z.log2 z)).
Proof.
  intros Hz. destruct (Z.eq_dec z 0) as [-> | Hnz]; [left; split; reflexivity | right].
  split; [lia|]. destruct (of_uint_normal z) as (m & Em & Hm); [lia|].
  exists m. split; [exact Em|]. split; [|exact Hm]. apply (of_uint_mantissa z); [lia | exact Hm].
Qed.

(** The product of a positive count and the tolerance 1.02 is a positive
    double. *)
Lemma mul_accuracy_positive (z : Z) :
  1 <= z < 2 ^ 32 ->
  exists m e, B64.mul (B64.of_uint z) INM_ACCURACY = S754_finite false m e.
Proof.
  intros Hz. destruct (of_uint_cases z ltac:(lia)) as [[-> _] | (_ & m & Em & Hm & _)]; [lia|].
  rewrite Em. unfold INM_ACCURACY. rewrite mul_finite.
  pose proof (Z.log2_nonneg z). assert (Z.log2 z < 32) by (apply Z.log2_lt_pow2; lia).
  assert (Hprod : Z.pos (m * 4593671619917906) = Z.pos m * 4593671619917906)
    by apply Pos2Z.inj_mul.
  assert (HM : 2 ^ 104 <= Z.pos (m * 4593671619917906) < 2 ^ 106).
  { rewrite Hprod. change (2 ^ 104) with (2 ^ 52 * 2 ^ 52).
    change (2 ^ 106) with (2 ^ 53 * 2 ^ 53). nia. }
  assert (Hd : Z.pos (digits2_pos (m * 4593671619917906)) = 105
               \/ Z.pos (digits2_pos (m * 4593671619917906)) = 106).
  { destruct (Z.lt_ge_cases (Z.pos (m * 4593671619917906)) (2 ^ 105)); [left | right];
      apply digits2_pos_unique; cbn; lia. }
  destruct (round_aux_normal (m * 4593671619917906) (Z.log2 z - 52 + -52) loc_Exact)
    as (m' & e' & Heq & _); try lia.
  eauto.
Qed.

(** ** The totals of ones and zeros *)

Lemma check_sequence_totals (bit : bool) (st s2 : state) :
  check_sequence bit st = Normal s2 ->
  inmTotalOnes s2
  = (if tracking st && bit then u32 (inmTotalOnes st + 1) else inmTotalOnes st)
  /\ inmTotalZeros s2
     = (if tracking st && negb bit then u32 (inmTotalZeros st + 1) else inmTotalZeros st).
Proof.
  fields_of st. unfold check_sequence, tracking. fields_goal.
  destruct (100 <? fS); cbn [andb]; [|intros [= <-]; split; reflexivity].
  destruct bit; cbn [negb].
  - destruct (INM_MAX_SEQUENCE <? u32 (fSO + 1)); [discriminate|].
    intros [= <-]. split; reflexivity.
  - destruct (INM_MAX_SEQUENCE <? u32 (fSZ + 1)); [discriminate|].
    intros [= <-]. split; reflexivity.
Qed.

(** ** The diagnostics of the test program *)

(** *** Finite sums *)

Lemma sum_from_ext (n : nat) (j : Z) (f g : Z -> Z) :
  (forall k, j <= k < j + Z.of_nat n -> f k = g k) -> sum_from n j f = sum_from n j g.
Proof.
  revert j. induction n as [|n IH]; intros j H; [reflexivity|]. cbn [sum_from].
  rewrite (H j) by lia. f_equal. apply IH. intros k Hk. apply H. lia.
Qed.

Lemma sum_from_add (n : nat) (j : Z) (f g : Z -> Z) :
  sum_from n j (fun k => f k + g k) = sum_from n j f + sum_from n j g.
Proof. revert j. induction n as [|n IH]; intros j; cbn [sum_from]; [|rewrite IH]; lia. Qed.

Lemma sum_from_app (a b : nat) (j : Z) (f : Z -> Z) :
  sum_from (a + b) j f = sum_from a j f + sum_from b (j + Z.of_nat a) f.
Proof.
  revert j. induction a as [|a IH]; intros j.
  - cbn [sum_from Nat.add]. now rewrite Z.add_0_r.
  - cbn [sum_from Nat.add]. rewrite IH. replace (j + 1 + Z.of_nat a) with (j + Z.of_nat (S a)) by lia.
    lia.
Qed.

Lemma sum_from_shift (n : nat) (j d : Z) (f : Z -> Z) :
  sum_from n j (fun k => f (k + d)) = sum_from n (j + d) f.
Proof.
  revert j. induction n as [|n IH]; intros j; [reflexivity|]. cbn [sum_from].
  rewrite IH. do 2 f_equal. lia.
Qed.

Lemma sum_from_zero (n : nat) (j : Z) : sum_from n j (fun _ => 0) = 0.
Proof. revert j. induction n as [|n IH]; intros j; cbn [sum_from]; [|rewrite IH]; lia. Qed.

Lemma sum_from_swap (a b : nat) (i0 j0 : Z) (g : Z -> Z -> Z) :
  sum_from a i0 (fun i => sum_from b j0 (fun j => g i j))
  = sum_from b j0 (fun j => sum_from a i0 (fun i => g i j)).
Proof.
  revert i0. induction a as [|a IH]; intros i0; cbn [sum_from].
  - now rewrite sum_from_zero.
  - rewrite IH, <- sum_from_add. reflexivity.
Qed.

Lemma sum_from_le (n : nat) (j : Z) (f g : Z -> Z) :
  (forall k, j <= k < j + Z.of_nat n -> f k <= g k) -> sum_from n j f <= sum_from n j g.
Proof.
  revert j. induction n as [|n IH]; intros j H; cbn [sum_from]; [lia|].
  pose proof (H j ltac:(lia)). pose proof (IH (j + 1) ltac:(intros k Hk; apply H; lia)). lia.
Qed.

Lemma sum_from_bounds (n : nat) (j lo hi : Z) (f : Z -> Z) :
  (forall k, j <= k < j + Z.of_nat n -> lo <= f k <= hi) ->
  Z.of_nat n * lo <= sum_from n j f <= Z.of_nat n * hi.
Proof.
  revert j. induction n as [|n IH]; intros j H; cbn [sum_from]; [lia|].
  pose proof (H j ltac:(lia)). pose proof (IH (j + 1) ltac:(intros k Hk; apply H; lia)). lia.
Qed.

(** A sum over [m] blocks of [b] terms. *)
Lemma sum_from_blocks (m b : nat) (f : Z -> Z) :
  sum_from (m * b) 0 f = sum_from m 0 (fun j => sum_from b (j * Z.of_nat b) f).
Proof.
  assert (H : forall j0, sum_from (m * b) (j0 * Z.of_nat b) f
                         = sum_from m j0 (fun j => sum_from b (j * Z.of_nat b) f)).
  { induction m as [|m IH]; intros j0; [reflexivity|].
    cbn [Nat.mul sum_from]. rewrite sum_from_app, <- IH. do 2 f_equal. lia. }
  exact (H 0).
Qed.

(** The terms at [i + j * b], for [i] below [b] and [j] below [m], are all
    the terms below [m * b]. *)
Lemma sum_from_classes (m b : nat) (f : Z -> Z) :
  sum_from b 0 (fun i => sum_from m 0 (fun j => f (i + j * Z.of_nat b)))
  = sum_from (m * b) 0 f.
Proof.
  rewrite sum_from_swap, sum_from_blocks. apply sum_from_ext. intros j _.
  rewrite sum_from_shift. reflexivity.
Qed.

(** The terms of even and of odd index. *)
Lemma sum_from_parity (m : nat) (f : Z -> Z) :
  sum_from (2 * m) 0 f
  = sum_from m 0 (fun j => f (2 * j)) + sum_from m 0 (fun j => f (2 * j + 1)).
Proof.
  assert (H : forall j0, sum_from (2 * m) (2 * j0) f
                         = sum_from m j0 (fun j => f (2 * j))
                           + sum_from m j0 (fun j => f (2 * j + 1))).
  { induction m as [|m IH]; intros j0; [reflexivity|].
    replace (2 * S m)%nat with (S (S (2 * m))) by lia. cbn [sum_from].
    replace (2 * j0 + 1 + 1) with (2 * (j0 + 1)) by lia. rewrite IH. lia. }
  exact (H 0).
Qed.

(** *** The loops *)

Lemma cell_get (N : Z) (t : table) (k : Z) :
  table_ok N t -> 1 <= N -> 0 <= k < 2 ^ N ->
  tbl_get t k = Normal (cell t k) /\ 0 <= cell t k <= 16383.
Proof.
  intros Ht HN Hk. destruct (table_ok_get N t k Ht HN Hk) as (cells & c & -> & Hc & Hget & Hr).
  unfold cell. rewrite Hc. cbn. change INM_MAX_COUNT with 16384 in Hr.
  split; [exact Hget | lia].
Qed.

Lemma pow2_split (n N : Z) : 0 <= N <= n -> 2 ^ n = 2 ^ (n - N) * 2 ^ N.
Proof. intros H. rewrite <- Z.pow_add_r by lia. f_equal. lia. Qed.

Lemma class_index (n N i j : Z) :
  0 <= N <= n -> 0 <= i < 2 ^ N -> 0 <= j < 2 ^ (n - N) -> 0 <= i + j * 2 ^ N < 2 ^ n.
Proof.
  intros HN Hi Hj. rewrite (pow2_split n N HN).
  assert (0 < 2 ^ N) by (apply Z.pow_pos_nonneg; lia). nia.
Qed.

Lemma lsb_inner_spec (st : state) (N i : Z) :
  shape_ok st -> inmN st <= 17 -> 0 <= N <= inmN st -> 0 <= i < 2 ^ N ->
  forall (m : nat) (j t z o : Z),
    0 <= j -> j + Z.of_nat m <= 2 ^ (inmN st - N) ->
    0 <= t <= j * 32766 -> 0 <= z <= j * 16383 -> 0 <= o <= j * 16383 ->
    lsb_inner m N i j st (t, z, o)
    = Normal (t + sum_from m j (fun k => cell (inmZerosEven st) (i + k * 2 ^ N)
                                         + cell (inmOnesEven st) (i + k * 2 ^ N)),
              z + sum_from m j (fun k => cell (inmZerosEven st) (i + k * 2 ^ N)),
              o + sum_from m j (fun k => cell (inmOnesEven st) (i + k * 2 ^ N))).
Proof.
  intros [Hn _ Hoe Hze _ _] H17 HN Hi.
  assert (HM : 2 ^ (inmN st - N) <= 2 ^ 17) by (apply Z.pow_le_mono_r; lia).
  assert (Hn17 : 2 ^ inmN st <= 2 ^ 17) by (apply Z.pow_le_mono_r; lia).
  change (2 ^ 17) with 131072 in *.
  induction m as [|m IH]; intros j t z o Hj Hm Ht Hz Ho.
  - cbn [lsb_inner sum_from]. now rewrite !Z.add_0_r.
  - cbn [lsb_inner sum_from fst snd].
    pose proof (class_index (inmN st) N i j HN Hi ltac:(lia)) as Hpos.
    assert (0 < 2 ^ N) by (apply Z.pow_pos_nonneg; lia).
    rewrite Z.shiftl_1_l, (u32_small (j * 2 ^ N)), (u32_small (i + j * 2 ^ N)) by lia.
    destruct (cell_get _ _ _ Hze ltac:(lia) Hpos) as [-> Rz].
    destruct (cell_get _ _ _ Hoe ltac:(lia) Hpos) as [-> Ro].
    rewrite !bind_Normal.
    set (cz := cell (inmZerosEven st) (i + j * 2 ^ N)) in *.
    set (co := cell (inmOnesEven st) (i + j * 2 ^ N)) in *.
    rewrite (u32_small (j + 1)), (u32_small (cz + co)) by lia.
    rewrite (u32_small (t + (cz + co))), (u32_small (z + cz)), (u32_small (o + co)) by lia.
    rewrite IH by lia. do 2 f_equal; [f_equal|]; lia.
Qed.

Lemma class_counts (st : state) (N i : Z) :
  shape_ok st -> inmN st <= 17 -> 0 <= N <= inmN st -> 0 <= i < 2 ^ N ->
  0 <= class_zeros st N i <= 2 ^ (inmN st - N) * 16383
  /\ 0 <= class_ones st N i <= 2 ^ (inmN st - N) * 16383.
Proof.
  intros [Hn _ Hoe Hze _ _] H17 HN Hi. unfold class_zeros, class_ones.
  assert (0 < 2 ^ (inmN st - N)) by (apply Z.pow_pos_nonneg; lia).
  split.
  - pose proof (sum_from_bounds (Z.to_nat (2 ^ (inmN st - N))) 0 0 16383
                  (fun j => cell (inmZerosEven st) (i + j * 2 ^ N))) as Hb.
    rewrite Z2Nat.id in Hb by lia. rewrite Z.mul_0_r in Hb. apply Hb.
    intros k Hk. apply (cell_get _ _ _ Hze ltac:(lia)).
    apply (class_index (inmN st) N i k HN Hi). lia.
  - pose proof (sum_from_bounds (Z.to_nat (2 ^ (inmN st - N))) 0 0 16383
                  (fun j => cell (inmOnesEven st) (i + j * 2 ^ N))) as Hb.
    rewrite Z2Nat.id in Hb by lia. rewrite Z.mul_0_r in Hb. apply Hb.
    intros k Hk. apply (cell_get _ _ _ Hoe ltac:(lia)).
    apply (class_index (inmN st) N i k HN Hi). lia.
Qed.

Lemma lsb_outer_spec (st : state) (N : Z) :
  shape_ok st -> inmN st <= 17 -> 0 <= N <= inmN st ->
  forall (m : nat) (i r g : Z),
    0 <= i -> i + Z.of_nat m <= 2 ^ N ->
    0 <= r <= g -> g <= i * (2 ^ (inmN st - N) * 32766) ->
    lsb_outer m N i st (r, g)
    = Normal (r + sum_from m i (fun i => Z.max (class_zeros st N i) (class_ones st N i)),
              g + sum_from m i (fun i => class_zeros st N i + class_ones st N i)).
Proof.
  intros Hshape H17 HN.
  assert (HM : 0 < 2 ^ (inmN st - N)) by (apply Z.pow_pos_nonneg; lia).
  assert (Hn17 : 2 ^ inmN st <= 2 ^ 17) by (apply Z.pow_le_mono_r; lia).
  pose proof (pow2_split (inmN st) N HN) as Hsplit.
  assert (HB : 0 < 2 ^ N) by (apply Z.pow_pos_nonneg; lia).
  change (2 ^ 17) with 131072 in *.
  induction m as [|m IH]; intros i r g Hi Hm Hr Hg.
  - cbn [lsb_outer sum_from]. now rewrite !Z.add_0_r.
  - cbn [lsb_outer sum_from fst snd].
    rewrite Z.shiftl_1_l,
      (lsb_inner_spec st N i Hshape H17 HN ltac:(lia) _ 0 0 0 0) by (rewrite ?Z2Nat.id; lia).
    rewrite bind_Normal. cbn [fst snd]. rewrite !Z.add_0_l, sum_from_add.
    fold (class_zeros st N i). fold (class_ones st N i).
    destruct (class_counts st N i Hshape H17 HN ltac:(lia)) as [Rz Ro].
    set (cz := class_zeros st N i) in *. set (co := class_ones st N i) in *.
    assert (Hbig : (i + 1) * (2 ^ (inmN st - N) * 32766) <= 131072 * 32766) by nia.
    assert (Hright : (if co <=? cz then u32 (r + cz) else u32 (r + co)) = r + Z.max cz co).
    { destruct (Z.leb_spec co cz); rewrite u32_small by nia; lia. }
    rewrite Hright, (u32_small (g + (cz + co))), (u32_small (i + 1)) by nia.
    rewrite IH by nia. f_equal. f_equal; lia.
Qed.

(** *** What is printed *)

Lemma pow2_to_nat (k : Z) : 0 <= k -> Z.of_nat (Z.to_nat (2 ^ k)) = 2 ^ k.
Proof. intros Hk. apply Z2Nat.id. apply Z.pow_nonneg. lia. Qed.

(** Every count of the even lane is counted in exactly one class. *)
Lemma classes_cover (st : state) (N : Z) :
  0 <= N <= inmN st ->
  sum_from (Z.to_nat (2 ^ N)) 0 (fun i => class_zeros st N i + class_ones st N i)
  = even_counts st.
Proof.
  intros HN. unfold class_zeros, class_ones, even_counts.
  replace (Z.to_nat (2 ^ inmN st))
    with (Z.to_nat (2 ^ (inmN st - N)) * Z.to_nat (2 ^ N))%nat.
  - rewrite <- sum_from_classes. apply sum_from_ext. intros i _. cbn beta.
    rewrite pow2_to_nat by lia. now rewrite sum_from_add.
  - rewrite <- Z2Nat.inj_mul by (apply Z.pow_nonneg; lia).
    now rewrite <- (pow2_split (inmN st) N HN).
Qed.

Lemma sum_from_max (n : nat) (j : Z) (f g : Z -> Z) :
  (forall k, j <= k < j + Z.of_nat n -> 0 <= f k /\ 0 <= g k) ->
  sum_from n j (fun k => Z.max (f k) (g k)) <= sum_from n j (fun k => f k + g k)
  /\ sum_from n j (fun k => f k + g k) <= 2 * sum_from n j (fun k => Z.max (f k) (g k)).
Proof.
  revert j. induction n as [|n IH]; intros j H; cbn [sum_from]; [lia|].
  pose proof (H j ltac:(lia)). pose proof (IH (j + 1) ltac:(intros k Hk; apply H; lia)). lia.
Qed.

(** A class for [N] bits is two classes for [N + 1] bits. *)
Lemma class_split (t : table) (n N i : Z) :
  0 <= N < n ->
  sum_from (Z.to_nat (2 ^ (n - N))) 0 (fun j => cell t (i + j * 2 ^ N))
  = sum_from (Z.to_nat (2 ^ (n - (N + 1)))) 0 (fun j => cell t (i + j * 2 ^ (N + 1)))
    + sum_from (Z.to_nat (2 ^ (n - (N + 1)))) 0 (fun j => cell t (i + 2 ^ N + j * 2 ^ (N + 1))).
Proof.
  intros HN.
  replace (Z.to_nat (2 ^ (n - N))) with (2 * Z.to_nat (2 ^ (n - (N + 1))))%nat.
  - rewrite sum_from_parity. rewrite Z.pow_add_r by lia. change (2 ^ 1) with 2.
    f_equal; apply sum_from_ext; intros j _; f_equal; lia.
  - replace (n - N) with (Z.succ (n - (N + 1))) by lia.
    rewrite Z.pow_succ_r by lia.
    rewrite Z2Nat.inj_mul by (try apply Z.pow_nonneg; lia). reflexivity.
Qed.

(** One more bit of context never makes the guess worse. *)
Lemma guessed_right_mono (st : state) (N : Z) :
  0 <= N < inmN st -> guessed_right st N <= guessed_right st (N + 1).
Proof.
  intros HN. unfold guessed_right.
  replace (Z.to_nat (2 ^ (N + 1))) with (Z.to_nat (2 ^ N) + Z.to_nat (2 ^ N))%nat.
  - rewrite sum_from_app, Z.add_0_l, pow2_to_nat by lia.
    rewrite <- (sum_from_shift _ 0 (2 ^ N)), <- sum_from_add.
    apply sum_from_le. intros i _. cbn beta.
    unfold class_zeros, class_ones.
    rewrite (class_split (inmZerosEven st) (inmN st) N i HN).
    rewrite (class_split (inmOnesEven st) (inmN st) N i HN). lia.
  - rewrite Z.pow_add_r by lia. change (2 ^ 1) with 2.
    rewrite <- Z2Nat.inj_add by (apply Z.pow_nonneg; lia). f_equal. lia.
Qed.

Lemma checkLSBStatsForNBits_spec (st : state) (N : Z) :
  shape_ok st -> inmN st <= 17 -> 0 <= N <= inmN st ->
  checkLSBStatsForNBits N st = Normal (guessed_right st N, even_counts st)
  /\ guessed_right st N <= even_counts st <= 2 * guessed_right st N.
Proof.
  intros Hshape H17 HN. unfold checkLSBStatsForNBits.
  replace ((0 <=? N) && (N <=? 30) && (0 <=? inmN st - N) && (inmN st - N <=? 30)) with true
    by (symmetry; rewrite !andb_true_iff, !Z.leb_le; lia).
  rewrite Z.shiftl_1_l.
  rewrite (lsb_outer_spec st N Hshape H17 HN) by (rewrite ?pow2_to_nat; lia).
  rewrite !Z.add_0_l, (classes_cover st N HN). split; [reflexivity|].
  rewrite <- (classes_cover st N HN). unfold guessed_right.
  pose proof (sum_from_max (Z.to_nat (2 ^ N)) 0 (class_zeros st N) (class_ones st N)) as Hmax.
  apply Hmax. intros i Hi. rewrite pow2_to_nat in Hi by lia.
  destruct (class_counts st N i Hshape H17 HN ltac:(lia)). lia.
Qed.

Lemma checkLSBStats_loop_spec (st : state) (m : nat) (N : Z) :
  shape_ok st -> inmN st <= 17 -> 1 <= N -> N + Z.of_nat m <= inmN st + 1 ->
  checkLSBStats_loop m N st
  = Normal ((fun k => (guessed_right st (N + Z.of_nat k), even_counts st)) <$> seq 0 m).
Proof.
  intros Hshape H17. revert N. induction m as [|m IH]; intros N HN Hm; [reflexivity|].
  cbn [checkLSBStats_loop]. rewrite Z.mod_small by lia.
  destruct (checkLSBStatsForNBits_spec st N Hshape H17 ltac:(lia)) as [-> _].
  rewrite bind_Normal, u32_small, IH, bind_Normal by lia.
  cbn [seq fmap list_fmap]. rewrite Z.add_0_r. do 2 f_equal.
  rewrite <- seq_shift, <- list_fmap_compose. apply list_fmap_ext. intros _ k _. cbn.
  do 2 f_equal. lia.
Qed.

(** ** The context of a call *)

Lemma window_of_range (n : nat) (r : list bool) : 0 <= window_of n r < 2 ^ Z.of_nat n.
Proof.
  revert r. induction n as [|n IH]; intros r; [cbn; lia|].
  rewrite Nat2Z.inj_succ, Z.pow_succ_r by lia.
  destruct r as [|b r]; cbn [window_of].
  - pose proof (Z.pow_pos_nonneg 2 (Z.of_nat n)). lia.
  - specialize (IH r). destruct b; cbn [Z.b2z]; lia.
Qed.

Lemma window_of_mod (n : nat) (r : list bool) :
  window_of (S n) r mod 2 ^ Z.of_nat n = window_of n r.
Proof.
  revert r. induction n as [|n IH]; intros r.
  - cbn [window_of Z.of_nat]. now rewrite Z.mod_1_r; destruct r.
  - destruct r as [|b r]; [reflexivity|].
    change (window_of (S (S n)) (b :: r)) with (Z.b2z b + 2 * window_of (S n) r).
    change (window_of (S n) (b :: r)) with (Z.b2z b + 2 * window_of n r).
    rewrite <- (IH r). rewrite Nat2Z.inj_succ, Z.pow_succ_r by lia.
    set (W := window_of (S n) r). set (P := 2 ^ Z.of_nat n).
    assert (HP : 0 < P) by (apply Z.pow_pos_nonneg; lia).
    pose proof (Z.div_mod W P ltac:(lia)) as HW.
    pose proof (Z.mod_pos_bound W P HP) as HR.
    symmetry. apply (Z.mod_unique_pos _ _ (W / P)); [destruct b; cbn [Z.b2z]; lia|].
    rewrite HW at 1. ring.
Qed.

(** Shifting a bit into the window of the bits before it. *)
Lemma window_of_shift (n : nat) (b : bool) (r : list bool) :
  (0 < n)%nat ->
  (2 * window_of n r) mod 2 ^ Z.of_nat n + Z.b2z b = window_of n (b :: r).
Proof.
  intros Hn. destruct n as [|n]; [lia|].
  change (window_of (S n) (b :: r)) with (Z.b2z b + 2 * window_of n r).
  rewrite <- (window_of_mod n r), Nat2Z.inj_succ, Z.pow_succ_r by lia.
  assert (HP : 0 < 2 ^ Z.of_nat n) by (apply Z.pow_pos_nonneg; lia).
  rewrite Z.mul_mod_distr_l by lia. lia.
Qed.

Lemma window_of_nil (n : nat) : window_of n [] = 0.
Proof. now destruct n. Qed.

Lemma window_of_shift_hd (n : nat) (r : list bool) :
  (0 < n)%nat ->
  (2 * window_of n (tl r)) mod 2 ^ Z.of_nat n + Z.b2z (hd false r) = window_of n r.
Proof.
  intros Hn. destruct r as [|b r]; [|now apply window_of_shift].
  cbn [hd tl Z.b2z]. rewrite window_of_nil, Z.mul_0_r, Z.mod_0_l; [reflexivity|].
  apply Z.pow_nonzero; lia.
Qed.

Lemma addBit_window (c : call) (st : state) (b : bool) (st' : state) :
  Inv st -> inmHealthCheckAddBit c st = Normal (b, st') ->
  inmN st' = inmN st /\ inmPrevBit st' = call_bit c
  /\ inmPrevBits st' = inmPrevBits (shift_window (call_bit c) (note_lanes c st))
  /\ inmPrevBits st'
     = (2 * inmPrevBits st) mod 2 ^ inmN st + Z.b2z (inmPrevBit st).
Proof.
  intros Hinv Hcall.
  destruct (addBit_inv _ _ _ _ Hcall) as (s2 & zeros & ones & s4 & s6 & Hsteps & _ & ->).
  destruct (steps_keeps _ _ _ _ _ _ _ Hinv Hsteps) as (K1 & K2 & _ & _ & _ & K3).
  pose proof (note_lanes_keeps c st) as Kn.
  kept_as K1 F_N N1. kept_as K2 F_N N2. kept_as K3 F_N N3.
  kept_as K2 F_PrevBit B2. kept_as K3 F_PrevBit B3.
  kept_as K2 F_PrevBits W2. kept_as K3 F_PrevBits W3.
  kept_as Kn F_N Nn. kept_as Kn F_PrevBits Wn. kept_as Kn F_PrevBit Bn.
  assert (Hw : inmPrevBits (scaleZeroOneCounts (scaleEntropy s6))
               = inmPrevBits (shift_window (call_bit c) (note_lanes c st))) by congruence.
  split; [congruence|]. split; [rewrite B3, B2; reflexivity|]. split; [exact Hw|].
  rewrite Hw, shift_window_index.
  - rewrite Nn, Wn, Bn. now destruct (inmPrevBit st).
  - rewrite Nn. apply Hinv.
  - rewrite Nn, Wn. apply Hinv.
Qed.

(** The window after a list of calls. *)
Lemma run_window
    (log : double -> double) (N : Z) (K : double) (debug : bool) (granted : nat -> bool)
    (prev st0 : state) (calls : list call) (st : state) :
  inmHealthCheckStart log N K debug granted prev = Normal (true, st0) ->
  run calls st0 = Normal st ->
  inmPrevBit st = hd false (ingested calls)
  /\ inmPrevBits st = window_of (Z.to_nat N) (tl (ingested calls))
  /\ forall c : call,
       inmPrevBits (shift_window (call_bit c) (note_lanes c st))
       = window_of (Z.to_nat N) (ingested calls).
Proof.
  intros Hstart Hrun. destruct (start_Inv _ _ _ _ _ _ _ Hstart) as (Hinv0 & HN & EN & _).
  pose proof (start_state _ _ _ _ _ _ _ Hstart) as Hst0.
  assert (Hmain : inmN st = N /\ inmPrevBit st = hd false (ingested calls)
                  /\ inmPrevBits st = window_of (Z.to_nat N) (tl (ingested calls))).
  { clear Hstart. revert st Hrun. induction calls as [|c calls IH] using rev_ind; intros st Hrun.
    - injection Hrun as <-. rewrite Hst0. cbn. split; [reflexivity|]. split; [reflexivity|].
      now rewrite window_of_nil.
    - rewrite run_app in Hrun.
      destruct (run calls st0) as [s| | |] eqn:Hpre;
        rewrite ?bind_Normal, ?bind_Exited, ?bind_Undefined, ?bind_Diverges in Hrun;
        try discriminate.
      destruct (IH s eq_refl) as (En & Hb & Hw). pose proof (run_Inv _ _ _ Hinv0 Hpre) as Hs.
      rewrite run_single in Hrun.
      destruct (addBit_progress c s Hs) as [Hc | (s' & Hc & _)]; rewrite Hc in Hrun.
      + rewrite bind_Exited in Hrun. discriminate.
      + rewrite bind_Normal in Hrun. injection Hrun as <-. cbn [snd].
        destruct (addBit_window _ _ _ _ Hs Hc) as (En' & Hb' & _ & Hw').
        unfold ingested in *. rewrite fmap_app, rev_app_distr. cbn [fmap list_fmap rev app hd tl].
        split; [congruence|]. split; [exact Hb'|].
        rewrite Hw', En, Hw, Hb.
        replace (2 ^ N) with (2 ^ Z.of_nat (Z.to_nat N)) by (rewrite Z2Nat.id; [reflexivity|lia]).
        apply window_of_shift_hd. lia. }
  destruct Hmain as (En & Hb & Hw). split; [exact Hb|]. split; [exact Hw|].
  intros c. pose proof (note_lanes_keeps c st) as Kn.
  kept_as Kn F_N Nn. kept_as Kn F_PrevBits Wn. kept_as Kn F_PrevBit Bn.
  pose proof (run_Inv _ _ _ Hinv0 Hrun) as Hinv.
  rewrite shift_window_index.
  - rewrite Nn, Wn, Bn, En, Hw, Hb.
    replace (2 ^ N) with (2 ^ Z.of_nat (Z.to_nat N)) by (rewrite Z2Nat.id; [reflexivity|lia]).
    apply window_of_shift_hd. lia.
  - rewrite Nn. apply Hinv.
  - rewrite Nn, Wn. apply Hinv.
Qed.

(** ** What the tables count *)

Lemma selected_set_same (bit ev : bool) (t : table) (s : state) :
  selected bit ev (set_selected bit ev t s) = t.
Proof. fields_of s. now destruct bit, ev. Qed.

Lemma selected_set_other (bit ev bit' ev' : bool) (t : table) (s : state) :
  Bool.eqb ev ev' && Bool.eqb bit bit' = false ->
  selected bit' ev' (set_selected bit ev t s) = selected bit' ev' s.
Proof. fields_of s. now destruct bit, ev, bit', ev'. Qed.

Lemma tally_range (n : nat) (ev bit : bool) (i : Z) (recent : list call) :
  0 <= tally n ev bit i recent <= Z.of_nat (length recent).
Proof.
  induction recent as [|c r IH]; cbn [tally length]; [lia|].
  destruct (_ && _); lia.
Qed.

Lemma call_bits_rev (calls : list call) :
  call_bit <$> rev calls = rev (call_bit <$> calls).
Proof.
  induction calls as [|c calls IH]; [reflexivity|].
  cbn [rev fmap list_fmap]. now rewrite fmap_app, IH.
Qed.

(** A call that does not fill its cell adds one to that cell and leaves every
    other cell of the four tables as it is. *)
Lemma addBit_cells (c : call) (st : state) (b : bool) (st' : state) :
  Inv st -> inmHealthCheckAddBit c st = Normal (b, st') ->
  cell (selected (call_bit c) (even c) st) (inmPrevBits st') + 1 < INM_MAX_COUNT ->
  forall (bit ev : bool) (j : Z), 0 <= j ->
    cell (selected bit ev st') j
    = cell (selected bit ev st) j
      + (if Bool.eqb (even c) ev && Bool.eqb (call_bit c) bit && (inmPrevBits st' =? j)
         then 1 else 0).
Proof.
  intros Hinv Hcall Hroom bit ev j Hj.
  destruct (addBit_inv _ _ _ _ Hcall) as (s2 & zeros & ones & s4 & s6 & Hsteps & _ & ->).
  destruct (steps_facts _ _ _ _ _ _ _ Hinv Hsteps)
    as [sok_shape2 sok_counters2 sok_probability2 sok_zeros sok_ones sok_shape4
        sok_counters4 sok_probability4 sok_shape6 sok_frame6].
  destruct (steps_keeps _ _ _ _ _ _ _ Hinv Hsteps) as (K1 & K2 & K4 & K6 & K8 & K9).
  destruct Hsteps as [H1 H2 H3 H4].
  set (s5 := set_NumBitsSampled (u32 (inmNumBitsSampled s4 + 1)) s4) in *.
  assert (Hs5 : shape_ok s5) by (destruct sok_shape4; constructor; assumption).
  assert (Htab : forall bit' ev', selected bit' ev' s5 = selected bit' ev' st).
  { kept_as K1 F_OnesEven A1. kept_as K2 F_OnesEven A2. kept_as K4 F_OnesEven A4.
    kept_as K1 F_ZerosEven B1. kept_as K2 F_ZerosEven B2. kept_as K4 F_ZerosEven B4.
    kept_as K1 F_OnesOdd C1. kept_as K2 F_OnesOdd C2. kept_as K4 F_OnesOdd C4.
    kept_as K1 F_ZerosOdd D1. kept_as K2 F_ZerosOdd D2. kept_as K4 F_ZerosOdd D4.
    intros [] []; unfold selected, s5; cbn [inmOnesEven inmZerosEven inmOnesOdd inmZerosOdd
      set_NumBitsSampled]; congruence. }
  assert (Hfin : forall bit' ev',
             selected bit' ev' (scaleZeroOneCounts (scaleEntropy s6)) = selected bit' ev' s6).
  { kept_as K8 F_OnesEven A8. kept_as K8 F_ZerosEven B8.
    kept_as K8 F_OnesOdd C8. kept_as K8 F_ZerosOdd D8.
    intros [] []; unfold selected; congruence. }
  assert (Hidx : inmPrevBits (scaleZeroOneCounts (scaleEntropy s6)) = inmPrevBits s5).
  { kept_as K9 F_PrevBits W9. kept_as K4 F_PrevBits W4.
    rewrite W9. unfold s5. cbn [inmPrevBits set_NumBitsSampled]. congruence. }
  rewrite Hidx in *. rewrite Hfin.
  destruct (count_bit_spec (call_bit c) (even c) s5 Hs5) as (cells & k & Hsel & Hk & Hrange & Hcount).
  rewrite H4 in Hcount. injection Hcount as Hs6.
  rewrite <- Htab in Hroom. rewrite Hsel in Hroom. cbn [cell] in Hroom. rewrite Hk in Hroom.
  change (k + 1 < INM_MAX_COUNT) in Hroom.
  assert (Hne : (k + 1 =? INM_MAX_COUNT) = false) by (apply Z.eqb_neq; lia).
  cbn zeta in Hs6. rewrite Hne in Hs6.
  destruct (Bool.eqb (even c) ev && Bool.eqb (call_bit c) bit) eqn:Hsame.
  - apply andb_prop in Hsame as [He Hb]. apply eqb_prop in He, Hb. subst ev bit.
    rewrite Hs6, selected_set_same. rewrite <- Htab, Hsel. cbn [cell andb].
    change (inmPrevBits s5) with (inmPrevBits s4) in *.
    destruct (Z.eqb_spec (inmPrevBits s4) j) as [Hat|Hdiff].
    + rewrite <- Hat, list_lookup_insert_eq by (eapply lookup_lt_Some; eassumption).
      rewrite Hk. reflexivity.
    + rewrite list_lookup_insert_ne by (destruct sok_shape4 as [_ Hw _ _ _ _]; lia). lia.
  - rewrite Hs6, selected_set_other by exact Hsame. rewrite Htab. cbn [andb]. lia.
Qed.

Lemma cell_fresh (N j : Z) : cell (fresh_table N) j = 0.
Proof.
  unfold cell, fresh_table.
  destruct (replicate (Z.to_nat (2 ^ N)) 0 !! Z.to_nat j) as [v|] eqn:E; [|reflexivity].
  apply lookup_replicate in E as [-> _]. reflexivity.
Qed.

(** The cells after fewer than [INM_MAX_COUNT] calls. *)
Lemma run_cells
    (log : double -> double) (N : Z) (K : double) (debug : bool) (granted : nat -> bool)
    (prev st0 : state) (calls : list call) (st : state) :
  inmHealthCheckStart log N K debug granted prev = Normal (true, st0) ->
  run calls st0 = Normal st ->
  Z.of_nat (length calls) < INM_MAX_COUNT ->
  forall (bit ev : bool) (j : Z), 0 <= j ->
    cell (selected bit ev st) j = tally (Z.to_nat N) ev bit j (rev calls).
Proof.
  intros Hstart. destruct (start_Inv _ _ _ _ _ _ _ Hstart) as (Hinv0 & HN & EN & _).
  pose proof (start_state _ _ _ _ _ _ _ Hstart) as Hst0.
  revert st. induction calls as [|c calls IH] using rev_ind; intros st Hrun Hlen bit ev j Hj.
  - injection Hrun as <-. rewrite Hst0. cbn [rev tally].
    destruct bit, ev; cbn [selected inmOnesEven inmZerosEven inmOnesOdd inmZerosOdd];
      apply cell_fresh.
  - rewrite run_app in Hrun. rewrite length_app in Hlen. cbn [length] in Hlen.
    destruct (run calls st0) as [s| | |] eqn:Hpre;
      rewrite ?bind_Normal, ?bind_Exited, ?bind_Undefined, ?bind_Diverges in Hrun;
      try discriminate.
    pose proof (run_Inv _ _ _ Hinv0 Hpre) as Hs.
    destruct (run_window _ _ _ _ _ _ _ _ _ Hstart Hpre) as (_ & _ & Hidx).
    rewrite run_single in Hrun.
    destruct (addBit_progress c s Hs) as [Hc | (s' & Hc & _)]; rewrite Hc in Hrun.
    + rewrite bind_Exited in Hrun. discriminate.
    + rewrite bind_Normal in Hrun. injection Hrun as <-. cbn [snd].
      destruct (addBit_window _ _ _ _ Hs Hc) as (_ & _ & Hw & _).
      rewrite (Hidx c) in Hw.
      assert (Hroom : cell (selected (call_bit c) (even c) s) (inmPrevBits s') + 1
                      < INM_MAX_COUNT).
      { rewrite (IH s eq_refl ltac:(lia)).
        - pose proof (tally_range (Z.to_nat N) (even c) (call_bit c) (inmPrevBits s') (rev calls))
            as Ht.
          rewrite length_rev in Ht. lia.
        - rewrite Hw. apply window_of_range. }
      rewrite (addBit_cells _ _ _ _ Hs Hc Hroom bit ev j Hj).
      rewrite (IH s eq_refl ltac:(lia) bit ev j Hj).
      rewrite rev_app_distr. cbn [rev app tally].
      rewrite call_bits_rev. fold (ingested calls). rewrite Hw. lia.
Qed.

(** ** The shortcut for long streams *)

Lemma set_probability_same (st : state) :
  set_CurrentProbability (inmCurrentProbability st) st = st.
Proof. now destruct st. Qed.

(** In a context where the other bit was never seen, the probability is
    left as it is. *)
Lemma update_probability_certain (bit : bool) (zeros ones : Z) (st : state) :
  certain_context bit zeros ones = true ->
  B64.above_half (inmCurrentProbability st) ->
  0 <= zeros < INM_MAX_COUNT -> 0 <= ones < INM_MAX_COUNT ->
  update_probability bit zeros ones st = st.
Proof.
  unfold certain_context, update_probability. change INM_MAX_COUNT with 16384.
  intros Hc (m & e & Ep & Hm & He) Hz Ho. apply Z.eqb_eq in Hc.
  assert (Hone : forall n, 1 <= n < 16384 ->
            set_CurrentProbability
              (B64.mul (inmCurrentProbability st) (B64.div (B64.of_uint n) (B64.of_uint n))) st
            = st).
  { intros n Hn. rewrite div_self by lia. rewrite Ep, mul_one by (assumption || lia).
    rewrite <- Ep. apply set_probability_same. }
  destruct bit; subst.
  - rewrite Z.add_0_l, u32_small by lia.
    destruct (Z.eqb_spec ones 0); cbn [negb]; [reflexivity | apply Hone; lia].
  - rewrite Z.add_0_r, u32_small by lia.
    destruct (Z.eqb_spec zeros 0); cbn [negb]; [reflexivity | apply Hone; lia].
Qed.

Lemma emit_entropy_above_half (fuel : nat) (st : state) :
  B64.above_half (inmCurrentProbability st) -> emit_entropy fuel st = Normal st.
Proof.
  intros Hp. apply above_half_not_leb in Hp.
  destruct fuel; cbn [emit_entropy]; now rewrite Hp.
Qed.

Lemma cell2_shape (t : table) (i : bool) (k : Z) :
  cell2 t i = Some k -> exists x0 x1, t = Block [x0; x1] /\ k = (if i then x1 else x0).
Proof.
  destruct t as [|[|x0 [|x1 [|? ?]]]|]; try discriminate. intros [= <-]. eauto.
Qed.

Lemma land_window (w : Z) : 0 <= w < 2 -> Z.land (u32 (Z.shiftl w 1)) (Z.shiftl 1 1 - 1) = 0.
Proof. intros Hw. assert (w = 0 \/ w = 1) as [-> | ->] by lia; reflexivity. Qed.

Lemma lean_step_ok (c : call) (st st' : state) :
  Inv st -> lean_step c st = Some st' -> inmHealthCheckAddBit c st = Normal (true, st').
Proof.
  intros Hinv H.
  pose proof Hinv as [[HN Hw Hoe Hze Hoo Hzo] [Hs Hto Htz Hsz Hso HL Hu HT Hem Hom] Hp].
  fields_of st. unfold lean_step in H.
  cbn [inmN inmPrevBits inmNumBitsSampled inmOnesEven inmZerosEven inmOnesOdd inmZerosOdd
       inmCurrentProbability inmTotalBits inmNumSequentialZeros inmNumSequentialOnes
       inmTotalOnes inmTotalZeros inmEvenMisfires inmOddMisfires inmEntropyLevel
       inmNumBitsOfEntropy] in *.
  match type of H with (if ?b then _ else _) = _ => destruct b eqn:Hcond; [|discriminate] end.
  apply andb_true_iff in Hcond as [Hcond Hc8]. apply andb_true_iff in Hcond as [Hcond Hc7].
  apply andb_true_iff in Hcond as [Hcond Hc6]. apply andb_true_iff in Hcond as [Hcond Hc5].
  apply andb_true_iff in Hcond as [Hcond Hc4]. apply andb_true_iff in Hcond as [Hcond Hc3].
  apply andb_true_iff in Hcond as [Hc1 Hc2].
  apply Z.eqb_eq in Hc1. apply Z.ltb_lt in Hc2, Hc3, Hc4, Hc5, Hc6, Hc7, Hc8. subst fN.
  change (2 ^ 1) with 2 in Hw.
  match type of H with match ?a with _ => _ end = _ => destruct a as [k|] eqn:Hown; [|discriminate] end.
  match type of H with match ?a with _ => _ end = _ => destruct a as [[| |]|] eqn:Hother; try discriminate end.
  match type of H with (if ?b then _ else _) = _ => destruct b eqn:Hk; [|discriminate] end.
  apply Z.ltb_lt in Hk. injection H as <-.
  destruct (cell2_shape _ _ _ Hown) as (a0 & a1 & Eown & Ek).
  destruct (cell2_shape _ _ _ Hother) as (b0 & b1 & Eother & Eb).
  change INM_MIN_DATA with 80000 in *. change INM_MAX_SEQUENCE with 20 in *.
  assert (Hk0 : 0 <= k).
  { destruct c as [eb ob []], (call_bit _) in Eown; cbn [even] in Eown; subst;
      match goal with H : table_ok _ (Block [a0; a1]) |- _ =>
        destruct H as (? & [= <-] & _ & Hall) end;
      apply Forall_cons in Hall as [? Hall]; apply Forall_cons in Hall as [? _];
      destruct fB; lia. }
  destruct c as [eb ob ev]. unfold call_bit in *. cbn [even evenBit oddBit] in *.
  unfold inmHealthCheckAddBit. cbv zeta. unfold call_bit. cbn [even evenBit oddBit].
  unfold note_lanes. cbn [even evenBit oddBit]. fields_goal.
  assert (Htrack : (100 <? fS) = true) by (apply Z.ltb_lt; lia).
  assert (Hfull : (fS + 1 =? 80000) = false) by (apply Z.eqb_neq; lia).
  assert (Hmax : forall x y, x <= 79999 -> y <= 79999 ->
            ((if x <=? y then y else x) =? 80000) = false).
  { intros x y Hx Hy. apply Z.eqb_neq. destruct (x <=? y); lia. }
  destruct ev; cbn [negb andb];
    [destruct (negb (eqb eb fPE)) | destruct (negb (eqb ob fPO))];
    fields_goal; rewrite ?(u32_small (fEM + 1)), ?(u32_small (fOM + 1)) by lia;
    rewrite (u64_small (fT + 1)) by lia; unfold shift_window; fields_goal;
    rewrite land_window by lia; change (Z.lor 0 1) with 1;
    unfold check_sequence; change INM_MAX_SEQUENCE with 20; fields_goal; rewrite Htrack;
    [destruct eb | destruct eb | destruct ob | destruct ob];
    cbn [negb andb] in *; fields_goal;
    rewrite ?(u32_small (fSO + 1)), ?(u32_small (fSZ + 1)),
            ?(u32_small (fTO + 1)), ?(u32_small (fTZ + 1)) by lia;
    try (replace (20 <? fSO + 1) with false by (symmetry; apply Z.ltb_ge; lia));
    try (replace (20 <? fSZ + 1) with false by (symmetry; apply Z.ltb_ge; lia));
    rewrite bind_Normal; unfold lane_counts; fields_goal; subst;
    destruct fB; unfold tbl_get;
    change (Z.to_nat 1) with 1%nat; change (Z.to_nat 0) with 0%nat;
    cbn [lookup list_lookup]; rewrite !bind_Normal; cbv beta iota; subst;
    (rewrite update_probability_certain
       by (first [reflexivity | exact Hp | change INM_MAX_COUNT with 16384; lia]));
    rewrite emit_entropy_above_half by exact Hp;
    rewrite bind_Normal; fields_goal; rewrite (u32_small (fS + 1)) by lia;
    unfold count_bit; fields_goal; unfold tbl_incr, tbl_get, tbl_set;
    change (Z.to_nat 1) with 1%nat; change (Z.to_nat 0) with 0%nat;
    cbn [lookup list_lookup mbind outcome_bind length]; rewrite ?bind_Normal;
    rewrite decide_True by (cbn; lia); rewrite bind_Normal;
    cbn [insert list_insert lookup list_lookup]; rewrite bind_Normal;
    rewrite ?(u32_small (a0 + 1)), ?(u32_small (a1 + 1)) by lia;
    change INM_MAX_COUNT with 16384;
    try (replace (a0 + 1 =? 16384) with false by (symmetry; apply Z.eqb_neq; lia));
    try (replace (a1 + 1 =? 16384) with false by (symmetry; apply Z.eqb_neq; lia));
    rewrite bind_Normal; unfold scaleEntropy; change INM_MIN_DATA with 80000;
    fields_goal; rewrite Hfull; unfold scaleZeroOneCounts; change INM_MIN_DATA with 80000;
    fields_goal; rewrite Hmax by lia; reflexivity.
Qed.

Lemma addBit_quick_ok (c : call) (st : state) :
  Inv st -> addBit_quick c st = inmHealthCheckAddBit c st.
Proof.
  intros Hinv. unfold addBit_quick.
  destruct (lean_step c st) as [s|] eqn:Hlean; [|reflexivity].
  symmetry. now apply lean_step_ok.
Qed.

Lemma run_quick_ok (calls : list call) (st : state) :
  Inv st -> run_quick calls st = run calls st.
Proof.
  revert st. induction calls as [|c calls IH]; intros st Hinv; [reflexivity|].
  cbn [run_quick]. rewrite run_cons, addBit_quick_ok by assumption.
  destruct (addBit_progress c st Hinv) as [-> | (s & -> & Hinv')].
  - reflexivity.
  - rewrite !bind_Normal. apply IH, Hinv'.
Qed.

(** A run computed the quick way. *)
Lemma run_by_quick (calls : list call) (st st' : state) :
  Inv st -> run_quick calls st = Normal st' -> run calls st = Normal st'.
Proof. intros Hinv H. now rewrite <- run_quick_ok. Qed.

(** ** The run counters, from the start *)

Lemma ingested_snoc (calls : list call) (c : call) :
  ingested (calls ++ [c]) = call_bit c :: ingested calls.
Proof. unfold ingested. now rewrite fmap_app, rev_app_distr. Qed.

Lemma ingested_length (calls : list call) : length (ingested calls) = length calls.
Proof. unfold ingested. now rewrite length_rev, length_fmap. Qed.

Lemma guarded_snoc (calls : list call) (c : call) :
  guarded (calls ++ [c])
  = (if 100 <? Z.of_nat (length calls) then call_bit c :: guarded calls else []).
Proof.
  unfold guarded. rewrite ingested_snoc, length_app. cbn [length].
  destruct (Z.ltb_spec 100 (Z.of_nat (length calls))) as [Hlt | Hge].
  - replace (length calls + 1 - 101)%nat with (S (length calls - 101)) by lia. reflexivity.
  - replace (length calls + 1 - 101)%nat with 0%nat by lia. reflexivity.
Qed.

Lemma guarded_early (calls : list call) :
  Z.of_nat (length calls) <= 100 -> guarded calls = [].
Proof.
  intros H. unfold guarded. replace (length calls - 101)%nat with 0%nat by lia. reflexivity.
Qed.

Lemma trailing_run_cons (bit b : bool) (r : list bool) :
  trailing_run bit (b :: r) = (if Bool.eqb b bit then S (trailing_run bit r) else O).
Proof. reflexivity. Qed.

(** Each run counter is the length of the run of its bit that ends the
    calls made since runs are counted. *)
Lemma run_guarded
    (log : double -> double) (N : Z) (K : double) (debug : bool) (granted : nat -> bool)
    (prev st0 : state) (calls : list call) (st : state) :
  inmHealthCheckStart log N K debug granted prev = Normal (true, st0) ->
  run calls st0 = Normal st ->
  forall bit : bool, seq_count bit st = Z.of_nat (trailing_run bit (guarded calls)).
Proof.
  intros Hstart. destruct (start_Inv _ _ _ _ _ _ _ Hstart) as (Hinv0 & _ & _ & _ & Hs0 & _).
  pose proof (start_state _ _ _ _ _ _ _ Hstart) as Hst0.
  revert st. induction calls as [|c calls IH] using rev_ind; intros st Hrun bit.
  - injection Hrun as <-. rewrite Hst0. now destruct bit.
  - rewrite run_app in Hrun.
    destruct (run calls st0) as [s| | |] eqn:Hpre;
      rewrite ?bind_Normal, ?bind_Exited, ?bind_Undefined, ?bind_Diverges in Hrun;
      try discriminate.
    pose proof (IH s eq_refl) as Hseq. pose proof (run_Inv _ _ _ Hinv0 Hpre) as Hs.
    destruct (run_tracking _ _ _ Hinv0 Hs0 Hpre) as [_ Htr]. cbv zeta in Htr.
    rewrite run_single in Hrun. rewrite guarded_snoc.
    destruct (addBit_guard c s Hs) as [(_ & _ & Hexit) | (s' & Hcall & _ & Hyes & Hno)];
      rewrite ?Hexit, ?Hcall in Hrun.
    + rewrite bind_Exited in Hrun. discriminate.
    + rewrite bind_Normal in Hrun. injection Hrun as <-. cbn [snd].
      rewrite <- Htr. destruct (tracking s).
      * destruct (Hyes eq_refl) as (_ & Hinc & Hzero & _). rewrite trailing_run_cons.
        destruct (Bool.eqb (call_bit c) bit) eqn:Hb.
        -- apply eqb_prop in Hb. subst bit. rewrite Hinc, Hseq. lia.
        -- apply eqb_false_iff in Hb.
           assert (bit = negb (call_bit c)) as -> by (apply negb_sym; destruct bit, (call_bit c) eqn:E; cbn; congruence).
           exact Hzero.
      * destruct (Hno eq_refl) as (Hsame & Hsame').
        assert (Hg : guarded calls = []).
        { apply guarded_early. unfold tracking in Htr. symmetry in Htr.
          apply Z.ltb_ge in Htr. lia. }
        rewrite Hg in Hseq. cbn [trailing_run].
        destruct (Bool.eqb (call_bit c) bit) eqn:Hb.
        -- apply eqb_prop in Hb. subst bit. now rewrite Hsame, Hseq.
        -- apply eqb_false_iff in Hb.
           assert (bit = negb (call_bit c)) as -> by (apply negb_sym; destruct bit, (call_bit c) eqn:E; cbn; congruence).
           now rewrite Hsame', Hseq.
Qed.

(** ** Requests *)

Lemma serve_all_app (rs rs' : list request) (st : state) :
  serve_all (rs ++ rs') st = (s ← serve_all rs st; serve_all rs' s).
Proof.
  revert st. induction rs as [|r rs IH]; intros st; [reflexivity|].
  cbn [app]. rewrite !serve_all_cons. destruct (serve r st) as [s| | |]; try reflexivity.
  rewrite !bind_Normal. apply IH.
Qed.

Lemma serve_all_calls (calls : list call) (st : state) :
  serve_all (AddBit <$> calls) st = run calls st.
Proof.
  revert st. induction calls as [|c calls IH]; intros st; [reflexivity|].
  cbn [fmap list_fmap]. rewrite serve_all_cons, serve_call, run_cons.
  destruct (inmHealthCheckAddBit c st) as [r| | |]; try reflexivity.
  rewrite !bind_Normal. apply IH.
Qed.

Lemma alternate_app (n m : nat) (b : bool) :
  alternate (n + m) b = alternate n b ++ alternate m (if Nat.even n then b else negb b).
Proof.
  revert b. induction n as [|n IH]; intros b; [reflexivity|].
  cbn [Nat.add alternate app]. rewrite IH. f_equal. f_equal.
  rewrite Nat.even_succ, <- Nat.negb_even. destruct (Nat.even n), b; reflexivity.
Qed.

(** ** Long streams, run *)

Lemma started_low_ok :
  inmHealthCheckStart Libm.log 1 low_gain false (fun _ => true) initial_state
  = Normal (true, started_low).
Proof. vm_compute. reflexivity. Qed.

Lemma started_Inv : Inv (started 1).
Proof. exact (proj1 (start_Inv _ _ _ _ _ _ _ started_1)). Qed.

Lemma started_low_Inv : Inv started_low.
Proof. exact (proj1 (start_Inv _ _ _ _ _ _ _ started_low_ok)). Qed.

Lemma before_halving_reached :
  run (scale_down_prefix ++ alternate 32758 false) (started 1) = Normal before_halving.
Proof. apply run_by_quick; [exact started_Inv|]. vm_compute. reflexivity. Qed.

Lemma before_scale_down_reached :
  run scale_down_calls (started 1) = Normal before_scale_down.
Proof.
  unfold scale_down_calls.
  change (alternate 79989 false) with (alternate (32758 + 47231) false).
  rewrite alternate_app, app_assoc, run_app, before_halving_reached, bind_Normal.
  apply run_by_quick; [exact (run_Inv _ _ _ started_Inv before_halving_reached)|].
  vm_compute. reflexivity.
Qed.

Lemma low_level_two_reached : run (low_stream 200) started_low = Normal low_level_two.
Proof. apply run_by_quick; [exact started_low_Inv|]. vm_compute. reflexivity. Qed.

Lemma low_cleared_reached :
  serve_all ((AddBit <$> low_stream 200) ++ [ClearEntropyLevel]) started_low
  = Normal (inmClearEntropyLevel low_level_two).
Proof.
  rewrite serve_all_app, serve_all_calls, low_level_two_reached, bind_Normal. reflexivity.
Qed.

Lemma low_cleared_Inv : Inv (inmClearEntropyLevel low_level_two).
Proof. exact (clear_Inv _ (run_Inv _ _ _ started_low_Inv low_level_two_reached)). Qed.

Lemma low_resumed_run :
  run (alternate 199 true ++ [odd_one] ++ alternate 200 false)
      (inmClearEntropyLevel low_level_two)
  = Normal low_resumed.
Proof. apply run_by_quick; [exact low_cleared_Inv|]. vm_compute. reflexivity. Qed.

Lemma low_resumed_reached : serve_all low_requests started_low = Normal low_resumed.
Proof.
  unfold low_requests.
  rewrite app_assoc, serve_all_app, low_cleared_reached, bind_Normal, serve_all_calls.
  exact low_resumed_run.
Qed.

Lemma before_totals_halving_reached :
  run (scale_down_calls ++ alternate 80100 true) (started 1) = Normal before_totals_halving.
Proof.
  rewrite run_app, before_scale_down_reached, bind_Normal.
  apply run_by_quick.
  - exact (run_Inv _ _ _ started_Inv before_scale_down_reached).
  - vm_compute. reflexivity.
Qed.

(** * The claims *)

(** C1, as the code has it: [inmHealthCheckOkToUseData] is true exactly when
    the total bit count is at least [INM_MIN_DATA] and the estimate passes
    the tolerance test as the C expression computes it, in double
    arithmetic: estimate * 1.02 >= expected and estimate / 1.02 <= expected.
    After fewer than [INM_MIN_DATA] calls it is false. *)
Theorem C1_ok_iff_floor_and_tolerance
    (log : double -> double) (N : Z) (K : double) (debug : bool) (granted : nat -> bool)
    (prev st0 : state) (calls : list call) (st : state) :
  inmHealthCheckStart log N K debug granted prev = Normal (true, st0) ->
  run calls st0 = Normal st ->
  (forall s : state,
     inmHealthCheckOkToUseData s = true
     <-> INM_MIN_DATA <= inmTotalBits s
         /\ tolerance_test (inmHealthCheckEstimateEntropyPerBit s)
                           (inmExpectedEntropyPerBit s) = true)
  /\ inmTotalBits st = u64 (Z.of_nat (length calls))
  /\ (Z.of_nat (length calls) < INM_MIN_DATA -> inmHealthCheckOkToUseData st = false).
Proof.
  intros Hstart Hrun.
  destruct (start_Inv _ _ _ _ _ _ _ Hstart) as (Hinv0 & _ & _ & Htot0 & _).
  pose proof (run_totalBits _ _ _ Hinv0 Hrun) as Htot. rewrite Htot0, Z.add_0_l in Htot.
  split_and!.
  - intros s. unfold inmHealthCheckOkToUseData, tolerance_test.
    rewrite !andb_true_iff, Z.leb_le. tauto.
  - exact Htot.
  - intros Hshort. unfold inmHealthCheckOkToUseData. rewrite Htot.
    change INM_MIN_DATA with 80000 in *. rewrite u64_small by lia.
    replace (80000 <=? Z.of_nat (length calls)) with false by (symmetry; apply Z.leb_gt; lia).
    reflexivity.
Qed.

(** At [tolerance_edge] the verdict is true, but the estimate is above
    expected * 1.02, whether the product is rounded to a double or exact,
    and whether the factor is the double 1.02 or the rational 51/50. *)
Lemma C1_moved_bounds_fail_at_edge :
  inmHealthCheckOkToUseData tolerance_edge = true
  /\ INM_MIN_DATA <= inmTotalBits tolerance_edge
  /\ tolerance_moved (inmHealthCheckEstimateEntropyPerBit tolerance_edge)
                     (inmExpectedEntropyPerBit tolerance_edge) = false
  /\ ~ tolerance_exact (B64.to_Q INM_ACCURACY)
         (inmHealthCheckEstimateEntropyPerBit tolerance_edge)
         (inmExpectedEntropyPerBit tolerance_edge)
  /\ ~ tolerance_exact (51 # 50)
         (inmHealthCheckEstimateEntropyPerBit tolerance_edge)
         (inmExpectedEntropyPerBit tolerance_edge).
Proof.
  split_and!.
  - vm_compute. reflexivity.
  - vm_compute. discriminate.
  - vm_compute. reflexivity.
  - intros [_ Hup]. apply Qle_bool_iff in Hup. vm_compute in Hup. discriminate.
  - intros [_ Hup]. apply Qle_bool_iff in Hup. vm_compute in Hup. discriminate.
Qed.

(** C2, as the code has it.  After a start and [n] calls that returned, runs
    are counted exactly when [n > 100], and the run counter of each bit is
    the number of calls in a row, up to the last one, that ingested that bit
    with more than 100 bits sampled, whichever lane each was for: none of
    the first 101 calls counts.  A further call ends the process exactly
    when that number is [INM_MAX_SEQUENCE] for the bit it ingests, that is,
    when it ingests the 21st identical bit in a row; every other call
    returns true.  So, once runs are counted, calls that ingest the same bit
    return until the run is 20 long, and the next one ends the process. *)
Theorem C2_run_of_21_ends_the_process
    (log : double -> double) (N : Z) (K : double) (debug : bool) (granted : nat -> bool)
    (prev st0 : state) (calls : list call) (st : state) :
  inmHealthCheckStart log N K debug granted prev = Normal (true, st0) ->
  run calls st0 = Normal st ->
  let counted (bit : bool) := Z.of_nat (trailing_run bit (guarded calls)) in
  tracking st = (100 <? Z.of_nat (length calls))
  /\ (forall bit : bool,
        seq_count bit st = counted bit /\ counted bit <= INM_MAX_SEQUENCE)
  /\ (forall c : call,
        (counted (call_bit c) = INM_MAX_SEQUENCE /\ inmHealthCheckAddBit c st = Exited 1)
        \/ (counted (call_bit c) < INM_MAX_SEQUENCE
            /\ exists st', inmHealthCheckAddBit c st = Normal (true, st')))
  /\ (100 < Z.of_nat (length calls) ->
      forall (bit : bool) (cs : list call) (last : call),
        Forall (fun c => call_bit c = bit) cs -> call_bit last = bit ->
        counted bit + Z.of_nat (length cs) = INM_MAX_SEQUENCE ->
        exists s, run cs st = Normal s /\ inmHealthCheckAddBit last s = Exited 1).
Proof.
  intros Hstart Hrun. cbv zeta.
  destruct (start_Inv _ _ _ _ _ _ _ Hstart) as (Hinv0 & _ & _ & _ & Hs0 & _).
  pose proof (run_Inv _ _ _ Hinv0 Hrun) as Hinv.
  pose proof (run_guarded _ _ _ _ _ _ _ _ _ Hstart Hrun) as Hseq.
  destruct (run_tracking _ _ _ Hinv0 Hs0 Hrun) as [_ Htr]. cbv zeta in Htr.
  assert (Hrange : forall bit, Z.of_nat (trailing_run bit (guarded calls)) <= INM_MAX_SEQUENCE).
  { intros bit. rewrite <- Hseq. apply seq_count_range, Hinv. }
  split; [exact Htr|]. split; [intros bit; split; [apply Hseq | apply Hrange]|]. split.
  - intros c. rewrite <- Hseq.
    destruct (addBit_guard c st Hinv) as [(_ & Hfull & Hexit) | (st' & Hcall & _ & Hyes & _)].
    + left. split; assumption.
    + right. split; [|now exists st'].
      destruct (tracking st) eqn:Htrack.
      * now destruct (Hyes eq_refl) as (Hlt & _).
      * rewrite Hseq, guarded_early; [reflexivity|].
        symmetry in Htr. apply Z.ltb_ge in Htr. exact Htr.
  - intros Hlong bit cs last Hall Hlast Hlen. rewrite <- Hseq in Hlen.
    assert (Htrack : tracking st = true) by (rewrite Htr; apply Z.ltb_lt; exact Hlong).
    destruct (run_identical bit cs st Hinv Htrack Hall ltac:(lia))
      as (s & Hcs & Hinvs & Htrs & Hcnt).
    exists s. split; [exact Hcs|].
    destruct (addBit_guard last s Hinvs) as [(_ & _ & Hexit) | (s' & _ & _ & Hyes & _)];
      [exact Hexit|].
    destruct (Hyes Htrs) as (Hlt & _). rewrite Hlast in Hlt. lia.
Qed.

(** With 102 bits sampled, 21 calls for the even lane that all read 1, each
    followed by a call for the odd lane that reads 0: every call returns.
    With 100 bits sampled, 21 calls in a row that read 1: every call returns,
    and a 22nd one ends the process. *)
Lemma C2_lane_run_and_early_run_return :
  inmNumBitsSampled (state_of (run (alternate 102 true) (started 1))) = 102
  /\ returns (run (alternate 102 true ++ interleaved 21) (started 1)) = true
  /\ inmNumBitsSampled (state_of (run (alternate 100 true) (started 1))) = 100
  /\ returns (run (alternate 100 true ++ replicate 21 (mkCall true false true)) (started 1))
     = true
  /\ run (alternate 100 true ++ replicate 22 (mkCall true false true)) (started 1) = Exited 1.
Proof. vm_compute. auto. Qed.

(** C3: the probability is 1.0 after a successful start and in (0.5, 1] after
    any calls.  A further call ends the process at the guard on runs or
    returns; when it returns it has multiplied the probability by the ratio
    of the count of the observed bit to the total, or left it when that count
    is zero, and then doubled it [k] times, each time from a value of at
    most 0.5, crediting [k] entropy units: the loop ends, and leaves the
    probability in (0.5, 1] again. *)
Theorem C3_probability_in_half_open_interval
    (log : double -> double) (N : Z) (K : double) (debug : bool) (granted : nat -> bool)
    (prev st0 : state) (calls : list call) (st : state) :
  inmHealthCheckStart log N K debug granted prev = Normal (true, st0) ->
  run calls st0 = Normal st ->
  inmCurrentProbability st0 = B64.one
  /\ B64.in_half_one (inmCurrentProbability st)
  /\ forall c : call,
       inmHealthCheckAddBit c st = Exited 1
       \/ exists (st' : state) (zeros ones : Z) (k : nat),
            let i := inmPrevBits (shift_window (call_bit c) st) in
            let n := if call_bit c then ones else zeros in
            let p1 := if n =? 0 then inmCurrentProbability st
                      else B64.mul (inmCurrentProbability st)
                             (B64.div (B64.of_uint n) (B64.of_uint (zeros + ones))) in
            inmHealthCheckAddBit c st = Normal (true, st')
            /\ B64.in_half_one (inmCurrentProbability st')
            /\ tbl_get (selected false (even c) st) i = Normal zeros
            /\ tbl_get (selected true (even c) st) i = Normal ones
            /\ inmCurrentProbability st' = Nat.iter k B64.twice p1
            /\ (forall j, (j < k)%nat -> B64.leb (Nat.iter j B64.twice p1) B64.half = true)
            /\ inmNumBitsOfEntropy st'
               = (let units := if k is O then inmNumBitsOfEntropy st
                               else u32 (inmNumBitsOfEntropy st + Z.of_nat k) in
                  if inmNumBitsSampled st + 1 =? INM_MIN_DATA
                  then Z.shiftr units 1 else units)
            /\ (n = 0 -> inmCurrentProbability st' = inmCurrentProbability st).
Proof.
  intros Hstart Hrun.
  destruct (start_Inv _ _ _ _ _ _ _ Hstart) as (Hinv0 & HN & EN & _ & _ & Hp0 & _).
  pose proof (run_Inv _ _ _ Hinv0 Hrun) as Hinv.
  split_and!; [exact Hp0 | apply above_half_in_half_one, Hinv |].
  intros c. destruct (addBit_progress c st Hinv) as [Hexit | (st' & Hcall & Hinv')];
    [left; exact Hexit | right].
  destruct (addBit_inv _ _ _ _ Hcall) as (s2 & zeros & ones & s4 & s6 & Hsteps & _ & ->).
  destruct (steps_facts _ _ _ _ _ _ _ Hinv Hsteps)
    as [sok_shape2 sok_counters2 sok_probability2 sok_zeros sok_ones sok_shape4
        sok_counters4 sok_probability4 sok_shape6 sok_frame6].
  destruct (steps_keeps _ _ _ _ _ _ _ Hinv Hsteps) as (K1 & K2 & K4 & K6 & K8 & _).
  pose proof (note_lanes_keeps c st) as Kn.
  destruct Hsteps as [H1 H2 H3 H4].
  destruct (emit_entropy_doublings _ _ _ H3) as (k & Hp & Hu & Hall & Hend).
  exists (scaleZeroOneCounts (scaleEntropy s6)), zeros, ones, k. cbv zeta.
  split; [exact Hcall|]. split; [apply above_half_in_half_one, Hinv'|].
  (* the state at the lookup has the tables and the window of the start *)
  destruct (lane_counts_ok (even c) s2 sok_shape2) as (z' & o' & Hl & _ & _ & Gz & Go).
  rewrite H2 in Hl. injection Hl as <- <-.
  kept K1 F_OnesEven. kept K1 F_ZerosEven. kept K1 F_OnesOdd. kept K1 F_ZerosOdd.
  kept K2 F_OnesEven. kept K2 F_ZerosEven. kept K2 F_OnesOdd. kept K2 F_ZerosOdd.
  kept K2 F_PrevBits. kept Kn F_PrevBits. kept Kn F_PrevBit. kept Kn F_N.
  assert (Ew : inmPrevBits s2 = inmPrevBits (shift_window (call_bit c) st)).
  { rewrite E7. unfold shift_window. cbn [inmPrevBits set_PrevBit set_PrevBits].
    now rewrite E8, E9, E10. }
  assert (Esel : forall bit, selected bit (even c) s2 = selected bit (even c) st).
  { intros bit. unfold selected. destruct bit, (even c); congruence. }
  rewrite <- Ew, <- !Esel.
  (* the probability the loop starts from *)
  assert (Hp1 : inmCurrentProbability (update_probability (call_bit c) zeros ones s2)
                = (if (if call_bit c then ones else zeros) =? 0
                   then inmCurrentProbability st
                   else B64.mul (inmCurrentProbability st)
                          (B64.div (B64.of_uint (if call_bit c then ones else zeros))
                                   (B64.of_uint (zeros + ones))))).
  { unfold update_probability. change INM_MAX_COUNT with 16384 in *.
    rewrite (u32_small (zeros + ones)) by lia.
    destruct (call_bit c).
    - destruct (ones =? 0); cbn [negb]; fields_goal; now rewrite sok_probability2.
    - destruct (zeros =? 0); cbn [negb]; fields_goal; now rewrite sok_probability2. }
  rewrite Hp1 in Hp, Hall.
  assert (Hu0 : inmNumBitsOfEntropy (update_probability (call_bit c) zeros ones s2)
                = inmNumBitsOfEntropy st).
  { pose proof (update_probability_keeps (call_bit c) zeros ones s2) as Ku.
    kept Ku F_NumBitsOfEntropy. kept K2 F_NumBitsOfEntropy. kept K1 F_NumBitsOfEntropy.
    congruence. }
  rewrite Hu0 in Hu.
  kept K8 F_CurrentProbability. kept K6 F_CurrentProbability. kept K6 F_NumBitsOfEntropy.
  assert (Hsam : inmNumBitsSampled s6 = inmNumBitsSampled st + 1).
  { rewrite sok_frame6. fields_goal.
    kept K4 F_NumBitsSampled. kept K2 F_NumBitsSampled. kept K1 F_NumBitsSampled.
    destruct Hinv as [_ [Hs _ _ _ _ _ _ _ _ _] _]. change INM_MIN_DATA with 80000 in Hs.
    rewrite u32_small by lia. congruence. }
  split_and!; try assumption.
  - congruence.
  - rewrite scale_units, Hsam. rewrite E13, Hu. reflexivity.
  - intros Hn. rewrite Hn in Hp, Hall. cbn [Z.eqb] in Hp, Hall.
    destruct k as [|k].
    + change (Nat.iter 0 B64.twice (inmCurrentProbability st))
        with (inmCurrentProbability st) in Hp. congruence.
    + specialize (Hall 0%nat ltac:(lia)).
      change (Nat.iter 0 B64.twice (inmCurrentProbability st))
        with (inmCurrentProbability st) in Hall.
      rewrite (above_half_not_leb _ (inv_probability _ Hinv)) in Hall. discriminate.
Qed.

(** C4.  After a start and any calls and clearings, the entropy level is at
    most [INM_MAX_ENTROPY].  A further call ends the process at the guard on
    runs or returns true; when it returns it has raised the level by the
    number of rounds of its loop in which the test on the level held, one
    round per entropy unit credited, and in each of them
    [inmHealthCheckOkToUseData] was true and the level below the cap.  So
    calls with no clearing in between never lower the level, and
    [inmClearEntropyLevel] sets it to 0, which [inmGetEntropyLevel] then
    returns. *)
Theorem C4_entropy_level_capped_monotone_gated
    (log : double -> double) (N : Z) (K : double) (debug : bool) (granted : nat -> bool)
    (prev st0 : state) (reqs : list request) (st : state) :
  inmHealthCheckStart log N K debug granted prev = Normal (true, st0) ->
  serve_all reqs st0 = Normal st ->
  0 <= inmGetEntropyLevel st <= INM_MAX_ENTROPY
  /\ (forall c : call,
        inmHealthCheckAddBit c st = Exited 1
        \/ exists st' s3,
             inmHealthCheckAddBit c st = Normal (true, st')
             /\ loop_entry c st = Normal s3
             /\ let credited := List.filter level_test (credit_moments emit_fuel s3) in
                inmGetEntropyLevel st' = inmGetEntropyLevel st + Z.of_nat (length credited)
                /\ Forall (fun m => inmHealthCheckOkToUseData m = true
                                    /\ inmEntropyLevel m < INM_MAX_ENTROPY) credited
                /\ inmGetEntropyLevel st <= inmGetEntropyLevel st' <= INM_MAX_ENTROPY)
  /\ (forall (calls : list call) (st' : state),
        run calls st = Normal st' ->
        inmGetEntropyLevel st <= inmGetEntropyLevel st' <= INM_MAX_ENTROPY)
  /\ (forall s, 0 <= inmEntropyLevel s <= INM_MAX_ENTROPY ->
        inmEntropyLevel (credit_unit s)
        = inmEntropyLevel s + (if level_test (charge_unit s) then 1 else 0))
  /\ inmGetEntropyLevel (inmClearEntropyLevel st) = 0.
Proof.
  intros Hstart Hall. destruct (start_Inv _ _ _ _ _ _ _ Hstart) as (Hinv0 & _).
  pose proof (serve_all_Inv _ _ _ Hinv0 Hall) as Hinv. unfold inmGetEntropyLevel.
  split_and!; [apply Hinv | apply Hinv | | | apply credit_unit_level | reflexivity].
  2: { intros calls st'. apply run_level, Hinv. }
  intros c. destruct (addBit_progress c st Hinv) as [Hexit | (st' & Hcall & Hinv')];
    [left; exact Hexit | right].
  destruct (addBit_inv _ _ _ _ Hcall) as (s2 & zeros & ones & s4 & s6 & Hsteps & _ & ->).
  destruct (steps_facts _ _ _ _ _ _ _ Hinv Hsteps)
    as [sok_shape2 sok_counters2 sok_probability2 sok_zeros sok_ones sok_shape4
        sok_counters4 sok_probability4 sok_shape6 sok_frame6].
  destruct (steps_keeps _ _ _ _ _ _ _ Hinv Hsteps) as (K1 & K2 & K4 & K6 & K8 & _).
  destruct Hsteps as [H1 H2 H3 H4].
  exists (scaleZeroOneCounts (scaleEntropy s6)), (update_probability (call_bit c) zeros ones s2).
  split; [exact Hcall|]. split.
  { unfold loop_entry. rewrite H1. cbn [mbind outcome_bind]. now rewrite H2. }
  cbv zeta.
  pose proof (update_probability_keeps (call_bit c) zeros ones s2) as Ku.
  kept Ku F_EntropyLevel. kept K2 F_EntropyLevel. kept K1 F_EntropyLevel.
  kept K6 F_EntropyLevel. kept K8 F_EntropyLevel.
  assert (Hl3 : 0 <= inmEntropyLevel (update_probability (call_bit c) zeros ones s2)
                <= INM_MAX_ENTROPY).
  { rewrite E, E0, E1. apply Hinv. }
  pose proof (emit_entropy_level _ _ _ H3 Hl3) as Hlevel.
  assert (Heq : inmEntropyLevel (scaleZeroOneCounts (scaleEntropy s6))
                = inmEntropyLevel st
                  + Z.of_nat (length (List.filter level_test
                       (credit_moments emit_fuel (update_probability (call_bit c) zeros ones s2))))).
  { rewrite E3, E2, Hlevel, E, E0, E1. reflexivity. }
  split_and!.
  - exact Heq.
  - eapply Forall_impl; [apply filter_all_true|]. cbn beta. intros m Hm.
    unfold level_test in Hm. apply andb_true_iff in Hm as [Hok Hlt].
    apply Z.ltb_lt in Hlt. auto.
  - lia.
  - apply Hinv'.
Qed.

(** C5: the call counts the observed bit in its cell; when that cell reaches
    [INM_MAX_COUNT] the four tables are replaced by their halves, cell by
    cell, and otherwise they are left as counted; in both cases every cell
    ends below [INM_MAX_COUNT].  Halving is the floor of the half. *)
Theorem C5_tables_halved_together
    (log : double -> double) (N : Z) (K : double) (debug : bool) (granted : nat -> bool)
    (prev st0 : state) (calls : list call) (st : state) (c : call) (b : bool) (st' : state) :
  inmHealthCheckStart log N K debug granted prev = Normal (true, st0) ->
  run calls st0 = Normal st ->
  inmHealthCheckAddBit c st = Normal (b, st') ->
  let i := Z.to_nat (inmPrevBits (shift_window (call_bit c) st)) in
  (exists cells k,
     selected (call_bit c) (even c) st = Block cells /\ cells !! i = Some k
     /\ let counted := set_selected (call_bit c) (even c) (Block (<[i := k + 1]> cells)) st in
        (k + 1 = INM_MAX_COUNT ->
           inmOnesEven st' = halve_table (inmOnesEven counted)
           /\ inmZerosEven st' = halve_table (inmZerosEven counted)
           /\ inmOnesOdd st' = halve_table (inmOnesOdd counted)
           /\ inmZerosOdd st' = halve_table (inmZerosOdd counted))
        /\ (k + 1 <> INM_MAX_COUNT ->
              inmOnesEven st' = inmOnesEven counted
              /\ inmZerosEven st' = inmZerosEven counted
              /\ inmOnesOdd st' = inmOnesOdd counted
              /\ inmZerosOdd st' = inmZerosOdd counted))
  /\ table_ok N (inmOnesEven st') /\ table_ok N (inmZerosEven st')
  /\ table_ok N (inmOnesOdd st') /\ table_ok N (inmZerosOdd st')
  /\ forall x, halve x = x / 2 /\ 2 * halve x <= x <= 2 * halve x + 1.
Proof.
  intros Hstart Hrun Hcall. destruct (start_Inv _ _ _ _ _ _ _ Hstart) as (Hinv0 & HN & EN & _).
  pose proof (run_Inv _ _ _ Hinv0 Hrun) as Hinv.
  pose proof (run_keeps _ _ _ Hinv0 Hrun) as K0. kept K0 F_N.
  pose proof (addBit_Inv _ _ _ _ Hinv Hcall) as Hinv'.
  pose proof (addBit_keeps _ _ _ _ Hinv Hcall) as Kc. kept Kc F_N.
  assert (EN' : inmN st' = N) by congruence.
  destruct (addBit_inv _ _ _ _ Hcall) as (s2 & z & o & s4 & s6 & Hsteps & _ & ->).
  destruct (steps_facts _ _ _ _ _ _ _ Hinv Hsteps)
    as [sok_shape2 sok_counters2 sok_probability2 sok_zeros sok_ones sok_shape4
        sok_counters4 sok_probability4 sok_shape6 sok_frame6].
  destruct (steps_keeps _ _ _ _ _ _ _ Hinv Hsteps) as (K1 & K2 & K4 & K6 & K8 & _).
  pose proof (note_lanes_keeps c st) as Kn.
  destruct Hsteps as [H1 H2 H3 H4].
  set (s5 := set_NumBitsSampled (u32 (inmNumBitsSampled s4 + 1)) s4) in *.
  assert (Hs5 : shape_ok s5) by (destruct sok_shape4; constructor; assumption).
  destruct (count_bit_spec (call_bit c) (even c) s5 Hs5) as (cells & k & Esel & Hk & Rk & Hcount).
  rewrite H4 in Hcount. injection Hcount as Hs6. cbv zeta in Hs6.
  (* the tables and the window at the count are those the call started with *)
  kept K1 F_OnesEven. kept K1 F_ZerosEven. kept K1 F_OnesOdd. kept K1 F_ZerosOdd.
  kept K2 F_OnesEven. kept K2 F_ZerosEven. kept K2 F_OnesOdd. kept K2 F_ZerosOdd.
  kept K4 F_OnesEven. kept K4 F_ZerosEven. kept K4 F_OnesOdd. kept K4 F_ZerosOdd.
  kept K2 F_PrevBits. kept K4 F_PrevBits. kept Kn F_PrevBits. kept Kn F_PrevBit. kept Kn F_N.
  assert (Ew : inmPrevBits s5 = inmPrevBits (shift_window (call_bit c) st)).
  { change (inmPrevBits s5) with (inmPrevBits s4). rewrite E14, E13.
    unfold shift_window. cbn [inmPrevBits set_PrevBit set_PrevBits]. now rewrite E15, E16, E17. }
  assert (Eoe : inmOnesEven s5 = inmOnesEven st) by (change (inmOnesEven s5) with (inmOnesEven s4); congruence).
  assert (Eze : inmZerosEven s5 = inmZerosEven st) by (change (inmZerosEven s5) with (inmZerosEven s4); congruence).
  assert (Eoo : inmOnesOdd s5 = inmOnesOdd st) by (change (inmOnesOdd s5) with (inmOnesOdd s4); congruence).
  assert (Ezo : inmZerosOdd s5 = inmZerosOdd st) by (change (inmZerosOdd s5) with (inmZerosOdd s4); congruence).
  kept K8 F_OnesEven. kept K8 F_ZerosEven. kept K8 F_OnesOdd. kept K8 F_ZerosOdd.
  destruct Hinv' as [[_ _ Hoe Hze Hoo Hzo] _ _]. rewrite EN' in *.
  cbv zeta. split_and!; try assumption; try apply halve_floor.
  exists cells, k. rewrite <- Ew. split_and!.
  - rewrite <- Esel. unfold selected. now rewrite Eoe, Eze, Eoo, Ezo.
  - exact Hk.
  - intros Hmax. rewrite E18, E19, E20, E21, Hs6.
    replace (k + 1 =? INM_MAX_COUNT) with true by (symmetry; now apply Z.eqb_eq).
    unfold halve_tables, with_tables, set_selected.
    destruct (call_bit c), (even c); fields_goal; rewrite ?Eoe, ?Eze, ?Eoo, ?Ezo; auto.
  - intros Hnot. rewrite E18, E19, E20, E21, Hs6.
    replace (k + 1 =? INM_MAX_COUNT) with false by (symmetry; now apply Z.eqb_neq).
    unfold set_selected.
    destruct (call_bit c), (even c); fields_goal; rewrite ?Eoe, ?Eze, ?Eoo, ?Ezo; auto.
Qed.

(** C6, as the code has it: when the call brings the sampled-bit count to
    [INM_MIN_DATA], the entropy-unit count, the sampled-bit count and the two
    misfire counts are each replaced by the floor of their half; the
    entropy-per-bit ratio is kept when the entropy-unit count is even and
    drops by one part in [INM_MIN_DATA] when it is odd; when the larger of
    the two totals is [INM_MIN_DATA], both are replaced by their half. *)
Theorem C6_counters_halved_together
    (log : double -> double) (N : Z) (K : double) (debug : bool) (granted : nat -> bool)
    (prev st0 : state) (calls : list call) (st : state) (c : call) (b : bool) (st' : state) :
  inmHealthCheckStart log N K debug granted prev = Normal (true, st0) ->
  run calls st0 = Normal st ->
  inmHealthCheckAddBit c st = Normal (b, st') ->
  exists s2 zeros ones s4 s6,
    steps c st s2 zeros ones s4 s6
    /\ st' = scaleZeroOneCounts (scaleEntropy s6)
    /\ inmNumBitsSampled s6 = inmNumBitsSampled st + 1
    /\ (inmNumBitsSampled s6 = INM_MIN_DATA ->
          inmNumBitsOfEntropy st' = inmNumBitsOfEntropy s6 / 2
          /\ inmNumBitsSampled st' = inmNumBitsSampled s6 / 2
          /\ inmEvenMisfires st' = inmEvenMisfires s6 / 2
          /\ inmOddMisfires st' = inmOddMisfires s6 / 2
          /\ inmNumBitsOfEntropy s6 * inmNumBitsSampled st'
             - inmNumBitsOfEntropy st' * inmNumBitsSampled s6
             = inmNumBitsSampled st' * (inmNumBitsOfEntropy s6 mod 2))
    /\ (inmNumBitsSampled s6 <> INM_MIN_DATA ->
          inmNumBitsOfEntropy st' = inmNumBitsOfEntropy s6
          /\ inmNumBitsSampled st' = inmNumBitsSampled s6
          /\ inmEvenMisfires st' = inmEvenMisfires s6
          /\ inmOddMisfires st' = inmOddMisfires s6)
    /\ (Z.max (inmTotalOnes s6) (inmTotalZeros s6) = INM_MIN_DATA ->
          inmTotalOnes st' = inmTotalOnes s6 / 2 /\ inmTotalZeros st' = inmTotalZeros s6 / 2)
    /\ (Z.max (inmTotalOnes s6) (inmTotalZeros s6) <> INM_MIN_DATA ->
          inmTotalOnes st' = inmTotalOnes s6 /\ inmTotalZeros st' = inmTotalZeros s6).
Proof.
  intros Hstart Hrun Hcall. destruct (start_Inv _ _ _ _ _ _ _ Hstart) as (Hinv0 & _).
  pose proof (run_Inv _ _ _ Hinv0 Hrun) as Hinv.
  destruct (addBit_inv _ _ _ _ Hcall) as (s2 & zeros & ones & s4 & s6 & Hsteps & _ & ->).
  exists s2, zeros, ones, s4, s6.
  destruct (steps_facts _ _ _ _ _ _ _ Hinv Hsteps)
    as [sok_shape2 sok_counters2 sok_probability2 sok_zeros sok_ones sok_shape4
        sok_counters4 sok_probability4 sok_shape6 sok_frame6].
  destruct (steps_keeps _ _ _ _ _ _ _ Hinv Hsteps) as (K1 & K2 & K4 & K6 & K8 & _).
  assert (Hsam : inmNumBitsSampled s6 = inmNumBitsSampled st + 1).
  { rewrite sok_frame6. fields_goal.
    kept K4 F_NumBitsSampled. kept K2 F_NumBitsSampled. kept K1 F_NumBitsSampled.
    destruct Hinv as [_ [Hs _ _ _ _ _ _ _ _ _] _]. change INM_MIN_DATA with 80000 in Hs.
    rewrite u32_small by lia. congruence. }
  destruct (scale_entropy_fields s6) as [Hyes Hno].
  destruct (scale_totals_fields s6) as [Tyes Tno].
  split_and!; try assumption; try reflexivity.
  intros Hfull. destruct (Hyes Hfull) as (Hu & Hs & He & Ho).
  split_and!; try assumption.
  rewrite Hu, Hs, Hfull. change INM_MIN_DATA with 80000. change (80000 / 2) with 40000.
  pose proof (Z.div_mod (inmNumBitsOfEntropy s6) 2 ltac:(lia)). lia.
Qed.

(** The 79999 calls of [scale_down_calls] after a start leave
    [before_scale_down], with one entropy unit credited.  The call that then
    reads 1 on the even lane credits no unit and brings the sampled-bit
    count to [INM_MIN_DATA]: the one entropy unit in 80000 bits becomes none
    in 40000. *)
Lemma C6_ratio_lost_when_units_odd :
  inmHealthCheckStart Libm.log 1 B64.two false (fun _ => true) initial_state
  = Normal (true, started 1)
  /\ run scale_down_calls (started 1) = Normal before_scale_down
  /\ inmTotalBits before_scale_down = 79999
  /\ exists s2 zeros ones s4 s6 st',
    steps (mkCall true false true) before_scale_down s2 zeros ones s4 s6
    /\ inmHealthCheckAddBit (mkCall true false true) before_scale_down = Normal (true, st')
    /\ st' = scaleZeroOneCounts (scaleEntropy s6)
    /\ inmNumBitsSampled s6 = INM_MIN_DATA /\ inmNumBitsOfEntropy s6 = 1
    /\ inmNumBitsSampled st' = 40000 /\ inmNumBitsOfEntropy st' = 0
    /\ inmNumBitsOfEntropy s6 * inmNumBitsSampled st'
       <> inmNumBitsOfEntropy st' * inmNumBitsSampled s6
    /\ inmHealthCheckEstimateEntropyPerBit s6 <> inmHealthCheckEstimateEntropyPerBit st'.
Proof.
  split; [exact started_1|]. split; [exact before_scale_down_reached|].
  split; [reflexivity|].
  do 6 eexists. split.
  - constructor.
    + vm_compute; reflexivity.
    + vm_compute; reflexivity.
    + vm_compute; reflexivity.
    + vm_compute; reflexivity.
  - split; [vm_compute; reflexivity|].
    split_and!; try (vm_compute; reflexivity); vm_compute; discriminate.
Qed.

(** C7: after a start with a width [N] in 1..30 and any calls, the window is
    below [2^N], the four tables have [2^N] cells, and the next call indexes
    them at the window shifted by one bit and masked to [N] bits, which is
    below [2^N]: the call does nothing undefined. *)
Theorem C7_window_below_table_size
    (log : double -> double) (N : Z) (K : double) (debug : bool) (granted : nat -> bool)
    (prev st0 : state) (calls : list call) (st : state) :
  inmHealthCheckStart log N K debug granted prev = Normal (true, st0) ->
  run calls st0 = Normal st ->
  1 <= N <= 30 /\ inmN st = N
  /\ 0 <= inmPrevBits st < 2 ^ N
  /\ table_ok N (inmOnesEven st) /\ table_ok N (inmZerosEven st)
  /\ table_ok N (inmOnesOdd st) /\ table_ok N (inmZerosOdd st)
  /\ forall c : call,
       let i := inmPrevBits (shift_window (call_bit c) (note_lanes c st)) in
       i = (2 * inmPrevBits st) mod 2 ^ N + (if inmPrevBit st then 1 else 0)
       /\ 0 <= i < 2 ^ N
       /\ inmHealthCheckAddBit c st <> Undefined.
Proof.
  intros Hstart Hrun. destruct (start_Inv _ _ _ _ _ _ _ Hstart) as (Hinv0 & HN & EN & _).
  pose proof (run_Inv _ _ _ Hinv0 Hrun) as Hinv.
  pose proof (run_keeps _ _ _ Hinv0 Hrun) as K0. kept K0 F_N.
  assert (ENst : inmN st = N) by congruence.
  destruct Hinv as [[HNst Hw Hoe Hze Hoo Hzo] Hcnt Hprob]. rewrite ENst in *.
  split_and!; try assumption; try lia.
  intros c. cbv zeta.
  assert (Hinv : Inv st) by (constructor; [constructor; rewrite ?ENst|..]; assumption).
  pose proof (note_lanes_keeps c st) as Kn. kept Kn F_N. kept Kn F_PrevBits. kept Kn F_PrevBit.
  split_and!.
  - rewrite shift_window_index; rewrite ?E0, ?E1, ?E2, ?ENst; try assumption; reflexivity.
  - pose proof (shift_window_bound (call_bit c) (note_lanes c st)) as Hb.
    rewrite E0, ENst in Hb. apply Hb; lia.
  - pose proof (shift_window_bound (call_bit c) (note_lanes c st)) as Hb.
    rewrite E0, ENst in Hb. apply Hb; lia.
  - destruct (addBit_progress c st Hinv) as [-> | (st' & -> & _)]; discriminate.
Qed.

(** C8: with at least one bit sampled, [inmHealthCheckEstimateEntropyPerBit]
    is the entropy-unit count divided by the sampled-bit count, a finite
    double, and [inmHealthCheckEstimateK] is 2 raised to that same quotient. *)
Theorem C8_estimateK_is_two_to_the_estimate
    (pow : double -> double -> double) (st : state) :
  1 <= inmNumBitsSampled st < 2 ^ 32 ->
  0 <= inmNumBitsOfEntropy st < 2 ^ 32 ->
  inmHealthCheckEstimateEntropyPerBit st
  = B64.div (B64.of_uint (inmNumBitsOfEntropy st)) (B64.of_uint (inmNumBitsSampled st))
  /\ B64.is_finite (inmHealthCheckEstimateEntropyPerBit st) = true
  /\ inmHealthCheckEstimateK pow st = pow B64.two (inmHealthCheckEstimateEntropyPerBit st).
Proof.
  intros Hs Hu. split_and!; try reflexivity.
  unfold inmHealthCheckEstimateEntropyPerBit. now apply div_counts_finite.
Qed.

(** C9: for a width outside 1..30, [inmHealthCheckStart] returns false and
    the state it returns is the state it was given. *)
Theorem C9_start_rejects_bad_width
    (log : double -> double) (N : Z) (K : double) (debug : bool)
    (granted : nat -> bool) (st : state) :
  N < 1 \/ 30 < N ->
  inmHealthCheckStart log N K debug granted st = Normal (false, st).
Proof. apply start_rejects. Qed.

(** C10, as the code has it: [inmTotalBits] is the number of calls made
    since the start, modulo 2^64; each call adds one to it and none of the
    scale-downs writes it; so from [INM_MIN_DATA] calls on, and as long as
    fewer than 2^64 calls were made, the sample-floor test holds. *)
Theorem C10_total_bits_counts_calls
    (log : double -> double) (N : Z) (K : double) (debug : bool) (granted : nat -> bool)
    (prev st0 : state) (calls : list call) (st : state) :
  inmHealthCheckStart log N K debug granted prev = Normal (true, st0) ->
  run calls st0 = Normal st ->
  inmTotalBits st = u64 (Z.of_nat (length calls))
  /\ (INM_MIN_DATA <= Z.of_nat (length calls) < 2 ^ 64 ->
        (INM_MIN_DATA <=? inmTotalBits st) = true)
  /\ (forall (c : call) (b : bool) (st' : state),
        inmHealthCheckAddBit c st = Normal (b, st') ->
        inmTotalBits st' = u64 (inmTotalBits st + 1))
  /\ (forall s, inmTotalBits (scaleEntropy s) = inmTotalBits s
                /\ inmTotalBits (scaleZeroOneCounts s) = inmTotalBits s)
  /\ (forall s, shape_ok s ->
        exists s', scaleStats s = Normal s' /\ inmTotalBits s' = inmTotalBits s).
Proof.
  intros Hstart Hrun.
  destruct (start_Inv _ _ _ _ _ _ _ Hstart) as (Hinv0 & _ & _ & Htot0 & _).
  pose proof (run_Inv _ _ _ Hinv0 Hrun) as Hinv.
  pose proof (run_totalBits _ _ _ Hinv0 Hrun) as Htot. rewrite Htot0, Z.add_0_l in Htot.
  split_and!.
  - exact Htot.
  - intros Hlen. rewrite Htot, u64_small by lia. apply Z.leb_le. lia.
  - intros c b st' Hcall. exact (addBit_totalBits _ _ _ _ Hinv Hcall).
  - intros s. pose proof (scaleEntropy_keeps s) as Ke. pose proof (scaleZeroOneCounts_keeps s) as Kz.
    kept Ke F_TotalBits. kept Kz F_TotalBits. auto.
  - apply scaleStats_totalBits.
Qed.

(** After 2^64 calls of the alternating stream, which all return, the total
    bit count is back to 0: the sample-floor test, and with it the verdict,
    is false. *)
Lemma C10_floor_lost_after_wrap :
  exists st,
    run_stream alternating (2 ^ 64) (started 1) = Normal st
    /\ inmTotalBits st = 0
    /\ (INM_MIN_DATA <=? inmTotalBits st) = false
    /\ inmHealthCheckOkToUseData st = false.
Proof.
  destruct (start_Inv _ _ _ _ _ _ _ started_1) as (Hinv0 & _ & _ & Htot0 & _).
  destruct started_1_counters as [H1 H0].
  destruct (alternating_run (started 1) (2 ^ 64) Hinv0 H1 H0) as (st & Hiter & _ & _ & Htot).
  exists st. unfold run_stream. rewrite Hiter. cbn [snd].
  rewrite Htot0 in Htot. change (u64 (0 + Z.of_N (2 ^ 64))) with 0 in Htot.
  split_and!; try reflexivity; try assumption.
  - now rewrite Htot.
  - unfold inmHealthCheckOkToUseData. now rewrite Htot.
Qed.

(** * Further properties *)

(** For a width in 1..30, [inmHealthCheckStart] returns true exactly when
    the four allocations are granted.  It then leaves four tables of [2^N]
    zero cells and every variable at its initial value, whatever the state
    before, except the two stored lane bits [inmPrevEven] and [inmPrevOdd],
    which it does not write.  When an allocation is refused, no table is
    left with a live block: the blocks that were granted are freed, and
    their pointers are left dangling. *)
Theorem start_outcome
    (log : double -> double) (N : Z) (K : double) (debug : bool) (granted : nat -> bool)
    (prev : state) :
  1 <= N <= 30 ->
  let all := granted 0%nat && granted 1%nat && granted 2%nat && granted 3%nat in
  exists st,
    inmHealthCheckStart log N K debug granted prev = Normal (all, st)
    /\ (all = true ->
          st = mkState N 0 0 (fresh_table N) (fresh_table N) (fresh_table N) (fresh_table N)
                 K (B64.div (log K) (log B64.two)) 0 B64.one 0 false 0 0 0 0 0 0 0
                 (inmPrevEven prev) (inmPrevOdd prev) debug)
    /\ (all = false ->
          inmOnesEven st = (if granted 0%nat then Freed else Null)
          /\ inmZerosEven st = (if granted 1%nat then Freed else Null)
          /\ inmOnesOdd st = (if granted 2%nat then Freed else Null)
          /\ inmZerosOdd st = (if granted 3%nat then Freed else Null)).
Proof.
  intros HN. cbv zeta.
  destruct (start_returns log N K debug granted prev HN) as (st & Hst).
  exists st. split; [exact Hst|]. split.
  - intros Hall. rewrite Hall in Hst. exact (start_state _ _ _ _ _ _ _ Hst).
  - intros Hall. rewrite Hall in Hst. exact (start_failure _ _ _ _ _ _ _ HN Hst).
Qed.

(** [inmHealthCheckAddBit] must not be called before a successful start or
    after [inmHealthCheckStop]: in a fresh process and after a start that
    failed for lack of memory it reads through a null or freed pointer, and
    after a stop it never returns. *)
Theorem addBit_needs_started_engine
    (log : double -> double) (N : Z) (K : double) (debug : bool) (granted : nat -> bool)
    (prev st : state) (c : call) :
  inmHealthCheckAddBit c initial_state = Undefined
  /\ ((s ← inmHealthCheckStop st; inmHealthCheckAddBit c s) = Exited 1
      \/ (s ← inmHealthCheckStop st; inmHealthCheckAddBit c s) = Undefined)
  /\ (1 <= N <= 30 ->
      forall st' : state,
        inmHealthCheckStart log N K debug granted prev = Normal (false, st') ->
        inmHealthCheckAddBit c st' = Undefined).
Proof.
  split_and!.
  - destruct c as [[] [] []]; reflexivity.
  - destruct (inmHealthCheckStop st) as [s|code| |] eqn:Hstop;
      rewrite ?bind_Normal, ?bind_Undefined; auto.
    + destruct (stop_spec _ _ Hstop) as (oe & ze & oo & zo & _ & Hze & _ & Hzo & ->).
      destruct (addBit_without_tables c (with_tables oe ze oo zo st)) as [[_ H] | H]; auto.
      * fields_of st. cbn. exact (free_unless_null_not_live _ _ Hze).
      * fields_of st. cbn. exact (free_unless_null_not_live _ _ Hzo).
    + exfalso. exact (stop_not_exited _ _ Hstop).
    + exfalso. exact (stop_not_diverges _ Hstop).
  - intros HN st' Hfail.
    destruct (start_failure log N K debug granted prev st' HN Hfail) as (_ & Hze & _ & Hzo).
    destruct (addBit_without_tables c st') as [[Htr _] | Hundef]; [| |exfalso|exact Hundef].
    + rewrite Hze. now destruct (granted 1%nat).
    + rewrite Hzo. now destruct (granted 3%nat).
    + revert Htr Hfail. unfold inmHealthCheckStart.
      replace ((N <? 1) || (30 <? N)) with false
        by (symmetry; apply orb_false_iff; split; apply Z.ltb_ge; lia).
      cbv zeta. match goal with |- context [tables_allocated ?s] => set (s0 := s) end.
      destruct (tables_allocated s0); [discriminate|].
      destruct (inmHealthCheckStop s0) as [s|code| |] eqn:Hstop; try discriminate.
      rewrite bind_Normal. intros Htr [= <-].
      destruct (stop_spec _ _ Hstop) as (oe & ze & oo & zo & _ & _ & _ & _ & ->).
      discriminate Htr.
Qed.

(** After a successful start and any calls and clearings of the entropy
    level, every further call either returns true or ends the process with
    status 1: it never returns false, never reads or writes outside a table,
    and its loop ends.  The level is within its cap, and calls with no
    clearing in between never lower it. *)
Theorem calls_and_clearings_are_safe
    (log : double -> double) (N : Z) (K : double) (debug : bool) (granted : nat -> bool)
    (prev st0 : state) (reqs : list request) (st : state) :
  inmHealthCheckStart log N K debug granted prev = Normal (true, st0) ->
  serve_all reqs st0 = Normal st ->
  (forall c : call,
     inmHealthCheckAddBit c st = Exited 1
     \/ exists st', inmHealthCheckAddBit c st = Normal (true, st'))
  /\ 0 <= inmGetEntropyLevel st <= INM_MAX_ENTROPY
  /\ (forall (calls : list call) (st' : state),
        run calls st = Normal st' ->
        inmGetEntropyLevel st <= inmGetEntropyLevel st' <= INM_MAX_ENTROPY)
  /\ (forall reqs' : list request,
        serve_all reqs' st = Exited 1 \/ exists st', serve_all reqs' st = Normal st').
Proof.
  intros Hstart Hall. destruct (start_Inv _ _ _ _ _ _ _ Hstart) as (Hinv0 & _).
  pose proof (serve_all_Inv _ _ _ Hinv0 Hall) as Hinv. clear Hall Hinv0 Hstart.
  unfold inmGetEntropyLevel. split_and!.
  - intros c. destruct (addBit_progress c st Hinv) as [H | (st' & H & _)]; eauto.
  - apply Hinv.
  - apply Hinv.
  - intros calls st'. apply run_level, Hinv.
  - intros reqs'. revert st Hinv. induction reqs' as [|r rs IH]; intros st Hinv.
    + right. now exists st.
    + rewrite serve_all_cons. destruct r as [c|].
      * rewrite serve_call.
        destruct (addBit_progress c st Hinv) as [-> | (st' & -> & Hinv')].
        -- left. now rewrite !bind_Exited.
        -- rewrite !bind_Normal. apply IH, Hinv'.
      * rewrite serve_clear, bind_Normal. apply IH, clear_Inv, Hinv.
Qed.

(** The entropy level is written, and read only by the test that caps it:
    a call from a state with another level has the same outcome and leaves
    the same state up to the level, and so does a whole sequence of calls
    when clearings of the level are put between them.  The verdict does not
    depend on the level either. *)
Theorem level_is_never_an_input (reqs : list request) (st : state) :
  (forall (c : call) (v : Z),
     exists v', inmHealthCheckAddBit c (set_EntropyLevel v st)
                = outcome_map (fun r => (r.1, set_EntropyLevel v' r.2))
                              (inmHealthCheckAddBit c st))
  /\ (exists v, serve_all reqs st = outcome_map (set_EntropyLevel v) (run (calls_of reqs) st))
  /\ (forall v, inmHealthCheckOkToUseData (set_EntropyLevel v st)
                = inmHealthCheckOkToUseData st).
Proof.
  split_and!.
  - intros c v. apply addBit_level_free.
  - destruct (serve_all_level_free reqs (inmEntropyLevel st) st) as [v Hv].
    exists v. now rewrite set_level_same in Hv.
  - intros v. apply ok_level.
Qed.

(** After a successful start and [n] calls, the sampled-bit count is [n]
    up to 79999 and then cycles through 40000..79999: from the 80000th call
    on, the estimate is taken over the last 40000 to 79999 bits' worth of
    counts.  The guard on runs of equal bits is off for the first 101 calls
    and on for every later one. *)
Theorem sampled_count_after_calls
    (log : double -> double) (N : Z) (K : double) (debug : bool) (granted : nat -> bool)
    (prev st0 : state) (calls : list call) (st : state) :
  inmHealthCheckStart log N K debug granted prev = Normal (true, st0) ->
  run calls st0 = Normal st ->
  let n := Z.of_nat (length calls) in
  inmNumBitsSampled st
  = (if n <? INM_MIN_DATA then n else 40000 + (n - INM_MIN_DATA) mod 40000)
  /\ (INM_MIN_DATA <= n -> 40000 <= inmNumBitsSampled st < INM_MIN_DATA)
  /\ tracking st = (100 <? n).
Proof.
  intros Hstart Hrun. destruct (start_Inv _ _ _ _ _ _ _ Hstart) as (Hinv0 & _ & _ & _ & H0 & _).
  split; [exact (run_sampled _ _ _ Hinv0 H0 Hrun) | exact (run_tracking _ _ _ Hinv0 H0 Hrun)].
Qed.

(** Misfire bookkeeping.  A call stores both raw lane bits; it counts a
    misfire for its own lane when that lane's bit differs from the stored
    one, and none for the other lane, so a change of a lane's bit first seen
    by a call for the other lane is never counted.  Both counts are halved
    with the sampled-bit count, and their sum never exceeds it. *)
Theorem misfire_bookkeeping
    (log : double -> double) (N : Z) (K : double) (debug : bool) (granted : nat -> bool)
    (prev st0 : state) (calls : list call) (st : state) :
  inmHealthCheckStart log N K debug granted prev = Normal (true, st0) ->
  run calls st0 = Normal st ->
  inmEvenMisfires st + inmOddMisfires st <= inmNumBitsSampled st
  /\ forall (c : call) (b : bool) (st' : state),
       inmHealthCheckAddBit c st = Normal (b, st') ->
       let h x := if inmNumBitsSampled st + 1 =? INM_MIN_DATA then x / 2 else x in
       inmPrevEven st' = evenBit c /\ inmPrevOdd st' = oddBit c
       /\ inmEvenMisfires st'
          = h (inmEvenMisfires st
               + (if even c && negb (eqb (evenBit c) (inmPrevEven st)) then 1 else 0))
       /\ inmOddMisfires st'
          = h (inmOddMisfires st
               + (if negb (even c) && negb (eqb (oddBit c) (inmPrevOdd st)) then 1 else 0)).
Proof.
  intros Hstart Hrun. destruct (start_Inv _ _ _ _ _ _ _ Hstart) as (Hinv0 & HN & _).
  pose proof (start_state _ _ _ _ _ _ _ Hstart) as Hyes.
  assert (H0 : inmEvenMisfires st0 + inmOddMisfires st0 <= inmNumBitsSampled st0)
    by (rewrite Hyes; cbn; lia).
  pose proof (run_Inv _ _ _ Hinv0 Hrun) as Hinv.
  pose proof (run_misfires _ _ _ Hinv0 H0 Hrun) as Hle.
  split; [exact Hle|]. intros c b st' Hcall.
  destruct (addBit_misfires _ _ _ _ Hinv Hle Hcall) as (H1 & H2 & H3 & H4 & _).
  cbv zeta. auto.
Qed.

(** A call ends the process at the guard on runs or returns true, and when
    it returns it has credited at most 16 entropy units: the ratio of two
    counts below 2^14 is above 2^-15, so the probability, at most halved 15
    times over, is doubled at most 16 times.  Hence the entropy-unit count
    is at most 16 times the sampled-bit count, and its 32-bit counter never
    wraps. *)
Theorem entropy_units_bounded
    (log : double -> double) (N : Z) (K : double) (debug : bool) (granted : nat -> bool)
    (prev st0 : state) (calls : list call) (st : state) :
  inmHealthCheckStart log N K debug granted prev = Normal (true, st0) ->
  run calls st0 = Normal st ->
  0 <= inmNumBitsOfEntropy st <= 16 * inmNumBitsSampled st
  /\ inmNumBitsOfEntropy st < 1280000
  /\ forall c : call,
       inmHealthCheckAddBit c st = Exited 1
       \/ exists st' k,
            inmHealthCheckAddBit c st = Normal (true, st')
            /\ 0 <= k <= 16
            /\ inmNumBitsOfEntropy st'
               = (if inmNumBitsSampled st + 1 =? INM_MIN_DATA
                  then (inmNumBitsOfEntropy st + k) / 2 else inmNumBitsOfEntropy st + k)
            /\ inmNumBitsOfEntropy st' <= 16 * inmNumBitsSampled st'.
Proof.
  intros Hstart Hrun. destruct (start_Inv _ _ _ _ _ _ _ Hstart) as (Hinv0 & HN & _).
  pose proof (start_state _ _ _ _ _ _ _ Hstart) as Hyes.
  assert (H0 : inmNumBitsOfEntropy st0 <= 16 * inmNumBitsSampled st0)
    by (rewrite Hyes; cbn; lia).
  pose proof (run_Inv _ _ _ Hinv0 Hrun) as Hinv.
  pose proof (run_units _ _ _ Hinv0 H0 Hrun) as Hle.
  pose proof Hinv as [_ [Hr _ _ _ _ _ Hu0 _ _ _] _]. change INM_MIN_DATA with 80000 in *.
  split; [lia|]. split; [lia|].
  intros c. destruct (addBit_progress c st Hinv) as [Hexit | (st' & Hcall & _)];
    [left; exact Hexit | right].
  destruct (addBit_units _ _ _ _ Hinv Hle Hcall) as (Hle' & k & Hk & Hu).
  exists st', k. auto.
Qed.

(** A call ends the process at the guard on runs or returns true.  When it
    returns, a bit that its context has never seen contradicted has credited
    no entropy and left the probability as it was; a bit whose context has
    been followed by 0 and by 1 equally often has credited exactly one
    entropy unit and left the probability as it was. *)
Theorem certain_and_even_contexts
    (log : double -> double) (N : Z) (K : double) (debug : bool) (granted : nat -> bool)
    (prev st0 : state) (calls : list call) (st : state)
    (c : call) (zeros ones : Z) :
  inmHealthCheckStart log N K debug granted prev = Normal (true, st0) ->
  run calls st0 = Normal st ->
  let i := inmPrevBits (shift_window (call_bit c) st) in
  tbl_get (selected false (even c) st) i = Normal zeros ->
  tbl_get (selected true (even c) st) i = Normal ones ->
  let own := if call_bit c then ones else zeros in
  let other := if call_bit c then zeros else ones in
  let h x := if inmNumBitsSampled st + 1 =? INM_MIN_DATA then x / 2 else x in
  inmHealthCheckAddBit c st = Exited 1
  \/ exists st',
       inmHealthCheckAddBit c st = Normal (true, st')
       /\ (other = 0 ->
             inmCurrentProbability st' = inmCurrentProbability st
             /\ inmNumBitsOfEntropy st' = h (inmNumBitsOfEntropy st))
       /\ (own = other -> 1 <= own ->
             inmCurrentProbability st' = inmCurrentProbability st
             /\ inmNumBitsOfEntropy st' = h (inmNumBitsOfEntropy st + 1)).
Proof.
  intros Hstart Hrun. cbv zeta. intros Hz Ho.
  destruct (start_Inv _ _ _ _ _ _ _ Hstart) as (Hinv0 & HN & _).
  pose proof (start_state _ _ _ _ _ _ _ Hstart) as Hyes.
  assert (H0 : inmNumBitsOfEntropy st0 <= 16 * inmNumBitsSampled st0)
    by (rewrite Hyes; cbn; lia).
  pose proof (run_Inv _ _ _ Hinv0 Hrun) as Hinv.
  pose proof (run_units _ _ _ Hinv0 H0 Hrun) as Hle.
  destruct (addBit_progress c st Hinv) as [Hexit | (st' & Hcall & _)];
    [left; exact Hexit | right].
  exists st'. split; [exact Hcall|].
  destruct (addBit_credit _ _ _ _ Hinv Hcall) as (z & o & k & Hk). cbv zeta in Hk.
  destruct Hk as (Hz' & Ho' & Rz & Ro & Hp & Hall & Hend & Hk16 & Hu).
  rewrite Hz in Hz'. rewrite Ho in Ho'. injection Hz' as <-. injection Ho' as <-.
  pose proof Hinv as [_ [Hr _ _ _ _ _ Hu0 _ _ _] Habove].
  change INM_MIN_DATA with 80000 in *. change INM_MAX_COUNT with 16384 in *.
  rewrite u32_small in Hu by lia.
  pose proof (above_half_not_leb _ Habove) as Hnot.
  destruct Habove as (m & e & Ep & Hm & He).
  split.
  - intros Hother.
    assert (Hp1 : entering (call_bit c) zeros ones (inmCurrentProbability st)
                  = inmCurrentProbability st).
    { unfold entering. cbv zeta.
      destruct (Z.eqb_spec (if call_bit c then ones else zeros) 0) as [|Hnz]; [reflexivity|].
      replace (zeros + ones) with (if call_bit c then ones else zeros)
        by (destruct (call_bit c); lia).
      rewrite div_self by (destruct (call_bit c); lia).
      rewrite Ep. apply mul_one; [assumption | lia]. }
    rewrite Hp1 in Hp, Hall.
    assert (k = 0%nat) as ->.
    { destruct k as [|k]; [reflexivity|]. specialize (Hall 0%nat ltac:(lia)).
      change (Nat.iter 0 B64.twice ?x) with x in Hall. congruence. }
    change (Z.of_nat 0) with 0 in Hu. rewrite Z.add_0_r in Hu. split; [exact Hp | exact Hu].
  - intros Heq Hown.
    assert (Hp1 : entering (call_bit c) zeros ones (inmCurrentProbability st)
                  = S754_finite false m (e - 1)).
    { unfold entering. cbv zeta.
      destruct (Z.eqb_spec (if call_bit c then ones else zeros) 0) as [|Hnz]; [lia|].
      replace (zeros + ones)
        with ((if call_bit c then ones else zeros) + (if call_bit c then ones else zeros))
        by (destruct (call_bit c); lia).
      rewrite div_double by (destruct (call_bit c); lia).
      rewrite Ep. apply mul_half; [assumption | lia]. }
    rewrite Hp1 in Hp, Hall.
    assert (Hleb1 : B64.leb (S754_finite false m (e - 1)) B64.half = true).
    { rewrite leb_half. apply orb_true_iff.
      destruct He as [[-> _] | [-> Hone]]; [left; reflexivity | right].
      apply andb_true_iff. split; [reflexivity | apply Z.leb_le; lia]. }
    assert (Htw : B64.twice (S754_finite false m (e - 1)) = inmCurrentProbability st).
    { unfold B64.twice. rewrite mul_two by (assumption || lia). rewrite Ep. f_equal. lia. }
    assert (k = 1%nat) as ->.
    { destruct k as [|[|k]]; [|reflexivity|].
      - change (Nat.iter 0 B64.twice ?x) with x in Hp. congruence.
      - specialize (Hall 1%nat ltac:(lia)).
        change (Nat.iter 1 B64.twice ?x) with (B64.twice x) in Hall. congruence. }
    change (Nat.iter 1 B64.twice ?x) with (B64.twice x) in Hp.
    split; [congruence | exact Hu].
Qed.

(** [inmHealthCheckStart] does not check the gain.  When [log(K)/log(2.0)]
    is a NaN (a negative or NaN gain), the start succeeds all the same, and
    from then on the verdict is false and the entropy level stays 0: no
    data is ever declared usable. *)
Theorem gain_without_logarithm_never_validates
    (log : double -> double) (N : Z) (K : double) (debug : bool) (granted : nat -> bool)
    (prev st0 : state) (calls : list call) (st : state) :
  inmHealthCheckStart log N K debug granted prev = Normal (true, st0) ->
  run calls st0 = Normal st ->
  is_nan (B64.div (log K) (log B64.two)) = true ->
  inmHealthCheckOkToUseData st = false /\ inmGetEntropyLevel st = 0.
Proof.
  intros Hstart Hrun Hn.
  destruct (start_Inv _ _ _ _ _ _ _ Hstart) as (Hinv0 & _ & _ & _ & _ & _ & Hl0 & Hx0).
  rewrite <- Hx0 in Hn. destruct (run_nan _ _ _ Hinv0 Hn Hrun) as [Hl Hx].
  split.
  - apply ok_nan. right. now rewrite Hx.
  - unfold inmGetEntropyLevel. congruence.
Qed.

(** The estimate is 0/0, a NaN, until the first call after a start, and a
    finite double from then on; while it is a NaN the verdict is false. *)
Theorem estimate_defined_from_first_call
    (log : double -> double) (N : Z) (K : double) (debug : bool) (granted : nat -> bool)
    (prev st0 : state) (calls : list call) (st : state) :
  inmHealthCheckStart log N K debug granted prev = Normal (true, st0) ->
  run calls st0 = Normal st ->
  (calls = [] -> is_nan (inmHealthCheckEstimateEntropyPerBit st) = true)
  /\ (calls <> [] -> 1 <= inmNumBitsSampled st
                     /\ B64.is_finite (inmHealthCheckEstimateEntropyPerBit st) = true)
  /\ (is_nan (inmHealthCheckEstimateEntropyPerBit st) = true ->
        inmHealthCheckOkToUseData st = false).
Proof.
  intros Hstart Hrun.
  destruct (start_Inv _ _ _ _ _ _ _ Hstart) as (Hinv0 & HN & _ & _ & Hs0 & _).
  split_and!.
  - intros ->. injection Hrun as <-.
    rewrite (start_state _ _ _ _ _ _ _ Hstart). reflexivity.
  - intros Hne. pose proof (run_sampled _ _ _ Hinv0 Hs0 Hrun) as Hs. cbv zeta in Hs.
    pose proof (run_Inv _ _ _ Hinv0 Hrun) as [_ [Hr _ _ _ _ _ Hu _ _ _] _].
    assert (Hlen : 1 <= Z.of_nat (length calls)) by (destruct calls; [congruence | cbn; lia]).
    change INM_MIN_DATA with 80000 in *.
    assert (H1 : 1 <= inmNumBitsSampled st).
    { rewrite Hs. destruct (Z.ltb_spec (Z.of_nat (length calls)) 80000); [lia|].
      pose proof (Z.mod_pos_bound (Z.of_nat (length calls) - 80000) 40000 ltac:(lia)). lia. }
    split; [exact H1|]. unfold inmHealthCheckEstimateEntropyPerBit.
    apply div_counts_finite; lia.
  - intros Hn. apply ok_nan. now left.
Qed.

(** [inmEntropyOnTarget] converts [numBits * inmExpectedEntropyPerBit] to
    [uint32_t] without a check: when the expected value is a NaN or an
    infinity the conversion is undefined for every argument.  When it is
    defined, no entropy at all is never on target; and with no bits, any
    entropy of at least one is. *)
Theorem entropyOnTarget_edges (entropy numBits : Z) (st : state) :
  0 <= entropy < 2 ^ 32 -> 0 <= numBits < 2 ^ 32 ->
  (B64.is_finite (inmExpectedEntropyPerBit st) = false ->
     inmEntropyOnTarget entropy numBits st = Undefined)
  /\ inmEntropyOnTarget 0 numBits st <> Normal true
  /\ (B64.is_finite (inmExpectedEntropyPerBit st) = true ->
        inmEntropyOnTarget entropy 0 st = Normal (0 <? entropy)).
Proof.
  intros He Hn. unfold inmEntropyOnTarget. split_and!.
  - intros Hinf.
    destruct (of_uint_cases numBits Hn) as [[-> ->] | (_ & m & -> & _)];
      destruct (inmExpectedEntropyPerBit st) as [s|s| |s m' e']; try discriminate; reflexivity.
  - destruct (to_uint32 _) as [k| | |] eqn:Hk; try discriminate.
    rewrite bind_Normal. apply to_uint32_range in Hk.
    change (B64.mul (B64.of_uint 0) INM_ACCURACY) with (S754_zero false).
    destruct (of_uint_cases k Hk) as [[_ ->] | (_ & m & -> & _)]; discriminate.
  - intros Hfin. change (B64.of_uint 0) with (S754_zero false).
    assert (Hz : to_uint32 (B64.mul (S754_zero false) (inmExpectedEntropyPerBit st)) = Normal 0).
    { destruct (inmExpectedEntropyPerBit st) as [s|s| |s m' e']; try discriminate; reflexivity. }
    rewrite Hz, bind_Normal. change (B64.of_uint 0) with (S754_zero false).
    destruct (Z.eq_dec entropy 0) as [-> | Hpos]; [reflexivity|].
    destruct (mul_accuracy_positive entropy ltac:(lia)) as (m & e & ->).
    replace (0 <? entropy) with true by (symmetry; apply Z.ltb_lt; lia). reflexivity.
Qed.

(** The totals of ones and of zeros count the ingested bits once the guard
    on runs is on, and not before; both are halved when the larger reaches
    [INM_MIN_DATA], so neither ever exceeds 79999. *)
Theorem totals_bookkeeping
    (log : double -> double) (N : Z) (K : double) (debug : bool) (granted : nat -> bool)
    (prev st0 : state) (calls : list call) (st : state) :
  inmHealthCheckStart log N K debug granted prev = Normal (true, st0) ->
  run calls st0 = Normal st ->
  0 <= inmTotalOnes st < INM_MIN_DATA /\ 0 <= inmTotalZeros st < INM_MIN_DATA
  /\ (Z.of_nat (length calls) <= 101 -> inmTotalOnes st = 0 /\ inmTotalZeros st = 0)
  /\ forall (c : call) (b : bool) (st' : state),
       inmHealthCheckAddBit c st = Normal (b, st') ->
       let ones := inmTotalOnes st + (if tracking st && call_bit c then 1 else 0) in
       let zeros := inmTotalZeros st + (if tracking st && negb (call_bit c) then 1 else 0) in
       let h x := if Z.max ones zeros =? INM_MIN_DATA then x / 2 else x in
       inmTotalOnes st' = h ones /\ inmTotalZeros st' = h zeros.
Proof.
  intros Hstart Hrun. destruct (start_Inv _ _ _ _ _ _ _ Hstart) as (Hinv0 & HN & _).
  pose proof (run_Inv _ _ _ Hinv0 Hrun) as Hinv.
  assert (Hcall : forall s (c : call) (b : bool) (s' : state),
             Inv s -> inmHealthCheckAddBit c s = Normal (b, s') ->
             let ones := inmTotalOnes s + (if tracking s && call_bit c then 1 else 0) in
             let zeros := inmTotalZeros s + (if tracking s && negb (call_bit c) then 1 else 0) in
             let h x := if Z.max ones zeros =? INM_MIN_DATA then x / 2 else x in
             inmTotalOnes s' = h ones /\ inmTotalZeros s' = h zeros).
  { intros s c b s' Hs Hc. cbv zeta.
    destruct (addBit_inv _ _ _ _ Hc) as (s2 & zeros & ones & s4 & s6 & Hsteps & _ & ->).
    destruct (steps_keeps _ _ _ _ _ _ _ Hs Hsteps) as (K1 & K2 & K4 & K6 & K8 & _).
    pose proof Hsteps as [H1 H2 H3 H4].
    destruct (check_sequence_totals _ _ _ H1) as [Ho Hz].
    destruct (guard_entry c s true) as [_ Htr]. rewrite Htr in Ho, Hz.
    kept_as K1 F_TotalOnes O1. kept_as K1 F_TotalZeros Z1. rewrite O1 in Ho. rewrite Z1 in Hz.
    kept_as K4 F_TotalOnes O4. kept_as K4 F_TotalZeros Z4.
    kept_as K6 F_TotalOnes O6. kept_as K6 F_TotalZeros Z6.
    destruct Hs as [_ [_ Hro Hrz _ _ _ _ _ _ _] _]. change INM_MIN_DATA with 80000 in *.
    assert (Ho6 : inmTotalOnes s6
                  = inmTotalOnes s + (if tracking s && call_bit c then 1 else 0)).
    { rewrite O6, O4, Ho. destruct (tracking s && call_bit c); [apply u32_small|]; lia. }
    assert (Hz6 : inmTotalZeros s6
                  = inmTotalZeros s + (if tracking s && negb (call_bit c) then 1 else 0)).
    { rewrite Z6, Z4, Hz. destruct (tracking s && negb (call_bit c)); [apply u32_small|]; lia. }
    destruct (scale_totals_fields s6) as [Tyes Tno]. cbv zeta in Tyes, Tno.
    rewrite <- Ho6, <- Hz6. change INM_MIN_DATA with 80000 in *.
    destruct (Z.eqb_spec (Z.max (inmTotalOnes s6) (inmTotalZeros s6)) 80000) as [Hfull | Hnot];
      [apply Tyes | apply Tno]; assumption. }
  pose proof Hinv as [_ [_ Hro Hrz _ _ _ _ _ _ _] _]. change INM_MIN_DATA with 80000 in *.
  split; [lia|]. split; [lia|]. split; [|intros c b st'; apply Hcall, Hinv].
  (* the first 101 calls *)
  clear Hinv Hro Hrz. revert st Hrun.
  induction calls as [|c calls IH] using rev_ind; intros st Hrun Hlen.
  - injection Hrun as <-.
    rewrite (start_state _ _ _ _ _ _ _ Hstart). split; reflexivity.
  - rewrite length_app, Nat2Z.inj_add in Hlen. cbn [length] in Hlen.
    rewrite run_app in Hrun.
    destruct (run calls st0) as [s| | |] eqn:Hpre;
      rewrite ?bind_Normal, ?bind_Exited, ?bind_Undefined, ?bind_Diverges in Hrun;
      try discriminate.
    destruct (IH s eq_refl ltac:(lia)) as [Ho Hz].
    pose proof (run_Inv _ _ _ Hinv0 Hpre) as Hs.
    destruct (start_Inv _ _ _ _ _ _ _ Hstart) as (_ & _ & _ & _ & Hs0 & _).
    destruct (run_tracking _ _ _ Hinv0 Hs0 Hpre) as (_ & Htr). cbv zeta in Htr.
    replace (100 <? Z.of_nat (length calls)) with false in Htr
      by (symmetry; apply Z.ltb_ge; lia).
    rewrite run_single in Hrun.
    destruct (addBit_progress c s Hs) as [Hc | (s' & Hc & _)]; rewrite Hc in Hrun.
    + rewrite bind_Exited in Hrun. discriminate.
    + rewrite bind_Normal in Hrun. injection Hrun as <-. cbn [snd].
      destruct (Hcall s c true s' Hs Hc) as [Ho' Hz']. cbv zeta in Ho', Hz'.
      rewrite Htr, Ho, Hz in Ho', Hz'. cbn in Ho', Hz'. auto.
Qed.

(** The diagnostics of the test program, for a width of at most 17, so that
    no 32-bit sum wraps.  [checkLSBStatsForNBits(N)] divides, of all the
    counts of the even lane, those a guess from the last [N] bits of the
    window would have got right: at least half of them and at most all, so
    the printed probability is between 0.5 and 1 (or a NaN with no counts),
    and it never goes down as [N] goes up.  [checkLSBStats] reports this for
    [N] from 1 to the width. *)
Theorem diagnostics_guess_at_least_half
    (log : double -> double) (N : Z) (K : double) (debug : bool) (granted : nat -> bool)
    (prev st0 : state) (calls : list call) (st : state) :
  inmHealthCheckStart log N K debug granted prev = Normal (true, st0) ->
  run calls st0 = Normal st ->
  N <= 17 ->
  (forall n, 0 <= n <= N ->
     checkLSBStatsForNBits n st = Normal (guessed_right st n, even_counts st)
     /\ guessed_right st n <= even_counts st <= 2 * guessed_right st n
     /\ (n < N -> guessed_right st n <= guessed_right st (n + 1)))
  /\ checkLSBStats st
     = Normal ((fun k => (guessed_right st (1 + Z.of_nat k), even_counts st))
                 <$> seq 0 (Z.to_nat N)).
Proof.
  intros Hstart Hrun H17.
  destruct (start_Inv _ _ _ _ _ _ _ Hstart) as (Hinv0 & HN & EN & _).
  pose proof (run_Inv _ _ _ Hinv0 Hrun) as [Hshape _ _].
  pose proof (run_keeps _ _ _ Hinv0 Hrun) as K0. kept_as K0 F_N EN'.
  assert (En : inmN st = N) by congruence.
  split.
  - intros n Hn.
    destruct (checkLSBStatsForNBits_spec st n Hshape ltac:(lia) ltac:(lia)) as [Hr Hb].
    split; [exact Hr|]. split; [exact Hb|]. intros Hlt. apply guessed_right_mono. lia.
  - unfold checkLSBStats. rewrite En.
    apply checkLSBStats_loop_spec; try assumption; try lia.
Qed.

(** The context a call looks up is made of the last [N] ingested bits, of
    both lanes in the order of the calls: bit [t] of the index is the bit
    ingested [t + 1] calls earlier, and 0 before the first call.  Between
    calls, [inmPrevBit] is the last ingested bit and [inmPrevBits] holds the
    [N] bits before it. *)
Theorem context_is_the_last_bits
    (log : double -> double) (N : Z) (K : double) (debug : bool) (granted : nat -> bool)
    (prev st0 : state) (calls : list call) (st : state) :
  inmHealthCheckStart log N K debug granted prev = Normal (true, st0) ->
  run calls st0 = Normal st ->
  inmPrevBit st = hd false (ingested calls)
  /\ inmPrevBits st = window_of (Z.to_nat N) (tl (ingested calls))
  /\ forall c : call,
       inmPrevBits (shift_window (call_bit c) (note_lanes c st))
       = window_of (Z.to_nat N) (ingested calls).
Proof. exact (run_window log N K debug granted prev st0 calls st). Qed.

(** Until [INM_MAX_COUNT] calls have been made no cell is halved, and each
    cell holds the exact number of calls of its lane that ingested its bit
    after the [N] bits that spell its index. *)
Theorem tables_count_exactly
    (log : double -> double) (N : Z) (K : double) (debug : bool) (granted : nat -> bool)
    (prev st0 : state) (calls : list call) (st : state) :
  inmHealthCheckStart log N K debug granted prev = Normal (true, st0) ->
  run calls st0 = Normal st ->
  Z.of_nat (length calls) < INM_MAX_COUNT ->
  forall j : Z, 0 <= j ->
    cell (inmOnesEven st) j = tally (Z.to_nat N) true true j (rev calls)
    /\ cell (inmZerosEven st) j = tally (Z.to_nat N) true false j (rev calls)
    /\ cell (inmOnesOdd st) j = tally (Z.to_nat N) false true j (rev calls)
    /\ cell (inmZerosOdd st) j = tally (Z.to_nat N) false false j (rev calls).
Proof.
  intros Hstart Hrun Hlen j Hj.
  pose proof (run_cells _ _ _ _ _ _ _ _ _ Hstart Hrun Hlen) as H.
  split; [exact (H true true j Hj)|]. split; [exact (H false true j Hj)|].
  split; [exact (H true false j Hj) | exact (H false false j Hj)].
Qed.

(** [inmHealthCheckStop] frees the block of each table whose pointer is not
    null and does not reset the pointer.  In a fresh process it does
    nothing.  After a successful start and any calls it frees the four
    tables and writes nothing else; the four pointers are left dangling, so
    a second call frees freed memory, which is undefined.  So is a call
    after a start that failed with one of its blocks granted, since that
    start has called [inmHealthCheckStop] itself. *)
Theorem stop_frees_once
    (log : double -> double) (N : Z) (K : double) (debug : bool) (granted : nat -> bool)
    (prev st0 : state) (calls : list call) (st : state) :
  inmHealthCheckStart log N K debug granted prev = Normal (true, st0) ->
  run calls st0 = Normal st ->
  inmHealthCheckStop initial_state = Normal initial_state
  /\ inmHealthCheckStop st = Normal (with_tables Freed Freed Freed Freed st)
  /\ inmHealthCheckStop (with_tables Freed Freed Freed Freed st) = Undefined
  /\ forall (refused : nat -> bool) (st' : state),
       inmHealthCheckStart log N K debug refused st = Normal (false, st') ->
       refused 0%nat || refused 1%nat || refused 2%nat || refused 3%nat = true ->
       inmHealthCheckStop st' = Undefined.
Proof.
  intros Hstart Hrun. destruct (start_Inv _ _ _ _ _ _ _ Hstart) as (Hinv0 & HN & _).
  pose proof (run_Inv _ _ _ Hinv0 Hrun) as [[_ _ Hoe Hze Hoo Hzo] _ _].
  split; [reflexivity|]. split_and!.
  - destruct Hoe as (c1 & E1 & _), Hze as (c2 & E2 & _), Hoo as (c3 & E3 & _),
      Hzo as (c4 & E4 & _).
    fields_of st. cbn in E1, E2, E3, E4. subst. reflexivity.
  - fields_of st. reflexivity.
  - intros refused st' Hfail Hsome.
    destruct (start_failure _ _ _ _ _ _ _ HN Hfail) as (F1 & F2 & F3 & F4).
    fields_of st'. cbn in F1, F2, F3, F4. subst. unfold inmHealthCheckStop. fields_goal.
    destruct (refused 0%nat); [reflexivity|].
    destruct (refused 1%nat); [reflexivity|].
    destruct (refused 2%nat); [reflexivity|].
    destruct (refused 3%nat); [reflexivity|]. discriminate Hsome.
Qed.

(** * The theorems at concrete inputs *)

(** C1 at [after_six]: six calls are below the sample floor, the verdict is
    false. *)
Lemma C1_witness :
  inmHealthCheckStart Libm.log 1 B64.two false (fun _ => true) initial_state
  = Normal (true, started 1)
  /\ run six_calls (started 1) = Normal after_six
  /\ inmTotalBits after_six = 6
  /\ inmHealthCheckOkToUseData after_six = false.
Proof.
  assert (H1 : inmHealthCheckStart Libm.log 1 B64.two false (fun _ => true) initial_state
               = Normal (true, started 1)) by (vm_compute; reflexivity).
  assert (H2 : run six_calls (started 1) = Normal after_six) by (vm_compute; reflexivity).
  split; [exact H1|]. split; [exact H2|].
  destruct (C1_ok_iff_floor_and_tolerance _ _ _ _ _ _ _ _ _ H1 H2) as (_ & Htot & Hlow).
  split; [exact Htot|]. apply Hlow. vm_compute; reflexivity.
Defined.

(** C2 at [past_warm_up]: 102 calls were made, the last of which ingested 0,
    so runs are counted, the run of zeros is one long and the run of ones is
    empty: a call that ingests 1 returns.  Twenty calls that ingest 1, for
    the two lanes in turn, return, and the twenty-first ends the process. *)
Lemma C2_witness :
  inmHealthCheckStart Libm.log 1 B64.two false (fun _ => true) initial_state
  = Normal (true, started 1)
  /\ run (alternate 102 true) (started 1) = Normal past_warm_up
  /\ tracking past_warm_up = true
  /\ seq_count true past_warm_up = 0
  /\ seq_count false past_warm_up = 1
  /\ (exists st', inmHealthCheckAddBit seventh_call past_warm_up = Normal (true, st'))
  /\ exists s, run (ones_on_both_lanes 10) past_warm_up = Normal s
               /\ inmHealthCheckAddBit seventh_call s = Exited 1.
Proof.
  assert (H1 : inmHealthCheckStart Libm.log 1 B64.two false (fun _ => true) initial_state
               = Normal (true, started 1)) by (vm_compute; reflexivity).
  assert (H2 : run (alternate 102 true) (started 1) = Normal past_warm_up)
    by (vm_compute; reflexivity).
  split; [exact H1|]. split; [exact H2|].
  destruct (C2_run_of_21_ends_the_process _ _ _ _ _ _ _ _ _ H1 H2)
    as (Htr & Hseq & Hcall & Hrun).
  split; [rewrite Htr; vm_compute; reflexivity|].
  split; [rewrite (proj1 (Hseq true)); vm_compute; reflexivity|].
  split; [rewrite (proj1 (Hseq false)); vm_compute; reflexivity|].
  split.
  { destruct (Hcall seventh_call) as [(Hfull & _) | (_ & Hret)]; [|exact Hret].
    vm_compute in Hfull. discriminate Hfull. }
  apply (Hrun ltac:(vm_compute; reflexivity) true).
  - repeat constructor.
  - reflexivity.
  - vm_compute. reflexivity.
Defined.

(** C3 at [after_five] and a sixth call, which reads 0 where 0 was seen once
    in three: the probability 1.0 becomes a third, which is at most 0.5, and
    is doubled once; the call credits one unit and leaves two thirds. *)
Lemma C3_witness :
  inmHealthCheckStart Libm.log 1 B64.two false (fun _ => true) initial_state
  = Normal (true, started 1)
  /\ run five_calls (started 1) = Normal after_five
  /\ inmCurrentProbability (started 1) = B64.one
  /\ inmCurrentProbability after_five = B64.one
  /\ exists (st' : state) (k : nat),
       let third := B64.mul B64.one (B64.div (B64.of_uint 1) (B64.of_uint 3)) in
       inmHealthCheckAddBit zero_call after_five = Normal (true, st')
       /\ B64.leb third B64.half = true
       /\ k = 1%nat
       /\ inmCurrentProbability st' = Nat.iter k B64.twice third
       /\ B64.in_half_one (inmCurrentProbability st')
       /\ inmNumBitsOfEntropy st' = inmNumBitsOfEntropy after_five + 1.
Proof.
  assert (H1 : inmHealthCheckStart Libm.log 1 B64.two false (fun _ => true) initial_state
               = Normal (true, started 1)) by (vm_compute; reflexivity).
  assert (H2 : run five_calls (started 1) = Normal after_five) by (vm_compute; reflexivity).
  split; [exact H1|]. split; [exact H2|].
  destruct (C3_probability_in_half_open_interval _ _ _ _ _ _ _ _ _ H1 H2)
    as (Hone & _ & Hcall).
  split; [exact Hone|]. split; [vm_compute; reflexivity|].
  destruct (Hcall zero_call) as [Hexit | (st' & zeros & ones & k & Hk)].
  - vm_compute in Hexit. discriminate Hexit.
  - cbv zeta in Hk. destruct Hk as (Hret & Hin & Hz & Ho & Hp & Hall & Hu & _).
    vm_compute in Hz. injection Hz as <-. vm_compute in Ho. injection Ho as <-.
    assert (Hst : Normal (true, st') = inmHealthCheckAddBit zero_call after_five)
      by (symmetry; exact Hret).
    vm_compute in Hst. injection Hst as Hst.
    assert (Hk1 : k = 1%nat).
    { destruct k as [|[|k]]; [|reflexivity|].
      - rewrite Hst in Hp. vm_compute in Hp. discriminate Hp.
      - specialize (Hall 1%nat ltac:(lia)). vm_compute in Hall. discriminate Hall. }
    exists st', k. cbv zeta.
    split; [exact Hret|]. split; [vm_compute; reflexivity|]. split; [exact Hk1|].
    split; [exact Hp|]. split; [exact Hin|].
    rewrite Hu, Hk1. vm_compute. reflexivity.
Defined.

(** C4 on a stream of low entropy, with the gain [low_gain]: the 80400
    calls of [low_stream 200] bring the level to 2, a clearing sets it to 0,
    and the 400 calls that follow raise it to 1.  The next call, for the odd
    lane, reads a 0 in a context followed by 0 and by 1 equally often: it
    credits one entropy unit, [inmHealthCheckOkToUseData] is true in that
    round of the loop, and the level becomes 2.  Clearing sets it to 0. *)
Lemma C4_witness :
  inmHealthCheckStart Libm.log 1 low_gain false (fun _ => true) initial_state
  = Normal (true, started_low)
  /\ serve_all ((AddBit <$> low_stream 200) ++ [ClearEntropyLevel]) started_low
     = Normal (inmClearEntropyLevel low_level_two)
  /\ inmGetEntropyLevel low_level_two = 2
  /\ inmGetEntropyLevel (inmClearEntropyLevel low_level_two) = 0
  /\ run (alternate 199 true ++ [odd_one] ++ alternate 200 false)
         (inmClearEntropyLevel low_level_two) = Normal low_resumed
  /\ inmGetEntropyLevel (inmClearEntropyLevel low_level_two)
     <= inmGetEntropyLevel low_resumed <= INM_MAX_ENTROPY
  /\ serve_all low_requests started_low = Normal low_resumed
  /\ inmGetEntropyLevel low_resumed = 1
  /\ (exists st' s3 m,
        inmHealthCheckAddBit odd_zero low_resumed = Normal (true, st')
        /\ loop_entry odd_zero low_resumed = Normal s3
        /\ List.filter level_test (credit_moments emit_fuel s3) = [m]
        /\ inmHealthCheckOkToUseData m = true /\ inmEntropyLevel m < INM_MAX_ENTROPY
        /\ inmNumBitsOfEntropy st' = inmNumBitsOfEntropy low_resumed + 1
        /\ inmGetEntropyLevel st' = 2)
  /\ inmGetEntropyLevel (inmClearEntropyLevel low_resumed) = 0.
Proof.
  pose proof started_low_ok as H1.
  pose proof low_cleared_reached as H2.
  pose proof low_resumed_run as H3.
  pose proof low_resumed_reached as H4.
  split; [exact H1|]. split; [exact H2|]. split; [reflexivity|].
  destruct (C4_entropy_level_capped_monotone_gated _ _ _ _ _ _ _ _ _ H1 H2)
    as (_ & _ & Hruns & _ & Hzero).
  split; [exact Hzero|]. split; [exact H3|]. split; [exact (Hruns _ _ H3)|].
  split; [exact H4|]. split; [reflexivity|].
  destruct (C4_entropy_level_capped_monotone_gated _ _ _ _ _ _ _ _ _ H1 H4)
    as (_ & Hcall & _ & _ & Hclear).
  split; [|exact Hclear].
  destruct (Hcall odd_zero) as [Hexit | (st' & s3 & Hc & Hentry & Hlevel & Hgate & _)].
  { vm_compute in Hexit. discriminate. }
  assert (Hunits : inmNumBitsOfEntropy st' = inmNumBitsOfEntropy low_resumed + 1).
  { assert (Hst : Normal (true, st') = inmHealthCheckAddBit odd_zero low_resumed)
      by (symmetry; exact Hc).
    vm_compute in Hst. injection Hst as ->. reflexivity. }
  assert (Hs3 : Normal s3 = loop_entry odd_zero low_resumed) by (symmetry; exact Hentry).
  vm_compute in Hs3. injection Hs3 as Hs3.
  assert (Hone : exists m, List.filter level_test (credit_moments emit_fuel s3) = [m]).
  { rewrite Hs3. vm_compute. eexists. reflexivity. }
  destruct Hone as (m & Hm). rewrite Hm in Hlevel, Hgate.
  apply Forall_inv in Hgate. destruct Hgate as (Hok & Hbelow).
  exists st', s3, m. split; [exact Hc|]. split; [exact Hentry|]. split; [exact Hm|].
  split; [exact Hok|]. split; [exact Hbelow|]. split; [exact Hunits|].
  rewrite Hlevel. reflexivity.
Defined.

(** C5 at a halving: 32768 calls into [scale_down_calls] the cell of the
    zeros that followed a 1 on the even lane holds 16383; the call that
    reads one more such zero brings it to [INM_MAX_COUNT], and the four
    tables are halved in that call, the cells of the odd lane with them. *)
Lemma C5_witness :
  inmHealthCheckStart Libm.log 1 B64.two false (fun _ => true) initial_state
  = Normal (true, started 1)
  /\ run (scale_down_prefix ++ alternate 32758 false) (started 1) = Normal before_halving
  /\ inmOnesEven before_halving = Block [16382; 0]
  /\ inmZerosEven before_halving = Block [0; 16383]
  /\ inmOnesOdd before_halving = Block [2; 0]
  /\ inmZerosOdd before_halving = Block [1; 0]
  /\ exists st',
       inmHealthCheckAddBit zero_call before_halving = Normal (true, st')
       /\ inmOnesEven st' = Block [8191; 0] /\ inmZerosEven st' = Block [0; 8192]
       /\ inmOnesOdd st' = Block [1; 0] /\ inmZerosOdd st' = Block [0; 0]
       /\ table_ok 1 (inmOnesEven st') /\ table_ok 1 (inmZerosEven st')
       /\ table_ok 1 (inmOnesOdd st') /\ table_ok 1 (inmZerosOdd st').
Proof.
  assert (H1 : inmHealthCheckStart Libm.log 1 B64.two false (fun _ => true) initial_state
               = Normal (true, started 1)) by (vm_compute; reflexivity).
  pose proof before_halving_reached as H2.
  assert (H3 : inmHealthCheckAddBit zero_call before_halving
               = Normal (true, state_after (inmHealthCheckAddBit zero_call before_halving)))
    by (vm_compute; reflexivity).
  split; [exact H1|]. split; [exact H2|]. do 4 (split; [reflexivity|]).
  destruct (C5_tables_halved_together _ _ _ _ _ _ _ _ _ _ _ _ H1 H2 H3)
    as ((cells & k & Hsel & Hk & Hfull & _) & Hoe & Hze & Hoo & Hzo & _).
  vm_compute in Hsel. injection Hsel as <-.
  vm_compute in Hk. injection Hk as <-.
  destruct (Hfull eq_refl) as (Eoe & Eze & Eoo & Ezo).
  eexists. split; [exact H3|].
  split; [rewrite Eoe; vm_compute; reflexivity|].
  split; [rewrite Eze; vm_compute; reflexivity|].
  split; [rewrite Eoo; vm_compute; reflexivity|].
  split; [rewrite Ezo; vm_compute; reflexivity|].
  split; [exact Hoe|]. split; [exact Hze|]. split; [exact Hoo|]. exact Hzo.
Defined.

(** C6 at the two scale-downs.  After the 79999 calls of [scale_down_calls]
    one entropy unit has been credited; the next call brings the sampled-bit
    count to [INM_MIN_DATA], and the entropy-unit count, the sampled-bit
    count and the two misfire counts are halved, the totals left as they
    are.  80100 calls later each total is one short of [INM_MIN_DATA]; the
    call that reads a 1 halves both, the other four counts left as they
    are. *)
Lemma C6_witness :
  inmHealthCheckStart Libm.log 1 B64.two false (fun _ => true) initial_state
  = Normal (true, started 1)
  /\ run scale_down_calls (started 1) = Normal before_scale_down
  /\ (exists s6 st',
        inmHealthCheckAddBit one_call before_scale_down = Normal (true, st')
        /\ st' = scaleZeroOneCounts (scaleEntropy s6)
        /\ inmNumBitsSampled s6 = INM_MIN_DATA
        /\ inmNumBitsOfEntropy s6 = 1 /\ inmNumBitsOfEntropy st' = 0
        /\ inmNumBitsSampled st' = 40000
        /\ inmEvenMisfires s6 = 79995 /\ inmEvenMisfires st' = 39997
        /\ inmOddMisfires s6 = 2 /\ inmOddMisfires st' = 1
        /\ inmTotalOnes st' = 39950 /\ inmTotalZeros st' = 39949)
  /\ run (scale_down_calls ++ alternate 80100 true) (started 1) = Normal before_totals_halving
  /\ (exists s6 st',
        inmHealthCheckAddBit one_call before_totals_halving = Normal (true, st')
        /\ st' = scaleZeroOneCounts (scaleEntropy s6)
        /\ inmTotalOnes s6 = INM_MIN_DATA /\ inmTotalZeros s6 = 79999
        /\ inmTotalOnes st' = 40000 /\ inmTotalZeros st' = 39999
        /\ inmNumBitsSampled st' = 40100 /\ inmEvenMisfires st' = 40099).
Proof.
  assert (H1 : inmHealthCheckStart Libm.log 1 B64.two false (fun _ => true) initial_state
               = Normal (true, started 1)) by (vm_compute; reflexivity).
  pose proof before_scale_down_reached as H2.
  assert (H3 : inmHealthCheckAddBit one_call before_scale_down
               = Normal (true, state_after (inmHealthCheckAddBit one_call before_scale_down)))
    by (vm_compute; reflexivity).
  pose proof before_totals_halving_reached as H4.
  assert (H5 : inmHealthCheckAddBit one_call before_totals_halving
               = Normal (true, state_after (inmHealthCheckAddBit one_call before_totals_halving)))
    by (vm_compute; reflexivity).
  split; [exact H1|]. split; [exact H2|]. split; [|split; [exact H4|]].
  - destruct (C6_counters_halved_together _ _ _ _ _ _ _ _ _ _ _ _ H1 H2 H3)
      as (s2 & zeros & ones & s4 & s6 & [E1 E2 E3 E4] & Hend & Hsampled & Hfull & _ & _ & Hrest).
    vm_compute in E1. injection E1 as <-.
    vm_compute in E2. injection E2 as <- <-.
    vm_compute in E3. injection E3 as <-.
    vm_compute in E4. injection E4 as <-.
    destruct (Hfull eq_refl) as (Eu & Es & Ee & Eo & _).
    destruct Hrest as (Eto & Etz); [vm_compute; discriminate|].
    eexists _, _. split; [exact H3|]. split; [exact Hend|].
    split; [reflexivity|]. split; [reflexivity|]. split; [rewrite Eu; reflexivity|].
    split; [rewrite Es; reflexivity|].
    split; [reflexivity|]. split; [rewrite Ee; reflexivity|].
    split; [reflexivity|]. split; [rewrite Eo; reflexivity|].
    split; [rewrite Eto; reflexivity | rewrite Etz; reflexivity].
  - destruct (C6_counters_halved_together _ _ _ _ _ _ _ _ _ _ _ _ H1 H4 H5)
      as (s2 & zeros & ones & s4 & s6 & [E1 E2 E3 E4] & Hend & Hsampled & _ & Hnot & Hfull & _).
    vm_compute in E1. injection E1 as <-.
    vm_compute in E2. injection E2 as <- <-.
    vm_compute in E3. injection E3 as <-.
    vm_compute in E4. injection E4 as <-.
    destruct (Hfull eq_refl) as (Eto & Etz).
    destruct Hnot as (_ & Es & Ee & _); [vm_compute; discriminate|].
    eexists _, _. split; [exact H5|]. split; [exact Hend|].
    split; [reflexivity|]. split; [reflexivity|].
    split; [rewrite Eto; reflexivity|]. split; [rewrite Etz; reflexivity|].
    split; [rewrite Es; reflexivity | rewrite Ee; reflexivity].
Defined.

(** C7 at [after_six]: the window is below 2, and the seventh call is not
    undefined. *)
Lemma C7_witness :
  inmHealthCheckStart Libm.log 1 B64.two false (fun _ => true) initial_state
  = Normal (true, started 1)
  /\ run six_calls (started 1) = Normal after_six
  /\ 0 <= inmPrevBits after_six < 2 ^ 1
  /\ inmHealthCheckAddBit seventh_call after_six <> Undefined.
Proof.
  assert (H1 : inmHealthCheckStart Libm.log 1 B64.two false (fun _ => true) initial_state
               = Normal (true, started 1)) by (vm_compute; reflexivity).
  assert (H2 : run six_calls (started 1) = Normal after_six) by (vm_compute; reflexivity).
  split; [exact H1|]. split; [exact H2|].
  destruct (C7_window_below_table_size _ _ _ _ _ _ _ _ _ H1 H2)
    as (_ & _ & Hwin & _ & _ & _ & _ & Hcall).
  split; [exact Hwin|]. exact (proj2 (proj2 (Hcall seventh_call))).
Defined.

(** C8 at [tolerance_edge]: 65453 units in 78507 bits. *)
Lemma C8_witness :
  1 <= inmNumBitsSampled tolerance_edge < 2 ^ 32
  /\ 0 <= inmNumBitsOfEntropy tolerance_edge < 2 ^ 32
  /\ inmHealthCheckEstimateEntropyPerBit tolerance_edge
     = B64.div (B64.of_uint 65453) (B64.of_uint 78507)
  /\ inmHealthCheckEstimateK Libm.pow tolerance_edge
     = Libm.pow B64.two (inmHealthCheckEstimateEntropyPerBit tolerance_edge).
Proof.
  assert (H1 : 1 <= inmNumBitsSampled tolerance_edge < 2 ^ 32) by (simpl; lia).
  assert (H2 : 0 <= inmNumBitsOfEntropy tolerance_edge < 2 ^ 32) by (simpl; lia).
  split; [exact H1|]. split; [exact H2|].
  destruct (C8_estimateK_is_two_to_the_estimate Libm.pow tolerance_edge H1 H2)
    as (Hest & _ & HK).
  split; [exact Hest|]. exact HK.
Defined.

(** C9 at width 0 and at width 31, from a fresh process. *)
Lemma C9_witness :
  (0 < 1 \/ 30 < 0)
  /\ inmHealthCheckStart Libm.log 0 B64.two false (fun _ => true) initial_state
     = Normal (false, initial_state)
  /\ (31 < 1 \/ 30 < 31)
  /\ inmHealthCheckStart Libm.log 31 B64.two false (fun _ => true) (started 1)
     = Normal (false, started 1).
Proof.
  assert (H0 : 0 < 1 \/ 30 < 0) by (left; lia).
  assert (H31 : 31 < 1 \/ 30 < 31) by (right; lia).
  split; [exact H0|]. split; [exact (C9_start_rejects_bad_width _ _ _ _ _ _ H0)|].
  split; [exact H31|]. exact (C9_start_rejects_bad_width _ _ _ _ _ _ H31).
Defined.

(** C10 at [after_six]: six calls, a total of six bits, seven after the
    seventh call. *)
Lemma C10_witness :
  inmHealthCheckStart Libm.log 1 B64.two false (fun _ => true) initial_state
  = Normal (true, started 1)
  /\ run six_calls (started 1) = Normal after_six
  /\ inmTotalBits after_six = u64 (Z.of_nat (length six_calls))
  /\ inmTotalBits after_seven = u64 (inmTotalBits after_six + 1).
Proof.
  assert (H1 : inmHealthCheckStart Libm.log 1 B64.two false (fun _ => true) initial_state
               = Normal (true, started 1)) by (vm_compute; reflexivity).
  assert (H2 : run six_calls (started 1) = Normal after_six) by (vm_compute; reflexivity).
  assert (H3 : inmHealthCheckAddBit seventh_call after_six = Normal (true, after_seven))
    by (vm_compute; reflexivity).
  split; [exact H1|]. split; [exact H2|].
  destruct (C10_total_bits_counts_calls _ _ _ _ _ _ _ _ _ H1 H2) as (Htot & _ & Hcall & _).
  split; [exact Htot|]. exact (Hcall _ _ _ H3).
Defined.

(** A start with width 1 and every allocation granted succeeds, with tables
    of two zero cells; when only the first two allocations are granted it
    fails, the two blocks are freed and the other two pointers are null. *)
Lemma start_outcome_witness :
  1 <= 1 <= 30
  /\ inmHealthCheckStart Libm.log 1 B64.two false (fun _ => true) initial_state
     = Normal (true, started 1)
  /\ inmOnesEven (started 1) = Block [0; 0]
  /\ exists st,
       inmHealthCheckStart Libm.log 1 B64.two false (fun k => k <? 2)%nat initial_state
       = Normal (false, st)
       /\ inmOnesEven st = Freed /\ inmZerosEven st = Freed
       /\ inmOnesOdd st = Null /\ inmZerosOdd st = Null.
Proof.
  assert (HN : 1 <= 1 <= 30) by lia.
  split; [exact HN|].
  destruct (start_outcome Libm.log 1 B64.two false (fun _ => true) initial_state HN)
    as (st & Hst & Hyes & _).
  assert (Hstarted : started 1 = st) by (unfold started; rewrite Hst; reflexivity).
  split; [rewrite Hstarted; exact Hst|].
  split; [rewrite Hstarted, (Hyes eq_refl); reflexivity|].
  destruct (start_outcome Libm.log 1 B64.two false (fun k => k <? 2)%nat initial_state HN)
    as (st' & Hst' & _ & Hno).
  exists st'. split; [exact Hst' | exact (Hno eq_refl)].
Defined.

(** After the six calls and a clearing, the level is 0 and the next call
    returns true. *)
Lemma calls_and_clearings_witness :
  inmHealthCheckStart Libm.log 1 B64.two false (fun _ => true) initial_state
  = Normal (true, started 1)
  /\ serve_all six_and_clear (started 1) = Normal after_clear
  /\ 0 <= inmGetEntropyLevel after_clear <= INM_MAX_ENTROPY
  /\ (inmHealthCheckAddBit seventh_call after_clear = Exited 1
      \/ exists st', inmHealthCheckAddBit seventh_call after_clear = Normal (true, st')).
Proof.
  assert (H1 : inmHealthCheckStart Libm.log 1 B64.two false (fun _ => true) initial_state
               = Normal (true, started 1)) by (vm_compute; reflexivity).
  assert (H2 : serve_all six_and_clear (started 1) = Normal after_clear)
    by (vm_compute; reflexivity).
  split; [exact H1|]. split; [exact H2|].
  destruct (calls_and_clearings_are_safe _ _ _ _ _ _ _ _ _ H1 H2) as (Hcall & Hlevel & _).
  split; [exact Hlevel | exact (Hcall seventh_call)].
Defined.

(** Six calls: six bits sampled, the guard on runs still off. *)
Lemma sampled_count_witness :
  inmHealthCheckStart Libm.log 1 B64.two false (fun _ => true) initial_state
  = Normal (true, started 1)
  /\ run six_calls (started 1) = Normal after_six
  /\ inmNumBitsSampled after_six = 6
  /\ tracking after_six = false.
Proof.
  assert (H1 : inmHealthCheckStart Libm.log 1 B64.two false (fun _ => true) initial_state
               = Normal (true, started 1)) by (vm_compute; reflexivity).
  assert (H2 : run six_calls (started 1) = Normal after_six) by (vm_compute; reflexivity).
  split; [exact H1|]. split; [exact H2|].
  destruct (sampled_count_after_calls _ _ _ _ _ _ _ _ _ H1 H2) as (Hs & _ & Htr).
  split; [exact Hs | exact Htr].
Defined.

(** The six calls alternate on the even lane: six even misfires, and the
    seventh call stores its lane bits. *)
Lemma misfire_bookkeeping_witness :
  inmHealthCheckStart Libm.log 1 B64.two false (fun _ => true) initial_state
  = Normal (true, started 1)
  /\ run six_calls (started 1) = Normal after_six
  /\ inmEvenMisfires after_six + inmOddMisfires after_six <= inmNumBitsSampled after_six
  /\ inmPrevEven after_seven = true /\ inmPrevOdd after_seven = false.
Proof.
  assert (H1 : inmHealthCheckStart Libm.log 1 B64.two false (fun _ => true) initial_state
               = Normal (true, started 1)) by (vm_compute; reflexivity).
  assert (H2 : run six_calls (started 1) = Normal after_six) by (vm_compute; reflexivity).
  assert (H3 : inmHealthCheckAddBit seventh_call after_six = Normal (true, after_seven))
    by (vm_compute; reflexivity).
  split; [exact H1|]. split; [exact H2|].
  destruct (misfire_bookkeeping _ _ _ _ _ _ _ _ _ H1 H2) as (Hle & Hcall).
  split; [exact Hle|].
  destruct (Hcall _ _ _ H3) as (He & Ho & _). split; [exact He | exact Ho].
Defined.

(** Eight calls on the even lane leave a 1 followed once by 1 and three
    times by 0; the next call reads a 1, the probability becomes a quarter
    and is doubled twice: two entropy units are credited. *)
Lemma entropy_units_witness :
  inmHealthCheckStart Libm.log 1 B64.two false (fun _ => true) initial_state
  = Normal (true, started 1)
  /\ run eight_calls (started 1) = Normal after_eight
  /\ 0 <= inmNumBitsOfEntropy after_eight <= 16 * inmNumBitsSampled after_eight
  /\ exists st' k,
       inmHealthCheckAddBit one_call after_eight = Normal (true, st')
       /\ k = 2 /\ 0 <= k <= 16
       /\ inmNumBitsOfEntropy st' = inmNumBitsOfEntropy after_eight + k
       /\ inmNumBitsOfEntropy st' <= 16 * inmNumBitsSampled st'.
Proof.
  assert (H1 : inmHealthCheckStart Libm.log 1 B64.two false (fun _ => true) initial_state
               = Normal (true, started 1)) by (vm_compute; reflexivity).
  assert (H2 : run eight_calls (started 1) = Normal after_eight) by (vm_compute; reflexivity).
  split; [exact H1|]. split; [exact H2|].
  destruct (entropy_units_bounded _ _ _ _ _ _ _ _ _ H1 H2) as (Hbound & _ & Hcall).
  split; [exact Hbound|].
  destruct (Hcall one_call) as [Hexit | (st' & k & Hc & Hk & Hu & Hle)].
  { vm_compute in Hexit. discriminate. }
  exists st', k. split; [exact Hc|].
  assert (Hst : Normal (true, st') = inmHealthCheckAddBit one_call after_eight)
    by (symmetry; exact Hc).
  vm_compute in Hst. injection Hst as Hst.
  assert (Hunits : inmNumBitsOfEntropy st' = 2) by (rewrite Hst; reflexivity).
  assert (Hsampled : (inmNumBitsSampled after_eight + 1 =? INM_MIN_DATA) = false)
    by (vm_compute; reflexivity).
  rewrite Hsampled in Hu.
  assert (Hzero : inmNumBitsOfEntropy after_eight = 0) by (vm_compute; reflexivity).
  split; [lia|]. split; [exact Hk|]. split; [exact Hu | exact Hle].
Defined.

(** The seventh call reads a 1 in a context that was followed by 1 three
    times and never by 0: nothing is credited.  After [four_calls] a 1 has
    been followed once by 1 and once by 0: the call that reads a 1 credits
    one entropy unit, and the probability is 1.0 as before. *)
Lemma certain_context_witness :
  inmHealthCheckStart Libm.log 1 B64.two false (fun _ => true) initial_state
  = Normal (true, started 1)
  /\ run six_calls (started 1) = Normal after_six
  /\ tbl_get (selected false true after_six) (inmPrevBits (shift_window true after_six))
     = Normal 0
  /\ tbl_get (selected true true after_six) (inmPrevBits (shift_window true after_six))
     = Normal 3
  /\ (exists st',
        inmHealthCheckAddBit seventh_call after_six = Normal (true, st')
        /\ inmCurrentProbability st' = inmCurrentProbability after_six
        /\ inmNumBitsOfEntropy st' = inmNumBitsOfEntropy after_six)
  /\ run four_calls (started 1) = Normal after_four
  /\ tbl_get (selected false true after_four) (inmPrevBits (shift_window true after_four))
     = Normal 1
  /\ tbl_get (selected true true after_four) (inmPrevBits (shift_window true after_four))
     = Normal 1
  /\ (exists st',
        inmHealthCheckAddBit one_call after_four = Normal (true, st')
        /\ inmCurrentProbability st' = inmCurrentProbability after_four
        /\ inmNumBitsOfEntropy st' = inmNumBitsOfEntropy after_four + 1).
Proof.
  assert (H1 : inmHealthCheckStart Libm.log 1 B64.two false (fun _ => true) initial_state
               = Normal (true, started 1)) by (vm_compute; reflexivity).
  assert (H2 : run six_calls (started 1) = Normal after_six) by (vm_compute; reflexivity).
  assert (H4 : tbl_get (selected false true after_six)
                 (inmPrevBits (shift_window true after_six)) = Normal 0)
    by (vm_compute; reflexivity).
  assert (H5 : tbl_get (selected true true after_six)
                 (inmPrevBits (shift_window true after_six)) = Normal 3)
    by (vm_compute; reflexivity).
  assert (G2 : run four_calls (started 1) = Normal after_four) by (vm_compute; reflexivity).
  assert (G4 : tbl_get (selected false true after_four)
                 (inmPrevBits (shift_window true after_four)) = Normal 1)
    by (vm_compute; reflexivity).
  assert (G5 : tbl_get (selected true true after_four)
                 (inmPrevBits (shift_window true after_four)) = Normal 1)
    by (vm_compute; reflexivity).
  split; [exact H1|]. split; [exact H2|]. split; [exact H4|]. split; [exact H5|].
  split; [|split; [exact G2|]; split; [exact G4|]; split; [exact G5|]].
  - destruct (certain_and_even_contexts _ _ _ _ _ _ _ _ _ seventh_call 0 3 H1 H2 H4 H5)
      as [Hexit | (st' & Hc & Hcertain & _)].
    { vm_compute in Hexit. discriminate. }
    exists st'. split; [exact Hc|]. exact (Hcertain eq_refl).
  - destruct (certain_and_even_contexts _ _ _ _ _ _ _ _ _ one_call 1 1 H1 G2 G4 G5)
      as [Hexit | (st' & Hc & _ & Heven)].
    { vm_compute in Hexit. discriminate. }
    exists st'. split; [exact Hc|]. apply Heven; [reflexivity | vm_compute; discriminate].
Defined.

(** Started with a NaN for the gain, the engine runs and never validates. *)
Lemma gain_without_logarithm_witness :
  inmHealthCheckStart Libm.log 1 S754_nan false (fun _ => true) initial_state
  = Normal (true, started_on_nan)
  /\ run six_calls started_on_nan = Normal six_after_nan
  /\ is_nan (B64.div (Libm.log S754_nan) (Libm.log B64.two)) = true
  /\ inmHealthCheckOkToUseData six_after_nan = false
  /\ inmGetEntropyLevel six_after_nan = 0.
Proof.
  assert (H1 : inmHealthCheckStart Libm.log 1 S754_nan false (fun _ => true) initial_state
               = Normal (true, started_on_nan)) by (vm_compute; reflexivity).
  assert (H2 : run six_calls started_on_nan = Normal six_after_nan)
    by (vm_compute; reflexivity).
  assert (H3 : is_nan (B64.div (Libm.log S754_nan) (Libm.log B64.two)) = true)
    by (vm_compute; reflexivity).
  split; [exact H1|]. split; [exact H2|]. split; [exact H3|].
  exact (gain_without_logarithm_never_validates _ _ _ _ _ _ _ _ _ H1 H2 H3).
Defined.

Lemma estimate_defined_witness :
  inmHealthCheckStart Libm.log 1 B64.two false (fun _ => true) initial_state
  = Normal (true, started 1)
  /\ run six_calls (started 1) = Normal after_six
  /\ B64.is_finite (inmHealthCheckEstimateEntropyPerBit after_six) = true.
Proof.
  assert (H1 : inmHealthCheckStart Libm.log 1 B64.two false (fun _ => true) initial_state
               = Normal (true, started 1)) by (vm_compute; reflexivity).
  assert (H2 : run six_calls (started 1) = Normal after_six) by (vm_compute; reflexivity).
  split; [exact H1|]. split; [exact H2|].
  destruct (estimate_defined_from_first_call _ _ _ _ _ _ _ _ _ H1 H2) as (_ & Hfin & _).
  apply Hfin. discriminate.
Defined.

(** No entropy for 100 bits is not on target; 8 bits of entropy for no bits
    are. *)
Lemma entropyOnTarget_witness :
  0 <= 8 < 2 ^ 32 /\ 0 <= 100 < 2 ^ 32
  /\ inmEntropyOnTarget 0 100 after_six <> Normal true
  /\ inmEntropyOnTarget 8 0 after_six = Normal true.
Proof.
  assert (H1 : 0 <= 8 < 2 ^ 32) by lia.
  assert (H2 : 0 <= 100 < 2 ^ 32) by lia.
  split; [exact H1|]. split; [exact H2|].
  destruct (entropyOnTarget_edges 8 100 after_six H1 H2) as (_ & Hzero & Hnone).
  split; [exact Hzero|]. apply Hnone. vm_compute. reflexivity.
Defined.

Lemma totals_bookkeeping_witness :
  inmHealthCheckStart Libm.log 1 B64.two false (fun _ => true) initial_state
  = Normal (true, started 1)
  /\ run six_calls (started 1) = Normal after_six
  /\ inmTotalOnes after_six = 0 /\ inmTotalZeros after_six = 0.
Proof.
  assert (H1 : inmHealthCheckStart Libm.log 1 B64.two false (fun _ => true) initial_state
               = Normal (true, started 1)) by (vm_compute; reflexivity).
  assert (H2 : run six_calls (started 1) = Normal after_six) by (vm_compute; reflexivity).
  split; [exact H1|]. split; [exact H2|].
  destruct (totals_bookkeeping _ _ _ _ _ _ _ _ _ H1 H2) as (_ & _ & Hearly & _).
  apply Hearly. vm_compute. discriminate.
Defined.

(** After the six calls the even lane has six counts: with one bit of
    context every guess is right, with none half of them are. *)
Lemma diagnostics_witness :
  inmHealthCheckStart Libm.log 1 B64.two false (fun _ => true) initial_state
  = Normal (true, started 1)
  /\ run six_calls (started 1) = Normal after_six
  /\ 1 <= 17
  /\ checkLSBStatsForNBits 1 after_six = Normal (6, 6)
  /\ checkLSBStatsForNBits 0 after_six = Normal (3, 6)
  /\ checkLSBStats after_six = Normal [(6, 6)].
Proof.
  assert (H1 : inmHealthCheckStart Libm.log 1 B64.two false (fun _ => true) initial_state
               = Normal (true, started 1)) by (vm_compute; reflexivity).
  assert (H2 : run six_calls (started 1) = Normal after_six) by (vm_compute; reflexivity).
  assert (H3 : 1 <= 17) by lia.
  split; [exact H1|]. split; [exact H2|]. split; [exact H3|].
  destruct (diagnostics_guess_at_least_half _ _ _ _ _ _ _ _ _ H1 H2 H3) as (Hn & Hall).
  split; [exact (proj1 (Hn 1 ltac:(lia)))|].
  split; [exact (proj1 (Hn 0 ltac:(lia)))|]. exact Hall.
Defined.

(** Six alternating calls on a width of 3: the last three bits are 0, 1, 0
    from the most recent, so the seventh call looks up index 2. *)
Lemma context_witness :
  inmHealthCheckStart Libm.log 3 B64.two false (fun _ => true) initial_state
  = Normal (true, started 3)
  /\ run six_calls (started 3) = Normal six_on_three
  /\ inmPrevBit six_on_three = false
  /\ inmPrevBits (shift_window (call_bit seventh_call) (note_lanes seventh_call six_on_three))
     = 2.
Proof.
  assert (H1 : inmHealthCheckStart Libm.log 3 B64.two false (fun _ => true) initial_state
               = Normal (true, started 3)) by (vm_compute; reflexivity).
  assert (H2 : run six_calls (started 3) = Normal six_on_three) by (vm_compute; reflexivity).
  split; [exact H1|]. split; [exact H2|].
  destruct (context_is_the_last_bits _ _ _ _ _ _ _ _ _ H1 H2) as (Hb & _ & Hi).
  split; [exact Hb | exact (Hi seventh_call)].
Defined.

(** Six alternating calls on a width of 3: of the three calls that ingested
    1, two followed the bits 0, 1, 0 (index 2), and of the three that
    ingested 0, two followed the bits 1, 0, 1 (index 5). *)
Lemma tables_count_witness :
  inmHealthCheckStart Libm.log 3 B64.two false (fun _ => true) initial_state
  = Normal (true, started 3)
  /\ run six_calls (started 3) = Normal six_on_three
  /\ cell (inmOnesEven six_on_three) 2 = 2
  /\ cell (inmZerosEven six_on_three) 5 = 2.
Proof.
  assert (H1 : inmHealthCheckStart Libm.log 3 B64.two false (fun _ => true) initial_state
               = Normal (true, started 3)) by (vm_compute; reflexivity).
  assert (H2 : run six_calls (started 3) = Normal six_on_three) by (vm_compute; reflexivity).
  assert (H3 : Z.of_nat (length six_calls) < INM_MAX_COUNT) by (vm_compute; reflexivity).
  split; [exact H1|]. split; [exact H2|].
  destruct (tables_count_exactly _ _ _ _ _ _ _ _ _ H1 H2 H3 2 ltac:(lia)) as (Ho & _).
  destruct (tables_count_exactly _ _ _ _ _ _ _ _ _ H1 H2 H3 5 ltac:(lia)) as (_ & Hz & _).
  split; [rewrite Ho | rewrite Hz]; vm_compute; reflexivity.
Defined.

(** After a start and six calls a stop frees the four tables and a second
    stop is undefined; a start in which only the first block is granted
    fails, and the stop that follows it is undefined. *)
Lemma stop_witness :
  inmHealthCheckStart Libm.log 1 B64.two false (fun _ => true) initial_state
  = Normal (true, started 1)
  /\ run six_calls (started 1) = Normal after_six
  /\ inmHealthCheckStop after_six = Normal (with_tables Freed Freed Freed Freed after_six)
  /\ (s ← inmHealthCheckStop after_six; inmHealthCheckStop s) = Undefined
  /\ exists st',
       inmHealthCheckStart Libm.log 1 B64.two false (fun k => k <? 1)%nat after_six
       = Normal (false, st')
       /\ inmHealthCheckStop st' = Undefined.
Proof.
  assert (H1 : inmHealthCheckStart Libm.log 1 B64.two false (fun _ => true) initial_state
               = Normal (true, started 1)) by (vm_compute; reflexivity).
  assert (H2 : run six_calls (started 1) = Normal after_six) by (vm_compute; reflexivity).
  split; [exact H1|]. split; [exact H2|].
  destruct (stop_frees_once _ _ _ _ _ _ _ _ _ H1 H2) as (_ & Hstop & Hagain & Hfailed).
  split; [exact Hstop|]. split; [rewrite Hstop, bind_Normal; exact Hagain|].
  eexists. split; [vm_compute; reflexivity|].
  apply (Hfailed (fun k => k <? 1)%nat); vm_compute; reflexivity.
Defined.
